(* ===== verification/_CoqProject ===== *)
-Q . S2P
Prelude.v
Core.v
Fips180.v
Sha256.v
TokenPlan.v
Sequence.v
TokenMetadata.v
BurstCredits.v
Mailbox.v
RequestArena.v
RequestDigest.v
Ingress.v
Scheduler.v
SchedulerPolicy.v
Runtime.v
RuntimeErrors.v
RuntimeInv.v
RuntimePrepare.v
RuntimeBatch.v
RuntimeComplete.v
RuntimeMachine.v
RuntimeCount.v
RuntimeKeeps.v
RuntimeProps.v
ControllerAbi.v
Provider.v
Client.v
Wire.v
PlanWire.v
Link.v
Service.v
KvPool.v
KvPoolInv.v
KvPoolProps.v
KvTable.v
KvLease.v
KvRecycler.v
KvMetadata.v
PackedBatch.v
PackedDriver.v
PackedDriverProps.v
KvCoordinator.v
KvCoordinatorProps.v
