(* ===== verification/Prelude.v ===== *)
(** * PIH execution core: a verification development

    ** The program

    PIH is an inference server in C++.  This development covers its execution core: the
    controller that admits requests, schedules them and accounts for their tokens, the
    C interface through which a model plugin uses the controller, and, on the model
    side, the management of the KV blocks of the Qwen model and the driver that runs
    the controller's plans as packed batches.  A request travels as follows.

    - A producer submits a request through [ControllerClient]; the provider hands it to
      [ControllerRuntime], whose ingress stores the prompt in the request arena and
      queues a command in the mailbox.
    - [step] takes the command, asks the admission participant (the KV admission
      coordinator) to reserve blocks, creates the sequence, lets the participant
      publish, and reports the admission.
    - [prepare_next_plan] asks the scheduler for a batch, materialises its metadata and
      takes an output credit; the plan is committed, marked in flight, executed by the
      packed driver and completed with the sampled tokens, which become events.
    - The client takes the events and acknowledges the plan; a sequence that ended is
      drained and its blocks are cleared for the next request.

    ** Files

    - [Prelude]: record update, vectors ([l.[i]], [l.[i <- x]]), 32 and 64 bit wrap
      around, the classes [Machine], [MachineInv] and [Refines] for components as state
      machines, tactics and hints.
    - [Core]: [include/pih/core] status.h, result.h, checked_math.h.
    - [Fips180]: the hash function of FIPS 180-4, from the text of the standard (logical
      functions bit by bit, constants from the roots of the primes) and sharing nothing
      with the code; [Sha256]: sha256.h and sha256.cpp, which compute it.
    - [TokenPlan], [Sequence], [TokenMetadata], [BurstCredits], [Mailbox],
      [RequestArena], [RequestDigest], [Ingress]: the classes of the same names in
      [include/pih/model], [include/pih/scheduler] and [plugins/execution-default].
    - [Scheduler]: phase_tier_scheduler.h and .cpp; [SchedulerPolicy]: the policy it
      implements, without its preallocated vectors.
    - [Runtime]: controller_runtime.h and .cpp, every member function.
      [RuntimeErrors], [RuntimeInv], [RuntimePrepare], [RuntimeBatch],
      [RuntimeComplete], [RuntimeMachine], [RuntimeCount], [RuntimeKeeps]: its
      invariant, operation by operation; [RuntimeProps]: what follows for the life of
      a plan.
    - [ControllerAbi]: contracts/execution_controller_v1.h and plugin_sdk/status.h;
      [Provider]: controller_provider.cpp; [Client]: controller_client.h and .cpp;
      [Wire], [PlanWire]: values survive the wire; [Link]: a client over any provider
      that serves a runtime; [Service]: the provider does, for several clients.
    - [KvPool], [KvPoolInv], [KvPoolProps]: qwen3_kv_slot_pool.h and .cpp, the
      invariant, and what holds of every block in every sequence of calls.
    - [KvTable]: qwen3_kv_block_table, qwen3_kv_sequence_lease and
      qwen3_kv_admission_transaction; [KvLease]: several leases on one pool.
    - [KvRecycler]: qwen3_bf16_kv_startup.cpp and qwen3_bf16_kv_recycler.
    - [KvMetadata]: qwen3_bf16_packed_kv_metadata; [PackedBatch]:
      qwen3_bf16_packed_batch_transaction; [PackedDriver], [PackedDriverProps]:
      controller_packed_driver; [KvCoordinator], [KvCoordinatorProps]:
      qwen_kv_admission_coordinator.

    ** How the code is read

    A class is a record of its members and a member function a function that returns its
    result with the new record; [Status] and [Result] are values, and an early return is
    a branch.  Unsigned integers are [Z] with the wrap around of their width written at
    every sum that can reach it, and a signed time is a [Z].  A vector that is allocated
    once and indexed is a list of fixed length.  A 64 bit floating-point or [float]
    value is its bit pattern.  Loops are structural recursion over the data they
    traverse, or over a counter that starts at the number of iterations, so that no
    result depends on fuel running out.  A mutex makes a call one step; where the code
    releases the mutex between two parts of a call, the parts are separate steps of the
    machine and the theorems hold for every interleaving.  The calling thread is an
    argument [self] where the code asks for it.

    Pointers into a component's memory are offsets ([Span]) that are read when the code
    reads them, so that aliasing is visible; the block tables that the coordinator, the
    driver and the batch transaction share live in one memory, [table_memory].

    Code behind an interface is a parameter: the sorting of the scheduler (any sorting
    of the strict key), the function table of the controller capability, the admission
    participant, the packed backend, the recycler of a drain and the device that clears
    memory.  The theorems hold for every value of these, except where a hypothesis is
    stated: the device works ([release_recycle_restores]); the backend keeps the
    identity of the tables, which have no operation that changes it
    ([admission_two_phase], [drain_never_succeeds]).  The calls of the coordinator drain
    through the synchronous recycler, the one implementation in the sources.
    Properties that rest on SHA-256 say that two inputs with
    one digest are equal or are a collision.

    Bounds that the code does not check and the theorems assume: the capacities of the
    mailbox are at most [2^31] (above, the 32-bit tail of a ring can wrap and overwrite
    an entry, [ring_push_overwrites]); the other limits are only taken to be of their
    C++ types.

    ** What the theorems show

    - The provider and its clients: any interleaving of calls of several clients gives
      each the results of its own runtime; handles are created soundly and closed
      exactly when the runtime has no work left.
    - The runtime: its invariant; preparation and abortion of a plan are all or nothing;
      a completion is refused, applied as a whole, or stops the runtime, and when it can
      stop it; a prepared plan runs; when a commit is refused; no call builds a
      [Result] from an OK status.
    - The parts of the runtime: the hasher, the mailbox, the request arena and the
      credits refine their specifications; the scheduler implements its policy; plans,
      metadata and digests are what the inputs determine; the sequence ledger.
    - The KV blocks: the life cycle; a block that is handed out is cleared; a handle
      that was given back is dead; leases do not share blocks; the rows of a batch
      write distinct cells; release and recycling end and restore the blocks.
    - Packed execution: a batch is committed in full or not at all; every sampled token
      is delivered once, with its receipt; admission through the coordinator is
      two-phase, and a reservation that is taken back costs its sequence number.
    - Defects: a prefill chunk that samples nothing poisons the driver; a packed
      sequence can never be drained; an admission while a completion is pending fails
      the runtime; a cancel of a prepared plan blocks it.

    ** Not modelled

    The device side of the Qwen plugin (kernels, command buffers, streams, weights) is
    CUDA work behind the backend interface.  The engine classes and generation loops of
    the plugin are glue of CUDA resources, locks and clocks over the modelled classes.
    The DeepSeek plugins, the supervision of processes, the profiles and their
    signatures, the microkernel that loads plugins, the HTTP surfaces, the platform,
    storage and memory plugins and the offline tools are other programs of the
    repository: they work on processes, files, sockets, shared libraries and
    floating-point data, and share with this core only the utilities in [Core] and
    [Sha256].  Allocation failure, move construction and destructors are not modelled;
    the member functions of the modelled classes are. *)

From stdpp Require Export base tactics list option numbers strings relations.
From Stdlib Require Export ZArith Lia Bool.

Declare Scope pih_scope.
Delimit Scope pih_scope with pih.
#[global] Open Scope Z_scope.
#[global] Open Scope pih_scope.

(** ** Functional record update

    [r <| f := v |>] is the record [r] with field [f] replaced, the functional
    reading of the assignment [r.f = v].  A record declares its expanded form
    once, as an instance of [Eta]; the setter of each field is derived from it
    by [derive_upd]. *)
Class Eta (R : Type) := eta : R -> R.

Class Upd {R F : Type} (proj : R -> F) := upd : (F -> F) -> R -> R.

Ltac derive_upd :=
  lazymatch goal with
  | |- @Upd ?R ?F ?proj =>
      let inst := constr:(_ : Eta R) in
      let body := eval hnf in inst in
      let t := constr:(fun (g : F -> F) (r : R) => ltac:(
        let b := eval cbv beta in (body r) in
        let h := eval pattern (proj r) in b in
        lazymatch h with
        | ?H _ => let t := eval cbv beta in (H (g (proj r))) in exact t
        end)) in
      let t := eval cbv beta in t in
      exact t
  end.

#[export] Hint Extern 1 (Upd _) => derive_upd : typeclass_instances.

Notation "r <| f := v |>" := (upd (proj := f) (fun _ => v) r)
  (at level 1, f at level 0, left associativity,
   format "r  <|  f  :=  v  |>") : pih_scope.

(** ** Machine integers

    A [std::uint64_t], [std::uint32_t] or [std::int64_t] is a [Z]; arithmetic
    that can leave the type wraps with [wrap64] and [wrap32]. *)
Abbreviation u32_max := 4294967295.
Abbreviation u64_max := 18446744073709551615.

Definition wrap32 (z : Z) : Z := z mod 4294967296.
Definition wrap64 (z : Z) : Z := z mod 18446744073709551616.

Definition is_u32 (z : Z) : Prop := 0 <= z <= u32_max.
Definition is_u64 (z : Z) : Prop := 0 <= z <= u64_max.

Lemma wrap32_id z : is_u32 z -> wrap32 z = z.
Proof. unfold is_u32, wrap32. intros. apply Z.mod_small. lia. Qed.

Lemma wrap64_id z : is_u64 z -> wrap64 z = z.
Proof. unfold is_u64, wrap64. intros. apply Z.mod_small. lia. Qed.

Lemma wrap32_range z : is_u32 (wrap32 z).
Proof. unfold is_u32, wrap32. pose proof (Z.mod_pos_bound z 4294967296). lia. Qed.

Lemma wrap64_range z : is_u64 (wrap64 z).
Proof.
  unfold is_u64, wrap64. pose proof (Z.mod_pos_bound z 18446744073709551616). lia.
Qed.

Lemma wrap64_max : wrap64 (u64_max + 1) = 0.
Proof. reflexivity. Qed.

(** ** Vectors

    A [std::vector], [std::array] or [std::span] is a list.  [v.[i]] is the
    unchecked [operator[]]; the bounds lemmas say where it is in range. *)
Definition vsize {A} (l : list A) : Z := Z.of_nat (length l).
Definition vat {A} `{Inhabited A} (l : list A) (i : Z) : A := l !!! Z.to_nat i.
Definition vput {A} (l : list A) (i : Z) (x : A) : list A := <[Z.to_nat i := x]> l.

Notation "l .[ i ]" := (vat l i) (at level 1, i at level 200, format "l .[ i ]") : pih_scope.
Notation "l .[ i <- x ]" := (vput l i x)
  (at level 1, i at level 200, x at level 200, format "l .[ i  <-  x ]") : pih_scope.

Lemma vsize_nonneg {A} (l : list A) : 0 <= vsize l.
Proof. unfold vsize. lia. Qed.

Lemma vsize_vput {A} (l : list A) i x : vsize (vput l i x) = vsize l.
Proof. unfold vsize, vput. by rewrite length_insert. Qed.

Lemma vat_lookup {A} `{Inhabited A} (l : list A) i :
  0 <= i < vsize l -> l !! Z.to_nat i = Some (l.[i]).
Proof.
  unfold vsize, vat. intros. apply list_lookup_lookup_total_lt. lia.
Qed.

Lemma vat_vput_eq {A} `{Inhabited A} (l : list A) i x :
  0 <= i < vsize l -> (l.[i <- x]).[i] = x.
Proof.
  unfold vsize, vat, vput. intros. apply list_lookup_total_insert_eq. lia.
Qed.

Lemma vat_vput_ne {A} `{Inhabited A} (l : list A) i j x :
  0 <= i -> 0 <= j -> i <> j -> (l.[i <- x]).[j] = l.[j].
Proof.
  unfold vat, vput. intros. apply list_lookup_total_insert_ne. lia.
Qed.

(** [std::memcpy], [std::copy] or [std::fill_n] into a vector: overwrite the
    range of [src]'s length that starts at [at_]. *)
Definition splice {A} (buf : list A) (at_ : Z) (src : list A) : list A :=
  take (Z.to_nat at_) buf ++ src ++ drop (Z.to_nat at_ + length src) buf.

Lemma length_splice {A} (buf : list A) at_ src :
  0 <= at_ -> (Z.to_nat at_ + length src <= length buf)%nat ->
  length (splice buf at_ src) = length buf.
Proof.
  intros. unfold splice. rewrite !length_app, length_take, length_drop. lia.
Qed.

(** The prefix of a buffer up to the end of a spliced range. *)
Lemma take_splice {A} (buf : list A) at_ src :
  (Z.to_nat at_ <= length buf)%nat ->
  take (Z.to_nat at_ + length src) (splice buf at_ src) = take (Z.to_nat at_) buf ++ src.
Proof.
  intros. unfold splice. rewrite app_assoc. apply take_app_length'.
  rewrite length_app, length_take. lia.
Qed.

(** Writing one element, then the elements after it. *)
Lemma splice_nil {A} (buf : list A) at_ : splice buf at_ [] = buf.
Proof. unfold splice. cbn. rewrite Nat.add_0_r. apply take_drop. Qed.

Lemma splice_cons {A} (buf : list A) at_ x xs :
  0 <= at_ < vsize buf ->
  splice (vput buf at_ x) (at_ + 1) xs = splice buf at_ (x :: xs).
Proof.
  intros H. unfold splice, vput, vsize in *.
  replace (Z.to_nat (at_ + 1)) with (S (Z.to_nat at_)) by lia.
  rewrite (take_S_r _ _ x) by (apply list_lookup_insert_eq; lia).
  rewrite take_insert_ge by lia. rewrite <- app_assoc. cbn [app length].
  do 3 f_equal. rewrite drop_insert_lt by lia. f_equal. lia.
Qed.

(** Two adjacent ranges are one range. *)
Lemma splice_app {A} (buf : list A) at_ xs ys :
  0 <= at_ -> at_ + vsize xs <= vsize buf ->
  splice (splice buf at_ xs) (at_ + vsize xs) ys = splice buf at_ (xs ++ ys).
Proof.
  revert buf at_. induction xs as [|x xs IH]; intros buf at_ H0 H1.
  - by rewrite splice_nil, Z.add_0_r.
  - assert (Hs : vsize (x :: xs) = 1 + vsize xs) by (unfold vsize; cbn; lia).
    rewrite Hs in *. pose proof (vsize_nonneg xs). cbn [app].
    rewrite <- !splice_cons by lia. rewrite Z.add_assoc. apply IH; [lia|].
    rewrite vsize_vput. lia.
Qed.

Lemma vsize_splice {A} (buf : list A) at_ src :
  0 <= at_ -> at_ + vsize src <= vsize buf -> vsize (splice buf at_ src) = vsize buf.
Proof. unfold vsize. intros. rewrite length_splice; lia. Qed.

Lemma splice_one {A} (buf : list A) at_ x :
  0 <= at_ < vsize buf -> vput buf at_ x = splice buf at_ [x].
Proof. intros. by rewrite <- splice_cons, splice_nil. Qed.

(** The front of a buffer overwritten from its start. *)
Lemma take_splice_0 {A} (buf src : list A) n :
  n = length src -> take n (splice buf 0 src) = src.
Proof.
  intros ->. unfold splice. change (Z.to_nat 0) with 0%nat. rewrite take_0. cbn [app].
  apply take_app_length.
Qed.

Lemma splice_lookup {A} (buf : list A) at_ src (k : nat) :
  0 <= at_ -> at_ + vsize src <= vsize buf ->
  splice buf at_ src !! k =
  if (Z.to_nat at_ <=? k)%nat && (k <? Z.to_nat at_ + length src)%nat
  then src !! (k - Z.to_nat at_)%nat else buf !! k.
Proof.
  unfold splice, vsize. intros H0 H1.
  destruct (Nat.leb_spec (Z.to_nat at_) k) as [Hk|Hk]; cbn [andb].
  - rewrite lookup_app_r by (rewrite length_take; lia). rewrite length_take, Nat.min_l by lia.
    destruct (Nat.ltb_spec k (Z.to_nat at_ + length src)).
    + rewrite lookup_app_l by lia. done.
    + rewrite lookup_app_r by lia. rewrite lookup_drop. f_equal. lia.
  - rewrite lookup_app_l by (rewrite length_take; lia). by rewrite lookup_take_lt.
Qed.

Lemma vsize_app {A} (l k : list A) : vsize (l ++ k) = vsize l + vsize k.
Proof. unfold vsize. rewrite length_app. lia. Qed.

Lemma vsize_cons {A} (x : A) l : vsize (x :: l) = 1 + vsize l.
Proof. unfold vsize. cbn. lia. Qed.

Lemma vsize_replicate {A} n (x : A) : vsize (replicate n x) = Z.of_nat n.
Proof. unfold vsize. by rewrite length_replicate. Qed.

Lemma vsize_map {A B} (f : A -> B) l : vsize (map f l) = vsize l.
Proof. unfold vsize. by rewrite length_map. Qed.

Lemma vat_map {A B} `{Inhabited A, Inhabited B} (f : A -> B) l i :
  0 <= i < vsize l -> (map f l).[i] = f (l.[i]).
Proof.
  intros Hi. unfold vat at 1. apply list_lookup_total_correct.
  by rewrite list_lookup_fmap, (vat_lookup _ _ Hi).
Qed.

Lemma vat_cons {A} `{Inhabited A} (x : A) l i : 0 < i -> (x :: l).[i] = l.[i - 1].
Proof. intros Hi. unfold vat. by replace (Z.to_nat i) with (S (Z.to_nat (i - 1))) by lia. Qed.

Lemma nonempty_vsize {A} (l : list A) : vsize l <> 0 -> l <> [].
Proof. by destruct l. Qed.

Lemma filter_ext_in {A} (P Q : A -> Prop) `{!forall x, Decision (P x), !forall x, Decision (Q x)} (l : list A) :
  (forall x, x ∈ l -> P x <-> Q x) -> filter P l = filter Q l.
Proof.
  induction l as [|x l IH]; intros Hx; [done|]. rewrite !filter_cons.
  pose proof (Hx x ltac:(by left)). rewrite IH by (intros; apply Hx; by right).
  repeat case_decide; tauto.
Qed.

(** A scan for the first element that satisfies a test, and [std::count_if]. *)
Fixpoint first_index {A} (f : A -> bool) (l : list A) (i : Z) : option Z :=
  match l with
  | [] => None
  | x :: l => if f x then Some i else first_index f l (i + 1)
  end.

Fixpoint count_if {A} (f : A -> bool) (l : list A) : Z :=
  match l with
  | [] => 0
  | x :: l => Z.b2z (f x) + count_if f l
  end.

Lemma first_index_Some {A} `{Inhabited A} (f : A -> bool) : forall l i j,
  first_index f l i = Some j ->
  i <= j < i + vsize l /\ f (l.[j - i]) = true /\
  (forall k, i <= k < j -> f (l.[k - i]) = false).
Proof.
  induction l as [|x l IH]; intros i j E; cbn in E; [done|]. rewrite vsize_cons.
  pose proof (vsize_nonneg l). destruct (f x) eqn:Ef.
  - injection E as <-. split_and!; [lia..| |lia]. by rewrite Z.sub_diag.
  - apply IH in E as (Hj & Hf & Hb). split_and!; [lia..| |].
    + unfold vat in *. replace (Z.to_nat (j - i)) with (S (Z.to_nat (j - (i + 1)))) by lia. done.
    + intros k Hk. destruct (decide (k = i)) as [->|]; [by rewrite Z.sub_diag|].
      specialize (Hb k ltac:(lia)). unfold vat in *.
      replace (Z.to_nat (k - i)) with (S (Z.to_nat (k - (i + 1)))) by lia. done.
Qed.

Lemma first_index_None {A} (f : A -> bool) : forall l i,
  first_index f l i = None <-> Forall (fun x => f x = false) l.
Proof.
  induction l as [|x l IH]; intros i; cbn; [by split|].
  rewrite Forall_cons, <- (IH (i + 1)). destruct (f x); naive_solver.
Qed.

Lemma count_if_bounds {A} (f : A -> bool) l : 0 <= count_if f l <= vsize l.
Proof. induction l; [done|]. rewrite vsize_cons. cbn. destruct (f a); cbn; lia. Qed.

Lemma count_if_0 {A} (f : A -> bool) l :
  count_if f l = 0 <-> Forall (fun x => f x = false) l.
Proof.
  induction l as [|x l IH]; cbn; [by split|]. rewrite Forall_cons, <- IH.
  pose proof (count_if_bounds f l). destruct (f x); cbn; intuition (congruence || lia).
Qed.

Lemma count_if_vput {A} `{Inhabited A} (f : A -> bool) : forall l i x,
  0 <= i < vsize l ->
  count_if f (l.[i <- x]) = count_if f l - Z.b2z (f (l.[i])) + Z.b2z (f x).
Proof.
  unfold vat, vput. intros l i x Hi. assert (Hn : (Z.to_nat i < length l)%nat)
    by (unfold vsize in Hi; lia).
  generalize dependent (Z.to_nat i). clear i Hi.
  induction l as [|y l IH]; intros [|n] Hn; cbn in Hn; [lia..| |].
  - change (Z.b2z (f x) + count_if f l = Z.b2z (f y) + count_if f l - Z.b2z (f y) + Z.b2z (f x)). lia.
  - change (Z.b2z (f y) + count_if f (<[n:=x]> l)
            = Z.b2z (f y) + count_if f l - Z.b2z (f (l !!! n)) + Z.b2z (f x)).
    rewrite IH by lia. lia.
Qed.

Lemma count_if_vat {A} `{Inhabited A} (f : A -> bool) l l' :
  vsize l = vsize l' -> (forall i, 0 <= i < vsize l -> f (l.[i]) = f (l'.[i])) ->
  count_if f l = count_if f l'.
Proof.
  revert l'. induction l as [|x l IH]; intros [|y l'] Hs Hf; try done.
  assert (Hl : vsize l = vsize l') by (rewrite !vsize_cons in Hs; lia). pose proof (vsize_nonneg l).
  cbn. rewrite vsize_cons in Hf. rewrite (Hf 0 ltac:(lia) : f x = f y). f_equal. apply IH; [done|].
  intros i Hi. specialize (Hf (i + 1) ltac:(lia)). rewrite !vat_cons in Hf by lia.
  by replace (i + 1 - 1) with i in Hf by lia.
Qed.

Lemma vat_vput {A} `{Inhabited A} (l : list A) i j x :
  0 <= i < vsize l -> 0 <= j -> (l.[i <- x]).[j] = if j =? i then x else l.[j].
Proof.
  intros Hi Hj. destruct (Z.eqb_spec j i) as [->|]; [by apply vat_vput_eq|].
  apply vat_vput_ne; lia.
Qed.

Lemma vat_In {A} `{Inhabited A} (l : list A) i : 0 <= i < vsize l -> In (l.[i]) l.
Proof. intros Hi. apply list_elem_of_In, list_elem_of_lookup. eexists. by apply vat_lookup. Qed.

Lemma In_vat {A} `{Inhabited A} (l : list A) x :
  In x l -> exists i, 0 <= i < vsize l /\ l.[i] = x.
Proof.
  intros (i & Hi)%list_elem_of_In%list_elem_of_lookup. exists (Z.of_nat i).
  pose proof (lookup_lt_Some _ _ _ Hi). unfold vsize, vat. rewrite Nat2Z.id.
  split; [lia|]. by apply list_lookup_total_correct.
Qed.

(** ** Tactics

    [bcase] splits on the outermost test of the goal, keeping the test as a
    boolean equation that [lia] reads; [bcase_in H] does so in a hypothesis. *)
Ltac bcase :=
  match goal with
  | |- context [if ?b then _ else _] =>
      lazymatch b with
      | context [if _ then _ else _] => fail
      | _ => destruct b eqn:?
      end
  | |- context [match ?x with _ => _ end] =>
      lazymatch x with
      | context [match _ with _ => _ end] => fail
      | _ => destruct x eqn:?
      end
  end.

Ltac bcase_in H :=
  match type of H with
  | context [if ?b then _ else _] =>
      lazymatch b with
      | context [if _ then _ else _] => fail
      | _ => destruct b eqn:?
      end
  | context [match ?x with _ => _ end] =>
      lazymatch x with
      | context [match _ with _ => _ end] => fail
      | _ => destruct x eqn:?
      end
  end.

(** [breflect] turns the boolean tests left by [bcase] into propositions. *)
Ltac breflect :=
  repeat match goal with
  | H : _ || _ = false |- _ => apply orb_false_iff in H as [? ?]
  | H : _ && _ = true |- _ => apply andb_true_iff in H as [? ?]
  | H : negb _ = true |- _ => apply negb_true_iff in H
  | H : negb _ = false |- _ => apply negb_false_iff in H
  | H : (_ =? _) = true |- _ => apply Z.eqb_eq in H
  | H : (_ =? _) = false |- _ => apply Z.eqb_neq in H
  | H : (_ <? _) = true |- _ => apply Z.ltb_lt in H
  | H : (_ <? _) = false |- _ => apply Z.ltb_ge in H
  | H : (_ <=? _) = true |- _ => apply Z.leb_le in H
  | H : (_ <=? _) = false |- _ => apply Z.leb_gt in H
  | H : bool_decide _ = true |- _ => apply bool_decide_eq_true_1 in H
  | H : bool_decide _ = false |- _ => apply bool_decide_eq_false_1 in H
  end.

(** ** Components as machines

    A component is a state with a set of operations: [m_run] is one call, with
    its result; [m_typed] says that the arguments are values of their C++ types;
    [m_init] holds of freshly created states.  The class gives every component
    its step relation, reachability and traces, and [MachineInv] the rule that
    an invariant kept by each operation holds of every reachable state. *)
Class Typed (Op : Type) := m_typed : Op -> Prop.
#[export] Hint Mode Typed ! : typeclass_instances.

Class Machine (St Op Res : Type) `{Typed Op} := {
  m_run : St -> Op -> Res * St;
  m_init : St -> Prop }.
#[export] Hint Mode Machine ! - - - : typeclass_instances.

Section Machine.
Context {St Op Res : Type} `{Typed Op, !Machine St Op Res}.

Definition m_step (s s' : St) : Prop := exists op, m_typed op /\ s' = snd (m_run s op).

Definition m_reachable (s : St) : Prop := exists s0, m_init s0 /\ rtc m_step s0 s.

(** The results of a sequence of calls, and the final state. *)
Fixpoint m_trace (s : St) (ops : list Op) : list Res * St :=
  match ops with
  | [] => ([], s)
  | op :: rest =>
      let '(r, s) := m_run s op in
      let '(rs, s) := m_trace s rest in (r :: rs, s)
  end.

Class MachineInv (Inv : St -> Prop) := {
  inv_init : forall s, m_init s -> Inv s;
  inv_run : forall s op, Inv s -> m_typed op -> Inv (snd (m_run s op)) }.

Lemma steps_inv Inv `{!MachineInv Inv} s s' : rtc m_step s s' -> Inv s -> Inv s'.
Proof.
  induction 1 as [|s s1 s' (op & Ht & ->) _ IH]; [done|]. intros Hi. by apply IH, inv_run.
Qed.

Lemma reachable_inv Inv `{!MachineInv Inv} s : m_reachable s -> Inv s.
Proof. intros (s0 & Hi & Hs). eapply (steps_inv Inv); [done|]. by apply inv_init. Qed.

Lemma m_trace_cons s op ops :
  m_trace s (op :: ops) =
  (fst (m_run s op) :: fst (m_trace (snd (m_run s op)) ops),
   snd (m_trace (snd (m_run s op)) ops)).
Proof. cbn. destruct (m_run s op) as [r s1]. cbn. by destruct (m_trace s1 ops). Qed.

Lemma trace_inv Inv `{!MachineInv Inv} ops s :
  Inv s -> Forall m_typed ops -> Inv (snd (m_trace s ops)).
Proof.
  revert s. induction ops as [|op ops IH]; intros s Hi Ht; [done|].
  inversion Ht; subst. rewrite m_trace_cons. cbn. apply IH; [by apply inv_run|done].
Qed.

Lemma trace_reachable ops s :
  m_reachable s -> Forall m_typed ops -> m_reachable (snd (m_trace s ops)).
Proof.
  revert s. induction ops as [|op ops IH]; intros s Hr Ht; [done|].
  inversion Ht; subst. rewrite m_trace_cons. cbn. apply IH; [|done].
  destruct Hr as (s0 & Hi & Hs). exists s0. split; [done|]. eapply rtc_r; [done|].
  by exists op.
Qed.
End Machine.

(** A machine refines another, with the same calls and results, through an
    abstraction function that each call respects. *)
Class Refines {C A Op Res : Type} `{Typed Op, MC : !Machine C Op Res, MA : !Machine A Op Res}
    (Inv : C -> Prop) (abs : C -> A) : Prop := {
  refines_inv :: MachineInv Inv;
  refines_run : forall c op, Inv c -> m_typed op ->
    fst (m_run c op) = fst (m_run (abs c) op) /\
    abs (snd (m_run c op)) = snd (m_run (abs c) op) }.

Lemma refines_trace {C A Op Res : Type} `{Typed Op, !Machine C Op Res, !Machine A Op Res}
    (Inv : C -> Prop) (abs : C -> A) `{!Refines Inv abs} ops c :
  Inv c -> Forall m_typed ops ->
  fst (m_trace c ops) = fst (m_trace (abs c) ops) /\
  abs (snd (m_trace c ops)) = snd (m_trace (abs c) ops).
Proof.
  revert c. induction ops as [|op ops IH]; intros c Hi Ht; [done|].
  inversion Ht as [|? ? Hop Hops]; subst. rewrite !m_trace_cons. cbn [fst snd].
  destruct (refines_run (A := A) c op Hi Hop) as [Hf Hs].
  destruct (IH (snd (m_run c op))) as [If Is]; [by apply inv_run|done|].
  rewrite Hf, If, Is, Hs. done.
Qed.

Create HintDb pih discriminated.
Create Rewrite HintDb pih.
#[export] Hint Resolve wrap32_range wrap64_range vsize_nonneg : pih.
