(* ===== verification/Core.v ===== *)
(** * Core vocabulary: [Status], [Result] and checked arithmetic

    Models [include/pih/core/status.h], [src/core/status.cpp],
    [include/pih/core/result.h] and [include/pih/core/checked_math.h]. *)

From S2P Require Import Prelude.

(** ** Status and Result *)

Inductive StatusCode :=
  | kOk | kInvalidArgument | kResourceExhausted | kFailedPrecondition
  | kInternal | kUnavailable | kDeadlineExceeded.

#[export] Instance StatusCode_eq_dec : EqDecision StatusCode.
Proof. solve_decision. Defined.

Record Status := MkStatus { code : StatusCode; message : string }.

#[export] Instance Status_eq_dec : EqDecision Status.
Proof. solve_decision. Defined.

Definition kMaxMessageBytes : nat := 4096.

(** The constructor clears the message of an OK status and truncates a long
    one. *)
Definition Status_new (c : StatusCode) (m : string) : Status :=
  match c with
  | kOk => MkStatus kOk ""
  | _ => if (kMaxMessageBytes <? String.length m)%nat
         then MkStatus c (String.substring 0 kMaxMessageBytes m)
         else MkStatus c m
  end.

Definition StatusOk : Status := Status_new kOk "".
Definition InvalidArgument (m : string) : Status := Status_new kInvalidArgument m.
Definition ResourceExhausted (m : string) : Status := Status_new kResourceExhausted m.
Definition FailedPrecondition (m : string) : Status := Status_new kFailedPrecondition m.
Definition Internal (m : string) : Status := Status_new kInternal m.
Definition Unavailable (m : string) : Status := Status_new kUnavailable m.
Definition DeadlineExceeded (m : string) : Status := Status_new kDeadlineExceeded m.

Definition ok (s : Status) : bool :=
  match code s with kOk => true | _ => false end.

(** [Result<T>] holds a value or an error status. *)
Inductive Result (A : Type) :=
  | Value (a : A)
  | Error (s : Status).
Arguments Value {A} a.
Arguments Error {A} s.

Definition rok {A} (r : Result A) : bool :=
  match r with Value _ => true | Error _ => false end.

Definition rstatus {A} (r : Result A) : Status :=
  match r with Value _ => StatusOk | Error s => s end.

(** [let? x := r in k]: bind the value of a [Result], or return its status,
    the source's [if (!r.ok()) return r.status();]. *)
Notation "'let?' x := r 'in' k" :=
  (match r with Value x => k | Error s => Error s end)
  (at level 10, x name, k at level 200) : pih_scope.

Lemma Value_inj {A} (a b : A) : Value a = Value b -> a = b.
Proof. congruence. Qed.

Lemma code_Status_new c m : code (Status_new c m) = c.
Proof. unfold Status_new. destruct c; try done; by case_match. Qed.

Lemma ok_Status_new c m : ok (Status_new c m) = bool_decide (c = kOk).
Proof. unfold ok. rewrite code_Status_new. by destruct c. Qed.

Lemma ok_InvalidArgument m : ok (InvalidArgument m) = false.
Proof. apply ok_Status_new. Qed.
Lemma ok_ResourceExhausted m : ok (ResourceExhausted m) = false.
Proof. apply ok_Status_new. Qed.
Lemma ok_FailedPrecondition m : ok (FailedPrecondition m) = false.
Proof. apply ok_Status_new. Qed.
Lemma ok_Internal m : ok (Internal m) = false.
Proof. apply ok_Status_new. Qed.

#[export] Hint Rewrite ok_InvalidArgument ok_ResourceExhausted
  ok_FailedPrecondition ok_Internal : pih.

(** ** Checked 64-bit arithmetic *)

Definition checked_add_u64 (lhs rhs : Z) : Result Z :=
  if rhs >? u64_max - lhs
  then Error (ResourceExhausted "u64 addition overflow")
  else Value (wrap64 (lhs + rhs)).

Definition checked_mul_u64 (lhs rhs : Z) : Result Z :=
  if negb (lhs =? 0) && (rhs >? u64_max / lhs)
  then Error (ResourceExhausted "u64 multiplication overflow")
  else Value (wrap64 (lhs * rhs)).

Definition checked_align_up_u64 (value alignment : Z) : Result Z :=
  if (alignment =? 0) || negb (Z.land alignment (alignment - 1) =? 0)
  then Error (InvalidArgument "alignment must be a nonzero power of two")
  else
    let mask := alignment - 1 in
    let? sum := checked_add_u64 value mask in
    Value (Z.land sum (u64_max - mask)).

(** Addition fails exactly when the mathematical sum leaves 64 bits. *)
Lemma checked_add_u64_spec a b :
  is_u64 a -> is_u64 b ->
  checked_add_u64 a b =
    if a + b <=? u64_max then Value (a + b)
    else Error (ResourceExhausted "u64 addition overflow").
Proof.
  unfold is_u64, checked_add_u64. intros Ha Hb.
  destruct (b >? u64_max - a) eqn:E, (a + b <=? u64_max) eqn:E'; try lia; try done.
  rewrite wrap64_id; [done | unfold is_u64; lia].
Qed.

Lemma checked_add_u64_Value a b c :
  is_u64 a -> is_u64 b -> checked_add_u64 a b = Value c -> c = a + b /\ is_u64 c.
Proof.
  intros Ha Hb. rewrite checked_add_u64_spec by done.
  unfold is_u64 in *. case_match; intros [= <-]. lia.
Qed.

(** Multiplication fails exactly when the mathematical product leaves 64
    bits. *)
Lemma checked_mul_u64_spec a b :
  is_u64 a -> is_u64 b ->
  checked_mul_u64 a b =
    if a * b <=? u64_max then Value (a * b)
    else Error (ResourceExhausted "u64 multiplication overflow").
Proof.
  unfold is_u64, checked_mul_u64. intros Ha Hb.
  destruct (Z.eq_dec a 0) as [->|Hne]; [done|].
  assert (E : (b >? u64_max / a) = negb (a * b <=? u64_max)).
  { destruct (a * b <=? u64_max) eqn:E; cbn [negb].
    - assert (b <= u64_max / a) by (apply Z.div_le_lower_bound; lia). lia.
    - assert (u64_max / a < b) by (apply Z.div_lt_upper_bound; lia). lia. }
  rewrite (proj2 (Z.eqb_neq a 0) Hne), E. cbn [negb andb].
  destruct (a * b <=? u64_max) eqn:E'; [|done]. cbn [negb].
  rewrite wrap64_id; [done | unfold is_u64; nia].
Qed.

Lemma checked_mul_u64_Value a b c :
  is_u64 a -> is_u64 b -> checked_mul_u64 a b = Value c -> c = a * b /\ is_u64 c.
Proof.
  intros Ha Hb. rewrite checked_mul_u64_spec by done.
  unfold is_u64 in *. case_match; intros [= <-]. nia.
Qed.

(** *** Alignment *)

(** The power-of-two test [a & (a - 1) == 0] is exact. *)
Lemma land_pred_pow2 a :
  0 < a -> Z.land a (a - 1) = 0 -> exists k, 0 <= k /\ a = 2 ^ k.
Proof.
  intros Ha H. exists (Z.log2 a). split; [apply Z.log2_nonneg|].
  destruct (Z.log2_spec a Ha) as [Hlo Hhi].
  destruct (Z.eq_dec a (2 ^ Z.log2 a)) as [?|Hne]; [done|exfalso].
  assert (Hl : Z.log2 (a - 1) = Z.log2 a).
  { pose proof (Z.log2_nonneg a). apply Z.log2_unique; [done|].
    rewrite <- Z.add_1_r in *. lia. }
  assert (T : Z.testbit (Z.land a (a - 1)) (Z.log2 a) = true).
  { rewrite Z.land_spec, Z.bit_log2 by done.
    rewrite <- Hl at 1. rewrite Z.bit_log2; [done|].
    pose proof (Z.pow_pos_nonneg 2 (Z.log2 a) ltac:(lia) (Z.log2_nonneg a)). lia. }
  rewrite H, Z.bits_0 in T. done.
Qed.

Lemma pow2_land_pred k : 0 <= k -> Z.land (2 ^ k) (2 ^ k - 1) = 0.
Proof.
  intros Hk. replace (2 ^ k - 1) with (Z.ones k) by (rewrite Z.ones_equiv; lia).
  rewrite Z.land_ones by done. apply Z.mod_same. lia.
Qed.

(** Clearing the low bits of a 64-bit word rounds it down. *)
Lemma land_not_mask s k :
  is_u64 s -> 0 <= k <= 64 ->
  Z.land s (u64_max - (2 ^ k - 1)) = s - s mod 2 ^ k.
Proof.
  intros Hs Hk.
  replace (u64_max - (2 ^ k - 1)) with (Z.ldiff (Z.ones 64) (Z.ones k)).
  - rewrite Z.ldiff_land, Z.land_assoc, (Z.land_ones s 64) by lia.
    rewrite (Z.mod_small s (2 ^ 64)) by (unfold is_u64 in Hs; lia).
    rewrite <- Z.ldiff_land, Z.ldiff_ones_r by lia.
    rewrite Z.shiftl_mul_pow2, Z.shiftr_div_pow2 by lia.
    pose proof (Z.div_mod s (2 ^ k) ltac:(lia)). lia.
  - rewrite <- Z.sub_nocarry_ldiff.
    + rewrite !Z.ones_equiv. change (Z.pred (2 ^ 64)) with u64_max. lia.
    + apply Z.bits_inj'. intros n Hn. rewrite Z.ldiff_spec, Z.bits_0.
      rewrite !Z.testbit_ones_nonneg by lia. lia.
Qed.

(** The success case: the result is the least multiple of the alignment that
    is at least [value]. *)
Lemma checked_align_up_u64_Value value k r :
  is_u64 value -> 0 <= k < 64 ->
  checked_align_up_u64 value (2 ^ k) = Value r ->
  (2 ^ k | r) /\ value <= r < value + 2 ^ k /\ is_u64 r.
Proof.
  intros Hv Hk. unfold checked_align_up_u64.
  assert (Hp : 0 < 2 ^ k <= 2 ^ 63).
  { split; [lia | apply Z.pow_le_mono_r; lia]. }
  rewrite pow2_land_pred by lia.
  destruct (2 ^ k =? 0) eqn:E0; [lia|]. cbn [orb negb Z.eqb].
  rewrite checked_add_u64_spec by (unfold is_u64 in *; lia).
  destruct (value + (2 ^ k - 1) <=? u64_max) eqn:E1; [|done].
  intros [= <-]. rewrite land_not_mask by (unfold is_u64 in *; lia).
  pose proof (Z.mod_pos_bound (value + (2 ^ k - 1)) (2 ^ k) ltac:(lia)).
  pose proof (Z.div_mod (value + (2 ^ k - 1)) (2 ^ k) ltac:(lia)).
  split; [exists ((value + (2 ^ k - 1)) / 2 ^ k); lia|]. unfold is_u64 in *. lia.
Qed.
