(* ===== verification/Fips180.v ===== *)
(** * The SHA-256 standard

    FIPS 180-4, section 6.2, written from the standard and not from the code: words are
    integers below 2^32, the logical functions are given bit by bit, rotations and big
    endian by division, the constants by the roots of the first primes they are taken
    from.  [Sha256] proves that the hasher of the program computes it. *)

From S2P Require Import Prelude.

Module Fips.

(** ** Words *)

Definition word_bits : Z := 32.
Definition word_modulus : Z := 2 ^ word_bits.

(** The word whose bit [i] is [f i]. *)
Fixpoint of_bits (n : nat) (f : Z -> bool) : Z :=
  match n with
  | O => 0
  | S n => Z.b2z (f 0) + 2 * of_bits n (fun i => f (i + 1))
  end.

Definition bitwise3 (op : bool -> bool -> bool -> bool) (x y z : Z) : Z :=
  of_bits 32 (fun i => op (Z.testbit x i) (Z.testbit y i) (Z.testbit z i)).

(** Section 4.1.2: choice, majority, and the parity of three shifted words. *)
Definition Ch : Z -> Z -> Z -> Z := bitwise3 (fun x y z => if x then y else z).
Definition Maj : Z -> Z -> Z -> Z := bitwise3 (fun x y z => if x then y || z else y && z).
Definition Parity : Z -> Z -> Z -> Z := bitwise3 (fun x y z => xorb x (xorb y z)).

Definition SHR (n x : Z) : Z := x / 2 ^ n.
Definition ROTR (n x : Z) : Z := x / 2 ^ n + x mod 2 ^ n * 2 ^ (word_bits - n).

Definition Sigma0 (x : Z) : Z := Parity (ROTR 2 x) (ROTR 13 x) (ROTR 22 x).
Definition Sigma1 (x : Z) : Z := Parity (ROTR 6 x) (ROTR 11 x) (ROTR 25 x).
Definition sigma0 (x : Z) : Z := Parity (ROTR 7 x) (ROTR 18 x) (SHR 3 x).
Definition sigma1 (x : Z) : Z := Parity (ROTR 17 x) (ROTR 19 x) (SHR 10 x).

Definition add_words (ws : list Z) : Z := foldr Z.add 0 ws mod word_modulus.

(** ** Constants *)

Definition is_prime (p : Z) : bool :=
  (2 <=? p) && forallb (fun d => negb (p mod d =? 0)) (seqZ 2 (p - 2)).

(** The first 64 primes are those up to 311. *)
Definition primes : list Z := List.filter is_prime (seqZ 0 312).

(** The integer cube root, bit by bit. *)
Fixpoint cube_root_bits (n : nat) (r x : Z) : Z :=
  match n with
  | O => r
  | S n =>
      let c := r + 2 ^ Z.of_nat n in
      cube_root_bits n (if c * c * c <=? x then c else r) x
  end.

(** Sections 4.2.2 and 5.3.3: the first 32 bits of the fractional parts of the cube
    roots of the first 64 primes, and of the square roots of the first eight. *)
Definition K : list Z :=
  map (fun p => cube_root_bits 40 0 (p * 2 ^ (3 * word_bits)) mod word_modulus) primes.
Definition H0 : list Z :=
  map (fun p => Z.sqrt (p * 2 ^ (2 * word_bits)) mod word_modulus) (take 8 primes).

(** ** Preprocessing *)

(** The [n] digits of [x] in base 256, the most significant first, and back. *)
Fixpoint be_bytes (n : nat) (x : Z) : list Z :=
  match n with
  | O => []
  | S n => be_bytes n (x / 256) ++ [x mod 256]
  end.

Definition be_value (bs : list Z) : Z := foldl (fun acc b => acc * 256 + b) 0 bs.

(** Section 5.1.1, for a message of whole bytes: a one bit, as few zeros as bring the
    length to 448 modulo 512, and the length in bits. *)
Definition pad (msg : list Z) : list Z :=
  msg ++ [128] ++ replicate (Z.to_nat ((55 - vsize msg) mod 64)) 0 ++ be_bytes 8 (8 * vsize msg).

(** The first [n] pieces of [k] elements each. *)
Fixpoint pieces (k n : nat) (l : list Z) : list (list Z) :=
  match n with
  | O => []
  | S n => take k l :: pieces k n (drop k l)
  end.

(** ** Hash computation *)

(** Section 6.2.2, step 1: the words are kept with the latest first, so W(t-2) is at
    index 1 and W(t-16) at index 15. *)
Fixpoint schedule (n : nat) (ws : list Z) : list Z :=
  match n with
  | O => reverse ws
  | S n =>
      schedule n (add_words [sigma1 (ws.[1]); ws.[6]; sigma0 (ws.[14]); ws.[15]] :: ws)
  end.

(** Step 3, on the working variables a to h. *)
Definition hash_round (v : Z * Z * Z * Z * Z * Z * Z * Z) (kw : Z * Z) : Z * Z * Z * Z * Z * Z * Z * Z :=
  let '(a, b, c, d, e, f, g, h) := v in
  let T1 := [h; Sigma1 e; Ch e f g; fst kw; snd kw] in
  let T2 := [Sigma0 a; Maj a b c] in
  (add_words (T1 ++ T2), a, b, c, add_words (d :: T1), e, f, g).

(** Steps 2 and 4. *)
Definition hash_block (H M : list Z) : list Z :=
  let W := schedule 48 (reverse (map be_value (pieces 4 16 M))) in
  let '(a, b, c, d, e, f, g, h) :=
    foldl hash_round (H.[0], H.[1], H.[2], H.[3], H.[4], H.[5], H.[6], H.[7]) (zip K W) in
  [add_words [H.[0]; a]; add_words [H.[1]; b]; add_words [H.[2]; c]; add_words [H.[3]; d];
   add_words [H.[4]; e]; add_words [H.[5]; f]; add_words [H.[6]; g]; add_words [H.[7]; h]].

Definition fips_sha256 (msg : list Z) : list Z :=
  let padded := pad msg in
  concat (map (be_bytes 4)
    (foldl hash_block H0 (pieces 64 (length padded / 64) padded))).

(** ** Lemmas *)

Lemma of_bits_range n f : 0 <= of_bits n f < 2 ^ Z.of_nat n.
Proof.
  revert f. induction n as [|n IH]; intros f; cbn [of_bits]; [done|].
  specialize (IH (fun i => f (i + 1))). rewrite Nat2Z.inj_succ, Z.pow_succ_r by lia.
  destruct (f 0); cbn [Z.b2z]; lia.
Qed.

Lemma of_bits_testbit n f i :
  0 <= i -> Z.testbit (of_bits n f) i = f i && (i <? Z.of_nat n).
Proof.
  revert f i. induction n as [|n IH]; intros f i Hi; cbn [of_bits].
  - rewrite Z.bits_0. symmetry. apply andb_false_iff. right. by apply Z.ltb_ge.
  - destruct (decide (i = 0)) as [->|].
    + rewrite Z.add_b2z_double_bit0. by rewrite andb_true_r.
    + replace i with (Z.succ (i - 1)) at 1 by lia.
      rewrite <- Z.div2_bits, Z.add_b2z_double_div2, IH by lia.
      f_equal; [f_equal; lia|]. apply eq_true_iff_eq. rewrite !Z.ltb_lt. lia.
Qed.

Lemma be_bytes_length n x : length (be_bytes n x) = n.
Proof. revert x. induction n as [|n IH]; intros x; cbn; [done|]. rewrite length_app, IH. cbn. lia. Qed.

Lemma be_bytes_range n x : Forall (fun b => 0 <= b < 256) (be_bytes n x).
Proof.
  revert x. induction n as [|n IH]; intros x; cbn; [done|]. apply Forall_app. split; [done|].
  repeat constructor; apply Z.mod_pos_bound; lia.
Qed.

Lemma fold_hash_length bs H : length H = 8%nat -> length (foldl hash_block H bs) = 8%nat.
Proof.
  revert H. induction bs as [|M bs IH]; intros H HH; [done|]. cbn [foldl]. apply IH.
  unfold hash_block. by destruct (foldl hash_round _ _) as [[[[[[[? ?] ?] ?] ?] ?] ?] ?].
Qed.

Lemma fips_sha256_length msg : length (fips_sha256 msg) = 32%nat.
Proof.
  unfold fips_sha256. set (H := foldl _ _ _).
  assert (E : length H = 8%nat) by (apply fold_hash_length; by vm_compute).
  clearbody H. do 9 (destruct H as [|? H]; try done).
Qed.

Lemma fips_sha256_bytes msg : Forall (fun b => 0 <= b < 256) (fips_sha256 msg).
Proof.
  unfold fips_sha256. induction (foldl _ _ _); cbn [map concat]; [done|].
  apply Forall_app. split; [apply be_bytes_range|done].
Qed.

(** The standard's constants, as a cross-reference for a reader of the standard. *)
Example K_length : length K = 64%nat.
Proof. by vm_compute. Qed.

Example fips_abc :
  be_value (fips_sha256 [97; 98; 99]) =
  0xba7816bf8f01cfea414140de5dae2223b00361a396177a9cb410ff61f20015ad.
Proof. by vm_compute. Qed.

End Fips.
