(* ===== verification/Sha256.v ===== *)
(** * SHA-256

    Models [include/pih/core/sha256.h] and [src/core/sha256.cpp]: the
    incremental hasher with its 64-byte buffer, and the hexadecimal form of a
    digest.  The reference is FIPS 180-4 as written out in [Fips180]; the main
    result is that any sequence of [update] calls followed by [finalize]
    computes it: the buffering amounts to a fold of [compress] over the padded
    message, and [compress] is the standard's block function. *)

From S2P Require Import Prelude Core Fips180.
From Stdlib Require Import Ascii.

(** Bytes are integers in [0, 256). *)
Definition is_byte (b : Z) : Prop := 0 <= b < 256.
Definition byte_of (z : Z) : Z := z mod 256.

Lemma byte_of_range z : is_byte (byte_of z).
Proof. unfold is_byte, byte_of. apply Z.mod_pos_bound. lia. Qed.

Record Sha256Digest := MkDigest { bytes : list Z }.

#[export] Instance Sha256Digest_eq_dec : EqDecision Sha256Digest.
Proof. solve_decision. Defined.

Lemma bytes_inj d e : bytes d = bytes e -> d = e.
Proof. destruct d, e. cbn. congruence. Qed.

(** The value-initialised digest [Sha256Digest{}]. *)
Definition zero_digest : Sha256Digest := MkDigest (replicate 32 0).

#[export] Instance Sha256Digest_inhabited : Inhabited Sha256Digest := populate zero_digest.

Definition digest_wf (d : Sha256Digest) : Prop :=
  length (bytes d) = 32%nat /\ Forall is_byte (bytes d).

Definition digest_nonzero (d : Sha256Digest) : bool :=
  existsb (fun v => negb (v =? 0)) (bytes d).

(** ** The compression function *)

Definition nibble (character : ascii) : Z :=
  let c := Z.of_nat (nat_of_ascii character) in
  if (48 <=? c) && (c <=? 57) then c - 48
  else if (97 <=? c) && (c <=? 102) then c - 97 + 10
  else -1.

(** The 32-bit words of a table written as runs of eight hexadecimal digits. *)
Definition hex_value (cs : list ascii) : Z :=
  fold_left (fun acc c => acc * 16 + nibble c) cs 0.

Fixpoint hex_words (n : nat) (cs : list ascii) : list Z :=
  match n with
  | O => []
  | S n => hex_value (take 8 cs) :: hex_words n (drop 8 cs)
  end.

Definition word_table (n : nat) (rows : list string) : list Z :=
  hex_words n (concat (map String.list_ascii_of_string rows)).

(** The source's table, five words to a row as it is laid out there. *)
Definition kRoundConstants : list Z := Eval vm_compute in word_table 64 [
  "428a2f9871374491b5c0fbcfe9b5dba53956c25b";
  "59f111f1923f82a4ab1c5ed5d807aa9812835b01";
  "243185be550c7dc372be5d7480deb1fe9bdc06a7";
  "c19bf174e49b69c1efbe47860fc19dc6240ca1cc";
  "2de92c6f4a7484aa5cb0a9dc76f988da983e5152";
  "a831c66db00327c8bf597fc7c6e00bf3d5a79147";
  "06ca63511429296727b70a852e1b21384d2c6dfc";
  "53380d13650a7354766a0abb81c2c92e92722c85";
  "a2bfe8a1a81a664bc24b8b70c76c51a3d192e819";
  "d6990624f40e3585106aa07019a4c1161e376c08";
  "2748774c34b0bcb5391c0cb34ed8aa4a5b9cca4f";
  "682e6ff3748f82ee78a5636f84c878148cc70208";
  "90befffaa4506cebbef9a3f7c67178f2"]%string.

(** [std::rotr] on [std::uint32_t]. *)
Definition rotr (x n : Z) : Z := Z.lor (Z.shiftr x n) (wrap32 (Z.shiftl x (32 - n))).

Definition load_be32 (input : list Z) : Z :=
  Z.lor (Z.lor (Z.lor (Z.shiftl (input.[0]) 24) (Z.shiftl (input.[1]) 16))
               (Z.shiftl (input.[2]) 8))
        (input.[3]).

Definition store_be32 (value : Z) : list Z :=
  [byte_of (Z.shiftr value 24); byte_of (Z.shiftr value 16);
   byte_of (Z.shiftr value 8); byte_of value].

(** One step of the message schedule: [schedule[index]] for [index >= 16]. *)
Definition schedule_step (schedule : list Z) (index : Z) : list Z :=
  let w15 := schedule.[index - 15] in
  let w2 := schedule.[index - 2] in
  let s0 := Z.lxor (Z.lxor (rotr w15 7) (rotr w15 18)) (Z.shiftr w15 3) in
  let s1 := Z.lxor (Z.lxor (rotr w2 17) (rotr w2 19)) (Z.shiftr w2 10) in
  schedule ++ [wrap32 (schedule.[index - 16] + s0 + schedule.[index - 7] + s1)].

Definition message_schedule (block : list Z) : list Z :=
  fold_left schedule_step (map Z.of_nat (seq 16 48))
    (map (fun i => load_be32 (drop (i * 4) block)) (seq 0 16)).

Record working := Working {
  wa : Z; wb : Z; wc : Z; wd : Z; we : Z; wf : Z; wg : Z; wh : Z }.

Definition round_step (schedule : list Z) (s : working) (index : Z) : working :=
  let '(Working a b c d e f g h) := s in
  let sigma1 := Z.lxor (Z.lxor (rotr e 6) (rotr e 11)) (rotr e 25) in
  let choose := Z.lxor (Z.land e f) (Z.land (u32_max - e) g) in
  let temporary1 :=
    wrap32 (h + sigma1 + choose + kRoundConstants.[index] + schedule.[index]) in
  let sigma0 := Z.lxor (Z.lxor (rotr a 2) (rotr a 13)) (rotr a 22) in
  let majority := Z.lxor (Z.lxor (Z.land a b) (Z.land a c)) (Z.land b c) in
  let temporary2 := wrap32 (sigma0 + majority) in
  Working (wrap32 (temporary1 + temporary2)) a b c (wrap32 (d + temporary1)) e f g.

Definition compress (state : list Z) (block : list Z) : list Z :=
  let schedule := message_schedule block in
  let w0 := Working (state.[0]) (state.[1]) (state.[2]) (state.[3])
                    (state.[4]) (state.[5]) (state.[6]) (state.[7]) in
  let w := fold_left (round_step schedule) (map Z.of_nat (seq 0 64)) w0 in
  zip_with (fun x y => wrap32 (x + y)) state
    [wa w; wb w; wc w; wd w; we w; wf w; wg w; wh w].

#[global] Opaque compress.

(** ** The incremental hasher *)

Record Sha256 := MkSha256 {
  state_ : list Z;
  buffer_ : list Z;
  total_bytes_ : Z;
  buffered_bytes_ : Z;
  finalized_ : bool }.

#[export] Instance eta_Sha256 : Eta Sha256 := fun r =>
  MkSha256 r.(state_) r.(buffer_) r.(total_bytes_) r.(buffered_bytes_) r.(finalized_).

Definition kInitialState : list Z := Eval vm_compute in word_table 8 [
  "6a09e667bb67ae853c6ef372a54ff53a"; "510e527f9b05688c1f83d9ab5be0cd19"]%string.

Definition Sha256_new : Sha256 := MkSha256 kInitialState (replicate 64 0) 0 0 false.

(** [while (input.size() - offset >= 64) compress(input + offset)], on the
    unread part of the input; the second component is what is left over. *)
Fixpoint compress_full (fuel : nat) (state rest : list Z) : list Z * list Z :=
  match fuel with
  | O => (state, rest)
  | S fuel =>
      if 64 <=? vsize rest
      then compress_full fuel (compress state (take 64 rest)) (drop 64 rest)
      else (state, rest)
  end.

(** First part of [update]: top up a partly filled buffer; the second
    component is the offset reached in the input. *)
Definition fill_buffer (h : Sha256) (input : list Z) : Sha256 * Z :=
  if negb (buffered_bytes_ h =? 0) then
    let copied := Z.min (64 - buffered_bytes_ h) (vsize input) in
    let h := h <| buffer_ := splice (buffer_ h) (buffered_bytes_ h)
                               (take (Z.to_nat copied) input) |>
               <| buffered_bytes_ := buffered_bytes_ h + copied |> in
    if buffered_bytes_ h =? 64
    then (h <| state_ := compress (state_ h) (buffer_ h) |>
            <| buffered_bytes_ := 0 |>, copied)
    else (h, copied)
  else (h, 0).

(** Second part of [update]: compress the whole blocks of the unread input and
    buffer what is left over. *)
Definition absorb_tail (h : Sha256) (unread : list Z) : Sha256 :=
  let '(state, rest) := compress_full (length unread) (state_ h) unread in
  let h := h <| state_ := state |> in
  match rest with
  | [] => h
  | _ => h <| buffered_bytes_ := vsize rest |>
           <| buffer_ := splice (buffer_ h) 0 rest |>
  end.

Definition update (h : Sha256) (input : list Z) : Status * Sha256 :=
  if finalized_ h
  then (FailedPrecondition "SHA-256 state is already finalized", h)
  else if vsize input >? u64_max / 8 - total_bytes_ h
  then (ResourceExhausted "SHA-256 bit length overflows u64", h)
  else
    let h := h <| total_bytes_ := wrap64 (total_bytes_ h + vsize input) |> in
    let '(h, offset) := fill_buffer h input in
    (StatusOk, absorb_tail h (drop (Z.to_nat offset) input)).

Definition be64_bytes (bit_length : Z) : list Z :=
  map (fun i => byte_of (Z.shiftr bit_length ((7 - Z.of_nat i) * 8))) (seq 0 8).

Definition finalize (h : Sha256) : Result Sha256Digest * Sha256 :=
  if finalized_ h
  then (Error (FailedPrecondition "SHA-256 state is already finalized"), h)
  else
    let bit_length := wrap64 (total_bytes_ h * 8) in
    let h := h <| buffer_ := splice (buffer_ h) (buffered_bytes_ h) [0x80] |>
               <| buffered_bytes_ := buffered_bytes_ h + 1 |> in
    let h :=
      if 56 <? buffered_bytes_ h then
        let b := splice (buffer_ h) (buffered_bytes_ h)
                   (replicate (Z.to_nat (64 - buffered_bytes_ h)) 0) in
        h <| buffer_ := b |> <| state_ := compress (state_ h) b |>
          <| buffered_bytes_ := 0 |>
      else h in
    let b := splice (buffer_ h) (buffered_bytes_ h)
               (replicate (Z.to_nat (56 - buffered_bytes_ h)) 0) in
    let b := splice b 56 (be64_bytes bit_length) in
    let state := compress (state_ h) b in
    let digest := MkDigest (concat (map store_be32 state)) in
    (Value digest,
     h <| state_ := state |> <| buffer_ := replicate 64 0 |>
       <| finalized_ := true |>).

(** The free function [sha256]. *)
Definition sha256 (input : list Z) : Result Sha256Digest :=
  let '(updated, h) := update Sha256_new input in
  if negb (ok updated) then Error updated else fst (finalize h).

(** The digest idiom of the controller: a chain of [update] calls, each made
    only if the previous ones succeeded, then [finalize]. *)
Fixpoint update_chain (h : Sha256) (chunks : list (list Z)) : Status * Sha256 :=
  match chunks with
  | [] => (StatusOk, h)
  | c :: cs =>
      let '(status, h) := update h c in
      if ok status then update_chain h cs else (status, h)
  end.

Definition hash_chunks (chunks : list (list Z)) : Result Sha256Digest :=
  let '(status, h) := update_chain Sha256_new chunks in
  if negb (ok status) then Error status else fst (finalize h).

(** ** The digest as a fold of [compress] *)

Fixpoint blocks (n : nat) (l : list Z) : list (list Z) :=
  match n with
  | O => []
  | S n => take 64 l :: blocks n (drop 64 l)
  end.

Definition sha256_pad (msg : list Z) : list Z :=
  msg ++ [0x80] ++ replicate (Z.to_nat ((55 - vsize msg) mod 64)) 0
    ++ be64_bytes (8 * vsize msg).

(** What the buffering computes: the padded message, compressed block by block. *)
Definition sha256_fold (msg : list Z) : Sha256Digest :=
  let padded := sha256_pad msg in
  MkDigest (concat (map store_be32
    (fold_left compress (blocks (length padded / 64) padded) kInitialState))).

(** The digest of the standard, which shares no definition with the code. *)
Definition sha256_spec (msg : list Z) : Sha256Digest := MkDigest (Fips.fips_sha256 msg).

(** [h] holds exactly the bytes [m]: whole blocks are in [state_], the
    remainder is at the front of [buffer_]. *)
Definition Holding (h : Sha256) (m : list Z) : Prop :=
  exists n full rest,
    m = full ++ rest /\ length full = (64 * n)%nat /\ (length rest < 64)%nat /\
    state_ h = fold_left compress (blocks n full) kInitialState /\
    buffered_bytes_ h = vsize rest /\
    length (buffer_ h) = 64%nat /\ take (length rest) (buffer_ h) = rest.

Definition Absorbed (h : Sha256) (m : list Z) : Prop :=
  Holding h m /\ finalized_ h = false /\ total_bytes_ h = vsize m.

Lemma blocks_app n k a b :
  length a = (64 * n)%nat -> blocks (n + k) (a ++ b) = blocks n a ++ blocks k b.
Proof.
  revert a. induction n as [|n IH]; intros a Ha; cbn [Nat.add blocks].
  - destruct a; [done | cbn in Ha; lia].
  - rewrite take_app_le, drop_app_le by lia. rewrite IH; [done|].
    rewrite length_drop. lia.
Qed.

Lemma blocks_take n l k :
  (64 * n <= k)%nat -> blocks n (take k l) = blocks n l.
Proof.
  revert l k. induction n as [|n IH]; intros l k Hk; cbn [blocks]; [done|].
  rewrite take_take, skipn_firstn_comm, IH by lia. f_equal. f_equal. lia.
Qed.

Lemma compress_full_spec fuel st l :
  (length l <= fuel)%nat ->
  compress_full fuel st l =
    (fold_left compress (blocks (length l / 64) l) st, drop (64 * (length l / 64)) l).
Proof.
  revert st l. induction fuel as [|fuel IH]; intros st l Hf.
  - destruct l; [done | cbn in Hf; lia].
  - cbn [compress_full]. unfold vsize. destruct (64 <=? Z.of_nat (length l)) eqn:E.
    + rewrite IH by (rewrite length_drop; lia). rewrite length_drop, drop_drop.
      replace (length l / 64)%nat with (S ((length l - 64) / 64)).
      * cbn [blocks fold_left]. f_equal. f_equal. lia.
      * replace (length l) with (length l - 64 + 1 * 64)%nat at 2 by lia.
        rewrite Nat.div_add by lia. lia.
    + rewrite Nat.div_small by lia. done.
Qed.

Lemma Absorbed_new : Absorbed Sha256_new [].
Proof.
  split; [|done]. exists 0%nat, [], []. cbn. repeat split; try done; lia.
Qed.

Lemma fill_buffer_Holding h m input h' off :
  Holding h m -> fill_buffer h input = (h', off) ->
  Holding h' (m ++ take (Z.to_nat off) input) /\
  (buffered_bytes_ h' = 0 \/ drop (Z.to_nat off) input = []) /\
  finalized_ h' = finalized_ h /\ total_bytes_ h' = total_bytes_ h.
Proof.
  intros (n & full & rest & -> & Hfull & Hrest & Hst & Hb & Hl & Ht).
  unfold fill_buffer. rewrite Hb. destruct (vsize rest =? 0) eqn:E0; cbn [negb].
  { intros [= <- <-]. rewrite app_nil_r. unfold vsize in *.
    split; [exists n, full, rest; done|]. repeat split; left; lia. }
  set (c := Z.min (64 - vsize rest) (vsize input)).
  assert (Hc : length (take (Z.to_nat c) input) = Z.to_nat c)
    by (rewrite length_take; unfold c, vsize in *; lia).
  set (b := splice (buffer_ h) (vsize rest) (take (Z.to_nat c) input)).
  assert (Hbl : length b = 64%nat)
    by (unfold b; rewrite length_splice; unfold c, vsize in *; lia).
  assert (Hbt : take (length rest + Z.to_nat c) b = rest ++ take (Z.to_nat c) input).
  { unfold b. rewrite <- Hc at 1. replace (length rest) with (Z.to_nat (vsize rest))
      by (unfold vsize; lia). rewrite take_splice by (unfold vsize; lia).
    unfold vsize. by rewrite Nat2Z.id, Ht. }
  cbn [buffered_bytes_ upd]. destruct (vsize rest + c =? 64) eqn:E64.
  - intros [= <- <-]. split; [|by cbn; auto].
    exists (n + 1)%nat, (full ++ rest ++ take (Z.to_nat c) input), [].
    rewrite app_nil_r, <- app_assoc, !length_app, Hc. cbn -[blocks].
    rewrite blocks_app, fold_left_app, <- Hst, <- Hbt by done.
    repeat split; try done; unfold vsize in *; try lia.
    cbn [blocks fold_left]. rewrite !take_ge; [done | rewrite ?take_ge; lia ..].
  - intros [= <- <-]. split; [|split; [right; apply drop_ge; unfold c, vsize in *; lia | done]].
    exists n, full, (rest ++ take (Z.to_nat c) input).
    rewrite <- app_assoc. unfold vsize. rewrite !length_app, Hc. cbn.
    repeat split; try done; unfold c, vsize in *; lia.
Qed.

Lemma absorb_tail_Holding h m r :
  Holding h m -> buffered_bytes_ h = 0 \/ r = [] ->
  Holding (absorb_tail h r) (m ++ r) /\
  finalized_ (absorb_tail h r) = finalized_ h /\
  total_bytes_ (absorb_tail h r) = total_bytes_ h.
Proof.
  intros Hh Hr. unfold absorb_tail. rewrite compress_full_spec by done.
  split; [|by destruct (drop _ r)].
  destruct Hr as [H0 | ->]; [|cbn; rewrite app_nil_r; by destruct h].
  destruct Hh as (n & full & rest & -> & Hfull & Hrest & Hst & Hb & Hl & Ht).
  destruct rest; [|unfold vsize in *; cbn in *; lia]. rewrite app_nil_r.
  set (q := (length r / 64)%nat).
  assert (Hq : (64 * q <= length r < 64 * q + 64)%nat).
  { pose proof (Nat.div_mod_eq (length r) 64). pose proof (Nat.mod_upper_bound (length r) 64).
    subst q. lia. }
  clearbody q.
  assert (Hd : length (drop (64 * q) r) = (length r - 64 * q)%nat) by apply length_drop.
  exists (n + q)%nat, (full ++ take (64 * q) r), (drop (64 * q) r).
  rewrite blocks_app, blocks_take, fold_left_app, <- Hst by lia.
  rewrite <- app_assoc, take_drop, length_app, length_take.
  destruct (drop (64 * q) r) as [|x l] eqn:E; cbn -[splice Nat.mul];
    repeat split; try done; cbn [length] in Hd |- *; try lia.
  - rewrite length_splice; cbn; lia.
  - unfold splice. cbn [Z.to_nat take app]. change (S (length l)) with (length (x :: l)).
    apply (take_app_length (x :: l)).
Qed.

Lemma update_Absorbed h m input :
  Absorbed h m -> vsize (m ++ input) <= u64_max / 8 ->
  exists h', update h input = (StatusOk, h') /\ Absorbed h' (m ++ input).
Proof.
  intros (Hh & Hfin & Htot) Hsz. unfold update. rewrite Hfin, Htot.
  assert (Hv : vsize (m ++ input) = vsize m + vsize input)
    by (unfold vsize; rewrite length_app; lia).
  assert (E8 : u64_max / 8 = 2305843009213693951) by done.
  pose proof (vsize_nonneg m). pose proof (vsize_nonneg input).
  destruct (_ >? _) eqn:Ecmp; [lia|]. rewrite wrap64_id, <- Hv by (unfold is_u64; lia).
  destruct (fill_buffer _ input) as [h1 off] eqn:Ef.
  apply (fill_buffer_Holding _ m) in Ef as (H1 & Hz & Hf1 & Ht1); [|exact Hh].
  destruct (absorb_tail_Holding _ _ _ H1 Hz) as (H2 & Hf2 & Ht2).
  rewrite <- app_assoc, take_drop in H2.
  eexists. split; [done|]. split; [done|]. rewrite Hf2, Ht2, Hf1, Ht1. done.
Qed.

Lemma update_chain_Absorbed chunks h m :
  Absorbed h m -> vsize (m ++ concat chunks) <= u64_max / 8 ->
  exists h', update_chain h chunks = (StatusOk, h') /\ Absorbed h' (m ++ concat chunks).
Proof.
  revert h m. induction chunks as [|c cs IH]; intros h m Hh Hsz; cbn [concat update_chain] in *.
  - rewrite app_nil_r. eauto.
  - rewrite app_assoc in Hsz |- *.
    destruct (update_Absorbed h m c) as (h1 & -> & H1); [done | |exact (IH _ _ H1 Hsz)].
    unfold vsize in *. rewrite length_app in Hsz. lia.
Qed.

Lemma length_be64_bytes x : length (be64_bytes x) = 8%nat.
Proof. done. Qed.

(** A 64-byte buffer whose front is [p]. *)
Definition Fronted (buf p : list Z) : Prop :=
  length buf = 64%nat /\ take (length p) buf = p.

Lemma Fronted_splice buf p src :
  Fronted buf p -> (length p + length src <= 64)%nat ->
  Fronted (splice buf (vsize p) src) (p ++ src).
Proof.
  intros [Hl Ht] Hle. unfold vsize. split; [rewrite length_splice; lia|].
  rewrite length_app. rewrite <- (Nat2Z.id (length p)) at 1.
  rewrite take_splice by lia. by rewrite Nat2Z.id, Ht.
Qed.

Lemma Fronted_full buf p : Fronted buf p -> length p = 64%nat -> buf = p.
Proof. intros [Hl Ht] Hp. by rewrite take_ge in Ht by lia. Qed.

Lemma pad_zeros n (full rest : list Z) :
  length full = (64 * n)%nat -> (length rest < 64)%nat ->
  Z.to_nat ((55 - vsize (full ++ rest)) mod 64) =
    if (length rest <=? 55)%nat then (55 - length rest)%nat else (119 - length rest)%nat.
Proof.
  intros Hf Hr. unfold vsize. rewrite length_app, Hf.
  destruct (Nat.leb_spec (length rest) 55).
  - rewrite <- (Z.mod_unique _ 64 (- Z.of_nat n) (55 - Z.of_nat (length rest))); lia.
  - rewrite <- (Z.mod_unique _ 64 (- Z.of_nat n - 1) (119 - Z.of_nat (length rest))); lia.
Qed.

(** The digest of a message whose padded form is a whole number of blocks
    followed by the given closing blocks. *)
Lemma sha256_fold_split n full tail k msg :
  length full = (64 * n)%nat -> length tail = (64 * k)%nat ->
  sha256_pad msg = full ++ tail ->
  sha256_fold msg = MkDigest (concat (map store_be32
    (fold_left compress (blocks k tail)
       (fold_left compress (blocks n full) kInitialState)))).
Proof.
  intros Hf Ht E. unfold sha256_fold. rewrite E, length_app, Hf, Ht.
  replace ((64 * n + 64 * k) / 64)%nat with (n + k)%nat.
  - by rewrite blocks_app, fold_left_app.
  - rewrite <- Nat.mul_add_distr_l, Nat.mul_comm, Nat.div_mul; lia.
Qed.

(** The last block written by [finalize]: zeros up to byte 56, then the
    length. *)
Lemma final_block buf p L :
  Fronted buf p -> (length p <= 56)%nat -> length L = 8%nat ->
  splice (splice buf (vsize p) (replicate (Z.to_nat (56 - vsize p)) 0)) 56 L
  = p ++ replicate (56 - length p) 0 ++ L.
Proof.
  intros F Hp HL. set (z := replicate (Z.to_nat (56 - vsize p)) 0).
  assert (Hz : length z = (56 - length p)%nat)
    by (unfold z, vsize; rewrite length_replicate; lia).
  assert (F1 : Fronted (splice buf (vsize p) z) (p ++ z))
    by (apply Fronted_splice; [done | lia]).
  assert (F2 : Fronted (splice (splice buf (vsize p) z) (vsize (p ++ z)) L) ((p ++ z) ++ L)).
  { apply Fronted_splice; [done|]. rewrite length_app. lia. }
  replace (vsize (p ++ z)) with 56 in F2 by (unfold vsize; rewrite length_app; lia).
  rewrite (Fronted_full _ _ F2) by (rewrite !length_app; lia).
  rewrite <- app_assoc. unfold z, vsize. do 3 f_equal. lia.
Qed.

(** When the remainder leaves no room for the length, the block completed
    first. *)
Lemma overflow_block buf p :
  Fronted buf p -> (length p <= 64)%nat ->
  splice buf (vsize p) (replicate (Z.to_nat (64 - vsize p)) 0)
  = p ++ replicate (64 - length p) 0.
Proof.
  intros F Hp. unfold vsize. replace (Z.to_nat (64 - Z.of_nat (length p)))
    with (64 - length p)%nat by lia.
  apply Fronted_full; [apply Fronted_splice|rewrite length_app]; rewrite ?length_replicate; try done; lia.
Qed.

(** [finalize] produces the digest of the absorbed bytes: one closing block
    when the remainder leaves room for the length, two otherwise. *)
Lemma finalize_Absorbed h m :
  Absorbed h m -> vsize m <= u64_max / 8 ->
  fst (finalize h) = Value (sha256_fold m) /\ finalized_ (snd (finalize h)) = true.
Proof.
  intros ((n & full & rest & -> & Hfull & Hrest & Hst & Hb & Hl & Ht) & Hfin & Htot) Hsz.
  assert (E8 : u64_max / 8 = 2305843009213693951) by done.
  unfold finalize. rewrite Hfin. split; [|by case_match].
  rewrite Htot, wrap64_id by (unfold is_u64; pose proof (vsize_nonneg (full ++ rest)); lia).
  rewrite Hb, Z.mul_comm.
  pose proof (Fronted_splice (buffer_ h) rest [0x80] (conj Hl Ht) ltac:(cbn; lia)) as F1.
  pose proof (pad_zeros n full rest Hfull Hrest) as Hz.
  pose proof (length_be64_bytes (8 * vsize (full ++ rest))) as HL.
  set (p := rest ++ [0x80]) in *.
  assert (Hp : length p = S (length rest)) by (unfold p; rewrite length_app; cbn; lia).
  replace (vsize rest + 1) with (vsize p) by (unfold vsize; lia).
  cbn [buffer_ buffered_bytes_ upd state_ fst].
  destruct (56 <? vsize p) eqn:E56; cbn [buffer_ buffered_bytes_ upd state_];
    unfold vsize in E56.
  - rewrite overflow_block by (done || lia). change 0 with (vsize (@nil Z)) at 2 3.
    rewrite final_block; [| split; [rewrite length_app, length_replicate; lia | done] | cbn; lia | done].
    rewrite (sha256_fold_split n full ((p ++ replicate (64 - length p) 0) ++
               replicate 56 0 ++ be64_bytes (8 * vsize (full ++ rest))) 2); [|done|..].
    + rewrite <- Hst. cbn [blocks fold_left].
      rewrite take_app_length', drop_app_length' by (rewrite length_app, length_replicate; lia).
      rewrite (take_ge (_ ++ be64_bytes (8 * vsize (full ++ rest)))); [done|].
      by rewrite length_app, HL.
    + rewrite !length_app, length_replicate, HL. cbn. lia.
    + unfold sha256_pad. rewrite Hz, (proj2 (Nat.leb_gt _ _)) by lia.
      unfold p. rewrite <- !app_assoc. do 3 f_equal. rewrite app_assoc, <- replicate_add.
      do 2 f_equal. fold p. lia.
  - rewrite final_block by (done || lia).
    rewrite (sha256_fold_split n full (p ++ replicate (56 - length p) 0 ++
               be64_bytes (8 * vsize (full ++ rest))) 1); [|done|..].
    + rewrite <- Hst. cbn [blocks fold_left]. rewrite take_ge; [done|].
      rewrite !length_app, length_replicate, HL. lia.
    + rewrite !length_app, length_replicate, HL. lia.
    + unfold sha256_pad. rewrite Hz, (proj2 (Nat.leb_le _ _)) by lia.
      unfold p. rewrite <- !app_assoc. do 5 f_equal. fold p. lia.
Qed.

Lemma hash_chunks_Error chunks e : hash_chunks chunks = Error e -> ok e = false.
Proof.
  unfold hash_chunks. destruct (update_chain _ _) as [st h]. destruct (ok st) eqn:E; cbn [negb].
  - unfold finalize. destruct (finalized_ h); cbn [fst]; [|discriminate]. by intros [= <-].
  - by intros [= <-].
Qed.

(** The state words stay eight, so a digest has 32 bytes. *)
Lemma length_compress st b : length st = 8%nat -> length (compress st b) = 8%nat.
Proof. intros. with_strategy transparent [compress] unfold compress. rewrite length_zip_with. cbn. lia. Qed.

Lemma length_fold_compress bs st :
  length st = 8%nat -> length (fold_left compress bs st) = 8%nat.
Proof.
  revert st. induction bs; intros; cbn; [done|]. by apply IHbs, length_compress.
Qed.

Lemma store_be32_wf st : Forall is_byte (concat (map store_be32 st)).
Proof.
  induction st; cbn; [constructor|]. repeat constructor; try apply byte_of_range. done.
Qed.

Lemma length_store_be32 st : length (concat (map store_be32 st)) = (4 * length st)%nat.
Proof. induction st; cbn [map concat length]; [done|]. rewrite length_app, IHst. cbn. lia. Qed.

(** ** The code's functions and the standard's *)

Lemma testbit_small x k i : 0 <= x < 2 ^ k -> 0 <= k <= i -> Z.testbit x i = false.
Proof.
  intros Hx Hk. apply Z.testbit_false; [lia|]. rewrite Z.div_small; [done|].
  pose proof (Z.pow_le_mono_r 2 k i). lia.
Qed.

Lemma u32_testbit x i : is_u32 x -> 32 <= i -> Z.testbit x i = false.
Proof. intros Hx Hi. apply (testbit_small x 32); unfold is_u32 in *; lia. Qed.

Lemma is_u32_wrap z : is_u32 (wrap32 z).
Proof. unfold is_u32, wrap32. pose proof (Z.mod_pos_bound z 4294967296). lia. Qed.

Lemma bitwise3_u32 op x y z : is_u32 (Fips.bitwise3 op x y z).
Proof.
  pose proof (Fips.of_bits_range 32 (fun i => op (Z.testbit x i) (Z.testbit y i) (Z.testbit z i))) as H.
  unfold is_u32, Fips.bitwise3. change (2 ^ Z.of_nat 32) with 4294967296 in H. lia.
Qed.

(** An integer that agrees with [op] on the low 32 bits and has no other bit. *)
Lemma bitwise3_eq op x y z w :
  (forall i, 0 <= i < 32 -> Z.testbit w i = op (Z.testbit x i) (Z.testbit y i) (Z.testbit z i)) ->
  (forall i, 32 <= i -> Z.testbit w i = false) ->
  w = Fips.bitwise3 op x y z.
Proof.
  intros H1 H2. apply Z.bits_inj'. intros i Hi. unfold Fips.bitwise3. rewrite Fips.of_bits_testbit by done.
  destruct (Z.ltb_spec i (Z.of_nat 32)).
  - rewrite andb_true_r. apply H1. lia.
  - rewrite andb_false_r. apply H2. lia.
Qed.

Lemma parity_eq x y z :
  is_u32 x -> is_u32 y -> is_u32 z -> Z.lxor (Z.lxor x y) z = Fips.Parity x y z.
Proof.
  intros Hx Hy Hz. apply bitwise3_eq; intros i Hi; rewrite !Z.lxor_spec.
  - by rewrite xorb_assoc.
  - by rewrite !u32_testbit.
Qed.

Lemma majority_eq x y z :
  is_u32 x -> is_u32 y -> is_u32 z ->
  Z.lxor (Z.lxor (Z.land x y) (Z.land x z)) (Z.land y z) = Fips.Maj x y z.
Proof.
  intros Hx Hy Hz. apply bitwise3_eq; intros i Hi; rewrite !Z.lxor_spec, !Z.land_spec.
  - by destruct (Z.testbit x i), (Z.testbit y i), (Z.testbit z i).
  - by rewrite !u32_testbit.
Qed.

Lemma complement_testbit x i :
  is_u32 x -> 0 <= i -> Z.testbit (u32_max - x) i = negb (Z.testbit x i) && (i <? 32).
Proof.
  intros Hx Hi. change u32_max with (Z.ones 32). rewrite Z.sub_nocarry_ldiff.
  - rewrite Z.ldiff_spec, Z.testbit_ones_nonneg by lia. apply andb_comm.
  - apply Z.bits_inj'. intros j Hj. rewrite Z.ldiff_spec, Z.testbit_ones_nonneg, Z.bits_0 by lia.
    destruct (Z.ltb_spec j 32); [apply andb_false_r|]. by rewrite u32_testbit.
Qed.

Lemma choose_eq x y z :
  is_u32 x -> is_u32 y -> is_u32 z ->
  Z.lxor (Z.land x y) (Z.land (u32_max - x) z) = Fips.Ch x y z.
Proof.
  intros Hx Hy Hz. apply bitwise3_eq; intros i Hi;
    rewrite Z.lxor_spec, !Z.land_spec, complement_testbit by (done || lia).
  - rewrite (proj2 (Z.ltb_lt i 32)) by lia.
    by destruct (Z.testbit x i), (Z.testbit y i), (Z.testbit z i).
  - by rewrite (u32_testbit x), (u32_testbit z), andb_false_r.
Qed.

Lemma shiftr_u32 x n : is_u32 x -> 0 <= n -> is_u32 (Z.shiftr x n).
Proof.
  intros [H1 H2] Hn. rewrite Z.shiftr_div_pow2 by done. split; [apply Z.div_pos; lia|].
  pose proof (Z.div_le_upper_bound x (2 ^ n) x). nia.
Qed.

Lemma rotr_eq x n : is_u32 x -> 0 < n < 32 -> rotr x n = Fips.ROTR n x.
Proof.
  intros Hx Hn. unfold rotr, Fips.ROTR, Fips.word_bits, wrap32.
  rewrite Z.shiftr_div_pow2, Z.shiftl_mul_pow2 by lia.
  replace 4294967296 with (2 ^ n * 2 ^ (32 - n)).
  2:{ rewrite <- Z.pow_add_r by lia. by replace (n + (32 - n)) with 32 by lia. }
  rewrite Z.mul_mod_distr_r by lia.
  assert (Hlow : 0 <= x / 2 ^ n < 2 ^ (32 - n)).
  { split; [apply Z.div_pos; unfold is_u32 in Hx; lia|]. apply Z.div_lt_upper_bound; [lia|].
    rewrite <- Z.pow_add_r by lia. replace (n + (32 - n)) with 32 by lia. unfold is_u32 in Hx. lia. }
  rewrite <- Z.lxor_lor, <- Z.add_nocarry_lxor; [done|..];
    (apply Z.bits_inj'; intros i Hi; rewrite Z.land_spec, Z.bits_0, <- Z.shiftl_mul_pow2, Z.shiftl_spec by lia;
     destruct (Z.ltb_spec i (32 - n)); [rewrite (Z.testbit_neg_r _ (i - _)) by lia; apply andb_false_r|];
     by rewrite (testbit_small (x / 2 ^ n) (32 - n)) by lia).
Qed.

Lemma rotr_u32 x n : is_u32 x -> 0 < n < 32 -> is_u32 (rotr x n).
Proof.
  intros Hx Hn. split.
  - unfold rotr. apply Z.lor_nonneg. split; [apply Z.shiftr_nonneg, Hx|apply is_u32_wrap].
  - rewrite rotr_eq by done. unfold Fips.ROTR, Fips.word_bits.
    assert (H : x / 2 ^ n < 2 ^ (32 - n)).
    { apply Z.div_lt_upper_bound; [lia|]. rewrite <- Z.pow_add_r by lia.
      replace (n + (32 - n)) with 32 by lia. unfold is_u32 in Hx. lia. }
    pose proof (Z.mod_pos_bound x (2 ^ n) ltac:(lia)).
    assert (2 ^ n * 2 ^ (32 - n) = 4294967296)
      by (rewrite <- Z.pow_add_r by lia; by replace (n + (32 - n)) with 32 by lia).
    nia.
Qed.

(** Bytes of a word. *)
Lemma byte_of_shiftr x n : 0 <= n -> byte_of (Z.shiftr x n) = (x / 2 ^ n) mod 256.
Proof. intros Hn. unfold byte_of. by rewrite Z.shiftr_div_pow2. Qed.

Lemma store_be32_eq x : store_be32 x = Fips.be_bytes 4 x.
Proof.
  unfold store_be32. rewrite !byte_of_shiftr by lia. cbn [Fips.be_bytes app].
  by rewrite !Z.div_div by lia.
Qed.

Lemma be64_bytes_eq x : be64_bytes x = Fips.be_bytes 8 x.
Proof.
  unfold be64_bytes. cbn [seq map]. rewrite !byte_of_shiftr by lia. cbn [Fips.be_bytes app].
  rewrite !Z.div_div by lia. cbn. by rewrite Z.div_1_r.
Qed.

Lemma lor_byte a b : 0 <= a -> is_byte b -> Z.lor (a * 256) b = a * 256 + b.
Proof.
  intros Ha Hb. rewrite <- Z.lxor_lor, <- Z.add_nocarry_lxor; [done|..];
    (apply Z.bits_inj'; intros i Hi; change 256 with (2 ^ 8);
     rewrite Z.land_spec, Z.bits_0, <- Z.shiftl_mul_pow2, Z.shiftl_spec by lia;
     destruct (Z.ltb_spec i 8); [by rewrite Z.testbit_neg_r by lia|];
     unfold is_byte in Hb; rewrite (testbit_small b 8) by lia; apply andb_false_r).
Qed.

Lemma lor_shifted_byte a b n :
  0 <= a -> is_byte b -> 0 <= n -> Z.lor (a * (256 * 2 ^ n)) (b * 2 ^ n) = (a * 256 + b) * 2 ^ n.
Proof.
  intros Ha Hb Hn. rewrite Z.mul_assoc, <- !Z.shiftl_mul_pow2, <- Z.shiftl_lor by done. by rewrite lor_byte.
Qed.

Lemma load_be32_eq a b c d rest :
  is_byte a -> is_byte b -> is_byte c -> is_byte d ->
  load_be32 (a :: b :: c :: d :: rest) = Fips.be_value [a; b; c; d] /\ is_u32 (Fips.be_value [a; b; c; d]).
Proof.
  intros Ha Hb Hc Hd. unfold load_be32, Fips.be_value. cbn [foldl].
  change ((a :: b :: c :: d :: rest).[0]) with a. change ((a :: b :: c :: d :: rest).[1]) with b.
  change ((a :: b :: c :: d :: rest).[2]) with c. change ((a :: b :: c :: d :: rest).[3]) with d.
  split; [|unfold is_u32, is_byte in *; lia]. rewrite !Z.shiftl_mul_pow2 by lia.
  assert (0 <= a /\ 0 <= b /\ 0 <= c) as (? & ? & ?) by (unfold is_byte in *; lia).
  change (2 ^ 24) with (256 * 2 ^ 16). rewrite lor_shifted_byte by (done || lia).
  change (2 ^ 16) with (256 * 2 ^ 8). rewrite lor_shifted_byte by (done || lia).
  change (2 ^ 8) with 256. by rewrite lor_byte by (unfold is_byte in *; lia).
Qed.

(** ** The compression function is the standard's *)

Lemma vat_u32 l i : Forall is_u32 l -> is_u32 (l.[i]).
Proof.
  intros Hl. unfold vat.
  rewrite list_lookup_total_alt. destruct (l !! Z.to_nat i) as [x|] eqn:E; cbn.
  - by eapply Forall_lookup_1.
  - unfold is_u32. cbn. lia.
Qed.

Lemma vat_reverse {A} `{Inhabited A} (l : list A) i :
  0 <= i < vsize l -> (reverse l).[i] = l.[vsize l - 1 - i].
Proof.
  intros Hi. unfold vat, vsize in *. rewrite !list_lookup_total_alt, reverse_lookup by lia.
  do 3 f_equal. lia.
Qed.

Lemma add_words_eq ws z : foldr Z.add 0 ws = z -> Fips.add_words ws = wrap32 z.
Proof. by intros <-. Qed.

Lemma schedule_eq n : forall ws,
  (16 <= length ws)%nat -> Forall is_u32 ws ->
  fold_left schedule_step (map Z.of_nat (seq (length ws) n)) ws = Fips.schedule n (reverse ws) /\
  Forall is_u32 (Fips.schedule n (reverse ws)).
Proof.
  induction n as [|n IH]; intros ws Hl Hu; cbn [seq map fold_left Fips.schedule].
  { by rewrite reverse_involutive. }
  set (w := Fips.add_words _).
  assert (Es : schedule_step ws (Z.of_nat (length ws)) = ws ++ [w]).
  { unfold schedule_step. f_equal. f_equal. unfold w. rewrite !vat_reverse by (unfold vsize; lia).
    symmetry. apply add_words_eq. unfold vsize. cbn [foldr].
    replace (Z.of_nat (length ws) - 1 - 1) with (Z.of_nat (length ws) - 2) by lia.
    replace (Z.of_nat (length ws) - 1 - 6) with (Z.of_nat (length ws) - 7) by lia.
    replace (Z.of_nat (length ws) - 1 - 14) with (Z.of_nat (length ws) - 15) by lia.
    replace (Z.of_nat (length ws) - 1 - 15) with (Z.of_nat (length ws) - 16) by lia.
    pose proof (vat_u32 ws (Z.of_nat (length ws) - 2) Hu) as H2.
    pose proof (vat_u32 ws (Z.of_nat (length ws) - 15) Hu) as H15.
    rewrite !parity_eq by (apply rotr_u32 || apply shiftr_u32; (done || lia)).
    rewrite !rotr_eq, !Z.shiftr_div_pow2 by (done || lia). unfold Fips.sigma0, Fips.sigma1, Fips.SHR. lia. }
  rewrite Es. replace (w :: reverse ws) with (reverse (ws ++ [w])) by (by rewrite reverse_app).
  replace (S (length ws)) with (length (ws ++ [w])) by (rewrite length_app; cbn; lia).
  apply IH; [rewrite length_app; lia|]. apply Forall_app. split; [done|]. repeat constructor; apply is_u32_wrap.
Qed.

Lemma load_words n : forall k block,
  length block = (4 * (k + n))%nat -> Forall is_byte block ->
  map (fun i => load_be32 (drop (i * 4) block)) (seq k n) = map Fips.be_value (Fips.pieces 4 n (drop (k * 4) block)) /\
  Forall is_u32 (map Fips.be_value (Fips.pieces 4 n (drop (k * 4) block))).
Proof.
  induction n as [|n IH]; intros k block Hl Hb; cbn [seq map Fips.pieces]; [done|].
  destruct (IH (S k) block ltac:(lia) Hb) as [E Hu]. rewrite drop_drop.
  replace (k * 4 + 4)%nat with (S k * 4)%nat by lia. rewrite E.
  assert (Hd : length (drop (k * 4) block) = (4 + 4 * n)%nat) by (rewrite length_drop; lia).
  pose proof (Forall_drop _ (k * 4) _ Hb) as Hx. destruct (drop (k * 4) block) as [|a [|b [|c [|d r]]]]; try done.
  rewrite !Forall_cons in Hx. destruct Hx as (Ha & Hb' & Hc & Hd' & _).
  destruct (load_be32_eq a b c d r Ha Hb' Hc Hd') as [-> Hw]. cbn [take].
  split; [done|]. by constructor.
Qed.

Lemma pieces_length k n l : length (Fips.pieces k n l) = n.
Proof. revert l. induction n as [|n IH]; intros l; cbn; [done|]. by rewrite IH. Qed.

Lemma schedule_length n : forall ws, length (Fips.schedule n ws) = (n + length ws)%nat.
Proof.
  induction n as [|n IH]; intros ws; cbn [Fips.schedule]; [by rewrite length_reverse|].
  rewrite IH. cbn. lia.
Qed.

Definition tuple_of (w : working) : Z * Z * Z * Z * Z * Z * Z * Z :=
  let '(Working a b c d e f g h) := w in (a, b, c, d, e, f, g, h).

Definition working_u32 (w : working) : Prop :=
  let '(Working a b c d e f g h) := w in Forall is_u32 [a; b; c; d; e; f; g; h].

Lemma wrap32_wrap_l a b : wrap32 (wrap32 a + b) = wrap32 (a + b).
Proof. unfold wrap32. by rewrite Zplus_mod_idemp_l. Qed.

Lemma wrap32_wrap_r a b : wrap32 (a + wrap32 b) = wrap32 (a + b).
Proof. unfold wrap32. by rewrite Zplus_mod_idemp_r. Qed.

Lemma round_eq W w i :
  working_u32 w ->
  tuple_of (round_step W w i) = Fips.hash_round (tuple_of w) (kRoundConstants.[i], W.[i]) /\
  working_u32 (round_step W w i).
Proof.
  destruct w as [a b c d e f g h]. cbn [working_u32]. rewrite !Forall_cons.
  intros (Ha & Hb & Hc & Hd & He & Hf & Hg & Hh & _). split.
  - cbn [round_step tuple_of Fips.hash_round fst snd].
    rewrite !parity_eq by (apply rotr_u32; (done || lia)). rewrite majority_eq, choose_eq by done.
    rewrite !rotr_eq by (done || lia). rewrite wrap32_wrap_l, !wrap32_wrap_r.
    fold (Fips.Sigma0 a) (Fips.Sigma1 e).
    rewrite (add_words_eq _ (h + Fips.Sigma1 e + Fips.Ch e f g + kRoundConstants.[i] + W.[i] +
      (Fips.Sigma0 a + Fips.Maj a b c))) by (cbn [app foldr]; lia).
    by rewrite (add_words_eq _ (d + (h + Fips.Sigma1 e + Fips.Ch e f g + kRoundConstants.[i] + W.[i])))
      by (cbn [foldr]; lia).
  - cbn [round_step working_u32]. repeat (apply Forall_cons; split; [done || apply is_u32_wrap|]). done.
Qed.

Lemma rounds_eq W : forall n k w,
  working_u32 w -> length kRoundConstants = (k + n)%nat -> length W = (k + n)%nat ->
  let w' := fold_left (round_step W) (map Z.of_nat (seq k n)) w in
  tuple_of w' = foldl Fips.hash_round (tuple_of w) (zip (drop k kRoundConstants) (drop k W)) /\ working_u32 w'.
Proof.
  induction n as [|n IH]; intros k w Hw HK HW; cbn [seq map fold_left].
  - by rewrite (drop_ge W) by lia; rewrite zip_with_nil_r.
  - destruct (round_eq W w (Z.of_nat k) Hw) as [E Hw'].
    destruct (IH (S k) _ Hw' ltac:(lia) ltac:(lia)) as [E2 H2]. cbn zeta. split; [|done].
    rewrite E2, E.
    rewrite (drop_S kRoundConstants (kRoundConstants.[Z.of_nat k]) k),
      (drop_S W (W.[Z.of_nat k]) k); [done|..];
      unfold vat; rewrite Nat2Z.id; apply list_lookup_lookup_total_lt; lia.
Qed.

Lemma kRoundConstants_eq : kRoundConstants = Fips.K.
Proof. by vm_compute. Qed.

Lemma kInitialState_eq : kInitialState = Fips.H0.
Proof. by vm_compute. Qed.

Lemma compress_eq st block :
  length st = 8%nat -> Forall is_u32 st -> length block = 64%nat -> Forall is_byte block ->
  compress st block = Fips.hash_block st block /\ Forall is_u32 (compress st block).
Proof.
  intros Hl Hst Hbl Hb. with_strategy transparent [compress] unfold compress. unfold Fips.hash_block.
  destruct (load_words 16 0 block Hbl Hb) as [Ew Hw]. change (drop (0 * 4) block) with block in Ew, Hw.
  unfold message_schedule. rewrite Ew. set (ws := map Fips.be_value _) in *.
  assert (Hws : length ws = 16%nat) by (unfold ws; by rewrite length_map, pieces_length).
  destruct (schedule_eq 48 ws ltac:(lia) Hw) as [Es Hs]. rewrite Hws in Es. rewrite Es.
  set (W := Fips.schedule _ _) in *.
  assert (HW : length W = 64%nat) by (unfold W; by rewrite schedule_length, length_reverse, Hws).
  clearbody W. do 8 (destruct st as [|? st]; [discriminate Hl|]). destruct st; [|discriminate Hl].
  cbv [vat lookup_total list_lookup_total Z.to_nat Pos.to_nat Pos.iter_op Nat.add].
  destruct (rounds_eq W 64 0 (Working z z0 z1 z2 z3 z4 z5 z6) Hst eq_refl HW) as [Er _].
  rewrite kRoundConstants_eq, !drop_0 in Er. cbn [tuple_of] in Er.
  rewrite <- Er. destruct (fold_left (round_step W) _ _) as [a b c d e f g h]. cbn [tuple_of zip_with wa wb wc wd we wf wg wh].
  assert (E2 : forall x y, Fips.add_words [x; y] = wrap32 (x + y)) by (intros x y; apply add_words_eq; cbn; lia).
  rewrite !E2. split; [reflexivity|].
  repeat (apply Forall_cons; split; [apply is_u32_wrap|]). done.
Qed.

Lemma blocks_eq n l : blocks n l = Fips.pieces 64 n l.
Proof. revert l. induction n as [|n IH]; intros l; cbn; [done|]. by rewrite IH. Qed.

Lemma fold_compress_eq n : forall l st,
  length st = 8%nat -> Forall is_u32 st -> length l = (64 * n)%nat -> Forall is_byte l ->
  fold_left compress (blocks n l) st = foldl Fips.hash_block st (Fips.pieces 64 n l).
Proof.
  induction n as [|n IH]; intros l st Hl Hst Hn Hb; [done|]. cbn [blocks Fips.pieces fold_left foldl].
  destruct (compress_eq st (take 64 l)) as [E Hu]; [done|done|rewrite length_take; lia|by apply Forall_take|].
  rewrite IH; [by rewrite E|by apply length_compress|done|rewrite length_drop; lia|by apply Forall_drop].
Qed.

Lemma sha256_pad_length msg : exists n, length (sha256_pad msg) = (64 * n)%nat.
Proof.
  exists (Z.to_nat ((vsize msg + 72) / 64)). unfold sha256_pad. rewrite !length_app, length_replicate, length_be64_bytes.
  cbn [length]. pose proof (vsize_nonneg msg). unfold vsize in *.
  assert (E : (55 - Z.of_nat (length msg)) mod 64 = 55 - Z.of_nat (length msg) + 64 * ((Z.of_nat (length msg) + 8) / 64)).
  { symmetry. apply Z.mod_unique with (- ((Z.of_nat (length msg) + 8) / 64)); [|lia].
    pose proof (Z.div_mod (Z.of_nat (length msg) + 8) 64). pose proof (Z.mod_pos_bound (Z.of_nat (length msg) + 8) 64). lia. }
  pose proof (Z.div_mod (Z.of_nat (length msg) + 8) 64). pose proof (Z.mod_pos_bound (Z.of_nat (length msg) + 8) 64).
  replace (Z.of_nat (length msg) + 72) with (Z.of_nat (length msg) + 8 + 1 * 64) by lia.
  rewrite Z.div_add by lia. lia.
Qed.

Lemma sha256_pad_bytes msg : Forall is_byte msg -> Forall is_byte (sha256_pad msg).
Proof.
  intros Hm. unfold sha256_pad. rewrite be64_bytes_eq, !Forall_app. split_and!; [done| | |apply Fips.be_bytes_range].
  - repeat constructor; done.
  - by apply Forall_replicate.
Qed.

(** On bytes, the fold of [compress] is the digest of the standard. *)
Lemma sha256_fold_eq msg : Forall is_byte msg -> sha256_fold msg = sha256_spec msg.
Proof.
  intros Hm. unfold sha256_fold, sha256_spec, Fips.fips_sha256.
  assert (Ep : Fips.pad msg = sha256_pad msg) by (unfold Fips.pad, sha256_pad; by rewrite be64_bytes_eq).
  rewrite Ep, <- kInitialState_eq. destruct (sha256_pad_length msg) as [n Hn].
  rewrite Hn, (Nat.mul_comm 64), Nat.div_mul, fold_compress_eq; [|done|..|by apply sha256_pad_bytes|done].
  - f_equal. f_equal. apply map_ext. apply store_be32_eq.
  - repeat constructor; done.
  - lia.
Qed.

Lemma sha256_spec_wf m : digest_wf (sha256_spec m).
Proof. split; [apply Fips.fips_sha256_length|apply Fips.fips_sha256_bytes]. Qed.

Lemma hash_chunks_eq chunks :
  vsize (concat chunks) <= u64_max / 8 -> Forall is_byte (concat chunks) ->
  hash_chunks chunks = Value (sha256_spec (concat chunks)).
Proof.
  intros Hsz Hb. unfold hash_chunks.
  destruct (update_chain_Absorbed chunks _ [] Absorbed_new Hsz) as (h & -> & Hh).
  cbn [ok negb code]. rewrite <- sha256_fold_eq by done. by apply finalize_Absorbed.
Qed.

(** ** Hexadecimal text *)

(** The loop over [value[2 i]], [value[2 i + 1]]; [None] is the early return on
    a character that is not lowercase hexadecimal. *)
Fixpoint parse_pairs (cs : list ascii) : option (list Z) :=
  match cs with
  | hi :: lo :: rest =>
      let high := nibble hi in
      let low := nibble lo in
      if (high <? 0) || (low <? 0) then None
      else match parse_pairs rest with
           | Some bs => Some (Z.lor (Z.shiftl high 4) low :: bs)
           | None => None
           end
  | _ => Some []
  end.

Definition ParseHex (value : string) : Result Sha256Digest :=
  if negb (String.length value =? 64)%nat
  then Error (InvalidArgument "SHA-256 text must contain exactly 64 digits")
  else match parse_pairs (String.list_ascii_of_string value) with
       | Some bs => Value (MkDigest bs)
       | None => Error (InvalidArgument "SHA-256 text must be lowercase hexadecimal")
       end.

Definition kHex : list ascii := String.list_ascii_of_string "0123456789abcdef".

Definition hex_pair (v : Z) : list ascii :=
  [nth (Z.to_nat (Z.shiftr v 4)) kHex "0"%char;
   nth (Z.to_nat (Z.land v 15)) kHex "0"%char].

Definition hex (d : Sha256Digest) : string :=
  String.string_of_list_ascii (concat (map hex_pair (bytes d))).

(** Facts about all 256 byte values, checked by evaluation. *)
Lemma forall_byte (P : Z -> bool) :
  forallb (fun n => P (Z.of_nat n)) (seq 0 256) = true -> forall b, is_byte b -> P b = true.
Proof.
  unfold is_byte. intros H b Hb. rewrite forallb_forall in H.
  specialize (H (Z.to_nat b)). rewrite Z2Nat.id in H by lia. apply H, in_seq. lia.
Qed.

Definition pair_round_trip (b : Z) : bool :=
  match hex_pair b with
  | [hi; lo] => (0 <=? nibble hi) && (0 <=? nibble lo) &&
                (Z.lor (Z.shiftl (nibble hi) 4) (nibble lo) =? b)
  | _ => false
  end.

Lemma hex_pair_round_trip b : is_byte b -> pair_round_trip b = true.
Proof. by apply forall_byte; vm_compute. Qed.

Lemma parse_pairs_hex bs :
  Forall is_byte bs -> parse_pairs (concat (map hex_pair bs)) = Some bs.
Proof.
  induction 1 as [|b bs Hb _ IH]; [done|].
  pose proof (hex_pair_round_trip b Hb) as H. unfold pair_round_trip, hex_pair in H.
  cbn [map concat hex_pair app parse_pairs].
  destruct (_ || _) eqn:E; [lia|]. rewrite IH. do 2 f_equal. lia.
Qed.

(** A character parses as a nibble only if it is the digit [hex] writes. *)
Lemma nibble_hex c : 0 <= nibble c -> 0 <= nibble c < 16 /\ nth (Z.to_nat (nibble c)) kHex "0"%char = c.
Proof.
  assert (H : forallb (fun n => let c := ascii_of_nat n in
    (nibble c <? 0) || ((nibble c <? 16) &&
      Ascii.eqb (nth (Z.to_nat (nibble c)) kHex "0"%char) c)) (seq 0 256) = true)
    by (by vm_compute).
  rewrite forallb_forall in H. specialize (H (nat_of_ascii c)).
  rewrite ascii_nat_embedding in H. cbn zeta in H.
  specialize (H ltac:(apply in_seq; pose proof (nat_ascii_bounded c); lia)).
  intros Hc. apply orb_true_iff in H as [H|H]; [lia|].
  apply andb_true_iff in H as [H1 H2]. apply Ascii.eqb_eq in H2. split; [lia|done].
Qed.

Lemma hex_pair_of_nibbles hi lo :
  0 <= hi < 16 -> 0 <= lo < 16 ->
  Z.shiftr (Z.lor (Z.shiftl hi 4) lo) 4 = hi /\ Z.land (Z.lor (Z.shiftl hi 4) lo) 15 = lo /\
  is_byte (Z.lor (Z.shiftl hi 4) lo).
Proof.
  intros Hh Hl.
  assert (H : forallb (fun b => let v := Z.lor (Z.shiftl (b / 16) 4) (b mod 16) in
    (Z.shiftr v 4 =? b / 16) && (Z.land v 15 =? b mod 16) && (0 <=? v) && (v <? 256))
    (map Z.of_nat (seq 0 256)) = true) by (by vm_compute).
  rewrite forallb_forall in H. specialize (H (16 * hi + lo)).
  rewrite Z.mul_comm, Z.div_add_l, (Z.add_comm _ lo), Z.mod_add, Z.div_small, Z.mod_small,
    Z.add_0_r in H by lia.
  unfold is_byte. cbn zeta in H.
  assert (In (lo + hi * 16) (map Z.of_nat (seq 0 256))) as Hin.
  { apply in_map_iff. exists (Z.to_nat (lo + hi * 16)). rewrite in_seq. lia. }
  specialize (H Hin). lia.
Qed.

Lemma hex_parse_pairs : forall cs bs,
  parse_pairs cs = Some bs -> Nat.even (length cs) = true ->
  concat (map hex_pair bs) = cs /\ Forall is_byte bs /\ length cs = (2 * length bs)%nat.
Proof.
  fix IH 1. intros [|hi [|lo cs]] bs Hp He; [injection Hp as <-; done | done |].
  cbn [parse_pairs] in Hp. destruct (_ || _) eqn:E; [done|].
  destruct (parse_pairs cs) as [bs'|] eqn:Ep; [|done]. injection Hp as <-.
  destruct (IH _ _ Ep He) as (IH1 & IH2 & IH3).
  destruct (nibble_hex hi) as [Hhi Ehi]; [lia|]. destruct (nibble_hex lo) as [Hlo Elo]; [lia|].
  destruct (hex_pair_of_nibbles _ _ Hhi Hlo) as (E1 & E2 & Hb).
  cbn [map concat length]. unfold hex_pair at 1. rewrite E1, E2, Ehi, Elo, IH1.
  split; [done|]. split; [by constructor | lia].
Qed.

Lemma length_list_ascii s : length (String.list_ascii_of_string s) = String.length s.
Proof. induction s; cbn; congruence. Qed.

Lemma length_hex_pairs bs : length (concat (map hex_pair bs)) = (2 * length bs)%nat.
Proof. induction bs; cbn [map concat length]; [done|]. rewrite length_app, IHbs. cbn. lia. Qed.

(** ** Little-endian wire integers

    [update_u32] and [update_u64] of the controller sources feed these bytes to
    a hasher. *)
Definition le_bytes (n : nat) (value : Z) : list Z :=
  map (fun i => byte_of (Z.shiftr value (Z.of_nat i * 8))) (seq 0 n).

Definition le32 (value : Z) : list Z := le_bytes 4 value.
Definition le64 (value : Z) : list Z := le_bytes 8 value.

Fixpoint le_value (l : list Z) : Z :=
  match l with [] => 0 | b :: l => b + 256 * le_value l end.

Lemma length_le_bytes n v : length (le_bytes n v) = n.
Proof. unfold le_bytes. by rewrite length_map, length_seq. Qed.

Lemma length_le32 v : length (le32 v) = 4%nat.
Proof. apply length_le_bytes. Qed.

Lemma length_le64 v : length (le64 v) = 8%nat.
Proof. apply length_le_bytes. Qed.

Lemma le_bytes_S n v : le_bytes (S n) v = byte_of v :: le_bytes n (Z.shiftr v 8).
Proof.
  unfold le_bytes. cbn [seq map]. rewrite Z.shiftr_0_r. f_equal.
  rewrite <- seq_shift, map_map. apply map_ext. intros i.
  rewrite Z.shiftr_shiftr by lia. do 2 f_equal. lia.
Qed.

Lemma le_value_le_bytes n v : le_value (le_bytes n v) = v mod 2 ^ (8 * Z.of_nat n).
Proof.
  revert v. induction n as [|n IH]; intros v; [cbn; by rewrite Z.mod_1_r|].
  rewrite le_bytes_S. cbn [le_value]. rewrite IH, Z.shiftr_div_pow2 by lia.
  replace (8 * Z.of_nat (S n)) with (8 + 8 * Z.of_nat n) by lia.
  rewrite Z.pow_add_r, Z.rem_mul_r by lia. done.
Qed.

Lemma le_bytes_inj n v w :
  0 <= v < 2 ^ (8 * Z.of_nat n) -> 0 <= w < 2 ^ (8 * Z.of_nat n) ->
  le_bytes n v = le_bytes n w -> v = w.
Proof.
  intros Hv Hw E. apply (f_equal le_value) in E. rewrite !le_value_le_bytes in E.
  by rewrite !Z.mod_small in E.
Qed.

Lemma le32_inj v w : is_u32 v -> is_u32 w -> le32 v = le32 w -> v = w.
Proof.
  unfold is_u32. intros ? ?. apply le_bytes_inj; change (2 ^ (8 * Z.of_nat 4)) with 4294967296; lia.
Qed.

Lemma le64_inj v w : is_u64 v -> is_u64 w -> le64 v = le64 w -> v = w.
Proof.
  unfold is_u64. intros ? ?.
  apply le_bytes_inj; change (2 ^ (8 * Z.of_nat 8)) with 18446744073709551616; lia.
Qed.

Definition text_bytes (s : string) : list Z :=
  map (fun c => Z.of_nat (nat_of_ascii c)) (String.list_ascii_of_string s).

Lemma length_text_bytes s : length (text_bytes s) = String.length s.
Proof. unfold text_bytes. by rewrite length_map, length_list_ascii. Qed.

Lemma text_bytes_inj s t : text_bytes s = text_bytes t -> s = t.
Proof.
  unfold text_bytes. intros E. rewrite <- (String.string_of_list_ascii_of_string s),
    <- (String.string_of_list_ascii_of_string t). f_equal. revert E.
  generalize (String.list_ascii_of_string s), (String.list_ascii_of_string t).
  induction l; intros [|]; cbn; try done. intros [= E1 E2]. f_equal; [|by apply IHl].
  rewrite <- (ascii_nat_embedding a), <- (ascii_nat_embedding a0). f_equal. lia.
Qed.

(** Peeling a wire format: equal concatenations of equally long pieces have
    equal pieces. *)
Lemma wire_app_inj (a b x y : list Z) :
  a ++ x = b ++ y -> length a = length b -> a = b /\ x = y.
Proof. intros H Hl. by apply app_inj_1 in H. Qed.

(** Lists of 32-bit integers on the wire. *)
Lemma length_concat_le32 l : length (concat (map le32 l)) = (4 * length l)%nat.
Proof.
  induction l as [|x l IH]; [done|]. cbn [map concat length]. rewrite length_app, IH, length_le32. lia.
Qed.

Lemma le32s_inj ts us :
  Forall is_u32 ts -> Forall is_u32 us -> length ts = length us ->
  concat (map le32 ts) = concat (map le32 us) -> ts = us.
Proof.
  intros Ht. revert us. induction Ht as [|x ts Hx Ht IH]; intros us Hu EL E.
  - by destruct us.
  - destruct us as [|u us]; [done|].
    cbn [map concat] in E. apply wire_app_inj in E as [E1 E]; [|by rewrite !length_le32].
    inversion Hu; subst. f_equal; [by apply le32_inj|]. apply IH; [done| |done]. by injection EL.
Qed.

Lemma concat_concat_map {A} (f : A -> list (list Z)) l :
  concat (concat (map f l)) = concat (map (fun i => concat (f i)) l).
Proof. induction l; cbn; [done|]. by rewrite concat_app, IHl. Qed.

Lemma wire_rows_inj (f g : nat -> list Z) k n s x y :
  (forall i, (s <= i < s + n)%nat -> length (f i) = k /\ length (g i) = k) ->
  concat (map f (seq s n)) ++ x = concat (map g (seq s n)) ++ y ->
  (forall i, (s <= i < s + n)%nat -> f i = g i) /\ x = y.
Proof.
  revert s. induction n as [|n IH]; intros s Hk; cbn [seq map concat app].
  - intros ->. split; [lia | done].
  - rewrite <- !app_assoc. intros E.
    destruct (Hk s ltac:(lia)) as [H1 H2].
    apply wire_app_inj in E as [E1 E2]; [|congruence].
    apply IH in E2 as [E2 ->]; [|intros; apply Hk; lia].
    split; [|done]. intros i Hi. destruct (Nat.eq_dec i s) as [->|]; [done|]. apply E2. lia.
Qed.

(** The encoders produce bytes. *)
Lemma le_bytes_bytes n v : Forall is_byte (le_bytes n v).
Proof. unfold le_bytes. apply Forall_map, Forall_true. intros. apply byte_of_range. Qed.

Lemma le32_bytes v : Forall is_byte (le32 v).
Proof. apply le_bytes_bytes. Qed.

Lemma le64_bytes v : Forall is_byte (le64 v).
Proof. apply le_bytes_bytes. Qed.

Lemma text_bytes_bytes s : Forall is_byte (text_bytes s).
Proof.
  unfold text_bytes. apply Forall_map, Forall_true. intros c. unfold is_byte.
  pose proof (nat_ascii_bounded c). cbn. lia.
Qed.

Lemma digest_bytes d : digest_wf d -> Forall is_byte (bytes d).
Proof. apply proj2. Qed.

Lemma Forall_concat_map {A} (P : Z -> Prop) (f : A -> list Z) l :
  (forall x, x ∈ l -> Forall P (f x)) -> Forall P (concat (map f l)).
Proof.
  induction l as [|x l IH]; intros H; cbn; [done|]. apply Forall_app. split.
  - apply H. by left.
  - apply IH. intros y Hy. apply H. by right.
Qed.

#[export] Hint Resolve le32_bytes le64_bytes text_bytes_bytes digest_bytes : pih.

(** [peel_le64 E as F]: split off a leading [le64] field of the wire equation [E]
    and conclude [F], the equality of the two field values. *)
Ltac peel_le64 E F :=
  apply wire_app_inj in E as [F E]; [apply le64_inj in F | by rewrite !length_le64].

(** ** Theorems *)

(** Known answers of the standard: the digests of the empty string, of "abc"
    and of the two-block message. *)
Example sha256_abc :
  sha256 (text_bytes "abc") =
  ParseHex "ba7816bf8f01cfea414140de5dae2223b00361a396177a9cb410ff61f20015ad".
Proof. by vm_compute. Qed.

Example sha256_empty :
  sha256 [] = ParseHex "e3b0c44298fc1c149afbf4c8996fb92427ae41e4649b934ca495991b7852b855".
Proof. by vm_compute. Qed.

Example sha256_two_blocks :
  hash_chunks [text_bytes "abcdbcdecdefdefgefghfghighij";
               text_bytes "hijkijkljklmklmnlmnomnopnopq"] =
  ParseHex "248d6a61d20638b8e5c026930c3e6039a33ce45964ff2167f6ecedd419db06c1".
Proof. by vm_compute. Qed.

(** C12. However a message of bytes is cut into [update] calls, if its length fits the
    64-bit bit counter then every call succeeds and [finalize] returns the digest of the
    concatenation as FIPS 180-4 defines it (in [Fips180], which shares nothing with the
    code: constants from the roots of the primes, logical functions bit by bit); the
    hasher is then closed: it rejects further [update] and [finalize] calls
    unchanged. *)
Theorem sha256_incremental_correct (chunks : list (list Z))
  (Hlen : vsize (concat chunks) <= u64_max / 8) (Hbytes : Forall is_byte (concat chunks)) :
  exists h,
    update_chain Sha256_new chunks = (StatusOk, h) /\
    fst (finalize h) = Value (MkDigest (Fips.fips_sha256 (concat chunks))) /\
    let h' := snd (finalize h) in
    (forall input, update h' input =
       (FailedPrecondition "SHA-256 state is already finalized", h')) /\
    finalize h' = (Error (FailedPrecondition "SHA-256 state is already finalized"), h').
Proof.
  destruct (update_chain_Absorbed chunks _ [] Absorbed_new Hlen) as (h & Hu & Hh).
  exists h. destruct (finalize_Absorbed _ _ Hh Hlen) as [Hd Hf].
  split; [done|]. split; [rewrite Hd; f_equal; by apply sha256_fold_eq|].
  revert Hf. generalize (snd (finalize h)) as h'. intros h' Hf. unfold update, finalize. by rewrite Hf.
Qed.

Lemma sha256_incremental_correct_witness :
  let chunks := [text_bytes "pih"; replicate 130 7; []; [1; 2]] in
  vsize (concat chunks) <= u64_max / 8 /\ Forall is_byte (concat chunks) /\
  exists h, update_chain Sha256_new chunks = (StatusOk, h) /\
    fst (finalize h) = Value (MkDigest (Fips.fips_sha256 (concat chunks))).
Proof.
  intros chunks. assert (H : vsize (concat chunks) <= u64_max / 8) by (vm_compute; discriminate).
  assert (Hb : Forall is_byte (concat chunks)).
  { apply List.Forall_forall. intros b Hb.
    assert (E : forallb (fun b => (0 <=? b) && (b <? 256)) (concat chunks) = true) by (vm_compute; reflexivity).
    rewrite List.forallb_forall in E. specialize (E b Hb). unfold is_byte. lia. }
  split; [exact H|]. split; [exact Hb|].
  destruct (sha256_incremental_correct chunks H Hb) as (h & H1 & H2 & _).
  exists h. split; [exact H1 | exact H2].
Defined.

(** Digest text round-trips: [ParseHex] inverts [hex] on every 32-byte
    digest, and a string it accepts is exactly the [hex] of the digest it
    returns, so the accepted texts are the 64-digit lowercase ones and no digest
    has two. *)
Theorem hex_ParseHex_round_trip :
  (forall d, digest_wf d -> ParseHex (hex d) = Value d) /\
  (forall s d, ParseHex s = Value d -> hex d = s /\ digest_wf d).
Proof.
  split.
  - intros d [Hl Hb]. unfold ParseHex, hex.
    rewrite <- length_list_ascii, !String.list_ascii_of_string_of_list_ascii, parse_pairs_hex,
      length_hex_pairs, Hl by done. by destruct d.
  - intros s d. unfold ParseHex. destruct (String.length s =? 64)%nat eqn:E; [|done]. cbn [negb].
    destruct (parse_pairs _) as [bs|] eqn:Ep; [|done]. intros [= <-].
    apply Nat.eqb_eq in E. rewrite <- length_list_ascii in E.
    destruct (hex_parse_pairs _ _ Ep) as (H1 & H2 & H3); [by rewrite E|].
    unfold hex, digest_wf. cbn [bytes]. rewrite H1, String.string_of_list_ascii_of_string.
    split; [done|]. split; [lia | done].
Qed.

(** Clients reason about digests through the lemmas above; evaluation by the
    virtual machine is unaffected. *)
#[global] Opaque sha256_spec hash_chunks update finalize.
