(* ===== verification/TokenPlan.v ===== *)
(** * Packed token plans

    Models [include/pih/model/packed_token_plan.h] and
    [plugins/execution-default/packed_token_plan.cpp]: the immutable description
    of one homogeneous-phase batch, built and validated by
    [PackedTokenPlan::Create], and its canonical digest. *)

From stdpp Require Import gmap.
From S2P Require Import Prelude Core Sha256.

Inductive PackedTokenPhase := kPrefill | kDecode | kVerify.

#[export] Instance PackedTokenPhase_eq_dec : EqDecision PackedTokenPhase.
Proof. solve_decision. Defined.

(** The underlying value of the enumerator. *)
Definition phase_value (p : PackedTokenPhase) : Z :=
  match p with kPrefill => 1 | kDecode => 2 | kVerify => 3 end.

Definition phase_eqb (p q : PackedTokenPhase) : bool := phase_value p =? phase_value q.

Lemma phase_eqb_true p q : phase_eqb p q = true <-> p = q.
Proof. by destruct p, q. Qed.

Lemma phase_eqb_false p q : phase_eqb p q = false <-> p <> q.
Proof. by destruct p, q. Qed.

Definition valid_phase (phase : PackedTokenPhase) : bool :=
  phase_eqb phase kPrefill || phase_eqb phase kDecode || phase_eqb phase kVerify.

Record PackedSequenceInput := MkSequenceInput {
  psi_sequence_generation : Z;
  psi_committed_start_position : Z;
  psi_real_token_count : Z;
  psi_state_generation : Z;
  psi_input_digest : Sha256Digest }.

#[export] Instance PackedSequenceInput_inhabited : Inhabited PackedSequenceInput :=
  populate (MkSequenceInput 0 0 0 0 zero_digest).

Record PackedTokenPlanLimits := MkPlanLimits {
  ptl_maximum_sequences : Z;
  ptl_maximum_real_tokens : Z;
  ptl_maximum_execution_bucket_tokens : Z }.

Record PackedTokenPlan := MkPlan {
  pp_epoch : Z;
  pp_plan_sequence : Z;
  pp_phase : PackedTokenPhase;
  pp_profile_revision : string;
  pp_resource_vector_hash : Sha256Digest;
  pp_sequence_generations : list Z;
  pp_committed_start_positions : list Z;
  pp_real_token_counts : list Z;
  pp_packed_offsets : list Z;
  pp_state_generations : list Z;
  pp_input_digests : list Sha256Digest;
  pp_total_real_tokens : Z;
  pp_execution_bucket_tokens : Z }.

Definition pp_sequence_count (p : PackedTokenPlan) : Z := vsize (pp_sequence_generations p).

(** ** [PackedTokenPlan::Create] *)

(** The vectors filled by the validation loop, with the set of generations
    seen and the running total. *)
Record plan_acc := MkPlanAcc {
  pa_generations : list Z;
  pa_starts : list Z;
  pa_counts : list Z;
  pa_offsets : list Z;
  pa_state_generations : list Z;
  pa_input_digests : list Sha256Digest;
  pa_unique : gset Z;
  pa_total : Z }.

Definition plan_acc_init : plan_acc := MkPlanAcc [] [] [] [0] [] [] ∅ 0.

Definition sequence_invalid (phase : PackedTokenPhase) (unique : gset Z)
    (s : PackedSequenceInput) : bool :=
  (psi_sequence_generation s =? 0) || (psi_state_generation s =? 0) ||
  negb (digest_nonzero (psi_input_digest s)) ||
  (psi_real_token_count s =? 0) ||
  bool_decide (psi_sequence_generation s ∈ unique) ||
  (phase_eqb phase kDecode && negb (psi_real_token_count s =? 1)) ||
  (phase_eqb phase kVerify && (psi_real_token_count s >? 5)).

Definition plan_push (acc : plan_acc) (s : PackedSequenceInput) (total : Z) : plan_acc :=
  MkPlanAcc (pa_generations acc ++ [psi_sequence_generation s])
            (pa_starts acc ++ [psi_committed_start_position s])
            (pa_counts acc ++ [psi_real_token_count s])
            (pa_offsets acc ++ [wrap32 total])
            (pa_state_generations acc ++ [psi_state_generation s])
            (pa_input_digests acc ++ [psi_input_digest s])
            ({[psi_sequence_generation s]} ∪ pa_unique acc)
            total.

Fixpoint plan_loop (phase : PackedTokenPhase) (limits : PackedTokenPlanLimits)
    (sequences : list PackedSequenceInput) (acc : plan_acc) : Result plan_acc :=
  match sequences with
  | [] => Value acc
  | s :: rest =>
      if sequence_invalid phase (pa_unique acc) s
      then Error (InvalidArgument "packed token sequence is invalid")
      else match checked_add_u64 (pa_total acc) (psi_real_token_count s) with
           | Value next =>
               if (next >? ptl_maximum_real_tokens limits) || (next >? u32_max)
               then Error (ResourceExhausted "packed real token prefix exceeds its bound")
               else plan_loop phase limits rest (plan_push acc s next)
           | Error _ =>
               Error (ResourceExhausted "packed real token prefix exceeds its bound")
           end
  end.

Definition plan_identity_invalid (epoch plan_sequence : Z) (phase : PackedTokenPhase)
    (profile_revision : string) (resource_vector_hash : Sha256Digest)
    (sequences : list PackedSequenceInput) (execution_bucket_tokens : Z)
    (limits : PackedTokenPlanLimits) : bool :=
  (epoch =? 0) || (plan_sequence =? 0) || negb (valid_phase phase) ||
  (Z.of_nat (String.length profile_revision) =? 0) ||
  (Z.of_nat (String.length profile_revision) >? 128) ||
  negb (digest_nonzero resource_vector_hash) ||
  (vsize sequences =? 0) || (ptl_maximum_sequences limits =? 0) ||
  (ptl_maximum_real_tokens limits =? 0) ||
  (ptl_maximum_execution_bucket_tokens limits =? 0) ||
  (vsize sequences >? ptl_maximum_sequences limits) ||
  (execution_bucket_tokens =? 0) ||
  (execution_bucket_tokens >? ptl_maximum_execution_bucket_tokens limits).

Definition PackedTokenPlan_Create (epoch plan_sequence : Z) (phase : PackedTokenPhase)
    (profile_revision : string) (resource_vector_hash : Sha256Digest)
    (sequences : list PackedSequenceInput) (execution_bucket_tokens : Z)
    (limits : PackedTokenPlanLimits) : Result PackedTokenPlan :=
  if plan_identity_invalid epoch plan_sequence phase profile_revision
       resource_vector_hash sequences execution_bucket_tokens limits
  then Error (InvalidArgument "packed token plan identity is invalid")
  else
    let? acc := plan_loop phase limits sequences plan_acc_init in
    if execution_bucket_tokens <? pa_total acc
    then Error (InvalidArgument "execution bucket is smaller than real tokens")
    else Value (MkPlan epoch plan_sequence phase profile_revision resource_vector_hash
                  (pa_generations acc) (pa_starts acc) (pa_counts acc) (pa_offsets acc)
                  (pa_state_generations acc) (pa_input_digests acc)
                  (wrap32 (pa_total acc)) execution_bucket_tokens).

(** ** [PackedTokenPlan::semantic_digest] *)

Definition kPlanAbi : string := "homogeneous_phase_real_tokens_v1".

(** [update_bytes]: the length as a [u64], then the text. *)
Definition sized_text (s : string) : list (list Z) :=
  [le64 (Z.of_nat (String.length s)); text_bytes s].

Definition plan_row (p : PackedTokenPlan) (index : Z) : list (list Z) :=
  [le64 ((pp_sequence_generations p).[index]);
   le64 ((pp_committed_start_positions p).[index]);
   le64 ((pp_real_token_counts p).[index]);
   le64 ((pp_packed_offsets p).[index]);
   le64 ((pp_state_generations p).[index]);
   bytes ((pp_input_digests p).[index])].

(** The bytes fed to the hasher, one element per [update] call. *)
Definition plan_wire (p : PackedTokenPlan) : list (list Z) :=
  sized_text kPlanAbi ++
  map le64 [pp_epoch p; pp_plan_sequence p; phase_value (pp_phase p);
            pp_total_real_tokens p; pp_execution_bucket_tokens p; pp_sequence_count p] ++
  sized_text (pp_profile_revision p) ++
  [bytes (pp_resource_vector_hash p)] ++
  concat (map (fun i => plan_row p (Z.of_nat i)) (seq 0 (length (pp_sequence_generations p)))) ++
  [le64 ((pp_packed_offsets p).[vsize (pp_packed_offsets p) - 1])].

Definition semantic_digest (p : PackedTokenPlan) : Result Sha256Digest :=
  hash_chunks (plan_wire p).

(** ** Specification of a created plan *)

Definition some_nonzero_byte (d : Sha256Digest) : Prop := Exists (fun b => b <> 0) (bytes d).

Definition sequence_ok (phase : PackedTokenPhase) (s : PackedSequenceInput) : Prop :=
  psi_sequence_generation s <> 0 /\ psi_state_generation s <> 0 /\
  some_nonzero_byte (psi_input_digest s) /\ psi_real_token_count s <> 0 /\
  (phase = kDecode -> psi_real_token_count s = 1) /\
  (phase = kVerify -> psi_real_token_count s <= 5).

Fixpoint sum_list (l : list Z) : Z :=
  match l with [] => 0 | x :: l => x + sum_list l end.

(** Running sums, starting after [t]. *)
Fixpoint running_sums (t : Z) (l : list Z) : list Z :=
  match l with [] => [] | x :: l => (t + x) :: running_sums (t + x) l end.

Definition input_counts (seqs : list PackedSequenceInput) : list Z :=
  map psi_real_token_count seqs.

(** The plan that the inputs determine. *)
Definition plan_of (epoch plan_sequence : Z) (phase : PackedTokenPhase)
    (rev : string) (hash : Sha256Digest) (seqs : list PackedSequenceInput) (bucket : Z)
    : PackedTokenPlan :=
  MkPlan epoch plan_sequence phase rev hash
    (map psi_sequence_generation seqs) (map psi_committed_start_position seqs)
    (input_counts seqs) (0 :: running_sums 0 (input_counts seqs))
    (map psi_state_generation seqs) (map psi_input_digest seqs)
    (sum_list (input_counts seqs)) bucket.

(** What a plan needs besides its sequences: numbers of its epoch and of itself, a
    revision of 1 to 128 characters, a resource vector, positive limits, a number of
    sequences within them and an execution bucket within them. *)
Record plan_identity_ok (epoch plan_sequence : Z) (rev : string) (hash : Sha256Digest)
    (seqs : list PackedSequenceInput) (bucket : Z) (limits : PackedTokenPlanLimits) : Prop := {
  pi_epoch : epoch <> 0;
  pi_sequence : plan_sequence <> 0;
  pi_revision : (1 <= String.length rev <= 128)%nat;
  pi_resources : some_nonzero_byte hash;
  pi_sequences : 0 < vsize seqs <= ptl_maximum_sequences limits;
  pi_tokens : ptl_maximum_real_tokens limits <> 0;
  pi_bucket : bucket <> 0 /\ bucket <= ptl_maximum_execution_bucket_tokens limits;
  pi_buckets : ptl_maximum_execution_bucket_tokens limits <> 0 }.

(** Sequences the loop gets through: each valid for the phase, no two the same, and
    their tokens within the bound. *)
Definition sequences_ok (phase : PackedTokenPhase) (seqs : list PackedSequenceInput)
    (limits : PackedTokenPlanLimits) : Prop :=
  Forall (sequence_ok phase) seqs /\
  NoDup (map psi_sequence_generation seqs) /\
  sum_list (input_counts seqs) <= ptl_maximum_real_tokens limits /\
  sum_list (input_counts seqs) <= u32_max.

(** When the inputs may be packed. *)
Definition plan_admissible (phase : PackedTokenPhase) (seqs : list PackedSequenceInput)
    (bucket : Z) (limits : PackedTokenPlanLimits) : Prop :=
  sequences_ok phase seqs limits /\ sum_list (input_counts seqs) <= bucket.

(** The cause of each refusal.  A sequence is refused after those before it were
    accepted. *)
Inductive plan_refused (epoch plan_sequence : Z) (phase : PackedTokenPhase) (rev : string)
    (hash : Sha256Digest) (seqs : list PackedSequenceInput) (bucket : Z)
    (limits : PackedTokenPlanLimits) : Status -> Prop :=
| RefusedIdentity :
    ~ plan_identity_ok epoch plan_sequence rev hash seqs bucket limits ->
    plan_refused epoch plan_sequence phase rev hash seqs bucket limits
      (InvalidArgument "packed token plan identity is invalid")
| RefusedSequence before s after :
    plan_identity_ok epoch plan_sequence rev hash seqs bucket limits ->
    seqs = before ++ s :: after -> sequences_ok phase before limits ->
    ~ sequence_ok phase s \/ psi_sequence_generation s ∈ map psi_sequence_generation before ->
    plan_refused epoch plan_sequence phase rev hash seqs bucket limits
      (InvalidArgument "packed token sequence is invalid")
| RefusedTokens before s after (total := sum_list (input_counts (before ++ [s]))) :
    plan_identity_ok epoch plan_sequence rev hash seqs bucket limits ->
    seqs = before ++ s :: after -> sequences_ok phase before limits ->
    sequence_ok phase s -> psi_sequence_generation s ∉ map psi_sequence_generation before ->
    ptl_maximum_real_tokens limits < total \/ u32_max < total ->
    plan_refused epoch plan_sequence phase rev hash seqs bucket limits
      (ResourceExhausted "packed real token prefix exceeds its bound")
| RefusedBucket :
    plan_identity_ok epoch plan_sequence rev hash seqs bucket limits ->
    sequences_ok phase seqs limits -> bucket < sum_list (input_counts seqs) ->
    plan_refused epoch plan_sequence phase rev hash seqs bucket limits
      (InvalidArgument "execution bucket is smaller than real tokens").

Definition counts_u32 (seqs : list PackedSequenceInput) : Prop :=
  Forall (fun s => is_u32 (psi_real_token_count s)) seqs.

Lemma sum_list_nonneg l : Forall (fun x => 0 <= x) l -> 0 <= sum_list l.
Proof. induction 1; cbn; lia. Qed.

Lemma sum_list_app l1 l2 : sum_list (l1 ++ l2) = sum_list l1 + sum_list l2.
Proof. induction l1; cbn; lia. Qed.

Lemma length_running_sums t l : length (running_sums t l) = length l.
Proof. revert t. induction l; intros; cbn; auto. Qed.

(** The running sum at position [i] is the sum of the first [i + 1] terms. *)
Lemma running_sums_lookup t l i :
  (i < length l)%nat -> running_sums t l !! i = Some (t + sum_list (take (S i) l)).
Proof.
  revert t i. induction l as [|x l IH]; intros t i Hi; cbn in Hi; [lia|].
  destruct i as [|i]; cbn [running_sums]; rewrite firstn_cons; cbn [sum_list].
  - rewrite take_0. change (Some (t + x) = Some (t + (x + 0))). f_equal. lia.
  - change (running_sums (t + x) l !! i = Some (t + (x + sum_list (take (S i) l)))).
    rewrite IH by lia. f_equal. lia.
Qed.

Lemma counts_nonneg seqs : counts_u32 seqs -> 0 <= sum_list (input_counts seqs).
Proof.
  intros H. apply sum_list_nonneg. unfold input_counts. apply Forall_map.
  eapply Forall_impl; [exact H|]. unfold is_u32. cbn. lia.
Qed.

Lemma digest_nonzero_true d : digest_nonzero d = true <-> some_nonzero_byte d.
Proof.
  unfold digest_nonzero, some_nonzero_byte. rewrite existsb_exists, Exists_exists.
  split; intros (b & Hb & Hn); exists b; (split; [by apply list_elem_of_In|lia]).
Qed.

Lemma plan_identity_invalid_false epoch ps phase rev hash seqs bucket limits :
  plan_identity_invalid epoch ps phase rev hash seqs bucket limits = false <->
  plan_identity_ok epoch ps rev hash seqs bucket limits.
Proof.
  pose proof (vsize_nonneg seqs). unfold plan_identity_invalid.
  replace (valid_phase phase) with true by (by destruct phase).
  rewrite !orb_false_iff, !negb_false_iff, digest_nonzero_true. cbn [negb].
  split; [intros H1; destruct_and! H1; split; try done; lia|]. intros []. split_and!; try done; lia.
Qed.

Lemma sequence_invalid_false phase unique s :
  sequence_invalid phase unique s = false <->
  sequence_ok phase s /\ psi_sequence_generation s ∉ unique.
Proof.
  unfold sequence_invalid, sequence_ok, phase_eqb. rewrite <- digest_nonzero_true.
  rewrite !orb_false_iff, !andb_false_iff, !negb_false_iff, !Z.eqb_neq, !bool_decide_eq_false.
  destruct phase; cbn; intuition (try lia; try congruence).
Qed.

Definition acc_extend (acc : plan_acc) (seqs : list PackedSequenceInput) : plan_acc :=
  MkPlanAcc (pa_generations acc ++ map psi_sequence_generation seqs)
            (pa_starts acc ++ map psi_committed_start_position seqs)
            (pa_counts acc ++ input_counts seqs)
            (pa_offsets acc ++ running_sums (pa_total acc) (input_counts seqs))
            (pa_state_generations acc ++ map psi_state_generation seqs)
            (pa_input_digests acc ++ map psi_input_digest seqs)
            (pa_unique acc ∪ list_to_set (map psi_sequence_generation seqs))
            (pa_total acc + sum_list (input_counts seqs)).

Lemma acc_extend_nil acc : acc_extend acc [] = acc.
Proof.
  unfold acc_extend. cbn. rewrite !app_nil_r, Z.add_0_r, (right_id_L ∅ (∪)). by destruct acc.
Qed.

Lemma acc_extend_cons acc s seqs :
  is_u32 (pa_total acc + psi_real_token_count s) ->
  acc_extend (plan_push acc s (pa_total acc + psi_real_token_count s)) seqs
  = acc_extend acc (s :: seqs).
Proof.
  intros H. unfold acc_extend, plan_push. cbn. rewrite wrap32_id by done.
  rewrite <- !app_assoc. f_equal; [set_solver | unfold input_counts; lia].
Qed.

(** The validation loop accepts exactly the admissible inputs, and then its
    vectors are the inputs' columns. *)
Lemma plan_loop_Value phase limits seqs : forall acc acc',
  counts_u32 seqs ->
  0 <= pa_total acc <= ptl_maximum_real_tokens limits -> pa_total acc <= u32_max ->
  plan_loop phase limits seqs acc = Value acc' <->
  Forall (sequence_ok phase) seqs /\ NoDup (map psi_sequence_generation seqs) /\
  Forall (fun g => g ∉ pa_unique acc) (map psi_sequence_generation seqs) /\
  pa_total acc + sum_list (input_counts seqs) <= ptl_maximum_real_tokens limits /\
  pa_total acc + sum_list (input_counts seqs) <= u32_max /\
  acc' = acc_extend acc seqs.
Proof.
  induction seqs as [|s seqs IH]; intros acc acc' Hu Ht Ht'; cbn [plan_loop map].
  - rewrite acc_extend_nil. cbn. split; [intros [= ->]; repeat split; try constructor; lia|].
    intros (_ & _ & _ & _ & _ & ->). done.
  - inversion Hu as [|? ? Hs Hu']; subst.
    pose proof (counts_nonneg _ Hu') as Hnn.
    change (input_counts (s :: seqs)) with (psi_real_token_count s :: input_counts seqs).
    cbn [sum_list]. rewrite !Forall_cons, NoDup_cons.
    destruct (sequence_invalid _ _ _) eqn:Ei.
    { split; [done|]. intros ([Hok _] & _ & [Hn _] & _).
      rewrite (proj2 (sequence_invalid_false _ _ _) (conj Hok Hn)) in Ei. done. }
    apply sequence_invalid_false in Ei as [Hok Hnin].
    rewrite checked_add_u64_spec by (unfold is_u32, is_u64 in *; lia).
    unfold is_u32 in Hs. destruct (_ <=? u64_max) eqn:E64; [|lia].
    destruct (_ || _) eqn:Eb; [split; [done | lia]|].
    rewrite IH by (cbn; try done; lia). cbn [pa_total plan_push].
    rewrite acc_extend_cons by (unfold is_u32; lia).
    rewrite !Z.add_assoc. cbn [pa_unique plan_push].
    assert (Hset : Forall (fun g => g ∉ ({[psi_sequence_generation s]} ∪ pa_unique acc))
                     (map psi_sequence_generation seqs) <->
                   (psi_sequence_generation s ∉ map psi_sequence_generation seqs) /\
                   Forall (fun g => g ∉ pa_unique acc) (map psi_sequence_generation seqs)).
    { rewrite !Forall_forall. set_solver. }
    rewrite Hset. tauto.
Qed.

Lemma plan_loop_app phase limits l1 l2 acc :
  plan_loop phase limits (l1 ++ l2) acc =
  let? acc' := plan_loop phase limits l1 acc in plan_loop phase limits l2 acc'.
Proof.
  revert acc. induction l1 as [|s l1 IH]; intros acc; cbn [app plan_loop]; [done|].
  destruct (sequence_invalid _ _ _); [done|]. destruct (checked_add_u64 _ _); [|done].
  destruct (_ || _); [done|apply IH].
Qed.

(** The loop from its start. *)
Lemma plan_loop_accepts phase limits seqs acc :
  counts_u32 seqs -> 0 <= ptl_maximum_real_tokens limits ->
  plan_loop phase limits seqs plan_acc_init = Value acc <->
  sequences_ok phase seqs limits /\ acc = acc_extend plan_acc_init seqs.
Proof.
  intros Hu Hl. rewrite plan_loop_Value by (done || cbn; lia). cbn [plan_acc_init pa_total pa_unique].
  rewrite !Z.add_0_l. unfold sequences_ok.
  assert (Hn : Forall (fun g => g ∉ (∅ : gset Z)) (map psi_sequence_generation seqs))
    by (apply Forall_true; set_solver). tauto.
Qed.

(** One step of the loop after the sequences [before]. *)
Lemma plan_loop_step phase limits before s after :
  counts_u32 (before ++ s :: after) -> 0 <= ptl_maximum_real_tokens limits ->
  sequences_ok phase before limits ->
  plan_loop phase limits (before ++ s :: after) plan_acc_init =
  let fresh := sequence_invalid phase (list_to_set (map psi_sequence_generation before)) s in
  let total := sum_list (input_counts (before ++ [s])) in
  if fresh then Error (InvalidArgument "packed token sequence is invalid")
  else if (total >? ptl_maximum_real_tokens limits) || (total >? u32_max)
  then Error (ResourceExhausted "packed real token prefix exceeds its bound")
  else plan_loop phase limits ((before ++ [s]) ++ after) plan_acc_init.
Proof.
  intros Hu Hl Hb. pose proof Hu as [Hu1 Hu2]%Forall_app. apply Forall_cons in Hu2 as [Hs Hu2].
  pose proof (counts_nonneg _ Hu1) as Hnn. pose proof Hb as (_ & _ & H1 & H2). unfold is_u32 in Hs. cbn zeta.
  replace (sum_list (input_counts (before ++ [s])))
    with (sum_list (input_counts before) + psi_real_token_count s)
    by (unfold input_counts; rewrite map_app, sum_list_app; cbn; lia).
  rewrite <- (app_assoc before [s] after), !plan_loop_app. cbn [app].
  rewrite (proj2 (plan_loop_accepts phase limits before _ Hu1 Hl) (conj Hb eq_refl)).
  cbn [plan_loop acc_extend plan_acc_init pa_unique pa_total]. rewrite Z.add_0_l, (left_id_L ∅ (∪)).
  rewrite checked_add_u64_spec by (unfold is_u64; lia). rewrite (proj2 (Z.leb_le _ u64_max)) by lia.
  destruct (sequence_invalid _ _ _); [done|]. by destruct (_ || _).
Qed.

Lemma plan_loop_refuses phase limits seqs e :
  counts_u32 seqs -> 0 <= ptl_maximum_real_tokens limits ->
  plan_loop phase limits seqs plan_acc_init = Error e ->
  exists before s after, seqs = before ++ s :: after /\ sequences_ok phase before limits /\
    ~ sequences_ok phase (before ++ [s]) limits.
Proof.
  intros Hu Hl. induction seqs as [|s seqs IH] using rev_ind; [done|].
  apply Forall_app in Hu as Hu'. destruct Hu' as [Hu1 _]. intros He.
  destruct (plan_loop phase limits seqs plan_acc_init) as [acc|e'] eqn:E.
  - apply plan_loop_accepts in E as [Hok _]; [|done..]. exists seqs, s, []. split_and!; [done|done|].
    intros Hs. rewrite (proj2 (plan_loop_accepts _ _ _ _ Hu Hl) (conj Hs eq_refl)) in He. done.
  - destruct (IH Hu1) as (b & x & a & -> & Hb & Hx).
    { rewrite plan_loop_app, E in He. cbn in He. congruence. }
    exists b, x, (a ++ [s]). split_and!; [by rewrite <- app_assoc|done|done].
Qed.

Lemma sequences_ok_snoc phase limits before s :
  sequences_ok phase before limits ->
  sequence_invalid phase (list_to_set (map psi_sequence_generation before)) s = false ->
  sum_list (input_counts (before ++ [s])) <= ptl_maximum_real_tokens limits ->
  sum_list (input_counts (before ++ [s])) <= u32_max ->
  sequences_ok phase (before ++ [s]) limits.
Proof.
  intros (H1 & H2 & _) [Hs Hn]%sequence_invalid_false ? ?. split_and!; [| |done|done].
  - apply Forall_app. auto.
  - rewrite map_app. apply NoDup_app. split_and!; [done|set_solver|apply NoDup_singleton].
Qed.

(** [PackedTokenPlan::Create] succeeds exactly on a valid identity with
    admissible sequences, and then returns the plan they determine. *)
Lemma PackedTokenPlan_Create_Value epoch ps phase rev hash seqs bucket limits p :
  counts_u32 seqs -> 0 <= ptl_maximum_real_tokens limits ->
  PackedTokenPlan_Create epoch ps phase rev hash seqs bucket limits = Value p <->
  plan_identity_ok epoch ps rev hash seqs bucket limits /\
  plan_admissible phase seqs bucket limits /\
  p = plan_of epoch ps phase rev hash seqs bucket.
Proof.
  intros Hu Hl. unfold PackedTokenPlan_Create, plan_admissible. rewrite <- (plan_identity_invalid_false _ _ phase).
  destruct (plan_identity_invalid _ _ _ _ _ _ _ _); [split; [done | by intros [? _]]|].
  pose proof (counts_nonneg _ Hu) as Hnn.
  destruct (plan_loop _ _ _ _) as [acc|e] eqn:El.
  - apply plan_loop_accepts in El as [Hok ->]; [|done..]. pose proof Hok as (_ & _ & H4 & H5).
    cbn [acc_extend plan_acc_init pa_total pa_generations pa_starts pa_counts pa_offsets
      pa_state_generations pa_input_digests app].
    rewrite Z.add_0_l, wrap32_id by (unfold is_u32; lia).
    destruct (_ <? _) eqn:Eb.
    + split; [done|]. intros (_ & (_ & ?) & _). lia.
    + split; [intros [= <-]; split_and!; try done; lia | by intros (_ & _ & ->)].
  - split; [done|]. intros (_ & (Hok & _) & _).
    rewrite (proj2 (plan_loop_accepts _ _ _ _ Hu Hl) (conj Hok eq_refl)) in El. done.
Qed.

(** Every refusal has the cause its status names, and every cause its status. *)
Lemma PackedTokenPlan_Create_Error epoch ps phase rev hash seqs bucket limits e :
  counts_u32 seqs -> 0 <= ptl_maximum_real_tokens limits ->
  PackedTokenPlan_Create epoch ps phase rev hash seqs bucket limits = Error e <->
  plan_refused epoch ps phase rev hash seqs bucket limits e.
Proof.
  intros Hu Hl. unfold PackedTokenPlan_Create.
  pose proof (plan_identity_invalid_false epoch ps phase rev hash seqs bucket limits) as Hid.
  destruct (plan_identity_invalid _ _ _ _ _ _ _ _).
  { assert (Hn : ~ plan_identity_ok epoch ps rev hash seqs bucket limits) by (by intros H%Hid).
    split; [intros [= <-]; by constructor|]. by intros []. }
  destruct Hid as [Hid _]. specialize (Hid eq_refl). split.
  - destruct (plan_loop _ _ _ _) as [acc|e'] eqn:El; cbn.
    + apply plan_loop_accepts in El as [Hok ->]; [|done..]. cbn. destruct (_ <? _) eqn:Eb; [|done].
      intros [= <-]. apply RefusedBucket; [done..|lia].
    + intros [= ->]. pose proof El as (b & s & a & -> & Hb & Hx)%plan_loop_refuses; [|done..].
      rewrite plan_loop_step in El by done. cbn zeta in El.
      destruct (sequence_invalid _ _ _) eqn:Es.
      * injection El as <-. eapply RefusedSequence; [done|done|done|].
        destruct (decide (psi_sequence_generation s ∈ map psi_sequence_generation b)); [by right|left].
        intros Hs. rewrite (proj2 (sequence_invalid_false _ _ _)) in Es; [done|]. split; [done|set_solver].
      * destruct (_ || _) eqn:Et.
        -- injection El as <-. apply sequence_invalid_false in Es as [Hs Hn].
           eapply RefusedTokens; [done|done|done|done|set_solver|lia].
        -- destruct Hx. apply sequences_ok_snoc; [done|done|lia|lia].
  - intros [Hn|b s a _ -> Hb Hs|b s a t _ -> Hb Hs Hn Ht|_ Hok Hb]; [done|..].
    + rewrite plan_loop_step by done. cbn zeta. destruct (sequence_invalid _ _ _) eqn:Es; [done|].
      apply sequence_invalid_false in Es as [? ?]. destruct Hs; [done|set_solver].
    + rewrite plan_loop_step by done. cbn zeta. rewrite (proj2 (sequence_invalid_false _ _ _)) by (split; [done|set_solver]).
      fold t. by rewrite (proj2 (orb_true_iff _ _)) by (destruct Ht; [left|right]; lia).
    + rewrite (proj2 (plan_loop_accepts _ _ _ _ Hu Hl) (conj Hok eq_refl)). cbn.
      by rewrite (proj2 (Z.ltb_lt _ _)) by lia.
Qed.

(** ** The digest binds the plan *)

(** Ranges of the fields of a plan: what their C++ types guarantee, with the
    vectors of equal length. *)
Definition plan_wf (p : PackedTokenPlan) : Prop :=
  let n := length (pp_sequence_generations p) in
  is_u64 (pp_epoch p) /\ is_u64 (pp_plan_sequence p) /\
  is_u32 (pp_total_real_tokens p) /\ is_u32 (pp_execution_bucket_tokens p) /\
  Z.of_nat (String.length (pp_profile_revision p)) <= 128 /\
  is_u32 (Z.of_nat n) /\ digest_wf (pp_resource_vector_hash p) /\
  length (pp_committed_start_positions p) = n /\ length (pp_real_token_counts p) = n /\
  length (pp_packed_offsets p) = S n /\ length (pp_state_generations p) = n /\
  length (pp_input_digests p) = n /\
  Forall is_u64 (pp_sequence_generations p) /\ Forall is_u64 (pp_committed_start_positions p) /\
  Forall is_u64 (pp_real_token_counts p) /\ Forall is_u64 (pp_packed_offsets p) /\
  Forall is_u64 (pp_state_generations p) /\ Forall digest_wf (pp_input_digests p).

Definition plan_bytes (p : PackedTokenPlan) : list Z := concat (plan_wire p).

Lemma Forall_vat {A} `{Inhabited A} (P : A -> Prop) l i :
  Forall P l -> (i < length l)%nat -> P (l.[Z.of_nat i]).
Proof.
  intros HF Hi. rewrite Forall_lookup in HF. apply (HF i).
  rewrite <- (Nat2Z.id i) at 1. apply vat_lookup. unfold vsize. lia.
Qed.

Lemma list_vat_eq {A} `{Inhabited A} (l k : list A) :
  length l = length k -> (forall i, (i < length l)%nat -> l.[Z.of_nat i] = k.[Z.of_nat i]) -> l = k.
Proof.
  intros Hl H1. apply list_eq_same_length with (length l); [done | done |].
  intros i x y Hi Hx Hy. specialize (H1 i Hi). unfold vat in H1.
  rewrite Nat2Z.id, (list_lookup_total_correct _ _ _ Hx), (list_lookup_total_correct _ _ _ Hy) in H1.
  done.
Qed.

Lemma phase_value_inj p q : phase_value p = phase_value q -> p = q.
Proof. by destruct p, q. Qed.

Lemma length_plan_row p i :
  plan_wf p -> (i < length (pp_sequence_generations p))%nat ->
  length (concat (plan_row p (Z.of_nat i))) = 72%nat.
Proof.
  intros (_ & _ & _ & _ & _ & _ & _ & _ & _ & _ & _ & Hd & _ & _ & _ & _ & _ & HD) Hi.
  unfold plan_row. cbn [concat]. rewrite !length_app, !length_le64.
  destruct (Forall_vat digest_wf _ i HD ltac:(lia)) as [-> _]. done.
Qed.

Lemma plan_row_inj p q i :
  plan_wf p -> plan_wf q ->
  (i < length (pp_sequence_generations p))%nat ->
  length (pp_sequence_generations q) = length (pp_sequence_generations p) ->
  concat (plan_row p (Z.of_nat i)) = concat (plan_row q (Z.of_nat i)) ->
  (pp_sequence_generations p).[Z.of_nat i] = (pp_sequence_generations q).[Z.of_nat i] /\
  (pp_committed_start_positions p).[Z.of_nat i] = (pp_committed_start_positions q).[Z.of_nat i] /\
  (pp_real_token_counts p).[Z.of_nat i] = (pp_real_token_counts q).[Z.of_nat i] /\
  (pp_packed_offsets p).[Z.of_nat i] = (pp_packed_offsets q).[Z.of_nat i] /\
  (pp_state_generations p).[Z.of_nat i] = (pp_state_generations q).[Z.of_nat i] /\
  (pp_input_digests p).[Z.of_nat i] = (pp_input_digests q).[Z.of_nat i].
Proof.
  intros (_ & _ & _ & _ & _ & _ & _ & L1 & L2 & L3 & L4 & L5 & F1 & F2 & F3 & F4 & F5 & F6)
         (_ & _ & _ & _ & _ & _ & _ & M1 & M2 & M3 & M4 & M5 & G1 & G2 & G3 & G4 & G5 & G6) Hi Hn.
  unfold plan_row. cbn [concat]. rewrite !app_nil_r. intros E.
  do 5 (let E' := fresh "E" in
        apply wire_app_inj in E as [E' E]; [|by rewrite !length_le64];
        apply le64_inj in E'; [| apply Forall_vat; [done | lia] ..]).
  repeat split; try done.
  by apply bytes_inj.
Qed.

(** The byte stream determines every field of the plan. *)
Lemma plan_bytes_inj p q : plan_wf p -> plan_wf q -> plan_bytes p = plan_bytes q -> p = q.
Proof.
  intros Hp Hq. pose proof (length_plan_row p) as Rp. pose proof (length_plan_row q) as Rq.
  pose proof (plan_row_inj p q) as Hrow.
  pose proof Hp as (P1 & P2 & P3 & P4 & P5 & P6 & P7 & L1 & L2 & L3 & L4 & L5 & F1 & F2 & F3 & F4 & F5 & F6).
  pose proof Hq as (Q1 & Q2 & Q3 & Q4 & Q5 & Q6 & Q7 & M1 & M2 & M3 & M4 & M5 & G1 & G2 & G3 & G4 & G5 & G6).
  unfold plan_bytes, plan_wire, sized_text, pp_sequence_count, vsize.
  cbn [app concat map]. rewrite !concat_app, !concat_concat_map. intros E.
  do 2 (apply wire_app_inj in E as [_ E]; [|done]).
  peel_le64 E Eep; [|done..]. peel_le64 E Eps; [|done..].
  peel_le64 E Eph; [|destruct (pp_phase p), (pp_phase q); done..].
  peel_le64 E Eto; [|unfold is_u32, is_u64 in *; lia..].
  peel_le64 E Ebu; [|unfold is_u32, is_u64 in *; lia..].
  peel_le64 E Ecn; [|unfold is_u32, is_u64 in *; lia..].
  peel_le64 E Erl; [|unfold is_u64; lia..].
  apply Nat2Z.inj in Ecn, Erl. apply phase_value_inj in Eph.
  apply wire_app_inj in E as [Erev E]; [|by rewrite !length_text_bytes].
  apply text_bytes_inj in Erev.
  apply wire_app_inj in E as [Ehash E]; [|destruct P7, Q7; congruence].
  apply bytes_inj in Ehash. rewrite <- Ecn in E.
  apply (wire_rows_inj _ _ 72) in E as [Erows Elast].
  2:{ intros i Hi. split; [apply Rp | apply Rq]; done || lia. }
  assert (Hrow' : forall i, (i < length (pp_sequence_generations p))%nat -> _)
    by (intros i Hi; exact (Hrow i Hp Hq Hi (eq_sym Ecn) (Erows i ltac:(lia)))).
  cbn [concat] in Elast. rewrite !app_nil_r, L3, M3, <- Ecn in Elast.
  replace (Z.of_nat (S (length (pp_sequence_generations p))) - 1)
    with (Z.of_nat (length (pp_sequence_generations p))) in Elast by lia.
  apply le64_inj in Elast; [| apply Forall_vat; [done|lia] ..].
  destruct p, q; cbn in *; subst. f_equal.
  all: apply list_vat_eq; [congruence|]. all: intros i Hi.
  all: try (apply Hrow'; congruence || lia).
  destruct (Nat.eq_dec i (length pp_sequence_generations0)) as [->|]; [done|].
  apply Hrow'. lia.
Qed.

(** ** Theorems *)

(** C27. For inputs of their C++ types, [PackedTokenPlan::Create] accepts exactly the
    batches with a valid identity whose sequences are individually valid for the phase,
    pairwise distinct, and whose real tokens fit the token limit and the execution
    bucket; the plan it returns has the inputs as columns, [packed_offsets[i]] is the
    sum of the first [i] token counts, the last one the total.  Every other batch is
    refused, and with the status of its cause: the identity, the first sequence that is
    invalid or repeats one before it, the first one whose tokens pass the bound, or the
    bucket. *)
Theorem plan_Create_correct epoch ps phase rev hash seqs bucket limits
  (Hcounts : counts_u32 seqs) (Hlim : 0 <= ptl_maximum_real_tokens limits) :
  (forall p,
    PackedTokenPlan_Create epoch ps phase rev hash seqs bucket limits = Value p <->
    plan_identity_ok epoch ps rev hash seqs bucket limits /\
    plan_admissible phase seqs bucket limits /\
    p = plan_of epoch ps phase rev hash seqs bucket) /\
  (forall i, (i <= length seqs)%nat ->
    pp_packed_offsets (plan_of epoch ps phase rev hash seqs bucket) !! i =
    Some (sum_list (take i (input_counts seqs)))) /\
  (forall e, PackedTokenPlan_Create epoch ps phase rev hash seqs bucket limits = Error e <->
    plan_refused epoch ps phase rev hash seqs bucket limits e).
Proof.
  split; [intros p; by apply PackedTokenPlan_Create_Value|]. split.
  - intros [|i] Hi; [done|]. cbn [plan_of pp_packed_offsets].
    change (running_sums 0 (input_counts seqs) !! i = Some (sum_list (take (S i) (input_counts seqs)))).
    rewrite running_sums_lookup; [done|]. unfold input_counts. rewrite length_map. lia.
  - intros e. by apply PackedTokenPlan_Create_Error.
Qed.

Definition sample_digest (b : Z) : Sha256Digest := MkDigest (replicate 32 b).
Definition sample_limits : PackedTokenPlanLimits := MkPlanLimits 4 16 32.
Definition sample_inputs : list PackedSequenceInput :=
  [MkSequenceInput 7 0 3 1 (sample_digest 1); MkSequenceInput 9 5 2 4 (sample_digest 2)].

(** An accepted batch, and one refused for its first sequence. *)
Lemma plan_Create_correct_witness :
  counts_u32 sample_inputs /\ 0 <= ptl_maximum_real_tokens sample_limits /\
  plan_identity_ok 1 2 "rev" (sample_digest 3) sample_inputs 8 sample_limits /\
  plan_admissible kPrefill sample_inputs 8 sample_limits /\
  pp_packed_offsets (plan_of 1 2 kPrefill "rev" (sample_digest 3) sample_inputs 8) = [0; 3; 5] /\
  plan_refused 1 2 kDecode "rev" (sample_digest 3) sample_inputs 8 sample_limits
    (InvalidArgument "packed token sequence is invalid").
Proof.
  assert (H : counts_u32 sample_inputs)
    by (unfold counts_u32, is_u32, sample_inputs; repeat constructor; cbn; lia).
  assert (H0 : 0 <= ptl_maximum_real_tokens sample_limits) by (cbn; lia).
  split; [exact H|]. split; [exact H0|].
  destruct (plan_Create_correct 1 2 kPrefill "rev" (sample_digest 3) sample_inputs 8
              sample_limits H H0) as [Hiff _].
  destruct (proj1 (Hiff (plan_of 1 2 kPrefill "rev" (sample_digest 3) sample_inputs 8))) as (H1 & H2 & _);
    [vm_compute; reflexivity|].
  split; [exact H1|]. split; [exact H2|]. split; [reflexivity|].
  destruct (plan_Create_correct 1 2 kDecode "rev" (sample_digest 3) sample_inputs 8
              sample_limits H H0) as (_ & _ & Herr).
  apply Herr. vm_compute. reflexivity.
Defined.

Lemma plan_bytes_bytes p : plan_wf p -> Forall is_byte (plan_bytes p).
Proof.
  intros (_ & _ & _ & _ & _ & _ & Hh & _ & _ & _ & _ & Hn & _ & _ & _ & _ & _ & Hd).
  unfold plan_bytes, plan_wire, sized_text. cbn [app map concat].
  rewrite !concat_app, concat_concat_map. cbn [concat]. repeat (apply Forall_app; split); eauto with pih.
  apply Forall_concat_map. intros i Hi%elem_of_seq. unfold plan_row. cbn [concat].
  repeat (apply Forall_app; split); eauto with pih. apply digest_bytes, Forall_vat; [done|lia].
Qed.

Lemma length_rows p s n :
  plan_wf p -> (s + n <= length (pp_sequence_generations p))%nat ->
  length (concat (map (fun i => concat (plan_row p (Z.of_nat i))) (seq s n))) = (72 * n)%nat.
Proof.
  intros Hp. revert s. induction n as [|n IH]; intros s Hs; [done|].
  cbn [seq map concat]. rewrite length_app, length_plan_row, IH by (done || lia). lia.
Qed.

Lemma length_plan_bytes p :
  plan_wf p ->
  vsize (plan_bytes p) =
    136 + Z.of_nat (String.length (pp_profile_revision p)) + 72 * pp_sequence_count p.
Proof.
  intros Hp. pose proof (length_rows p 0 _ Hp (Nat.le_refl _)) as Hr.
  destruct Hp as (_ & _ & _ & _ & _ & _ & [Hh _] & _).
  unfold plan_bytes, plan_wire, sized_text, pp_sequence_count, vsize.
  cbn [app concat map]. rewrite !concat_app, !concat_concat_map. cbn [concat].
  rewrite !length_app, Hr, !length_le64, !length_text_bytes, Hh. cbn [length kPlanAbi String.length].
  lia.
Qed.

(** C28. The semantic digest binds the plan: on well-formed plans it is computed
    without error, and two plans with the same digest are equal in every field,
    unless their distinct byte streams collide under SHA-256. *)
Theorem semantic_digest_binds p q (Hp : plan_wf p) (Hq : plan_wf q) :
  semantic_digest p = Value (sha256_spec (plan_bytes p)) /\
  (semantic_digest p = semantic_digest q ->
   p = q \/
   (plan_bytes p <> plan_bytes q /\
    sha256_spec (plan_bytes p) = sha256_spec (plan_bytes q))).
Proof.
  assert (Hd : forall r, plan_wf r -> semantic_digest r = Value (sha256_spec (plan_bytes r))).
  { intros r Hr. apply hash_chunks_eq; [|by apply plan_bytes_bytes]. fold (plan_bytes r). rewrite length_plan_bytes by done.
    destruct Hr as (_ & _ & _ & _ & H1 & H2 & _).
    unfold pp_sequence_count, vsize, is_u32 in *. change (u64_max / 8) with 2305843009213693951. lia. }
  split; [by apply Hd|]. rewrite !Hd by done. intros E%Value_inj.
  destruct (decide (plan_bytes p = plan_bytes q)) as [Eb|Eb]; [left; by apply plan_bytes_inj | by right].
Qed.

Definition sample_plan (start : Z) : PackedTokenPlan :=
  plan_of 1 2 kPrefill "rev" (sample_digest 3)
    [MkSequenceInput 7 start 3 1 (sample_digest 1)] 8.

Lemma sample_plan_wf start : is_u64 start -> plan_wf (sample_plan start).
Proof.
  intros Hs. unfold plan_wf, sample_plan, is_u32, is_u64, digest_wf in *. cbn.
  repeat split; repeat constructor; try done; try lia; unfold is_byte; lia.
Qed.

Lemma semantic_digest_binds_witness :
  plan_wf (sample_plan 0) /\ plan_wf (sample_plan 4) /\
  semantic_digest (sample_plan 0) = Value (sha256_spec (plan_bytes (sample_plan 0))).
Proof.
  assert (H0 : plan_wf (sample_plan 0)) by (apply sample_plan_wf; unfold is_u64; lia).
  assert (H4 : plan_wf (sample_plan 4)) by (apply sample_plan_wf; unfold is_u64; lia).
  split; [exact H0|]. split; [exact H4|]. exact (proj1 (semantic_digest_binds _ _ H0 H4)).
Defined.
