(* ===== verification/Sequence.v ===== *)
(** * The controller's per-request state machine

    Models [include/pih/scheduler/controller_sequence.h] and
    [plugins/execution-default/controller_sequence.cpp].  A sequence owns the
    token ledger of one request: [K] model-processed tokens, [A] accepted
    completion tokens and the prompt length [P], with the plan it is part of. *)

From S2P Require Import Prelude Core TokenPlan.

Module SeqState.
Inductive ControllerSequenceState :=
  | kQueuedPrefill
  | kPrefillPrepared
  | kPrefillCommitted
  | kPrefillInFlight
  | kReadyDecode
  | kDecodePrepared
  | kDecodeCommitted
  | kDecodeInFlight
  | kVerifyPrepared
  | kVerifyCommitted
  | kVerifyInFlight
  | kCancelRequested
  | kDraining
  | kCancelled
  | kCompleted
  | kFailed.

#[global] Instance ControllerSequenceState_eq_dec : EqDecision ControllerSequenceState.
Proof. solve_decision. Defined.
End SeqState.
Import SeqState (ControllerSequenceState).

(** The underlying value of the enumerator. *)
Definition state_value (s : ControllerSequenceState) : Z :=
  match s with
  | SeqState.kQueuedPrefill => 1 | SeqState.kPrefillPrepared => 2
  | SeqState.kPrefillCommitted => 3 | SeqState.kPrefillInFlight => 4
  | SeqState.kReadyDecode => 5 | SeqState.kDecodePrepared => 6
  | SeqState.kDecodeCommitted => 7 | SeqState.kDecodeInFlight => 8
  | SeqState.kVerifyPrepared => 9 | SeqState.kVerifyCommitted => 10
  | SeqState.kVerifyInFlight => 11 | SeqState.kCancelRequested => 12
  | SeqState.kDraining => 13 | SeqState.kCancelled => 14
  | SeqState.kCompleted => 15 | SeqState.kFailed => 16
  end.

Definition state_eqb (a b : ControllerSequenceState) : bool := state_value a =? state_value b.

Lemma state_eqb_true a b : state_eqb a b = true <-> a = b.
Proof. by destruct a, b. Qed.

Lemma state_eqb_false a b : state_eqb a b = false <-> a <> b.
Proof. by destruct a, b. Qed.

Record ControllerPlanCompletion := MkCompletion {
  cc_plan_sequence : Z;
  cc_sequence_generation : Z;
  cc_committed_model_processed_length : Z;
  cc_accepted_completion_count : Z;
  cc_state_generation : Z;
  cc_next_decode_phase : PackedTokenPhase;
  cc_terminal : bool }.

Record ControllerSequence := MkSequence {
  cs_sequence_generation : Z;
  cs_prompt_token_count : Z;
  cs_model_processed_length : Z;
  cs_accepted_completion_count : Z;
  cs_state_generation : Z;
  cs_active_plan_sequence : Z;
  cs_active_real_token_count : Z;
  cs_active_phase : PackedTokenPhase;
  cs_next_decode_phase : PackedTokenPhase;
  cs_state : ControllerSequenceState;
  cs_state_before_cancel : ControllerSequenceState;
  cs_drain_is_cancel : bool }.

#[export] Instance eta_ControllerSequence : Eta ControllerSequence := fun r =>
  MkSequence r.(cs_sequence_generation) r.(cs_prompt_token_count)
    r.(cs_model_processed_length) r.(cs_accepted_completion_count)
    r.(cs_state_generation) r.(cs_active_plan_sequence) r.(cs_active_real_token_count)
    r.(cs_active_phase) r.(cs_next_decode_phase) r.(cs_state)
    r.(cs_state_before_cancel) r.(cs_drain_is_cancel).

Definition prepared_state (phase : PackedTokenPhase) : ControllerSequenceState :=
  match phase with
  | kPrefill => SeqState.kPrefillPrepared
  | kDecode => SeqState.kDecodePrepared
  | kVerify => SeqState.kVerifyPrepared
  end.

Definition committed_state (phase : PackedTokenPhase) : ControllerSequenceState :=
  match phase with
  | kPrefill => SeqState.kPrefillCommitted
  | kDecode => SeqState.kDecodeCommitted
  | kVerify => SeqState.kVerifyCommitted
  end.

Definition inflight_state (phase : PackedTokenPhase) : ControllerSequenceState :=
  match phase with
  | kPrefill => SeqState.kPrefillInFlight
  | kDecode => SeqState.kDecodeInFlight
  | kVerify => SeqState.kVerifyInFlight
  end.

Definition Admit (sequence_generation prompt_token_count initial_state_generation : Z)
    : Result ControllerSequence :=
  if (sequence_generation =? 0) || (prompt_token_count =? 0) ||
     (initial_state_generation =? 0)
  then Error (InvalidArgument "controller sequence identity is invalid")
  else Value (MkSequence sequence_generation prompt_token_count 0 0
                initial_state_generation 0 0 kPrefill kDecode SeqState.kQueuedPrefill
                SeqState.kQueuedPrefill false).

Definition terminal (state : ControllerSequenceState) : bool :=
  state_eqb state SeqState.kCancelled || state_eqb state SeqState.kCompleted ||
  state_eqb state SeqState.kFailed.

Definition is_prepared (state : ControllerSequenceState) : bool :=
  state_eqb state SeqState.kPrefillPrepared || state_eqb state SeqState.kDecodePrepared ||
  state_eqb state SeqState.kVerifyPrepared.

Definition is_committed_or_in_flight (state : ControllerSequenceState) : bool :=
  state_eqb state SeqState.kPrefillCommitted || state_eqb state SeqState.kPrefillInFlight ||
  state_eqb state SeqState.kDecodeCommitted || state_eqb state SeqState.kDecodeInFlight ||
  state_eqb state SeqState.kVerifyCommitted || state_eqb state SeqState.kVerifyInFlight.

Definition prepared (s : ControllerSequence) : bool := is_prepared (cs_state s).
Definition committed_or_in_flight (s : ControllerSequence) : bool :=
  is_committed_or_in_flight (cs_state s).

Definition clear_plan (s : ControllerSequence) : ControllerSequence :=
  s <| cs_active_plan_sequence := 0 |> <| cs_active_real_token_count := 0 |>.

Definition has_active_plan (s : ControllerSequence) : bool :=
  negb (cs_active_plan_sequence s =? 0).

(** The token-count part of [prepare]: the early returns by phase. *)
Definition prepare_count_error (s : ControllerSequence) (phase : PackedTokenPhase)
    (real_token_count : Z) : option Status :=
  match phase with
  | kPrefill =>
      match checked_add_u64 (cs_model_processed_length s) real_token_count with
      | Value e =>
          if e >? cs_prompt_token_count s
          then Some (InvalidArgument "prefill plan exceeds prompt partition") else None
      | Error _ => Some (InvalidArgument "prefill plan exceeds prompt partition")
      end
  | kDecode =>
      if negb (real_token_count =? 1)
      then Some (InvalidArgument "decode plan must contain one real token") else None
  | kVerify =>
      if real_token_count >? 5
      then Some (InvalidArgument "verify plan exceeds the V1 draft bound") else None
  end.

Definition prepare (s : ControllerSequence) (plan_sequence : Z) (phase : PackedTokenPhase)
    (real_token_count : Z) : Status * ControllerSequence :=
  let ready := state_eqb (cs_state s) SeqState.kQueuedPrefill ||
               state_eqb (cs_state s) SeqState.kReadyDecode in
  let phase_matches :=
    (state_eqb (cs_state s) SeqState.kQueuedPrefill && phase_eqb phase kPrefill) ||
    (state_eqb (cs_state s) SeqState.kReadyDecode &&
     phase_eqb phase (cs_next_decode_phase s)) in
  if negb ready || negb phase_matches || (plan_sequence =? 0) || (real_token_count =? 0) ||
     negb (cs_active_plan_sequence s =? 0)
  then (FailedPrecondition "sequence cannot prepare this plan", s)
  else match prepare_count_error s phase real_token_count with
       | Some e => (e, s)
       | None =>
           (StatusOk,
            s <| cs_active_plan_sequence := plan_sequence |>
              <| cs_active_real_token_count := real_token_count |>
              <| cs_active_phase := phase |>
              <| cs_state := prepared_state phase |>)
       end.

Definition commit (s : ControllerSequence) (plan_sequence : Z) : Status * ControllerSequence :=
  if negb (prepared s) || negb (plan_sequence =? cs_active_plan_sequence s)
  then (FailedPrecondition "sequence plan is not prepared", s)
  else (StatusOk, s <| cs_state := committed_state (cs_active_phase s) |>).

Definition mark_in_flight (s : ControllerSequence) (plan_sequence : Z)
    : Status * ControllerSequence :=
  if negb (committed_or_in_flight s) ||
     state_eqb (cs_state s) (inflight_state (cs_active_phase s)) ||
     negb (plan_sequence =? cs_active_plan_sequence s)
  then (FailedPrecondition "sequence plan is not committed", s)
  else (StatusOk, s <| cs_state := inflight_state (cs_active_phase s) |>).

Definition abort_prepared (s : ControllerSequence) (plan_sequence : Z)
    : Status * ControllerSequence :=
  if negb (prepared s) || negb (plan_sequence =? cs_active_plan_sequence s)
  then (FailedPrecondition "only a prepared plan can be aborted", s)
  else (StatusOk,
        clear_plan (s <| cs_state := if phase_eqb (cs_active_phase s) kPrefill
                                     then SeqState.kQueuedPrefill
                                     else SeqState.kReadyDecode |>)).

(** [validate_completion], first part: the identity of the completion. *)
Definition completion_identity_invalid (s : ControllerSequence)
    (c : ControllerPlanCompletion) : bool :=
  let cancelled_committed :=
    state_eqb (cs_state s) SeqState.kCancelRequested &&
    negb (cs_active_plan_sequence s =? 0) &&
    is_committed_or_in_flight (cs_state_before_cancel s) in
  let normally_in_flight := state_eqb (cs_state s) (inflight_state (cs_active_phase s)) in
  (negb normally_in_flight && negb cancelled_committed) ||
  negb (cc_plan_sequence c =? cs_active_plan_sequence s) ||
  negb (cc_sequence_generation c =? cs_sequence_generation s) ||
  (cc_state_generation c <=? cs_state_generation s) ||
  (cc_committed_model_processed_length c <? cs_model_processed_length s) ||
  (cc_accepted_completion_count c <? cs_accepted_completion_count s) ||
  (negb (phase_eqb (cc_next_decode_phase c) kDecode) &&
   negb (phase_eqb (cc_next_decode_phase c) kVerify)).

(** Second part: the committed length against the active plan. *)
Definition completion_cut_error (s : ControllerSequence) (c : ControllerPlanCompletion)
    : option Status :=
  let end_ := checked_add_u64 (cs_model_processed_length s) (cs_active_real_token_count s) in
  if phase_eqb (cs_active_phase s) kPrefill then
    match end_ with
    | Value expected =>
        if negb (cc_committed_model_processed_length c =? expected) ||
           (expected >? cs_prompt_token_count s)
        then Some (InvalidArgument "prefill completion cut is invalid") else None
    | Error _ => Some (InvalidArgument "prefill completion cut is invalid")
    end
  else
    match end_ with
    | Value maximum =>
        if cc_committed_model_processed_length c >? maximum
        then Some (InvalidArgument "decode-family state cut is invalid") else None
    | Error _ => Some (InvalidArgument "decode-family state cut is invalid")
    end.

(** Third part: the ledger of the completed sequence. *)
Definition completion_ledger_status (s : ControllerSequence) (c : ControllerPlanCompletion)
    : Status :=
  if negb (cc_accepted_completion_count c =? 0) then
    match checked_add_u64 (cs_prompt_token_count s)
            (wrap64 (cc_accepted_completion_count c - 1)) with
    | Value invariant =>
        if negb (cc_committed_model_processed_length c =? invariant)
        then InvalidArgument "K=P+A-1 ledger invariant failed" else StatusOk
    | Error _ => InvalidArgument "K=P+A-1 ledger invariant failed"
    end
  else if cc_committed_model_processed_length c >=? cs_prompt_token_count s
  then InvalidArgument "final prefill must publish its first token"
  else StatusOk.

Definition validate_completion (s : ControllerSequence) (c : ControllerPlanCompletion)
    : Status :=
  if completion_identity_invalid s c
  then FailedPrecondition "plan completion identity is invalid"
  else match completion_cut_error s c with
       | Some e => e
       | None => completion_ledger_status s c
       end.

Definition complete (s : ControllerSequence) (c : ControllerPlanCompletion)
    : Status * ControllerSequence :=
  let validation := validate_completion s c in
  if negb (ok validation) then (validation, s)
  else
    let cancelled_committed := state_eqb (cs_state s) SeqState.kCancelRequested in
    let s := clear_plan
      (s <| cs_model_processed_length := cc_committed_model_processed_length c |>
         <| cs_accepted_completion_count := cc_accepted_completion_count c |>
         <| cs_state_generation := cc_state_generation c |>
         <| cs_next_decode_phase := cc_next_decode_phase c |>) in
    (StatusOk,
     s <| cs_state :=
            if cancelled_committed then SeqState.kDraining
            else if cc_terminal c then SeqState.kDraining
            else if cs_model_processed_length s <? cs_prompt_token_count s
            then SeqState.kQueuedPrefill
            else SeqState.kReadyDecode |>).

Definition request_cancel (s : ControllerSequence) : Status * ControllerSequence :=
  if terminal (cs_state s) || state_eqb (cs_state s) SeqState.kDraining
  then (FailedPrecondition "terminal sequence cannot be cancelled", s)
  else if state_eqb (cs_state s) SeqState.kCancelRequested then (StatusOk, s)
  else (StatusOk,
        s <| cs_state_before_cancel := cs_state s |> <| cs_drain_is_cancel := true |>
          <| cs_state := SeqState.kCancelRequested |>).

Definition begin_draining (s : ControllerSequence) : Status * ControllerSequence :=
  if negb (state_eqb (cs_state s) SeqState.kCancelRequested) ||
     (negb (cs_active_plan_sequence s =? 0) && negb (is_prepared (cs_state_before_cancel s)))
  then (FailedPrecondition "sequence still has committed work", s)
  else (StatusOk, (clear_plan s) <| cs_state := SeqState.kDraining |>).

Definition finish_cancel (s : ControllerSequence) : Status * ControllerSequence :=
  if negb (state_eqb (cs_state s) SeqState.kDraining) || negb (cs_drain_is_cancel s)
  then (FailedPrecondition "sequence is not draining", s)
  else (StatusOk, s <| cs_state := SeqState.kCancelled |>).

Definition finish_drain (s : ControllerSequence) : Status * ControllerSequence :=
  if negb (state_eqb (cs_state s) SeqState.kDraining) || cs_drain_is_cancel s
  then (FailedPrecondition "sequence is not terminal-draining", s)
  else (StatusOk, s <| cs_state := SeqState.kCompleted |>).

Definition fail (s : ControllerSequence) : Status * ControllerSequence :=
  if terminal (cs_state s)
  then (FailedPrecondition "sequence is already terminal", s)
  else (StatusOk, (clear_plan s) <| cs_state := SeqState.kFailed |>).

Definition ready_phase (s : ControllerSequence) : Result PackedTokenPhase :=
  if state_eqb (cs_state s) SeqState.kQueuedPrefill then Value kPrefill
  else if state_eqb (cs_state s) SeqState.kReadyDecode then Value (cs_next_decode_phase s)
  else Error (FailedPrecondition "sequence is not at a schedulable boundary").

Definition next_real_token_count (s : ControllerSequence)
    (maximum_prefill_chunk_tokens verify_token_count : Z) : Result Z :=
  if maximum_prefill_chunk_tokens =? 0
  then Error (InvalidArgument "prefill chunk bound must be positive")
  else
    let? phase := ready_phase s in
    match phase with
    | kPrefill =>
        if negb (verify_token_count =? 0) ||
           (cs_model_processed_length s >=? cs_prompt_token_count s)
        then Error (InvalidArgument "prefill scheduling input is inconsistent")
        else
          let remaining := wrap64 (cs_prompt_token_count s - cs_model_processed_length s) in
          Value (wrap32 (Z.min remaining maximum_prefill_chunk_tokens))
    | kDecode =>
        if negb (verify_token_count =? 0)
        then Error (InvalidArgument "decode cannot carry verify tokens")
        else Value 1
    | kVerify =>
        if (verify_token_count =? 0) || (verify_token_count >? 5)
        then Error (InvalidArgument "verify token count is outside the V1 bound")
        else Value verify_token_count
    end.

Definition next_plan_produces_logits (s : ControllerSequence)
    (maximum_prefill_chunk_tokens verify_token_count : Z) : Result bool :=
  let? count := next_real_token_count s maximum_prefill_chunk_tokens verify_token_count in
  let? phase := ready_phase s in
  if negb (phase_eqb phase kPrefill) then Value true
  else Value (wrap64 (cs_model_processed_length s + count) =? cs_prompt_token_count s).

(** ** Invariant *)

(** The ledger relation between processed, prompt and accepted tokens: nothing
    is accepted before the prompt is processed, and from then on
    [K = P + A - 1]. *)
Definition ledger_ok (s : ControllerSequence) : Prop :=
  (cs_accepted_completion_count s = 0 /\
   0 <= cs_model_processed_length s < cs_prompt_token_count s) \/
  (0 < cs_accepted_completion_count s /\
   cs_model_processed_length s = cs_prompt_token_count s + cs_accepted_completion_count s - 1).

Definition plan_free (s : ControllerSequence) : Prop :=
  cs_active_plan_sequence s = 0 /\ cs_active_real_token_count s = 0.

(** The active plan fits its phase. *)
Definition plan_held (s : ControllerSequence) (phase : PackedTokenPhase) : Prop :=
  cs_active_plan_sequence s <> 0 /\ is_u64 (cs_active_plan_sequence s) /\
  cs_active_phase s = phase /\ 1 <= cs_active_real_token_count s <= u32_max /\
  match phase with
  | kPrefill => cs_accepted_completion_count s = 0 /\
      cs_model_processed_length s + cs_active_real_token_count s <= cs_prompt_token_count s
  | kDecode => 0 < cs_accepted_completion_count s /\ cs_active_real_token_count s = 1
  | kVerify => 0 < cs_accepted_completion_count s /\ cs_active_real_token_count s <= 5
  end.

Definition at_state (s : ControllerSequence) (state : ControllerSequenceState) : Prop :=
  match state with
  | SeqState.kQueuedPrefill => plan_free s /\ cs_accepted_completion_count s = 0
  | SeqState.kReadyDecode => plan_free s /\ 0 < cs_accepted_completion_count s
  | SeqState.kPrefillPrepared | SeqState.kPrefillCommitted | SeqState.kPrefillInFlight =>
      plan_held s kPrefill
  | SeqState.kDecodePrepared | SeqState.kDecodeCommitted | SeqState.kDecodeInFlight =>
      plan_held s kDecode
  | SeqState.kVerifyPrepared | SeqState.kVerifyCommitted | SeqState.kVerifyInFlight =>
      plan_held s kVerify
  | SeqState.kCancelRequested => False
  | SeqState.kDraining | SeqState.kCancelled | SeqState.kCompleted | SeqState.kFailed =>
      plan_free s
  end.

(** A state from which a cancel may be requested. *)
Definition live_state (state : ControllerSequenceState) : bool :=
  negb (terminal state) && negb (state_eqb state SeqState.kDraining) &&
  negb (state_eqb state SeqState.kCancelRequested).

Definition cancel_flag_ok (s : ControllerSequence) : Prop :=
  match cs_state s with
  | SeqState.kCancelRequested | SeqState.kCancelled => cs_drain_is_cancel s = true
  | SeqState.kDraining | SeqState.kFailed => True
  | _ => cs_drain_is_cancel s = false
  end.

Definition seq_ranges (s : ControllerSequence) : Prop :=
  cs_sequence_generation s <> 0 /\ cs_prompt_token_count s <> 0 /\
  is_u64 (cs_sequence_generation s) /\ is_u64 (cs_prompt_token_count s) /\
  is_u64 (cs_model_processed_length s) /\ is_u64 (cs_accepted_completion_count s) /\
  is_u64 (cs_state_generation s) /\ cs_state_generation s <> 0 /\
  cs_next_decode_phase s <> kPrefill.

Definition seq_wf (s : ControllerSequence) : Prop :=
  seq_ranges s /\ ledger_ok s /\ cancel_flag_ok s /\
  (if state_eqb (cs_state s) SeqState.kCancelRequested
   then live_state (cs_state_before_cancel s) = true /\ at_state s (cs_state_before_cancel s)
   else at_state s (cs_state s)).

(** ** Operations as steps *)

Inductive seq_op :=
  | OpPrepare (plan_sequence : Z) (phase : PackedTokenPhase) (real_token_count : Z)
  | OpCommit (plan_sequence : Z)
  | OpMarkInFlight (plan_sequence : Z)
  | OpAbortPrepared (plan_sequence : Z)
  | OpComplete (c : ControllerPlanCompletion)
  | OpRequestCancel
  | OpBeginDraining
  | OpFinishCancel
  | OpFinishDrain
  | OpFail.

Definition run_op (s : ControllerSequence) (op : seq_op) : Status * ControllerSequence :=
  match op with
  | OpPrepare p ph n => prepare s p ph n
  | OpCommit p => commit s p
  | OpMarkInFlight p => mark_in_flight s p
  | OpAbortPrepared p => abort_prepared s p
  | OpComplete c => complete s c
  | OpRequestCancel => request_cancel s
  | OpBeginDraining => begin_draining s
  | OpFinishCancel => finish_cancel s
  | OpFinishDrain => finish_drain s
  | OpFail => fail s
  end.

(** The arguments are in the range of their types. *)
Definition completion_typed (c : ControllerPlanCompletion) : Prop :=
  is_u64 (cc_plan_sequence c) /\ is_u64 (cc_sequence_generation c) /\
  is_u64 (cc_committed_model_processed_length c) /\
  is_u64 (cc_accepted_completion_count c) /\ is_u64 (cc_state_generation c).

Definition op_typed (op : seq_op) : Prop :=
  match op with
  | OpPrepare p _ n => is_u64 p /\ is_u32 n
  | OpCommit p | OpMarkInFlight p | OpAbortPrepared p => is_u64 p
  | OpComplete c => completion_typed c
  | _ => True
  end.

#[export] Instance seq_op_Typed : Typed seq_op := op_typed.

#[export] Instance sequence_Machine : Machine ControllerSequence seq_op Status := {|
  m_run := run_op;
  m_init s := exists g p sg, is_u64 g /\ is_u64 p /\ is_u64 sg /\ Admit g p sg = Value s |}.

(** ** Lemmas *)

Ltac seq_unfold :=
  unfold prepare, commit, mark_in_flight, abort_prepared, complete, request_cancel,
    begin_draining, finish_cancel, finish_drain, fail, prepared, committed_or_in_flight,
    has_active_plan in *.

(** A rejected operation leaves the sequence as it was. *)
Lemma run_op_error s op : ok (fst (run_op s op)) = false -> snd (run_op s op) = s.
Proof.
  destruct op; cbn [run_op]; seq_unfold; repeat (bcase; try done).
Qed.

Lemma Admit_Value g p sg s :
  Admit g p sg = Value s ->
  g <> 0 /\ p <> 0 /\ sg <> 0 /\
  s = MkSequence g p 0 0 sg 0 0 kPrefill kDecode SeqState.kQueuedPrefill
        SeqState.kQueuedPrefill false.
Proof. unfold Admit. bcase; [done|]. intros [= <-]. repeat split; lia. Qed.

Lemma Admit_wf g p sg s :
  is_u64 g -> is_u64 p -> is_u64 sg -> Admit g p sg = Value s -> seq_wf s.
Proof.
  unfold is_u64. intros Hg Hp Hsg (? & ? & ? & ->)%Admit_Value.
  unfold seq_wf, seq_ranges, ledger_ok, cancel_flag_ok, plan_free, is_u64. cbn.
  unfold plan_free. cbn. repeat split; try done; try lia.
Qed.

(** Case analysis on the state of a sequence, with the state tests computed. *)
Ltac seq_cases s :=
  destruct s as [g p k a sg pl n ph nph st bst dc]; cbn -[checked_add_u64 wrap64 wrap32] in *.

Lemma plan_held_phase s ph : plan_held s ph -> plan_held s (cs_active_phase s).
Proof. intros H. assert (E : cs_active_phase s = ph) by apply H. by rewrite E. Qed.

(** A committed or in-flight plan is held, also while a cancel is pending. *)
Lemma completable_held s :
  seq_wf s ->
  state_eqb (cs_state s) (inflight_state (cs_active_phase s)) = true \/
  (state_eqb (cs_state s) SeqState.kCancelRequested = true /\
   is_committed_or_in_flight (cs_state_before_cancel s) = true) ->
  plan_held s (cs_active_phase s).
Proof.
  intros (_ & _ & _ & Hat) Hst. destruct Hst as [Hst | [Hst Hb]].
  - apply state_eqb_true in Hst. rewrite Hst in Hat.
    by destruct (cs_active_phase s).
  - rewrite Hst in Hat. destruct Hat as [_ Hat].
    destruct (cs_state_before_cancel s); try done; exact (plan_held_phase _ _ Hat).
Qed.

(** What a validated completion says. *)
Record completion_valid (s : ControllerSequence) (c : ControllerPlanCompletion) : Prop := {
  cv_held : plan_held s (cs_active_phase s);
  cv_plan : cc_plan_sequence c = cs_active_plan_sequence s;
  cv_generation : cc_sequence_generation c = cs_sequence_generation s;
  cv_state_generation : cs_state_generation s < cc_state_generation c;
  cv_next : cc_next_decode_phase c <> kPrefill;
  cv_length : cs_model_processed_length s <= cc_committed_model_processed_length c
    <= cs_model_processed_length s + cs_active_real_token_count s;
  cv_accepted : cs_accepted_completion_count s <= cc_accepted_completion_count c;
  cv_prefill : cs_active_phase s = kPrefill ->
    cc_committed_model_processed_length c =
      cs_model_processed_length s + cs_active_real_token_count s;
  cv_ledger :
    (cc_accepted_completion_count c = 0 /\
     cc_committed_model_processed_length c < cs_prompt_token_count s) \/
    (0 < cc_accepted_completion_count c /\
     cc_committed_model_processed_length c =
       cs_prompt_token_count s + cc_accepted_completion_count c - 1) }.

Lemma completion_identity_ok s c :
  seq_wf s -> completion_identity_invalid s c = false ->
  plan_held s (cs_active_phase s) /\
  cc_plan_sequence c = cs_active_plan_sequence s /\
  cc_sequence_generation c = cs_sequence_generation s /\
  cs_state_generation s < cc_state_generation c /\
  cc_next_decode_phase c <> kPrefill /\
  cs_model_processed_length s <= cc_committed_model_processed_length c /\
  cs_accepted_completion_count s <= cc_accepted_completion_count c.
Proof.
  intros Hwf. unfold completion_identity_invalid. rewrite !orb_false_iff.
  intros [[[[[[Es E2] E3] E4] E5] E6] E7].
  split.
  { apply completable_held; [done|]. apply andb_false_iff in Es as [Es|Es]; breflect; auto. }
  breflect. repeat split; try lia.
  intros Heq. by rewrite Heq in E7.
Qed.

Lemma validate_completion_ok s c :
  seq_wf s -> completion_typed c -> ok (validate_completion s c) = true ->
  completion_valid s c.
Proof.
  intros Hwf Hc. unfold validate_completion.
  destruct (completion_identity_invalid s c) eqn:Ei; [done|].
  destruct (completion_identity_ok s c Hwf Ei) as (Hheld & Hp & Hg & Hsg & Hph & HK' & HA').
  pose proof Hheld as (_ & _ & _ & Hn & _).
  pose proof Hwf as ((_ & _ & _ & HP & HK & HA & _) & _).
  destruct Hc as (_ & _ & Hc1 & Hc2 & _).
  destruct (completion_cut_error s c) eqn:Ecut.
  { unfold completion_cut_error in Ecut. repeat bcase_in Ecut; by simplify_eq. }
  unfold completion_cut_error in Ecut. unfold completion_ledger_status.
  rewrite checked_add_u64_spec in Ecut by (unfold is_u64 in *; lia).
  unfold is_u64 in *. intros Hl. constructor; try done.
  - repeat bcase_in Ecut; try done; lia.
  - intros Hpre. rewrite Hpre in Ecut. cbn in Ecut. repeat bcase_in Ecut; try done; lia.
  - destruct (cc_accepted_completion_count c =? 0) eqn:E0; cbn [negb] in Hl.
    + left. repeat bcase_in Hl; try done; lia.
    + right. rewrite wrap64_id in Hl by (unfold is_u64; lia).
      rewrite checked_add_u64_spec in Hl by (unfold is_u64; lia).
      repeat bcase_in Hl; try done; simplify_eq; try lia.
Qed.

Lemma prepare_count_ok s phase n :
  is_u64 (cs_model_processed_length s) -> is_u32 n ->
  prepare_count_error s phase n = None ->
  match phase with
  | kPrefill => cs_model_processed_length s + n <= cs_prompt_token_count s
  | kDecode => n = 1
  | kVerify => n <= 5
  end.
Proof.
  unfold is_u64, is_u32, prepare_count_error. intros HK Hn.
  destruct phase; [|bcase; [done|lia]|bcase; [done|lia]].
  rewrite checked_add_u64_spec by (unfold is_u64; lia).
  repeat bcase; try done; simplify_eq; lia.
Qed.

(** The preparation of a ready sequence, as a view of its guard. *)
Lemma prepare_ok s p phase n :
  ok (fst (prepare s p phase n)) = true ->
  p <> 0 /\ n <> 0 /\ cs_active_plan_sequence s = 0 /\
  prepare_count_error s phase n = None /\
  ((cs_state s = SeqState.kQueuedPrefill /\ phase = kPrefill) \/
   (cs_state s = SeqState.kReadyDecode /\ phase = cs_next_decode_phase s)) /\
  snd (prepare s p phase n) =
    s <| cs_active_plan_sequence := p |> <| cs_active_real_token_count := n |>
      <| cs_active_phase := phase |> <| cs_state := prepared_state phase |>.
Proof.
  unfold prepare. destruct (_ || _) eqn:E; [done|].
  destruct (prepare_count_error s phase n) as [e|] eqn:Ec.
  { unfold prepare_count_error in Ec. repeat bcase_in Ec; by simplify_eq. }
  intros _. rewrite !orb_false_iff in E. destruct E as [[[[E1 E2] E3] E4] E5].
  apply negb_false_iff, orb_true_iff in E2. 
  rewrite !andb_true_iff, !state_eqb_true, !phase_eqb_true in E2.
  split_and!; try lia; done || tauto.
Qed.

Lemma prepare_wf s p phase n :
  seq_wf s -> is_u64 p -> is_u32 n -> ok (fst (prepare s p phase n)) = true ->
  seq_wf (snd (prepare s p phase n)).
Proof.
  intros (Hr & Hl & Hf & Hat) Hp Hn Hok.
  destruct (prepare_ok _ _ _ _ Hok) as (Hp0 & Hn0 & Hfree & Hc & Hst & ->).
  pose proof Hr as (_ & _ & _ & HP & HK & _ & _ & _ & Hnx).
  apply prepare_count_ok in Hc; [|done..].
  unfold seq_wf, seq_ranges, ledger_ok, cancel_flag_ok, plan_held, is_u32 in *.
  destruct s as [g P K A sg pl m ph nph st bst dc]; cbn in *.
  destruct Hst as [[-> ->] | [-> ->]]; cbn in *; destruct Hat as [_ HA].
  - split_and!; try done; try apply Hr; unfold plan_held; cbn; split_and!; try done; lia.
  - destruct nph; [done|..]; cbn in *; split_and!; try done; try apply Hr;
      unfold plan_held; cbn; split_and!; try done; lia.
Qed.

(** Split an invariant goal into its components and settle the easy ones. *)
Ltac wf_split :=
  unfold seq_wf, seq_ranges, ledger_ok, cancel_flag_ok, plan_free, plan_held in *;
  cbn in *; unfold plan_free, plan_held in *; cbn in *;
  destruct_and?; split_and!; try done; try lia.

Lemma commit_wf s p : seq_wf s -> seq_wf (snd (commit s p)).
Proof.
  intros Hwf. unfold commit. bcase; [done|]. cbn [snd].
  destruct s as [g P K A sg pl n ph nph st bst dc].
  destruct Hwf as (Hr & Hl & Hf & Hat). unfold prepared in *.
  destruct st; try done; cbn in Hat, Hf, Hl, Hr; pose proof Hat as (_ & _ & -> & _);
    cbn in *; wf_split.
Qed.

Lemma mark_in_flight_wf s p : seq_wf s -> seq_wf (snd (mark_in_flight s p)).
Proof.
  intros Hwf. unfold mark_in_flight. bcase; [done|]. cbn [snd].
  destruct s as [g P K A sg pl n ph nph st bst dc].
  destruct Hwf as (Hr & Hl & Hf & Hat). unfold committed_or_in_flight in *.
  destruct st; try done; cbn in Hat, Hf, Hl, Hr; pose proof Hat as (_ & _ & -> & _);
    cbn in *; wf_split.
Qed.

Lemma abort_prepared_wf s p : seq_wf s -> seq_wf (snd (abort_prepared s p)).
Proof.
  intros Hwf. unfold abort_prepared. bcase; [done|]. cbn [snd].
  destruct s as [g P K A sg pl n ph nph st bst dc].
  destruct Hwf as (Hr & Hl & Hf & Hat). unfold prepared in *.
  destruct st; try done; cbn in Hat, Hf, Hl, Hr; pose proof Hat as (_ & _ & -> & _ & HA);
    cbn in *; destruct HA; wf_split.
Qed.

Lemma request_cancel_wf s : seq_wf s -> seq_wf (snd (request_cancel s)).
Proof.
  intros Hwf. unfold request_cancel. bcase; [done|]. bcase; [done|]. cbn [snd].
  destruct s as [g P K A sg pl n ph nph st bst dc].
  destruct Hwf as (Hr & Hl & Hf & Hat).
  destruct st; try done; cbn in Hat, Hf, Hl, Hr; wf_split.
Qed.

Lemma begin_draining_wf s : seq_wf s -> seq_wf (snd (begin_draining s)).
Proof.
  intros Hwf. unfold begin_draining. bcase; [done|]. cbn [snd].
  destruct s as [g P K A sg pl n ph nph st bst dc]. destruct Hwf as (Hr & Hl & Hf & Hat).
  wf_split.
Qed.

Lemma finish_cancel_wf s : seq_wf s -> seq_wf (snd (finish_cancel s)).
Proof.
  intros Hwf. unfold finish_cancel. bcase; [done|]. cbn [snd].
  destruct s as [g P K A sg pl n ph nph st bst dc]. destruct Hwf as (Hr & Hl & Hf & Hat).
  destruct st; try done. destruct dc; [wf_split | done].
Qed.

Lemma finish_drain_wf s : seq_wf s -> seq_wf (snd (finish_drain s)).
Proof.
  intros Hwf. unfold finish_drain. bcase; [done|]. cbn [snd].
  destruct s as [g P K A sg pl n ph nph st bst dc]. destruct Hwf as (Hr & Hl & Hf & Hat).
  destruct st; try done; wf_split.
Qed.

Lemma fail_wf s : seq_wf s -> seq_wf (snd (fail s)).
Proof.
  intros Hwf. unfold fail. bcase; [done|]. cbn [snd].
  destruct s as [g P K A sg pl n ph nph st bst dc]. destruct Hwf as (Hr & Hl & Hf & Hat).
  wf_split.
Qed.

Lemma complete_wf s c : seq_wf s -> completion_typed c -> seq_wf (snd (complete s c)).
Proof.
  intros Hwf Hc. unfold complete.
  destruct (ok (validate_completion s c)) eqn:Hok; [|done]. cbn [negb snd].
  destruct (validate_completion_ok s c Hwf Hc Hok) as [Hh _ _ Hsg Hnx HK HA _ Hled].
  destruct Hc as (_ & _ & HcK & HcA & Hcs). destruct Hwf as (Hr & Hl & Hf & Hat).
  destruct s as [g P K A sg pl n ph nph st bst dc], c as [cp cg cK cA csg cn ct].
  unfold seq_wf, seq_ranges, ledger_ok, is_u64 in *.
  destruct (state_eqb st SeqState.kCancelRequested) eqn:Ec.
  - apply state_eqb_true in Ec as ->. wf_split.
  - assert (Hdc : dc = false).
    { assert (st <> SeqState.kDraining /\ st <> SeqState.kFailed /\ st <> SeqState.kCancelled).
      { cbn in Hat. rewrite Ec in Hat. destruct Hh as (Hpl & _). cbn in Hpl.
        split_and!; intros ->; cbn in Hat; destruct Hat; done. }
      pose proof (proj1 (state_eqb_false _ _) Ec). destruct st; cbn in Hf; naive_solver. }
    unfold seq_wf, cancel_flag_ok. cbn in *. rewrite !Ec.
    destruct ct; [wf_split|]. destruct (cK <? P) eqn:EP; wf_split.
Qed.

Lemma run_op_wf s op : seq_wf s -> op_typed op -> seq_wf (snd (run_op s op)).
Proof.
  intros Hwf Ht. destruct (ok (fst (run_op s op))) eqn:Hok; [|by rewrite run_op_error].
  destruct op; cbn [run_op op_typed] in *.
  - destruct Ht. by apply prepare_wf.
  - by apply commit_wf.
  - by apply mark_in_flight_wf.
  - by apply abort_prepared_wf.
  - by apply complete_wf.
  - by apply request_cancel_wf.
  - by apply begin_draining_wf.
  - by apply finish_cancel_wf.
  - by apply finish_drain_wf.
  - by apply fail_wf.
Qed.

#[export] Instance seq_wf_inv : MachineInv seq_wf.
Proof.
  split; [intros s (g & p & sg & Hg & Hp & Hsg & Ha); by apply (Admit_wf g p sg) | exact run_op_wf].
Qed.

(** How far an operation moves the ledger. *)
Definition ledger_advances (s s' : ControllerSequence) : Prop :=
  cs_sequence_generation s' = cs_sequence_generation s /\
  cs_prompt_token_count s' = cs_prompt_token_count s /\
  cs_model_processed_length s <= cs_model_processed_length s'
    <= cs_model_processed_length s + cs_active_real_token_count s /\
  cs_accepted_completion_count s <= cs_accepted_completion_count s' /\
  cs_state_generation s <= cs_state_generation s'.

Lemma seq_wf_count_nonneg s : seq_wf s -> 0 <= cs_active_real_token_count s.
Proof.
  intros (_ & _ & _ & Hat). unfold at_state, plan_free, plan_held in Hat.
  repeat bcase_in Hat; destruct_and?; lia || done.
Qed.

Lemma run_op_advances s op :
  seq_wf s -> op_typed op -> ledger_advances s (snd (run_op s op)).
Proof.
  intros Hwf Ht. pose proof (seq_wf_count_nonneg s Hwf) as Hn.
  unfold ledger_advances.
  destruct op; cbn [run_op]; seq_unfold; try (repeat bcase; cbn; split_and!; done || lia).
  destruct (ok (validate_completion s c)) eqn:Hok; [|cbn; split_and!; done || lia].
  destruct (validate_completion_ok s c Hwf Ht Hok). cbn. split_and!; done || lia.
Qed.

Lemma terminal_rejects s op :
  terminal (cs_state s) = true -> ok (fst (run_op s op)) = false.
Proof.
  intros Ht. destruct s as [g P K A sg pl n ph nph st bst dc]. cbn in Ht.
  destruct st; try done; destruct op; try done; cbn [run_op]; unfold complete,
    validate_completion, completion_identity_invalid; by destruct ph.
Qed.

(** Once the drain is a cancellation, it stays one. *)
Definition cancelling (s : ControllerSequence) : Prop :=
  cs_drain_is_cancel s = true /\
  (cs_state s = SeqState.kCancelRequested \/ cs_state s = SeqState.kDraining \/
   cs_state s = SeqState.kCancelled \/ cs_state s = SeqState.kFailed).

Lemma run_op_cancelling s op :
  cancelling s -> cancelling (snd (run_op s op)).
Proof.
  intros [Hd Hst]. destruct s as [g P K A sg pl n ph nph st bst dc]. cbn in *. subst dc.
  assert (Hc : forall st c, st = SeqState.kDraining \/ st = SeqState.kCancelled \/
                            st = SeqState.kFailed ->
    completion_identity_invalid (MkSequence g P K A sg pl n ph nph st bst true) c = true)
    by (intros ? ? [-> | [-> | ->]]; by destruct ph).
  unfold cancelling. destruct Hst as [-> | [-> | [-> | ->]]]; destruct op; cbn [run_op];
    seq_unfold; unfold validate_completion; rewrite ?Hc by auto;
    repeat bcase; cbn; try done; tauto.
Qed.

Lemma seq_steps_cancelling s s' : rtc m_step s s' -> cancelling s -> cancelling s'.
Proof.
  induction 1 as [|s s1 s' (op & _ & ->) _ IH]; [done|].
  intros Hc. by apply IH, run_op_cancelling.
Qed.

(** ** Driving a prompt through its prefill plans

    One round of the runtime on a single sequence: take the next chunk, prepare,
    commit and launch it, and complete it with the cut that
    [complete_current_sampled_tokens] reports. *)
Definition prefill_round (chunk plan : Z) (s : ControllerSequence)
    : Status * ControllerSequence :=
  match next_real_token_count s chunk 0 with
  | Error e => (e, s)
  | Value n =>
      let '(st, s) := prepare s plan kPrefill n in
      if negb (ok st) then (st, s) else
      let '(st, s) := commit s plan in
      if negb (ok st) then (st, s) else
      let '(st, s) := mark_in_flight s plan in
      if negb (ok st) then (st, s) else
      let committed := cs_model_processed_length s + n in
      complete s (MkCompletion plan (cs_sequence_generation s) committed
                    (if committed =? cs_prompt_token_count s then 1 else 0)
                    (cs_state_generation s + 1) kDecode false)
  end.

Fixpoint prefill_rounds (rounds : nat) (chunk plan : Z) (s : ControllerSequence)
    : Status * ControllerSequence :=
  match rounds with
  | O => (StatusOk, s)
  | S rounds =>
      let '(st, s) := prefill_round chunk plan s in
      if negb (ok st) then (st, s) else prefill_rounds rounds chunk (plan + 1) s
  end.

(** Success conditions of the operations of a round, in the forward direction. *)
Lemma prepare_prefill_ok s plan n :
  seq_wf s -> cs_state s = SeqState.kQueuedPrefill -> plan <> 0 -> 1 <= n <= u32_max ->
  cs_model_processed_length s + n <= cs_prompt_token_count s ->
  prepare s plan kPrefill n =
    (StatusOk, s <| cs_active_plan_sequence := plan |> <| cs_active_real_token_count := n |>
                 <| cs_active_phase := kPrefill |>
                 <| cs_state := SeqState.kPrefillPrepared |>).
Proof.
  intros ((_ & _ & _ & HP & HK & _) & _ & _ & Hat) Hst Hp Hn Hle.
  rewrite Hst in Hat. destruct Hat as [[Hfree _] _]. unfold is_u64 in *.
  unfold prepare, prepare_count_error. rewrite Hst, Hfree.
  rewrite checked_add_u64_spec by (unfold is_u64; lia).
  repeat bcase; simplify_eq; cbn in *; done || lia.
Qed.

Lemma commit_ok s plan :
  cs_state s = SeqState.kPrefillPrepared -> cs_active_phase s = kPrefill ->
  cs_active_plan_sequence s = plan ->
  commit s plan = (StatusOk, s <| cs_state := SeqState.kPrefillCommitted |>).
Proof.
  intros H1 H2 H3. unfold commit, prepared. rewrite H1, H2, H3, Z.eqb_refl. done.
Qed.

Lemma mark_in_flight_ok s plan :
  cs_state s = SeqState.kPrefillCommitted -> cs_active_phase s = kPrefill ->
  cs_active_plan_sequence s = plan ->
  mark_in_flight s plan = (StatusOk, s <| cs_state := SeqState.kPrefillInFlight |>).
Proof.
  intros H1 H2 H3. unfold mark_in_flight, committed_or_in_flight.
  rewrite H1, H2, H3, Z.eqb_refl. done.
Qed.

Lemma validate_prefill_ok s c :
  cs_state s = SeqState.kPrefillInFlight -> cs_active_phase s = kPrefill ->
  is_u64 (cs_model_processed_length s) -> is_u64 (cs_prompt_token_count s) ->
  1 <= cs_active_real_token_count s <= u32_max -> cs_accepted_completion_count s = 0 ->
  cs_model_processed_length s + cs_active_real_token_count s <= cs_prompt_token_count s ->
  cc_plan_sequence c = cs_active_plan_sequence s ->
  cc_sequence_generation c = cs_sequence_generation s ->
  cs_state_generation s < cc_state_generation c ->
  cc_committed_model_processed_length c =
    cs_model_processed_length s + cs_active_real_token_count s ->
  cc_accepted_completion_count c =
    (if cc_committed_model_processed_length c =? cs_prompt_token_count s then 1 else 0) ->
  cc_next_decode_phase c = kDecode ->
  validate_completion s c = StatusOk.
Proof.
  intros Hst Hph HK HP Hn HA Hle H1 H2 H3 H4 H5 H6. unfold is_u64 in *.
  assert (0 <= cc_accepted_completion_count c) by (rewrite H5; bcase; lia).
  unfold validate_completion, completion_identity_invalid, completion_cut_error,
    completion_ledger_status.
  rewrite Hst, Hph, HA, H1, H2, H6, !Z.eqb_refl. cbn -[checked_add_u64 wrap64].
  rewrite checked_add_u64_spec by (unfold is_u64; lia).
  destruct (_ || _) eqn:E1; [lia|].
  destruct (_ <=? u64_max) eqn:E2; [|lia].
  destruct (_ || _) eqn:E3; [lia|]. rewrite H5.
  destruct (_ =? cs_prompt_token_count s) eqn:E4; cbn [negb Z.eqb].
  - change (wrap64 (1 - 1)) with 0. rewrite checked_add_u64_spec by (unfold is_u64; lia).
    repeat bcase; simplify_eq; done || lia.
  - repeat bcase; simplify_eq; done || lia.
Qed.

Lemma complete_validated s c :
  validate_completion s c = StatusOk -> complete s c = (StatusOk, snd (complete s c)).
Proof. intros H. unfold complete. by rewrite H. Qed.

Lemma prefill_round_ok s chunk plan :
  seq_wf s -> cs_state s = SeqState.kQueuedPrefill ->
  1 <= chunk <= u32_max -> 1 <= plan <= u64_max -> cs_state_generation s < u64_max ->
  let n := Z.min (cs_prompt_token_count s - cs_model_processed_length s) chunk in
  exists s', prefill_round chunk plan s = (StatusOk, s') /\ seq_wf s' /\
    cs_prompt_token_count s' = cs_prompt_token_count s /\
    cs_model_processed_length s' = cs_model_processed_length s + n /\
    cs_state_generation s' = cs_state_generation s + 1 /\
    cs_state s' = if cs_model_processed_length s + n <? cs_prompt_token_count s
                  then SeqState.kQueuedPrefill else SeqState.kReadyDecode.
Proof.
  intros Hwf Hst Hch Hpl Hsg n.
  pose proof Hwf as ((_ & _ & HG & HP & HK & _ & HS & _) & Hled & _ & Hat).
  rewrite Hst in Hat. destruct Hat as [_ HA]. unfold is_u64 in *.
  assert (HKP : cs_model_processed_length s < cs_prompt_token_count s)
    by (destruct Hled; lia).
  unfold prefill_round, next_real_token_count, ready_phase. rewrite Hst.
  destruct (chunk =? 0) eqn:E0; [lia|]. cbn [state_eqb state_value Z.eqb Pos.eqb].
  destruct (_ || _) eqn:E1; [lia|].
  rewrite wrap64_id, wrap32_id by (unfold is_u64, is_u32; lia). fold n.
  pose proof (prepare_wf s plan kPrefill n Hwf) as W1.
  rewrite prepare_prefill_ok in * by (done || lia).
  specialize (W1 ltac:(unfold is_u64; lia) ltac:(unfold is_u32; lia) eq_refl).
  cbn [snd] in W1. apply commit_wf with (p := plan) in W1. rewrite commit_ok in W1 by done.
  cbn [snd] in W1. apply mark_in_flight_wf with (p := plan) in W1.
  rewrite mark_in_flight_ok in W1 by done. cbn [snd] in W1.
  cbn [negb ok code StatusOk Status_new]. rewrite commit_ok by done.
  cbn [negb ok code StatusOk Status_new]. rewrite mark_in_flight_ok by done.
  cbn [negb ok code StatusOk Status_new].
  match goal with |- context [complete ?s3 ?c3] => set (s3' := s3) in *; set (c := c3) end.
  assert (Hval : validate_completion s3' c = StatusOk).
  { subst s3' c. apply validate_prefill_ok; cbn; unfold is_u64; done || lia. }
  apply complete_wf with (c := c) in W1.
  2:{ subst c. unfold completion_typed, is_u64. cbn. split_and!; try lia; bcase; lia. }
  exists (snd (complete s3' c)). split; [by apply complete_validated|].
  split; [exact W1|]. unfold complete. rewrite Hval. done.
Qed.

Lemma prefill_rounds_ok rounds : forall s chunk plan,
  seq_wf s -> cs_state s = SeqState.kQueuedPrefill ->
  1 <= chunk <= u32_max -> 1 <= plan -> plan + Z.of_nat rounds <= u64_max ->
  cs_state_generation s + Z.of_nat rounds <= u64_max ->
  Z.of_nat rounds * chunk < cs_prompt_token_count s - cs_model_processed_length s + chunk ->
  exists s', prefill_rounds rounds chunk plan s = (StatusOk, s') /\ seq_wf s' /\
    cs_prompt_token_count s' = cs_prompt_token_count s /\
    cs_model_processed_length s' =
      Z.min (cs_prompt_token_count s) (cs_model_processed_length s + Z.of_nat rounds * chunk) /\
    cs_state s' = if cs_model_processed_length s' <? cs_prompt_token_count s
                  then SeqState.kQueuedPrefill else SeqState.kReadyDecode.
Proof.
  induction rounds as [|r IH]; intros s chunk plan Hwf Hst Hch Hp1 Hp2 Hsg Hr; cbn [prefill_rounds].
  - exists s. pose proof Hwf as (_ & Hled & _ & Hat). rewrite Hst in Hat. destruct Hat as [_ HA].
    assert (HKP : cs_model_processed_length s < cs_prompt_token_count s) by (destruct Hled; lia).
    split_and!; try done; [lia|]. bcase; [done | lia].
  - destruct (prefill_round_ok s chunk plan) as (s1 & E1 & W1 & HP1 & HK1 & HS1 & HT1);
      [done | done | done | lia | lia|]. rewrite E1. cbn [negb ok code StatusOk Status_new].
    destruct (_ + _ <? _) eqn:E in HT1.
    + destruct (IH s1 chunk (plan + 1)) as (s' & -> & W' & HP' & HK' & HT');
        [done | done | done | lia | lia | lia | nia |].
      exists s'. split_and!; try done; try congruence; [nia|]. rewrite HT', HP1. done.
    + assert (r = O) as -> by (apply Nat2Z.inj; nia).
      exists s1. cbn [prefill_rounds]. split_and!; try done; [nia|]. rewrite HT1. bcase; [lia | done].
Qed.

(** ** Theorems *)

(** C16. Every sequence reachable from admission satisfies the ledger invariant
    (no accepted token while the prompt is unfinished, then [K = P + A - 1]) and
    holds a plan exactly in the states that say so; every operation preserves
    this, never moves [K], [A] or the state generation backwards, and moves [K] by
    at most the tokens of the active plan. *)
Theorem sequence_ledger_invariant s op (Hs : m_reachable s) (Ht : op_typed op) :
  seq_wf s /\ ledger_ok s /\ seq_wf (snd (run_op s op)) /\
  ledger_advances s (snd (run_op s op)).
Proof.
  pose proof (reachable_inv seq_wf s Hs) as Hwf. split; [done|]. split; [apply Hwf|].
  split; [by apply run_op_wf | by apply run_op_advances].
Qed.

Definition demo_sequence : ControllerSequence :=
  MkSequence 7 3 0 0 1 0 0 kPrefill kDecode SeqState.kQueuedPrefill SeqState.kQueuedPrefill false.

Lemma demo_sequence_reachable : m_reachable demo_sequence.
Proof.
  exists demo_sequence. split; [|apply rtc_refl]. exists 7, 3, 1. unfold is_u64.
  split_and!; try lia. done.
Qed.

Lemma sequence_ledger_invariant_witness :
  m_reachable demo_sequence /\ op_typed (OpPrepare 1 kPrefill 2) /\
  seq_wf (snd (run_op demo_sequence (OpPrepare 1 kPrefill 2))).
Proof.
  assert (Ht : op_typed (OpPrepare 1 kPrefill 2)) by (cbn; unfold is_u64, is_u32; lia).
  split; [exact demo_sequence_reachable|]. split; [exact Ht|].
  apply (sequence_ledger_invariant demo_sequence _ demo_sequence_reachable Ht).
Defined.

(** C29. Failure atomicity and finality: an operation that returns an error leaves
    the sequence exactly as it was, and in a terminal state (cancelled, completed
    or failed) every operation returns an error. *)
Theorem sequence_failure_atomic s op :
  (ok (fst (run_op s op)) = false -> snd (run_op s op) = s) /\
  (terminal (cs_state s) = true -> ok (fst (run_op s op)) = false /\ snd (run_op s op) = s).
Proof.
  split; [apply run_op_error|]. intros Ht. pose proof (terminal_rejects s op Ht) as He.
  split; [done | by apply run_op_error].
Qed.

(** Cancellation is final and never drops committed work: after a successful
    [request_cancel] the sequence can only be cancelling, draining, cancelled or
    failed, whatever operations follow, so it is never scheduled again and never
    reported as completed; and while it holds a committed plan [begin_draining]
    refuses, so the drain waits for that plan's completion. *)
Theorem sequence_cancel_final s s'
  (Hs : m_reachable s) (Hc : ok (fst (request_cancel s)) = true)
  (Hsteps : rtc m_step (snd (request_cancel s)) s') :
  cancelling s' /\ cs_state s' <> SeqState.kCompleted /\
  (forall plan phase n, ok (fst (prepare s' plan phase n)) = false) /\
  (is_committed_or_in_flight (cs_state s) = true ->
   ok (fst (begin_draining (snd (request_cancel s)))) = false).
Proof.
  pose proof (reachable_inv seq_wf s Hs) as Hwf.
  assert (Hcan : cancelling (snd (request_cancel s))).
  { destruct Hwf as (_ & _ & Hf & _). unfold request_cancel, cancelling, cancel_flag_ok in *.
    destruct (_ || _); [done|]. destruct (state_eqb _ _) eqn:E; [|cbn; tauto].
    apply state_eqb_true in E. cbn. rewrite E in *. tauto. }
  pose proof (seq_steps_cancelling _ _ Hsteps Hcan) as Hc'. split; [done|].
  destruct Hc' as [_ Hst]. split; [intros E; rewrite E in Hst; naive_solver|]. split.
  - intros plan phase n. unfold prepare.
    destruct Hst as [-> | [-> | [-> | ->]]]; done.
  - intros Hcm. destruct Hwf as (_ & _ & _ & Hat). unfold request_cancel in *.
    destruct s as [g P K A sg pl n ph nph st bst dc]; destruct st; try done; cbn in *;
      destruct Hat as (Hpl & _); cbn in Hpl; unfold begin_draining; cbn;
      by rewrite (proj2 (Z.eqb_neq pl 0) Hpl).
Qed.

Lemma sequence_cancel_final_witness :
  m_reachable demo_sequence /\ ok (fst (request_cancel demo_sequence)) = true /\
  cs_state (snd (request_cancel demo_sequence)) <> SeqState.kCompleted.
Proof.
  split; [exact demo_sequence_reachable|]. split; [reflexivity|].
  apply (sequence_cancel_final demo_sequence _ demo_sequence_reachable eq_refl (rtc_refl _ _)).
Defined.

(** C30. A queued prompt is finished by exactly [ceil((P - K) / chunk)] plans: each
    round schedules the next chunk, every operation of the round succeeds, and
    the last one leaves the sequence ready to decode with [K = P] and one accepted
    token. *)
Theorem prefill_completes s chunk plan
  (Hwf : seq_wf s) (Hq : cs_state s = SeqState.kQueuedPrefill)
  (Hchunk : 1 <= chunk <= u32_max) (Hplan : 1 <= plan)
  (Hroom : Z.max plan (cs_state_generation s) +
             (cs_prompt_token_count s - cs_model_processed_length s) <= u64_max) :
  let rounds := (cs_prompt_token_count s - cs_model_processed_length s + chunk - 1) / chunk in
  exists s',
    prefill_rounds (Z.to_nat rounds) chunk plan s = (StatusOk, s') /\
    cs_state s' = SeqState.kReadyDecode /\
    cs_model_processed_length s' = cs_prompt_token_count s /\
    cs_accepted_completion_count s' = 1.
Proof.
  intros rounds. pose proof Hwf as (_ & Hled & _ & Hat). rewrite Hq in Hat.
  destruct Hat as [_ HA].
  assert (HKP : cs_model_processed_length s < cs_prompt_token_count s) by (destruct Hled; lia).
  assert (Hr : (cs_prompt_token_count s - cs_model_processed_length s) <= rounds * chunk
               < cs_prompt_token_count s - cs_model_processed_length s + chunk).
  { subst rounds. pose proof (Z.div_mod (cs_prompt_token_count s - cs_model_processed_length s
      + chunk - 1) chunk ltac:(lia)). pose proof (Z.mod_pos_bound (cs_prompt_token_count s -
      cs_model_processed_length s + chunk - 1) chunk ltac:(lia)). nia. }
  clearbody rounds.
  assert (1 <= rounds <= cs_prompt_token_count s - cs_model_processed_length s) by nia.
  destruct (prefill_rounds_ok (Z.to_nat rounds) s chunk plan) as (s' & E & W & HP & HK & HT);
    rewrite ?Z2Nat.id by lia; try done; try lia.
  rewrite Z2Nat.id in HK by lia.
  exists s'. split; [done|]. assert (HK' : cs_model_processed_length s' = cs_prompt_token_count s) by lia.
  rewrite HK', Z.ltb_irrefl in HT. split; [done|]. split; [done|].
  destruct W as (_ & [[? ?]|[? ?]] & _); lia.
Qed.

Lemma prefill_completes_witness :
  seq_wf demo_sequence /\
  exists s', prefill_rounds 2 2 1 demo_sequence = (StatusOk, s') /\
    cs_state s' = SeqState.kReadyDecode /\ cs_accepted_completion_count s' = 1.
Proof.
  assert (W : seq_wf demo_sequence) by (apply (reachable_inv seq_wf), demo_sequence_reachable).
  split; [exact W|].
  destruct (prefill_completes demo_sequence 2 1 W eq_refl) as (s' & H1 & H2 & _ & H4);
    [lia | lia | cbn; lia |].
  exists s'. split; [exact H1|]. split; [exact H2 | exact H4].
Defined.
