(* ===== verification/TokenMetadata.v ===== *)
(** * Packed token metadata

    Models [include/pih/model/packed_token_metadata_arena.h] and
    [plugins/execution-default/packed_token_metadata_arena.cpp]: the preallocated
    arrays that carry a plan's tokens, positions and row maps to the backend. *)

From S2P Require Import Prelude Core Sha256 TokenPlan.

Definition kInvalidPackedRequestIndex : Z := u32_max.

Definition kTokensDigestDomain : string := "pih-packed-u32-tokens-v1".

Definition packed_token_input_digest (token_ids : list Z) : Result Sha256Digest :=
  if vsize token_ids >? u32_max
  then Error (ResourceExhausted "packed token digest input is too large")
  else hash_chunks ([text_bytes kTokensDigestDomain; le32 (wrap32 (vsize token_ids))]
                    ++ map le32 token_ids).

Record PackedSequenceTokens := MkSequenceTokens {
  pst_sequence_generation : Z;
  pst_token_ids : list Z;
  pst_produces_logits : bool }.

#[export] Instance PackedSequenceTokens_inhabited : Inhabited PackedSequenceTokens :=
  populate (MkSequenceTokens 0 [] false).

Record PackedTokenMetadataLimits := MkMetadataLimits {
  pml_maximum_sequences : Z;
  pml_maximum_execution_bucket_tokens : Z }.

Record PackedTokenMetadataView := MkMetadataView {
  pmv_generation : Z;
  pmv_input_token_ids : list Z;
  pmv_positions : list Z;
  pmv_request_index : list Z;
  pmv_query_start_offsets : list Z;
  pmv_sample_row_index : list Z;
  pmv_real_token_count : Z }.

Record PackedTokenMetadataArena := MkMetadataArena {
  pma_maximum_sequences : Z;
  pma_maximum_tokens : Z;
  pma_generation : Z;
  pma_token_ids : list Z;
  pma_positions : list Z;
  pma_request_indices : list Z;
  pma_query_offsets : list Z;
  pma_sample_rows : list Z }.

#[export] Instance eta_PackedTokenMetadataArena : Eta PackedTokenMetadataArena := fun r =>
  MkMetadataArena r.(pma_maximum_sequences) r.(pma_maximum_tokens) r.(pma_generation)
    r.(pma_token_ids) r.(pma_positions) r.(pma_request_indices) r.(pma_query_offsets)
    r.(pma_sample_rows).

Definition PackedTokenMetadataArena_Create (limits : PackedTokenMetadataLimits)
    : Result PackedTokenMetadataArena :=
  if (pml_maximum_sequences limits =? 0) ||
     (pml_maximum_execution_bucket_tokens limits =? 0)
  then Error (InvalidArgument "packed metadata limits must be nonzero")
  else
    let n := Z.to_nat (pml_maximum_execution_bucket_tokens limits) in
    let m := Z.to_nat (pml_maximum_sequences limits) in
    Value (MkMetadataArena (pml_maximum_sequences limits)
             (pml_maximum_execution_bucket_tokens limits) 0
             (replicate n 0) (replicate n 0) (replicate n kInvalidPackedRequestIndex)
             (replicate (m + 1) 0) (replicate m 0)).

(** ** [PackedTokenMetadataArena::materialize] *)

(** The first loop: the whole payload is validated before anything is written. *)
Definition payload_error (plan : PackedTokenPlan) (i : Z) (s : PackedSequenceTokens)
    : option Status :=
  if negb (pst_sequence_generation s =? (pp_sequence_generations plan).[i]) ||
     negb (vsize (pst_token_ids s) =? (pp_real_token_counts plan).[i])
  then Some (InvalidArgument "packed token payload does not match plan")
  else match packed_token_input_digest (pst_token_ids s) with
       | Error e => Some e
       | Value digest =>
           if negb (bool_decide (digest = (pp_input_digests plan).[i]))
           then Some (InvalidArgument "packed token payload digest mismatch")
           else match pst_token_ids s with
                | [] => None
                | _ => match checked_add_u64 ((pp_committed_start_positions plan).[i])
                               (wrap64 (vsize (pst_token_ids s) - 1)) with
                       | Error e => Some e
                       | Value _ => None
                       end
                end
       end.

Fixpoint validate_payload (plan : PackedTokenPlan) (i : Z)
    (sequences : list PackedSequenceTokens) : option Status :=
  match sequences with
  | [] => None
  | s :: rest => match payload_error plan i s with
                 | Some e => Some e
                 | None => validate_payload plan (i + 1) rest
                 end
  end.

(** The inner loop of the second pass: the tokens of sequence [i]. *)
Fixpoint write_tokens (begin start i local : Z) (tokens : list Z)
    (a : PackedTokenMetadataArena) : PackedTokenMetadataArena :=
  match tokens with
  | [] => a
  | token :: rest =>
      let packed := wrap32 (begin + local) in
      write_tokens begin start i (local + 1) rest
        (a <| pma_token_ids := (pma_token_ids a).[packed <- token] |>
           <| pma_positions := (pma_positions a).[packed <- wrap64 (start + local)] |>
           <| pma_request_indices := (pma_request_indices a).[packed <- wrap32 i] |>)
  end.

Fixpoint write_sequences (plan : PackedTokenPlan) (i sample_count : Z)
    (sequences : list PackedSequenceTokens) (a : PackedTokenMetadataArena)
    : PackedTokenMetadataArena * Z :=
  match sequences with
  | [] => (a, sample_count)
  | s :: rest =>
      let begin := (pp_packed_offsets plan).[i] in
      let a := a <| pma_query_offsets := (pma_query_offsets a).[i <- begin] |> in
      let a := write_tokens begin ((pp_committed_start_positions plan).[i]) i 0
                 (pst_token_ids s) a in
      if pst_produces_logits s
      then write_sequences plan (i + 1) (wrap32 (sample_count + 1)) rest
             (a <| pma_sample_rows := (pma_sample_rows a).[sample_count <-
                      wrap32 ((pp_packed_offsets plan).[i + 1] - 1)] |>)
      else write_sequences plan (i + 1) sample_count rest a
  end.

(** The padding loop: rows [i .. i + n) are cleared. *)
Fixpoint pad_rows (n : nat) (i : Z) (a : PackedTokenMetadataArena)
    : PackedTokenMetadataArena :=
  match n with
  | O => a
  | S n =>
      pad_rows n (i + 1)
        (a <| pma_token_ids := (pma_token_ids a).[i <- 0] |>
           <| pma_positions := (pma_positions a).[i <- 0] |>
           <| pma_request_indices :=
                (pma_request_indices a).[i <- kInvalidPackedRequestIndex] |>)
  end.

Definition materialize (a : PackedTokenMetadataArena) (plan : PackedTokenPlan)
    (sequences : list PackedSequenceTokens)
    : Result PackedTokenMetadataView * PackedTokenMetadataArena :=
  if negb (vsize sequences =? pp_sequence_count plan) ||
     (vsize sequences >? pma_maximum_sequences a) ||
     (pp_execution_bucket_tokens plan >? pma_maximum_tokens a) ||
     (pma_generation a =? u64_max)
  then (Error (ResourceExhausted "packed metadata arena cannot represent plan"), a)
  else match validate_payload plan 0 sequences with
       | Some e => (Error e, a)
       | None =>
           let '(a, sample_count) := write_sequences plan 0 0 sequences a in
           let a := a <| pma_query_offsets :=
                (pma_query_offsets a).[vsize sequences <- pp_total_real_tokens plan] |> in
           let a := pad_rows
             (Z.to_nat (pp_execution_bucket_tokens plan - pp_total_real_tokens plan))
             (pp_total_real_tokens plan) a in
           let a := a <| pma_generation := wrap64 (pma_generation a + 1) |> in
           let n := Z.to_nat (pp_execution_bucket_tokens plan) in
           (Value (MkMetadataView (pma_generation a)
                     (take n (pma_token_ids a)) (take n (pma_positions a))
                     (take n (pma_request_indices a))
                     (take (length sequences + 1) (pma_query_offsets a))
                     (take (Z.to_nat sample_count) (pma_sample_rows a))
                     (pp_total_real_tokens plan)), a)
       end.

(** ** Specification of the view *)

(** The rows [g i s] of the sequences in order, numbered from [i]. *)
Fixpoint rows {A S} (g : Z -> S -> list A) (i : Z) (sequences : list S) : list A :=
  match sequences with
  | [] => []
  | s :: rest => g i s ++ rows g (i + 1) rest
  end.

Definition count_from (start : Z) (n : nat) : list Z :=
  map (fun k => start + Z.of_nat k) (seq 0 n).

Definition token_row (_ : Z) (s : PackedSequenceTokens) : list Z := pst_token_ids s.

Definition position_row (plan : PackedTokenPlan) (i : Z) (s : PackedSequenceTokens) : list Z :=
  count_from ((pp_committed_start_positions plan).[i]) (length (pst_token_ids s)).

Definition request_row (i : Z) (s : PackedSequenceTokens) : list Z :=
  replicate (length (pst_token_ids s)) i.

Definition offset_row (plan : PackedTokenPlan) (i : Z) (_ : PackedSequenceTokens) : list Z :=
  [(pp_packed_offsets plan).[i]].

(** The row to sample: the last token of a sequence that produces logits. *)
Definition sample_row (plan : PackedTokenPlan) (i : Z) (s : PackedSequenceTokens) : list Z :=
  if pst_produces_logits s then [(pp_packed_offsets plan).[i + 1] - 1] else [].

Definition metadata_view (generation : Z) (plan : PackedTokenPlan)
    (sequences : list PackedSequenceTokens) : PackedTokenMetadataView :=
  let pad := Z.to_nat (pp_execution_bucket_tokens plan - pp_total_real_tokens plan) in
  MkMetadataView generation
    (rows token_row 0 sequences ++ replicate pad 0)
    (rows (position_row plan) 0 sequences ++ replicate pad 0)
    (rows request_row 0 sequences ++ replicate pad kInvalidPackedRequestIndex)
    (pp_packed_offsets plan)
    (rows (sample_row plan) 0 sequences)
    (pp_total_real_tokens plan).

(** The payload is the one the plan was built for. *)
Definition payload_ok (plan : PackedTokenPlan) (i : Z) (s : PackedSequenceTokens) : Prop :=
  pst_sequence_generation s = (pp_sequence_generations plan).[i] /\
  vsize (pst_token_ids s) = (pp_real_token_counts plan).[i] /\
  packed_token_input_digest (pst_token_ids s) = Value ((pp_input_digests plan).[i]) /\
  (pp_committed_start_positions plan).[i] + vsize (pst_token_ids s) - 1 <= u64_max.

Fixpoint payload_matches (plan : PackedTokenPlan) (i : Z)
    (sequences : list PackedSequenceTokens) : Prop :=
  match sequences with
  | [] => True
  | s :: rest => payload_ok plan i s /\ payload_matches plan (i + 1) rest
  end.

Definition arena_fits (a : PackedTokenMetadataArena) (plan : PackedTokenPlan)
    (sequences : list PackedSequenceTokens) : Prop :=
  vsize sequences = pp_sequence_count plan /\
  vsize sequences <= pma_maximum_sequences a /\
  pp_execution_bucket_tokens plan <= pma_maximum_tokens a /\
  pma_generation a <> u64_max.

Definition arena_wf (a : PackedTokenMetadataArena) : Prop :=
  is_u32 (pma_maximum_sequences a) /\ is_u32 (pma_maximum_tokens a) /\
  is_u64 (pma_generation a) /\
  vsize (pma_token_ids a) = pma_maximum_tokens a /\
  vsize (pma_positions a) = pma_maximum_tokens a /\
  vsize (pma_request_indices a) = pma_maximum_tokens a /\
  vsize (pma_query_offsets a) = pma_maximum_sequences a + 1 /\
  vsize (pma_sample_rows a) = pma_maximum_sequences a.

(** What [PackedTokenPlan::Create] leaves: offsets are the running sums of the
    counts, and the bucket holds the total. *)
Definition plan_packed (p : PackedTokenPlan) : Prop :=
  length (pp_committed_start_positions p) = length (pp_sequence_generations p) /\
  length (pp_real_token_counts p) = length (pp_sequence_generations p) /\
  Forall is_u64 (pp_committed_start_positions p) /\
  Forall (fun c => 1 <= c) (pp_real_token_counts p) /\
  pp_packed_offsets p = 0 :: running_sums 0 (pp_real_token_counts p) /\
  pp_total_real_tokens p = sum_list (pp_real_token_counts p) /\
  pp_total_real_tokens p <= pp_execution_bucket_tokens p.

(** ** The two passes meet the specification *)

Lemma vsize_count_from start n : vsize (count_from start n) = Z.of_nat n.
Proof. unfold vsize, count_from. by rewrite length_map, length_seq. Qed.

Lemma count_from_S start n : count_from start (S n) = start :: count_from (start + 1) n.
Proof.
  unfold count_from. cbn [seq map]. rewrite <- seq_shift, map_map. f_equal; [lia|].
  apply map_ext. lia.
Qed.

Lemma write_tokens_spec begin start i : forall tokens local a,
  arena_wf a -> 0 <= begin -> 0 <= start -> 0 <= local -> is_u32 i ->
  begin + local + vsize tokens <= pma_maximum_tokens a ->
  start + local + vsize tokens <= u64_max + 1 ->
  write_tokens begin start i local tokens a =
  a <| pma_token_ids := splice (pma_token_ids a) (begin + local) tokens |>
    <| pma_positions := splice (pma_positions a) (begin + local)
                          (count_from (start + local) (length tokens)) |>
    <| pma_request_indices := splice (pma_request_indices a) (begin + local)
                          (replicate (length tokens) i) |>.
Proof.
  induction tokens as [|t tokens IH]; intros local a Hwf Hb Hs Hl Hi Hn Hp; cbn [write_tokens].
  - cbn [length]. change (count_from (start + local) 0) with (@nil Z). cbn [replicate].
    rewrite !splice_nil. by destruct a.
  - rewrite vsize_cons in *. pose proof (vsize_nonneg tokens).
    destruct Hwf as (W1 & W2 & W3 & W4 & W5 & W6 & W7 & W8).
    unfold is_u32, is_u64 in *.
    rewrite (wrap32_id (begin + local)), (wrap64_id (start + local)), (wrap32_id i)
      by (unfold is_u32, is_u64; lia).
    rewrite IH; [|unfold arena_wf; cbn; rewrite ?vsize_vput; unfold is_u32, is_u64; lia
                 |lia..|exact Hi|cbn; lia|lia].
    cbn [length replicate]. rewrite count_from_S. unfold upd. cbn.
    rewrite !Z.add_assoc, !splice_cons by lia. done.
Qed.

Lemma offset_at p i :
  plan_packed p -> 0 <= i <= pp_sequence_count p ->
  (pp_packed_offsets p).[i] = sum_list (take (Z.to_nat i) (pp_real_token_counts p)).
Proof.
  intros (L1 & L2 & _ & _ & -> & _) Hi. unfold pp_sequence_count, vsize in Hi. unfold vat.
  destruct (Z.to_nat i) as [|n] eqn:E; [done|].
  change ((0 :: running_sums 0 (pp_real_token_counts p)) !!! S n)
    with (running_sums 0 (pp_real_token_counts p) !!! n).
  apply list_lookup_total_correct. rewrite running_sums_lookup by lia. f_equal.
Qed.

Lemma offset_last p :
  plan_packed p -> (pp_packed_offsets p).[pp_sequence_count p] = pp_total_real_tokens p.
Proof.
  intros H. rewrite offset_at by (auto; unfold pp_sequence_count, vsize; lia).
  destruct H as (_ & L2 & _ & _ & _ & -> & _). f_equal. apply take_ge.
  unfold pp_sequence_count, vsize. lia.
Qed.

Lemma offset_step p i :
  plan_packed p -> 0 <= i < pp_sequence_count p ->
  (pp_packed_offsets p).[i + 1] = (pp_packed_offsets p).[i] + (pp_real_token_counts p).[i].
Proof.
  intros H Hi. rewrite !offset_at by (auto; lia).
  replace (Z.to_nat (i + 1)) with (S (Z.to_nat i)) by lia.
  destruct H as (_ & L2 & _). unfold pp_sequence_count, vsize in Hi.
  rewrite (take_S_r _ _ ((pp_real_token_counts p).[i])).
  - rewrite sum_list_app. cbn. lia.
  - apply vat_lookup. unfold vsize. lia.
Qed.

Lemma offset_rest p : forall ss i,
  plan_packed p -> payload_matches p i ss -> 0 <= i -> i + vsize ss = pp_sequence_count p ->
  (pp_packed_offsets p).[i] + vsize (rows token_row i ss) = pp_total_real_tokens p.
Proof.
  induction ss as [|s ss IH]; intros i Hp HP Hi Hn; cbn [rows].
  - rewrite Z.add_0_r in Hn. subst. rewrite offset_last by done. unfold vsize; cbn; lia.
  - destruct HP as [(_ & HC & _) HP]. rewrite vsize_cons in Hn.
    rewrite vsize_app, <- (IH (i + 1)), offset_step by (auto; pose proof (vsize_nonneg ss); lia).
    unfold token_row at 1. lia.
Qed.

Lemma vsize_position_rows p : forall ss i,
  vsize (rows (position_row p) i ss) = vsize (rows token_row i ss).
Proof.
  induction ss as [|s ss IH]; intros i; [done|]. cbn [rows]. rewrite !vsize_app, IH.
  unfold position_row at 1. by rewrite vsize_count_from.
Qed.

Lemma vsize_request_rows : forall ss i,
  vsize (rows request_row i ss) = vsize (rows token_row i ss).
Proof.
  induction ss as [|s ss IH]; intros i; [done|]. cbn [rows]. rewrite !vsize_app, IH.
  unfold request_row at 1. by rewrite vsize_replicate.
Qed.

Lemma vsize_offset_rows p : forall ss i, vsize (rows (offset_row p) i ss) = vsize ss.
Proof.
  induction ss as [|s ss IH]; intros i; [done|]. cbn [rows].
  rewrite vsize_app, IH, vsize_cons. done.
Qed.

Lemma vsize_sample_rows p : forall ss i, vsize (rows (sample_row p) i ss) <= vsize ss.
Proof.
  induction ss as [|s ss IH]; intros i; [done|]. cbn [rows].
  rewrite vsize_app, vsize_cons. specialize (IH (i + 1)).
  unfold sample_row at 1. destruct (pst_produces_logits s); unfold vsize at 1; cbn; lia.
Qed.

#[local] Arguments offset_row : simpl never.

(** The arrays after the sequences from [i] on have been written. *)
Definition written (p : PackedTokenPlan) (i k : Z) (ss : list PackedSequenceTokens)
    (a : PackedTokenMetadataArena) : PackedTokenMetadataArena :=
  let begin := (pp_packed_offsets p).[i] in
  MkMetadataArena (pma_maximum_sequences a) (pma_maximum_tokens a) (pma_generation a)
    (splice (pma_token_ids a) begin (rows token_row i ss))
    (splice (pma_positions a) begin (rows (position_row p) i ss))
    (splice (pma_request_indices a) begin (rows request_row i ss))
    (splice (pma_query_offsets a) i (rows (offset_row p) i ss))
    (splice (pma_sample_rows a) k (rows (sample_row p) i ss)).

Lemma payload_start p i :
  plan_packed p -> 0 <= i < pp_sequence_count p ->
  is_u64 ((pp_committed_start_positions p).[i]) /\ 1 <= (pp_real_token_counts p).[i].
Proof.
  intros (L1 & L2 & F1 & F2 & _) Hi. unfold pp_sequence_count, vsize in Hi.
  rewrite <- (Z2Nat.id i) by lia. split.
  - apply (Forall_vat is_u64); [done|lia].
  - apply (Forall_vat (fun c => 1 <= c)); [done|lia].
Qed.

(** One iteration of the second pass. *)
Lemma written_cons p i k s (ss : list PackedSequenceTokens) a :
  arena_wf a -> 0 <= i < pma_maximum_sequences a -> 0 <= k <= i ->
  0 <= (pp_packed_offsets p).[i] ->
  (pp_packed_offsets p).[i + 1] = (pp_packed_offsets p).[i] + vsize (pst_token_ids s) ->
  (pp_packed_offsets p).[i + 1] <= pma_maximum_tokens a ->
  arena_wf (written p i k [s] a) /\
  written p (i + 1) (k + vsize (sample_row p i s)) ss (written p i k [s] a)
  = written p i k (s :: ss) a.
Proof.
  intros (W1&W2&W3&W4&W5&W6&W7&W8) Hi Hk HO HStep HB. unfold written, arena_wf.
  cbn [rows]. cbn. rewrite !app_nil_r, HStep.
  assert (L1 : vsize (token_row i s) = vsize (pst_token_ids s)) by done.
  assert (L2 : vsize (position_row p i s) = vsize (pst_token_ids s))
    by (unfold position_row; by rewrite vsize_count_from).
  assert (L3 : vsize (request_row i s) = vsize (pst_token_ids s))
    by (unfold request_row; by rewrite vsize_replicate).
  assert (L4 : vsize (offset_row p i s) = 1) by done.
  assert (L5 : 0 <= vsize (sample_row p i s) <= 1)
    by (unfold sample_row; destruct (pst_produces_logits s); unfold vsize; cbn; lia).
  pose proof (vsize_nonneg (pst_token_ids s)).
  split.
  - rewrite !vsize_splice by lia. by split_and!.
  - f_equal.
    + rewrite <- L1. apply splice_app; lia.
    + rewrite <- L2. apply splice_app; lia.
    + rewrite <- L3. apply splice_app; lia.
    + rewrite <- L4 at 1. apply splice_app; lia.
    + apply splice_app; lia.
Qed.

Lemma write_sequence_step p i k s rest a :
  plan_packed p -> arena_wf a -> payload_ok p i s ->
  0 <= i < pp_sequence_count p -> pp_sequence_count p <= pma_maximum_sequences a ->
  0 <= k <= i -> 0 <= (pp_packed_offsets p).[i] ->
  (pp_packed_offsets p).[i + 1] <= pma_maximum_tokens a ->
  write_sequences p i k (s :: rest) a =
  write_sequences p (i + 1) (k + vsize (sample_row p i s)) rest (written p i k [s] a).
Proof.
  intros Hp Hwf (HG & HC & HD & HE) Hi HM Hk HO HB.
  pose proof Hwf as (W1&W2&W3&W4&W5&W6&W7&W8). unfold is_u32, is_u64 in *.
  destruct (payload_start p i Hp) as [HS H1]; [lia|].
  pose proof (offset_step p i Hp ltac:(lia)) as HStep. unfold is_u64 in HS.
  cbn [write_sequences].
  rewrite write_tokens_spec;
    [|unfold arena_wf; cbn; rewrite vsize_vput; unfold is_u32, is_u64; lia
     |unfold is_u32; cbn; lia ..].
  rewrite !Z.add_0_r. unfold written, sample_row. cbn [rows]. rewrite !app_nil_r.
  unfold upd. cbn. unfold sample_row, token_row, position_row, request_row, offset_row.
  rewrite splice_one by lia.
  destruct (pst_produces_logits s).
  - rewrite (wrap32_id (k + 1)) by (unfold is_u32; lia).
    rewrite (wrap32_id (_ - 1)) by (unfold is_u32; lia).
    rewrite (splice_one (pma_sample_rows a)) by lia. done.
  - rewrite splice_nil. unfold vsize at 1. cbn [length]. by rewrite Z.add_0_r.
Qed.

Lemma write_sequences_spec p : forall ss i k a,
  plan_packed p -> arena_wf a -> payload_matches p i ss ->
  0 <= i -> i + vsize ss = pp_sequence_count p -> pp_sequence_count p <= pma_maximum_sequences a ->
  pp_total_real_tokens p <= pma_maximum_tokens a -> 0 <= (pp_packed_offsets p).[i] ->
  0 <= k <= i ->
  write_sequences p i k ss a =
    (written p i k ss a, k + vsize (rows (sample_row p) i ss)).
Proof.
  induction ss as [|s ss IH]; intros i k a Hp Hwf HP Hi Hn HM HT HO Hk.
  - cbn [write_sequences]. unfold written. cbn [rows]. rewrite !splice_nil, Z.add_0_r.
    by destruct a.
  - destruct HP as [HPs HP]. rewrite vsize_cons in Hn. pose proof (vsize_nonneg ss).
    pose proof (offset_rest p ss (i + 1) Hp HP ltac:(lia) ltac:(lia)) as HR.
    pose proof (vsize_nonneg (rows token_row (i + 1) ss)).
    pose proof (offset_step p i Hp ltac:(lia)) as HStep.
    destruct (payload_start p i Hp ltac:(lia)) as [_ H1].
    assert (L5 : 0 <= vsize (sample_row p i s) <= 1)
      by (unfold sample_row; destruct (pst_produces_logits s); unfold vsize; cbn; lia).
    rewrite write_sequence_step by (auto; lia).
    destruct (written_cons p i k s ss a) as [Hwf' Heq];
      [done|lia|lia|done|destruct HPs as (_ & -> & _); done|lia|].
    rewrite IH by (auto; cbn; lia). rewrite Heq. cbn [rows]. rewrite vsize_app.
    f_equal. lia.
Qed.

Lemma pad_rows_spec : forall n i a,
  arena_wf a -> 0 <= i -> i + Z.of_nat n <= pma_maximum_tokens a ->
  pad_rows n i a =
  a <| pma_token_ids := splice (pma_token_ids a) i (replicate n 0) |>
    <| pma_positions := splice (pma_positions a) i (replicate n 0) |>
    <| pma_request_indices :=
         splice (pma_request_indices a) i (replicate n kInvalidPackedRequestIndex) |>.
Proof.
  induction n as [|n IH]; intros i a Hwf Hi Hn; cbn [pad_rows replicate].
  - rewrite !splice_nil. by destruct a.
  - destruct Hwf as (W1&W2&W3&W4&W5&W6&W7&W8).
    rewrite IH; [|unfold arena_wf; cbn; rewrite ?vsize_vput; by split_and!|lia|cbn; lia].
    unfold upd. cbn. rewrite !splice_cons by lia. done.
Qed.

Lemma validate_payload_spec p : forall ss i,
  plan_packed p -> 0 <= i -> i + vsize ss <= pp_sequence_count p ->
  validate_payload p i ss = None <-> payload_matches p i ss.
Proof.
  induction ss as [|s ss IH]; intros i Hp Hi Hn; cbn [validate_payload payload_matches]; [done|].
  rewrite vsize_cons in Hn. pose proof (vsize_nonneg ss).
  destruct (payload_start p i Hp ltac:(lia)) as [HS H1].
  rewrite <- (IH (i + 1)) by (auto; lia).
  enough (HE : payload_error p i s = None <-> payload_ok p i s)
    by (destruct (payload_error p i s); intuition congruence).
  unfold payload_error, payload_ok. pose proof (vsize_nonneg (pst_token_ids s)).
  destruct (Z.eqb_spec (pst_sequence_generation s) ((pp_sequence_generations p).[i]));
    [|naive_solver].
  destruct (Z.eqb_spec (vsize (pst_token_ids s)) ((pp_real_token_counts p).[i])); [|naive_solver].
  cbn [negb orb]. destruct (packed_token_input_digest (pst_token_ids s)) as [d|] eqn:Ed;
    [|naive_solver].
  assert (vsize (pst_token_ids s) <= u32_max).
  { unfold packed_token_input_digest in Ed. bcase_in Ed; [done|lia]. }
  case_bool_decide as HD; cbn [negb];
    [|split; [done|intros (_ & _ & E & _); by apply Value_inj in E]].
  destruct (pst_token_ids s) as [|t ts] eqn:Et; [unfold vsize in *; cbn in *; lia|].
  rewrite <- Et in *. unfold is_u64 in HS.
  rewrite wrap64_id, checked_add_u64_spec by (unfold is_u64; lia).
  bcase; split; try done; intros; [|lia].
  split_and!; try done; [by f_equal|lia].
Qed.

Lemma rows_offsets p : forall ss i,
  plan_packed p -> 0 <= i -> i + vsize ss = pp_sequence_count p ->
  rows (offset_row p) i ss ++ [pp_total_real_tokens p] = drop (Z.to_nat i) (pp_packed_offsets p).
Proof.
  intros ss i Hp. revert i. induction ss as [|s ss IH]; intros i Hi Hn; cbn [rows].
  - rewrite Z.add_0_r in Hn. rewrite <- (offset_last p Hp), <- Hn. cbn [app]. symmetry.
    assert (HL : length (pp_packed_offsets p) = S (Z.to_nat i)).
    { destruct Hp as (_ & L2 & _ & _ & -> & _). cbn. rewrite length_running_sums.
      unfold pp_sequence_count, vsize in Hn. lia. }
    rewrite (drop_S _ ((pp_packed_offsets p).[i])) by (apply vat_lookup; unfold vsize; lia).
    rewrite drop_ge by lia. done.
  - rewrite vsize_cons in Hn. pose proof (vsize_nonneg ss).
    unfold offset_row at 1. cbn [app]. rewrite IH by lia.
    rewrite (drop_S _ ((pp_packed_offsets p).[i]) (Z.to_nat i)).
    + do 2 f_equal. lia.
    + apply vat_lookup. destruct Hp as (_ & L2 & _ & _ & -> & _).
      unfold pp_sequence_count, vsize in *. cbn. rewrite length_running_sums. lia.
Qed.

Lemma arena_fits_iff a p ss :
  negb (vsize ss =? pp_sequence_count p) || (vsize ss >? pma_maximum_sequences a) ||
  (pp_execution_bucket_tokens p >? pma_maximum_tokens a) || (pma_generation a =? u64_max) = false
  <-> arena_fits a p ss.
Proof. unfold arena_fits. lia. Qed.

(** The arena after a successful call. *)
Lemma materialize_writes a p ss :
  arena_wf a -> plan_packed p -> arena_fits a p ss -> payload_matches p 0 ss ->
  exists a',
    materialize a p ss = (Value (metadata_view (pma_generation a + 1) p ss), a') /\
    arena_wf a' /\ pma_generation a' = pma_generation a + 1.
Proof.
  intros Hwf Hp Hf HP. pose proof Hf as (F1 & F2 & F3 & F4). unfold materialize.
  apply arena_fits_iff in Hf as ->.
  pose proof (offset_rest p ss 0 Hp HP ltac:(lia) ltac:(lia)) as HR.
  pose proof (vsize_nonneg (rows token_row 0 ss)). pose proof (vsize_nonneg ss).
  assert (HZ : (pp_packed_offsets p).[0] = 0) by (destruct Hp as (_ & _ & _ & _ & -> & _); done).
  rewrite HZ in HR. assert (HB : pp_total_real_tokens p <= pp_execution_bucket_tokens p) by apply Hp.
  assert (HV : validate_payload p 0 ss = None) by (apply validate_payload_spec; auto; lia).
  rewrite HV, write_sequences_spec by (auto; lia). rewrite Z.add_0_l.
  pose proof (vsize_sample_rows p ss 0) as HS. pose proof (vsize_offset_rows p ss 0) as HO.
  pose proof (vsize_position_rows p ss 0) as HPo. pose proof (vsize_request_rows ss 0) as HRq.
  pose proof Hwf as (W1&W2&W3&W4&W5&W6&W7&W8). unfold is_u64 in W3.
  assert (Hsp : forall (l : list Z) xs k x, vsize l = pma_maximum_tokens a ->
    vsize xs = pp_total_real_tokens p -> k = pp_execution_bucket_tokens p - pp_total_real_tokens p ->
    splice (splice l 0 xs) (pp_total_real_tokens p) (replicate (Z.to_nat k) x)
    = splice l 0 (xs ++ replicate (Z.to_nat k) x)).
  { intros l xs k x Hl Hx ->. rewrite <- Hx at 1. rewrite <- (Z.add_0_l (vsize xs)) at 1.
    apply splice_app; lia. }
  unfold written. rewrite HZ. cbn zeta.
  rewrite pad_rows_spec; [|unfold arena_wf; cbn; rewrite vsize_vput, !vsize_splice by lia;
                           by split_and!|lia|cbn; lia].
  unfold upd. cbn. rewrite (wrap64_id (_ + 1)) by (unfold is_u64; lia).
  rewrite !Hsp, (splice_one (splice _ _ _)) by (rewrite ?vsize_splice; lia).
  assert (HQ : splice (splice (pma_query_offsets a) 0 (rows (offset_row p) 0 ss)) (vsize ss)
    [pp_total_real_tokens p] = splice (pma_query_offsets a) 0 (pp_packed_offsets p)).
  { rewrite <- (drop_0 (pp_packed_offsets p)). change 0%nat with (Z.to_nat 0).
    rewrite <- (rows_offsets p ss 0), <- splice_app by (auto; lia). f_equal. lia. }
  rewrite HQ.
  assert (HL : vsize (pp_packed_offsets p) = vsize ss + 1).
  { destruct Hp as (_ & L2 & _ & _ & -> & _). unfold pp_sequence_count, vsize in *. cbn.
    rewrite length_running_sums. lia. }
  eexists. split_and!; [f_equal; f_equal|..]; cbn.
  2: { unfold arena_wf. cbn.
       rewrite !vsize_splice by (rewrite ?vsize_app, ?vsize_replicate; lia).
       unfold is_u64. split_and!; try done; lia. }
  2: done.
  unfold metadata_view. rewrite !take_splice_0; [done|..]; clear Hsp.
  all: try (rewrite length_app, length_replicate); unfold vsize in *; lia.
Qed.

Lemma materialize_error a p ss e :
  fst (materialize a p ss) = Error e -> snd (materialize a p ss) = a.
Proof.
  unfold materialize. repeat bcase; cbn; done.
Qed.

Lemma materialize_Value a p ss v :
  plan_packed p -> fst (materialize a p ss) = Value v ->
  arena_fits a p ss /\ payload_matches p 0 ss.
Proof.
  intros Hp. unfold materialize. bcase; [done|].
  pose proof (proj1 (arena_fits_iff _ _ _) Heqb) as Hf.
  destruct (validate_payload p 0 ss) eqn:Hv; [done|]. intros _. split; [done|].
  apply validate_payload_spec; auto; [lia|]. destruct Hf. lia.
Qed.

(** A plan built by [PackedTokenPlan::Create] is packed. *)
Lemma Create_packed epoch ps phase rev hash seqs bucket limits p :
  counts_u32 seqs -> 0 <= ptl_maximum_real_tokens limits ->
  Forall (fun s => is_u64 (psi_committed_start_position s)) seqs ->
  PackedTokenPlan_Create epoch ps phase rev hash seqs bucket limits = Value p ->
  plan_packed p.
Proof.
  intros HC HL HS H. apply PackedTokenPlan_Create_Value in H as (_ & HA & ->); [|done..].
  destruct HA as ((F & _) & HB). unfold plan_packed, plan_of, input_counts. cbn.
  rewrite !length_map. split_and!; try done.
  - by apply Forall_map.
  - apply Forall_map, Forall_lookup. intros i x Hx. cbn.
    rewrite Forall_lookup in F. specialize (F _ _ Hx) as (_ & _ & _ & Hn & _).
    unfold counts_u32 in HC. rewrite Forall_lookup in HC. specialize (HC _ _ Hx).
    unfold is_u32 in HC. lia.
Qed.

(** ** Digest of the tokens *)

Definition tokens_bytes (token_ids : list Z) : list Z :=
  text_bytes kTokensDigestDomain ++ le32 (vsize token_ids) ++ concat (map le32 token_ids).

Lemma packed_token_input_digest_eq ts :
  vsize ts <= u32_max ->
  packed_token_input_digest ts = Value (sha256_spec (tokens_bytes ts)).
Proof.
  intros H. unfold packed_token_input_digest. destruct (vsize ts >? u32_max) eqn:E; [lia|].
  rewrite wrap32_id by (unfold is_u32; pose proof (vsize_nonneg ts); lia).
  rewrite hash_chunks_eq; cbn [concat app]; [done| |].
  2:{ repeat (apply Forall_app; split); eauto with pih. apply Forall_concat_map. eauto with pih. }
  rewrite !vsize_app. unfold vsize in *. rewrite length_concat_le32, length_text_bytes, length_le32.
  change (u64_max / 8) with 2305843009213693951. cbn. lia.
Qed.

Lemma tokens_bytes_inj ts us :
  Forall is_u32 ts -> Forall is_u32 us -> vsize ts <= u32_max -> vsize us <= u32_max ->
  tokens_bytes ts = tokens_bytes us -> ts = us.
Proof.
  intros Ht Hu Lt Lu E. unfold tokens_bytes in E.
  apply wire_app_inj in E as [_ E]; [|done].
  apply wire_app_inj in E as [EL E]; [|by rewrite !length_le32].
  apply le32_inj in EL; [|unfold is_u32, vsize in *; lia ..].
  apply le32s_inj; try done. unfold vsize in EL. lia.
Qed.

(** The encodings of the tokens of two sequences at the same place collide under
    SHA-256. *)
Definition token_collision (ss us : list PackedSequenceTokens) : Prop :=
  exists i s u, ss !! i = Some s /\ us !! i = Some u /\
    tokens_bytes (pst_token_ids s) <> tokens_bytes (pst_token_ids u) /\
    sha256_spec (tokens_bytes (pst_token_ids s)) = sha256_spec (tokens_bytes (pst_token_ids u)).

Lemma payload_matches_same p : forall ss us i,
  payload_matches p i ss -> payload_matches p i us -> length ss = length us ->
  Forall (fun s => Forall is_u32 (pst_token_ids s)) (ss ++ us) ->
  map pst_token_ids ss = map pst_token_ids us \/ token_collision ss us.
Proof.
  assert (HL : forall ts d, packed_token_input_digest ts = Value d -> vsize ts <= u32_max).
  { intros ts d E. unfold packed_token_input_digest in E. bcase_in E; [done|lia]. }
  induction ss as [|s ss IH]; intros us i Hs Hu Hlen HF; [destruct us; [by left | done]|].
  destruct us as [|u us]; [done|]. destruct Hs as [(_ & _ & Ds & _) Hs].
  destruct Hu as [(_ & _ & Du & _) Hu]. cbn in Hlen.
  rewrite Forall_app, !Forall_cons in HF. destruct HF as ((Fs & HFs) & Fu & HFu).
  destruct (IH us (i + 1)) as [E|(k & Hk)]; [done|done|lia|by apply Forall_app| |right; by exists (S k)].
  pose proof (HL _ _ Ds). pose proof (HL _ _ Du).
  rewrite packed_token_input_digest_eq in Ds, Du by done.
  apply Value_inj in Ds, Du.
  destruct (decide (tokens_bytes (pst_token_ids s) = tokens_bytes (pst_token_ids u))) as [Eb|Eb].
  - left. cbn. f_equal; [by apply tokens_bytes_inj | done].
  - right. exists 0%nat, s, u. split_and!; [done|done|done|congruence].
Qed.

(** C31. Materialising the metadata of a plan made by [PackedTokenPlan::Create]:
    the call succeeds exactly when the arena can hold the plan and every payload
    matches it, and then the view is the packed batch: the tokens and positions
    of the sequences in order, the request index of every row, zero padding up
    to the bucket, the plan's offsets, and the last row of each sequence that
    produces logits.  On any error the arena is unchanged. *)
Theorem materialize_correct a ss epoch ps phase rev hash seqs bucket limits p
  (Hwf : arena_wf a) (HC : counts_u32 seqs) (HL : 0 <= ptl_maximum_real_tokens limits)
  (HS : Forall (fun s => is_u64 (psi_committed_start_position s)) seqs)
  (Hp : PackedTokenPlan_Create epoch ps phase rev hash seqs bucket limits = Value p) :
  (arena_fits a p ss /\ payload_matches p 0 ss ->
   exists a',
     materialize a p ss = (Value (metadata_view (pma_generation a + 1) p ss), a') /\
     arena_wf a' /\ pma_generation a' = pma_generation a + 1) /\
  (~ (arena_fits a p ss /\ payload_matches p 0 ss) ->
   exists e, materialize a p ss = (Error e, a)).
Proof.
  apply Create_packed in Hp; [|done..]. split.
  - intros [Hf HP]. by apply materialize_writes.
  - intros Hn. destruct (materialize a p ss) as [[v|e] a'] eqn:E.
    + destruct Hn. apply (materialize_Value a p ss v); [done|by rewrite E].
    + exists e. f_equal. pose proof (materialize_error a p ss e) as H. rewrite E in H.
      by apply H.
Qed.

Definition sample_tokens (produces : bool) : list PackedSequenceTokens :=
  [MkSequenceTokens 7 [11; 12; 13] produces; MkSequenceTokens 9 [14; 15] true].

Definition token_digest (ts : list Z) : Sha256Digest :=
  match packed_token_input_digest ts with Value d => d | Error _ => zero_digest end.

Definition bound_inputs : list PackedSequenceInput :=
  [MkSequenceInput 7 0 3 1 (token_digest [11; 12; 13]);
   MkSequenceInput 9 5 2 4 (token_digest [14; 15])].

Definition sample_arena : PackedTokenMetadataArena :=
  MkMetadataArena 4 8 0 (replicate 8 0) (replicate 8 0) (replicate 8 u32_max)
    (replicate 5 0) (replicate 4 0).

Lemma sample_arena_wf : arena_wf sample_arena.
Proof. unfold arena_wf, is_u32, is_u64. cbn. split_and!; try done; lia. Qed.

Lemma materialize_correct_witness :
  exists p,
    PackedTokenPlan_Create 1 2 kPrefill "rev" (sample_digest 3) bound_inputs 8 sample_limits
      = Value p /\
    pmv_positions (metadata_view 1 p (sample_tokens false)) = [0; 1; 2; 5; 6; 0; 0; 0] /\
    pmv_sample_row_index (metadata_view 1 p (sample_tokens false)) = [4] /\
    exists a', materialize sample_arena p (sample_tokens false)
               = (Value (metadata_view 1 p (sample_tokens false)), a').
Proof.
  set (p := plan_of 1 2 kPrefill "rev" (sample_digest 3) bound_inputs 8).
  assert (HC : counts_u32 bound_inputs)
    by (unfold counts_u32, bound_inputs, is_u32; repeat constructor; cbn; lia).
  assert (HL : 0 <= ptl_maximum_real_tokens sample_limits) by (cbn; lia).
  assert (HS : Forall (fun s => is_u64 (psi_committed_start_position s)) bound_inputs)
    by (unfold bound_inputs, is_u64; repeat constructor; cbn; lia).
  assert (Hp : PackedTokenPlan_Create 1 2 kPrefill "rev" (sample_digest 3) bound_inputs 8
                 sample_limits = Value p) by (vm_compute; reflexivity).
  exists p. split; [exact Hp|]. split; [reflexivity|]. split; [reflexivity|].
  destruct (materialize_correct sample_arena (sample_tokens false) _ _ _ _ _ _ _ _ _
              sample_arena_wf HC HL HS Hp) as [H _].
  destruct H as (a' & Ha & _ & _).
  - assert (Hb : match fst (materialize sample_arena p (sample_tokens false)) with
                 | Value _ => true | Error _ => false end = true) by (vm_compute; reflexivity).
    destruct (fst (materialize sample_arena p (sample_tokens false))) eqn:E; [|discriminate Hb].
    exact (materialize_Value _ _ _ _ (Create_packed _ _ _ _ _ _ _ _ _ HC HL HS Hp) E).
  - exists a'. exact Ha.
Defined.

(** The token digests of a plan bind its payload: any two payloads of 32-bit
    tokens accepted for the same plan, by any arenas, carry the same tokens,
    unless the encodings of two of them at the same place collide under
    SHA-256. *)
Theorem materialize_binds_tokens a b ss us v w epoch ps phase rev hash seqs bucket limits p
  (HC : counts_u32 seqs) (HL : 0 <= ptl_maximum_real_tokens limits)
  (HS : Forall (fun s => is_u64 (psi_committed_start_position s)) seqs)
  (Hp : PackedTokenPlan_Create epoch ps phase rev hash seqs bucket limits = Value p)
  (Htok : Forall (fun s => Forall is_u32 (pst_token_ids s)) (ss ++ us))
  (Hs : fst (materialize a p ss) = Value v) (Hu : fst (materialize b p us) = Value w) :
  map pst_token_ids ss = map pst_token_ids us \/ token_collision ss us.
Proof.
  apply Create_packed in Hp; [|done..].
  apply materialize_Value in Hs as [(E1 & _) M1]; [|done].
  apply materialize_Value in Hu as [(E2 & _) M2]; [|done].
  apply (payload_matches_same p _ _ 0); try done. unfold vsize in *. lia.
Qed.

Lemma materialize_binds_tokens_witness :
  map pst_token_ids (sample_tokens false) = map pst_token_ids (sample_tokens true) \/
  token_collision (sample_tokens false) (sample_tokens true).
Proof.
  set (p := plan_of 1 2 kPrefill "rev" (sample_digest 3) bound_inputs 8).
  assert (Hb : forall c, match fst (materialize sample_arena p (sample_tokens c)) with
               | Value _ => true | Error _ => false end = true)
    by (intros []; vm_compute; reflexivity).
  pose proof (Hb false) as H1. pose proof (Hb true) as H2.
  destruct (fst (materialize sample_arena p (sample_tokens false))) as [v|] eqn:E1; [|discriminate H1].
  destruct (fst (materialize sample_arena p (sample_tokens true))) as [w|] eqn:E2; [|discriminate H2].
  apply (materialize_binds_tokens sample_arena sample_arena (sample_tokens false)
           (sample_tokens true) v w 1 2 kPrefill "rev" (sample_digest 3) bound_inputs 8
           sample_limits p); [..|exact E1|exact E2].
  - unfold counts_u32, bound_inputs, is_u32; repeat constructor; cbn; lia.
  - cbn; lia.
  - unfold bound_inputs, is_u64; repeat constructor; cbn; lia.
  - vm_compute; reflexivity.
  - unfold is_u32. cbn. repeat constructor; lia.
Defined.
