(* ===== verification/BurstCredits.v ===== *)
(** * Output burst credits

    Models [include/pih/scheduler/output_burst_credit_pool.h] and
    [plugins/execution-default/output_burst_credit_pool.cpp]: the pool of
    credits that a plan acquires before it may produce output.  A lease names
    one credit and one use of it; the abstract view of the pool is the map from
    leases to their states, and every operation refines an update of that map. *)

From S2P Require Import Prelude Core.

Inductive OutputPlanKind := kQwen | kDeepSeek.

Module BurstState.
Inductive OutputBurstState := kFree | kPrepared | kCommitted | kTransferred.

#[global] Instance OutputBurstState_eq_dec : EqDecision OutputBurstState.
Proof. solve_decision. Defined.
End BurstState.
Import BurstState (OutputBurstState).

(** The underlying value of the enumerator. *)
Definition burst_value (s : OutputBurstState) : Z :=
  match s with
  | BurstState.kFree => 0 | BurstState.kPrepared => 1
  | BurstState.kCommitted => 2 | BurstState.kTransferred => 3
  end.

Definition burst_eqb (a b : OutputBurstState) : bool := burst_value a =? burst_value b.

Lemma burst_eqb_true a b : burst_eqb a b = true <-> a = b.
Proof. by destruct a, b. Qed.

Lemma burst_eqb_false a b : burst_eqb a b = false <-> a <> b.
Proof. by destruct a, b. Qed.

Record OutputBurstCreditLimits := MkCreditLimits {
  bcl_credit_count : Z;
  bcl_maximum_records_qwen : Z;
  bcl_maximum_records_deepseek : Z;
  bcl_maximum_slots_per_credit : Z;
  bcl_maximum_bytes_per_credit : Z }.

Record OutputBurstLease := MkLease {
  bl_credit_index : Z;
  bl_credit_generation : Z;
  bl_plan_sequence : Z;
  bl_records : Z;
  bl_slots : Z;
  bl_bytes : Z }.

#[export] Instance OutputBurstLease_eq_dec : EqDecision OutputBurstLease.
Proof. solve_decision. Defined.

Record Credit := MkCredit {
  cr_state : OutputBurstState;
  cr_generation : Z;
  cr_plan_sequence : Z;
  cr_records : Z;
  cr_slots : Z;
  cr_bytes : Z }.

Definition empty_credit : Credit := MkCredit BurstState.kFree 0 0 0 0 0.

#[export] Instance Credit_inhabited : Inhabited Credit := populate empty_credit.

#[export] Instance eta_Credit : Eta Credit := fun r =>
  MkCredit r.(cr_state) r.(cr_generation) r.(cr_plan_sequence) r.(cr_records)
    r.(cr_slots) r.(cr_bytes).

Record OutputBurstCreditPool := MkPool {
  bp_limits : OutputBurstCreditLimits;
  bp_credits : list Credit }.

#[export] Instance eta_OutputBurstCreditPool : Eta OutputBurstCreditPool := fun r =>
  MkPool r.(bp_limits) r.(bp_credits).

Definition OutputBurstCreditPool_Create (limits : OutputBurstCreditLimits)
    : Result OutputBurstCreditPool :=
  if (bcl_credit_count limits =? 0) || negb (bcl_maximum_records_qwen limits =? 1) ||
     negb (bcl_maximum_records_deepseek limits =? 5) ||
     (bcl_maximum_slots_per_credit limits =? 0) ||
     (bcl_maximum_bytes_per_credit limits =? 0)
  then Error (InvalidArgument "output burst credit limits are invalid")
  else Value (MkPool limits (replicate (Z.to_nat (bcl_credit_count limits)) empty_credit)).

Definition record_limit (limits : OutputBurstCreditLimits) (kind : OutputPlanKind) : Z :=
  match kind with
  | kQwen => bcl_maximum_records_qwen limits
  | kDeepSeek => bcl_maximum_records_deepseek limits
  end.

Definition request_invalid (limits : OutputBurstCreditLimits) (plan : Z)
    (kind : OutputPlanKind) (records slots bytes : Z) : bool :=
  (plan =? 0) || (records >? record_limit limits kind) || (slots =? 0) ||
  (slots >? bcl_maximum_slots_per_credit limits) || (bytes =? 0) ||
  (bytes >? bcl_maximum_bytes_per_credit limits).

Definition credit_free (c : Credit) : bool := burst_eqb (cr_state c) BurstState.kFree.

Definition owned_by (plan : Z) (c : Credit) : bool :=
  negb (credit_free c) && (cr_plan_sequence c =? plan).

Definition acquire (p : OutputBurstCreditPool) (plan : Z) (kind : OutputPlanKind)
    (records slots bytes : Z) : Result OutputBurstLease * OutputBurstCreditPool :=
  if request_invalid (bp_limits p) plan kind records slots bytes
  then (Error (InvalidArgument "output burst request exceeds its envelope"), p)
  else if existsb (owned_by plan) (bp_credits p)
  then (Error (FailedPrecondition "plan already owns an output burst credit"), p)
  else match first_index credit_free (bp_credits p) 0 with
       | None => (Error (ResourceExhausted "output burst credits are exhausted"), p)
       | Some i =>
           let credit := (bp_credits p).[i] in
           if cr_generation credit =? u64_max
           then (Error (FailedPrecondition "output burst generation wrapped"), p)
           else
             let generation := wrap64 (cr_generation credit + 1) in
             (Value (MkLease i generation plan records slots bytes),
              p <| bp_credits := (bp_credits p).[i <-
                     MkCredit BurstState.kPrepared generation plan records slots bytes] |>)
       end.

Definition lease_drifted (c : Credit) (lease : OutputBurstLease) : bool :=
  negb (cr_generation c =? bl_credit_generation lease) ||
  negb (cr_plan_sequence c =? bl_plan_sequence lease) ||
  negb (cr_records c =? bl_records lease) || negb (cr_slots c =? bl_slots lease) ||
  negb (cr_bytes c =? bl_bytes lease).

Definition validate (p : OutputBurstCreditPool) (lease : OutputBurstLease)
    (state : OutputBurstState) : Status :=
  if bl_credit_index lease >=? vsize (bp_credits p)
  then FailedPrecondition "output burst lease is stale"
  else
    let credit := (bp_credits p).[bl_credit_index lease] in
    if negb (burst_eqb (cr_state credit) state) || lease_drifted credit lease
    then FailedPrecondition "output burst lease identity drifted"
    else StatusOk.

Definition validate_commit p lease := validate p lease BurstState.kPrepared.
Definition validate_abort p lease := validate p lease BurstState.kPrepared.
Definition validate_transfer p lease := validate p lease BurstState.kCommitted.

Definition set_state (p : OutputBurstCreditPool) (lease : OutputBurstLease)
    (state : OutputBurstState) : OutputBurstCreditPool :=
  let i := bl_credit_index lease in
  let credit := (bp_credits p).[i] in
  p <| bp_credits := (bp_credits p).[i <- credit <| cr_state := state |>] |>.

Definition commit (p : OutputBurstCreditPool) (lease : OutputBurstLease)
    : Status * OutputBurstCreditPool :=
  let status := validate_commit p lease in
  (status, if ok status then set_state p lease BurstState.kCommitted else p).

Definition abort (p : OutputBurstCreditPool) (lease : OutputBurstLease)
    : Status * OutputBurstCreditPool :=
  let status := validate_abort p lease in
  (status, if ok status then set_state p lease BurstState.kFree else p).

Definition transfer (p : OutputBurstCreditPool) (lease : OutputBurstLease)
    : Status * OutputBurstCreditPool :=
  let status := validate_transfer p lease in
  (status, if ok status then set_state p lease BurstState.kTransferred else p).

Definition release (p : OutputBurstCreditPool) (lease : OutputBurstLease)
    : Status * OutputBurstCreditPool :=
  let status := validate p lease BurstState.kTransferred in
  if ok status
  then let i := bl_credit_index lease in
       let generation := cr_generation ((bp_credits p).[i]) in
       (StatusOk, p <| bp_credits :=
          (bp_credits p).[i <- empty_credit <| cr_generation := generation |>] |>)
  else (status, p).

Definition available (p : OutputBurstCreditPool) : Z :=
  wrap32 (count_if credit_free (bp_credits p)).

(** ** Runs of the pool *)

Inductive credit_op :=
  | OpAcquire (plan : Z) (kind : OutputPlanKind) (records slots bytes : Z)
  | OpCommitLease (lease : OutputBurstLease)
  | OpAbortLease (lease : OutputBurstLease)
  | OpTransferLease (lease : OutputBurstLease)
  | OpReleaseLease (lease : OutputBurstLease).

Definition run_credit (p : OutputBurstCreditPool) (op : credit_op)
    : Status * OutputBurstCreditPool :=
  match op with
  | OpAcquire plan kind records slots bytes =>
      let '(r, q) := acquire p plan kind records slots bytes in (rstatus r, q)
  | OpCommitLease lease => commit p lease
  | OpAbortLease lease => abort p lease
  | OpTransferLease lease => transfer p lease
  | OpReleaseLease lease => release p lease
  end.

(** ** The abstract pool: leases and their states *)

(** The state of a live lease; [None] when the credit is free or has another
    identity. *)
Definition lease_view (p : OutputBurstCreditPool) (l : OutputBurstLease)
    : option OutputBurstState :=
  if (0 <=? bl_credit_index l) && (bl_credit_index l <? vsize (bp_credits p))
  then let c := (bp_credits p).[bl_credit_index l] in
       if credit_free c || lease_drifted c l then None else Some (cr_state c)
  else None.

Definition leases := OutputBurstLease -> option OutputBurstState.

Definition lease_set (m : leases) (l : OutputBurstLease) (s : option OutputBurstState)
    : leases := fun l' => if decide (l' = l) then s else m l'.

(** Which state an operation on a lease expects, and which one it leaves. *)
Definition lease_move (op : credit_op)
    : option (OutputBurstLease * OutputBurstState * option OutputBurstState) :=
  match op with
  | OpAcquire _ _ _ _ _ => None
  | OpCommitLease l => Some (l, BurstState.kPrepared, Some BurstState.kCommitted)
  | OpAbortLease l => Some (l, BurstState.kPrepared, None)
  | OpTransferLease l => Some (l, BurstState.kCommitted, Some BurstState.kTransferred)
  | OpReleaseLease l => Some (l, BurstState.kTransferred, None)
  end.

(** The lease an operation is applied to has an unsigned index, and the
    requested sizes are unsigned. *)
Definition credit_op_typed (op : credit_op) : Prop :=
  match op with
  | OpAcquire _ _ records slots bytes => 0 <= records /\ 0 <= slots /\ 0 <= bytes
  | OpCommitLease l | OpAbortLease l | OpTransferLease l | OpReleaseLease l =>
      0 <= bl_credit_index l
  end.

#[export] Instance credit_op_Typed : Typed credit_op := credit_op_typed.

#[export] Instance pool_Machine : Machine OutputBurstCreditPool credit_op Status := {|
  m_run := run_credit;
  m_init p := exists limits, is_u32 (bcl_credit_count limits) /\
                             OutputBurstCreditPool_Create limits = Value p |}.

(** A credit in use is within the envelope of the limits. *)
Definition credit_wf (limits : OutputBurstCreditLimits) (c : Credit) : Prop :=
  is_u64 (cr_generation c) /\
  (credit_free c = false ->
   cr_plan_sequence c <> 0 /\ 0 <= cr_records c <= 5 /\
   1 <= cr_slots c <= bcl_maximum_slots_per_credit limits /\
   1 <= cr_bytes c <= bcl_maximum_bytes_per_credit limits).

Definition pool_wf (p : OutputBurstCreditPool) : Prop :=
  is_u32 (bcl_credit_count (bp_limits p)) /\
  bcl_maximum_records_qwen (bp_limits p) = 1 /\
  bcl_maximum_records_deepseek (bp_limits p) = 5 /\
  vsize (bp_credits p) = bcl_credit_count (bp_limits p) /\
  (forall i, 0 <= i < vsize (bp_credits p) -> credit_wf (bp_limits p) ((bp_credits p).[i])) /\
  (forall i j, 0 <= i < vsize (bp_credits p) -> 0 <= j < vsize (bp_credits p) ->
     credit_free ((bp_credits p).[i]) = false -> credit_free ((bp_credits p).[j]) = false ->
     cr_plan_sequence ((bp_credits p).[i]) = cr_plan_sequence ((bp_credits p).[j]) -> i = j).

(** ** Lemmas *)

Lemma lease_drifted_false c l :
  lease_drifted c l = false <->
  l = MkLease (bl_credit_index l) (cr_generation c) (cr_plan_sequence c) (cr_records c)
        (cr_slots c) (cr_bytes c).
Proof.
  unfold lease_drifted. destruct l as [i g pl r s b]. cbn.
  rewrite !orb_false_iff, !negb_false_iff, !Z.eqb_eq. split; [naive_solver|].
  intros [= ]. naive_solver.
Qed.

Lemma validate_view p l s :
  0 <= bl_credit_index l -> s <> BurstState.kFree ->
  ok (validate p l s) = true <-> lease_view p l = Some s.
Proof.
  intros Hi Hs. unfold validate, lease_view, credit_free.
  rewrite (proj2 (Z.leb_le _ _) Hi), andb_true_l.
  destruct (Z.ltb_spec (bl_credit_index l) (vsize (bp_credits p))) as [Hlt|Hge].
  - destruct (_ >=? _) eqn:E; [lia|]. set (c := (bp_credits p).[_]).
    destruct (lease_drifted c l); [rewrite !orb_true_r; done|]. rewrite !orb_false_r.
    destruct (cr_state c), s; done.
  - destruct (_ >=? _) eqn:E; [done|lia].
Qed.

Lemma lease_view_range p l s :
  lease_view p l = Some s ->
  0 <= bl_credit_index l < vsize (bp_credits p) /\
  cr_state ((bp_credits p).[bl_credit_index l]) = s /\ s <> BurstState.kFree /\
  lease_drifted ((bp_credits p).[bl_credit_index l]) l = false.
Proof.
  unfold lease_view, credit_free. bcase; [|done]. breflect.
  destruct (cr_state _) eqn:Es; cbn; try done; bcase; try done; intros [= <-]; done.
Qed.

(** The view after one credit is overwritten. *)
Lemma lease_view_put p i c l :
  0 <= i < vsize (bp_credits p) ->
  lease_view (p <| bp_credits := (bp_credits p).[i <- c] |>) l =
  if bl_credit_index l =? i
  then if credit_free c || lease_drifted c l then None else Some (cr_state c)
  else lease_view p l.
Proof.
  intros Hi. unfold lease_view, upd. cbn [bp_credits]. rewrite vsize_vput.
  destruct (Z.eqb_spec (bl_credit_index l) i) as [->|Hne].
  - rewrite vat_vput_eq by done.
    by rewrite (proj2 (Z.leb_le 0 i)), (proj2 (Z.ltb_lt i (vsize (bp_credits p)))) by lia.
  - destruct (0 <=? bl_credit_index l) eqn:E; [|done]. by rewrite vat_vput_ne by lia.
Qed.

(** Overwriting the state of a live lease, keeping its identity. *)
Lemma lease_view_move p l s c :
  lease_view p l = Some s ->
  (credit_free c = false -> lease_drifted c l = false /\
     forall l', lease_drifted c l' = false -> bl_credit_index l' = bl_credit_index l -> l' = l) ->
  forall l',
  lease_view (p <| bp_credits := (bp_credits p).[bl_credit_index l <- c] |>) l' =
  lease_set (lease_view p) l (if credit_free c then None else Some (cr_state c)) l'.
Proof.
  intros Hl Hc l'. apply lease_view_range in Hl as (Hr & Hs & Hnf & Hd).
  rewrite lease_view_put by done. unfold lease_set.
  destruct (decide (l' = l)) as [->|Hne].
  - rewrite Z.eqb_refl. destruct (credit_free c); [done|]. by destruct (Hc eq_refl) as [-> _].
  - destruct (Z.eqb_spec (bl_credit_index l') (bl_credit_index l)) as [He|]; [|done].
    assert (Hold : lease_view p l' = None).
    { unfold lease_view. rewrite He. bcase; [|done].
      destruct (lease_drifted _ l') eqn:Ed; [by rewrite orb_true_r|].
      apply lease_drifted_false in Hd, Ed. destruct Hne. rewrite Hd, Ed, He. done. }
    rewrite Hold. destruct (credit_free c) eqn:Ef; [done|]. cbn [orb].
    destruct (lease_drifted c l') eqn:Ed; [done|]. destruct Hne. by apply Hc.
Qed.

Lemma set_state_move p l s s' :
  lease_view p l = Some s ->
  forall l', lease_view (set_state p l s') l' =
             lease_set (lease_view p) l (if burst_eqb s' BurstState.kFree then None else Some s') l'.
Proof.
  intros Hl l'. unfold set_state. cbn zeta. rewrite (lease_view_move p l s) by
    (done || (intros _; apply lease_view_range in Hl as (_ & _ & _ & Hd); split; [done|];
      intros l'' Hd' He; apply lease_drifted_false in Hd, Hd'; rewrite Hd, Hd', He; done)).
  done.
Qed.

Lemma release_move p l s g :
  lease_view p l = Some s ->
  forall l', lease_view (p <| bp_credits :=
      (bp_credits p).[bl_credit_index l <- empty_credit <| cr_generation := g |>] |>) l' =
    lease_set (lease_view p) l None l'.
Proof. intros Hl l'. by rewrite (lease_view_move p l s). Qed.

(** The operations on a lease refine an update of the lease map. *)
Lemma run_credit_move p op l from to :
  credit_op_typed op -> lease_move op = Some (l, from, to) ->
  (lease_view p l = Some from ->
   ok (fst (run_credit p op)) = true /\
   forall l', lease_view (snd (run_credit p op)) l' = lease_set (lease_view p) l to l') /\
  (lease_view p l <> Some from ->
   ok (fst (run_credit p op)) = false /\ snd (run_credit p op) = p).
Proof.
  intros Ht Hm. destruct op as [|l0|l0|l0|l0]; cbn in Ht, Hm; simplify_eq; cbn [run_credit].
  1-3: unfold commit, abort, transfer, validate_commit, validate_abort, validate_transfer;
    cbn [fst snd]; rewrite <- validate_view by done;
    destruct (ok _) eqn:Ho; [|by split]; (split; [|done]); intros _; (split; [done|]);
    intros l'; apply validate_view in Ho; try done; by rewrite (set_state_move _ _ _ _ Ho).
  unfold release. rewrite <- validate_view by done.
  destruct (ok (validate p l _)) eqn:Ho; cbn [fst snd]; [|by split].
  split; [intros _|done]. split; [done|]. apply validate_view in Ho; [|done..]. intros l'.
  by rewrite (release_move _ _ _ _ Ho).
Qed.

(** A credit in use is a live lease, and conversely. *)
Definition lease_of (i : Z) (c : Credit) : OutputBurstLease :=
  MkLease i (cr_generation c) (cr_plan_sequence c) (cr_records c) (cr_slots c) (cr_bytes c).

Lemma lease_of_live p i :
  0 <= i < vsize (bp_credits p) -> credit_free ((bp_credits p).[i]) = false ->
  lease_view p (lease_of i ((bp_credits p).[i])) = Some (cr_state ((bp_credits p).[i])).
Proof.
  intros Hi Hf. unfold lease_view, lease_of. cbn [bl_credit_index].
  rewrite (proj2 (Z.leb_le 0 i)), (proj2 (Z.ltb_lt i _)) by lia. cbn [andb].
  rewrite Hf. rewrite (proj2 (lease_drifted_false _ _)); done.
Qed.

Lemma owned_by_live p plan :
  existsb (owned_by plan) (bp_credits p) = true <->
  exists l s, lease_view p l = Some s /\ bl_plan_sequence l = plan.
Proof.
  rewrite existsb_exists. split.
  - intros (c & (i & Hi & <-)%In_vat & Ho). unfold owned_by in Ho.
    apply andb_true_iff in Ho as [Hf He]. apply negb_true_iff in Hf. apply Z.eqb_eq in He.
    eexists _, _. split; [by apply lease_of_live|done].
  - intros (l & s & Hl & Hp). apply lease_view_range in Hl as (Hr & Hs & Hnf & Hd).
    eexists. split; [by apply vat_In|]. unfold owned_by, credit_free.
    apply lease_drifted_false in Hd. rewrite Hd in Hp. cbn in Hp. rewrite Hs, Hp, Z.eqb_refl.
    by destruct s.
Qed.

Lemma owned_by_none p plan l s :
  existsb (owned_by plan) (bp_credits p) = false -> lease_view p l = Some s ->
  bl_plan_sequence l <> plan.
Proof.
  intros Hex Hl E. assert (existsb (owned_by plan) (bp_credits p) = true)
    by (apply owned_by_live; eauto). congruence.
Qed.

(** What a successful [acquire] does. *)
Lemma acquire_Value p plan kind records slots bytes l q :
  pool_wf p -> acquire p plan kind records slots bytes = (Value l, q) ->
  exists i, 0 <= i < vsize (bp_credits p) /\ credit_free ((bp_credits p).[i]) = true /\
    request_invalid (bp_limits p) plan kind records slots bytes = false /\
    (forall l' s, lease_view p l' = Some s -> bl_plan_sequence l' <> plan) /\
    cr_generation ((bp_credits p).[i]) + 1 <= u64_max /\
    l = MkLease i (cr_generation ((bp_credits p).[i]) + 1) plan records slots bytes /\
    q = p <| bp_credits := (bp_credits p).[i <- MkCredit BurstState.kPrepared
               (cr_generation ((bp_credits p).[i]) + 1) plan records slots bytes] |>.
Proof.
  intros Hwf. unfold acquire. destruct (request_invalid _ _ _ _ _ _) eqn:Hr; [done|].
  destruct (existsb _ _) eqn:Ho; [done|].
  destruct (first_index _ _ _) as [i|] eqn:Hf; [|done].
  apply first_index_Some in Hf as (Hi & Hfree & _). rewrite Z.sub_0_r in Hfree.
  rewrite Z.add_0_l in Hi. destruct (_ =? u64_max) eqn:Hg; [done|]. breflect.
  destruct Hwf as (_ & _ & _ & _ & Hc & _). destruct (Hc i Hi) as [Hu _]. unfold is_u64 in Hu.
  rewrite wrap64_id by (unfold is_u64; lia). intros [= <- <-]. exists i.
  split_and!; try done; try lia. intros. by eapply owned_by_none.
Qed.

Lemma acquire_Error p plan kind records slots bytes e q :
  acquire p plan kind records slots bytes = (Error e, q) -> q = p /\ ok e = false.
Proof. unfold acquire. cbn zeta. repeat bcase; intros [= <- <-]; done. Qed.

Lemma acquire_view p plan kind records slots bytes l q :
  pool_wf p -> acquire p plan kind records slots bytes = (Value l, q) ->
  lease_view p l = None /\
  forall l', lease_view q l' = lease_set (lease_view p) l (Some BurstState.kPrepared) l'.
Proof.
  intros Hwf Ha. apply acquire_Value in Ha as (i & Hi & Hf & _ & _ & _ & -> & ->); [|done].
  assert (Hn : forall l', bl_credit_index l' = i -> lease_view p l' = None).
  { intros l' <-. unfold lease_view. rewrite Hf. by bcase. }
  split; [by apply Hn|]. intros l'. rewrite lease_view_put by done. unfold lease_set.
  destruct (Z.eqb_spec (bl_credit_index l') i) as [He|Hne].
  - destruct (lease_drifted _ l') eqn:Ed; cbn.
    + destruct (decide _) as [->|]; [|by rewrite Hn].
      rewrite (proj2 (lease_drifted_false _ _)) in Ed; done.
    + apply lease_drifted_false in Ed. cbn in Ed. rewrite He in Ed.
      rewrite decide_True by done. done.
  - rewrite decide_False; [done|]. by intros ->.
Qed.

(** ** The invariant *)

Lemma put_pool_wf p i c :
  pool_wf p -> 0 <= i < vsize (bp_credits p) -> credit_wf (bp_limits p) c ->
  (credit_free c = false -> forall j, 0 <= j < vsize (bp_credits p) -> j <> i ->
     credit_free ((bp_credits p).[j]) = false ->
     cr_plan_sequence ((bp_credits p).[j]) <> cr_plan_sequence c) ->
  pool_wf (p <| bp_credits := (bp_credits p).[i <- c] |>).
Proof.
  intros (H0 & H1 & H2 & H3 & H4 & H5) Hi Hc Hu. unfold pool_wf, upd. cbn [bp_credits bp_limits].
  rewrite vsize_vput. split_and!; try done.
  - intros j Hj. rewrite vat_vput by lia. destruct (Z.eqb_spec j i); [done|by apply H4].
  - intros j k Hj Hk. rewrite !vat_vput by lia.
    destruct (Z.eqb_spec j i) as [->|], (Z.eqb_spec k i) as [->|]; try done; intros Fj Fk E.
    + by destruct (Hu Fj k Hk).
    + by destruct (Hu Fk j Hj).
    + by apply H5.
Qed.

Lemma set_state_wf p l s s' :
  pool_wf p -> lease_view p l = Some s -> pool_wf (set_state p l s').
Proof.
  intros Hwf Hl. apply lease_view_range in Hl as (Hr & Hs & Hnf & _).
  pose proof Hwf as (_ & _ & _ & _ & H4 & H5). destruct (H4 _ Hr) as [Hg Hc].
  assert (Hu : credit_free ((bp_credits p).[bl_credit_index l]) = false)
    by (unfold credit_free; rewrite Hs; by apply burst_eqb_false).
  apply put_pool_wf; [done|done| |].
  - split; [done|]. intros _. by apply Hc.
  - intros _ j Hj Hne Fj E. by apply Hne, H5.
Qed.

Lemma run_credit_wf p op :
  pool_wf p -> credit_op_typed op -> pool_wf (snd (run_credit p op)).
Proof.
  intros Hwf Ht. destruct op as [plan kind records slots bytes|l|l|l|l]; cbn [run_credit].
  - destruct (acquire _ _ _ _ _ _) as [[l|e] q] eqn:Ha; cbn [snd];
      [|by destruct (acquire_Error _ _ _ _ _ _ _ _ Ha) as [-> _]].
    apply acquire_Value in Ha as (i & Hi & Hf & Hr & Hu & Hg & -> & ->); [|done].
    pose proof Hwf as (_ & H1 & H2 & _ & H4 & _). destruct (H4 i Hi) as [Hb _].
    apply put_pool_wf; [done|done| |].
    + unfold request_invalid, record_limit in Hr. destruct Ht as (T1 & T2 & T3).
      unfold credit_wf, is_u64 in *. cbn. split; [lia|]. intros _.
      destruct kind; rewrite ?H1, ?H2 in Hr; lia.
    + intros _ j Hj Hne Fj. pose proof (lease_of_live p j Hj Fj) as Hl. by apply Hu in Hl.
  - unfold commit, validate_commit. destruct (ok _) eqn:Ho; [|done].
    apply validate_view in Ho; [|done..]. by eapply set_state_wf.
  - unfold abort, validate_abort. destruct (ok _) eqn:Ho; [|done].
    apply validate_view in Ho; [|done..]. by eapply set_state_wf.
  - unfold transfer, validate_transfer. destruct (ok _) eqn:Ho; [|done].
    apply validate_view in Ho; [|done..]. by eapply set_state_wf.
  - unfold release. destruct (ok _) eqn:Ho; [|done].
    apply validate_view in Ho; [|done..]. apply lease_view_range in Ho as (Hr & _).
    apply put_pool_wf; [done|done| |done]. split; [|done].
    destruct Hwf as (_ & _ & _ & _ & H4 & _). apply (H4 _ Hr).
Qed.

Lemma Create_pool_wf limits p :
  is_u32 (bcl_credit_count limits) -> OutputBurstCreditPool_Create limits = Value p -> pool_wf p.
Proof.
  unfold is_u32, OutputBurstCreditPool_Create. intros Ht. bcase; [done|].
  intros [= <-]. assert (He : forall i, 0 <= i < bcl_credit_count limits ->
    (replicate (Z.to_nat (bcl_credit_count limits)) empty_credit).[i] = empty_credit).
  { intros i Hi. unfold vat. apply list_lookup_total_correct, lookup_replicate. split; [done|lia]. }
  unfold pool_wf, is_u32. cbn. rewrite vsize_replicate. split_and!; try lia.
  - intros i Hi. rewrite He by lia. unfold credit_wf, is_u64. cbn. split; [lia|done].
  - intros i j Hi Hj. by rewrite He by lia.
Qed.

#[export] Instance pool_wf_inv : MachineInv pool_wf.
Proof.
  split; [intros p (limits & Ht & Hc); by eapply Create_pool_wf | exact run_credit_wf].
Qed.

(** ** Leases end for good *)

(** A lease that has been issued and is no longer live. *)
Definition lease_ended (p : OutputBurstCreditPool) (l : OutputBurstLease) : Prop :=
  lease_view p l = None /\ 0 <= bl_credit_index l < vsize (bp_credits p) /\
  bl_credit_generation l <= cr_generation ((bp_credits p).[bl_credit_index l]).

Definition lease_issued (p : OutputBurstCreditPool) (l : OutputBurstLease) : Prop :=
  (exists s, lease_view p l = Some s) \/ lease_ended p l.

(** Every credit keeps its generation, except the one just acquired. *)
Lemma run_credit_generation p op i :
  pool_wf p -> credit_op_typed op -> 0 <= i < vsize (bp_credits p) ->
  vsize (bp_credits (snd (run_credit p op))) = vsize (bp_credits p) /\
  cr_generation ((bp_credits p).[i]) <= cr_generation ((bp_credits (snd (run_credit p op))).[i]).
Proof.
  intros Hwf Ht Hi.
  assert (Hput : forall k c, 0 <= k < vsize (bp_credits p) ->
    cr_generation ((bp_credits p).[k]) <= cr_generation c ->
    vsize ((bp_credits p).[k <- c]) = vsize (bp_credits p) /\
    cr_generation ((bp_credits p).[i]) <= cr_generation (((bp_credits p).[k <- c]).[i])).
  { intros k c Hk Hc. rewrite vsize_vput, vat_vput by lia. split; [done|].
    destruct (Z.eqb_spec i k) as [->|]; [done|lia]. }
  destruct op as [plan kind records slots bytes|l|l|l|l]; cbn [run_credit].
  { destruct (acquire _ _ _ _ _ _) as [[l|e] q] eqn:Ha; cbn [snd];
      [|by destruct (acquire_Error _ _ _ _ _ _ _ _ Ha) as [-> _]].
    apply acquire_Value in Ha as (k & Hk & _ & _ & _ & _ & _ & ->); [|done].
    apply Hput; cbn; [done|lia]. }
  all: unfold commit, abort, transfer, release, validate_commit, validate_abort, validate_transfer;
    destruct (ok _) eqn:Ho; [|by split]; apply validate_view in Ho; [|done..];
    apply lease_view_range in Ho as (Hr & _); apply Hput; done.
Qed.

Lemma run_credit_issued p op l :
  pool_wf p -> credit_op_typed op ->
  (lease_ended p l -> lease_ended (snd (run_credit p op)) l) /\
  (lease_issued p l -> lease_issued (snd (run_credit p op)) l).
Proof.
  intros Hwf Ht.
  assert (Hcase : forall s', lease_view (snd (run_credit p op)) l = Some s' ->
    lease_ended p l -> False).
  { intros s' Hv (Hn & Hi & Hg). destruct (lease_move op) as [[[l0 from] to]|] eqn:Hm.
    - destruct (run_credit_move p op l0 from to Ht Hm) as [Hyes Hno].
      destruct (decide (lease_view p l0 = Some from)) as [He|He].
      + destruct (Hyes He) as [_ HV]. rewrite HV in Hv. unfold lease_set in Hv.
        destruct (decide (l = l0)) as [->|]; congruence.
      + destruct (Hno He) as [_ Hq]. congruence.
    - destruct op as [plan kind records slots bytes| | | |]; try done. cbn [run_credit] in Hv.
      destruct (acquire _ _ _ _ _ _) as [[l1|e] q] eqn:Ha; cbn [snd] in Hv;
        [|destruct (acquire_Error _ _ _ _ _ _ _ _ Ha) as [-> _]; congruence].
      destruct (acquire_view _ _ _ _ _ _ _ _ Hwf Ha) as [_ HV]. rewrite HV in Hv.
      unfold lease_set in Hv. destruct (decide (l = l1)) as [->|]; [|congruence].
      apply acquire_Value in Ha as (k & Hk & _ & _ & _ & _ & -> & _); [|done]. cbn in Hg. lia. }
  assert (He : 0 <= bl_credit_index l < vsize (bp_credits p) ->
    bl_credit_generation l <= cr_generation ((bp_credits p).[bl_credit_index l]) ->
    lease_view (snd (run_credit p op)) l = None -> lease_ended (snd (run_credit p op)) l).
  { intros Hi Hg Hn. destruct (run_credit_generation p op _ Hwf Ht Hi) as [Hs Hle].
    split_and!; [done|lia..]. }
  split.
  - intros Hend. pose proof Hend as (_ & Hi & Hg).
    destruct (lease_view (snd (run_credit p op)) l) eqn:Hv; [by destruct (Hcase _ eq_refl)|by apply He].
  - intros Hiss. destruct (lease_view (snd (run_credit p op)) l) as [s'|] eqn:Hv; [left; eauto|].
    right. destruct Hiss as [[s Hl]|(_ & Hi & Hg)]; [|by apply He].
    apply lease_view_range in Hl as (Hi & _ & _ & Hd). apply lease_drifted_false in Hd.
    apply He; [done| |done]. rewrite Hd at 1. cbn. lia.
Qed.

Lemma pool_steps_issued p q l :
  rtc m_step p q -> pool_wf p ->
  (lease_ended p l -> lease_ended q l) /\ (lease_issued p l -> lease_issued q l).
Proof.
  induction 1 as [|p p1 q (op & Ht & ->) _ IH]; [done|]. intros Hwf.
  destruct (run_credit_issued p op l Hwf Ht) as [H1 H2].
  destruct (IH (run_credit_wf p op Hwf Ht)) as [I1 I2]. auto.
Qed.

(** ** Properties *)

(** Why an acquisition may be refused. *)
Definition acquire_refused (p : OutputBurstCreditPool) (plan : Z) (kind : OutputPlanKind)
    (records slots bytes : Z) : Prop :=
  request_invalid (bp_limits p) plan kind records slots bytes = true \/
  (exists l s, lease_view p l = Some s /\ bl_plan_sequence l = plan) \/
  available p = 0 \/
  (exists i, 0 <= i < vsize (bp_credits p) /\ credit_free ((bp_credits p).[i]) = true /\
             cr_generation ((bp_credits p).[i]) = u64_max).

Lemma acquire_refused_spec p plan kind records slots bytes e q :
  acquire p plan kind records slots bytes = (Error e, q) ->
  acquire_refused p plan kind records slots bytes.
Proof.
  unfold acquire, acquire_refused. destruct (request_invalid _ _ _ _ _ _); [by left|].
  destruct (existsb _ _) eqn:Ho; [right; left; by apply owned_by_live|].
  destruct (first_index _ _ _) as [i|] eqn:Hf.
  - apply first_index_Some in Hf as (Hi & Hfree & _). rewrite Z.sub_0_r in Hfree.
    destruct (_ =? u64_max) eqn:Hg; [|done]. breflect. intros _. right. right. right.
    exists i. split_and!; try done; lia.
  - intros _. right. right. left. unfold available.
    rewrite (proj2 (count_if_0 _ _)); [done|]. by apply (first_index_None _ _ 0).
Qed.

(** C15. The credit pool refines a map from leases to states: on every reachable
    pool, an operation on a lease succeeds exactly when the lease is live in the
    state the operation expects, and then moves that lease and no other; a
    refused operation changes nothing.  An acquisition either creates one fresh
    prepared lease, of a plan that owns none, or is refused for one of the four
    reasons. *)
Theorem credit_pool_refines p op (Hp : m_reachable p) (Ht : credit_op_typed op) :
  match op with
  | OpAcquire plan kind records slots bytes =>
      match acquire p plan kind records slots bytes with
      | (Value l, q) =>
          bl_plan_sequence l = plan /\ bl_records l = records /\ bl_slots l = slots /\
          bl_bytes l = bytes /\ lease_view p l = None /\
          (forall l' s, lease_view p l' = Some s -> bl_plan_sequence l' <> plan) /\
          (forall l', lease_view q l' =
                      lease_set (lease_view p) l (Some BurstState.kPrepared) l')
      | (Error e, q) => q = p /\ acquire_refused p plan kind records slots bytes
      end
  | _ =>
      exists l from to, lease_move op = Some (l, from, to) /\
      (lease_view p l = Some from ->
       ok (fst (run_credit p op)) = true /\
       forall l', lease_view (snd (run_credit p op)) l' = lease_set (lease_view p) l to l') /\
      (lease_view p l <> Some from ->
       ok (fst (run_credit p op)) = false /\ snd (run_credit p op) = p)
  end.
Proof.
  apply (reachable_inv pool_wf) in Hp. destruct op as [plan kind records slots bytes|l|l|l|l].
  - destruct (acquire _ _ _ _ _ _) as [[l|e] q] eqn:Ha.
    + destruct (acquire_view _ _ _ _ _ _ _ _ Hp Ha) as [Hn Hv].
      apply acquire_Value in Ha as (i & _ & _ & _ & Hu & _ & -> & _); [|done]. done.
    + split; [by eapply acquire_Error|by eapply acquire_refused_spec].
  - eexists _, _, _. split; [done|]. by apply run_credit_move.
  - eexists _, _, _. split; [done|]. by apply run_credit_move.
  - eexists _, _, _. split; [done|]. by apply run_credit_move.
  - eexists _, _, _. split; [done|]. by apply run_credit_move.
Qed.

Definition sample_credit_limits : OutputBurstCreditLimits := MkCreditLimits 2 1 5 4 4096.

Definition sample_pool : OutputBurstCreditPool :=
  MkPool sample_credit_limits [empty_credit; empty_credit].

Lemma sample_pool_reachable : m_reachable sample_pool.
Proof.
  exists sample_pool. split; [|apply rtc_refl]. exists sample_credit_limits.
  unfold is_u32. cbn. split; [lia|done].
Qed.

Lemma credit_pool_refines_witness :
  m_reachable sample_pool /\ credit_op_typed (OpAcquire 7 kQwen 1 2 100) /\
  fst (acquire sample_pool 7 kQwen 1 2 100) = Value (MkLease 0 1 7 1 2 100) /\
  lease_view sample_pool (MkLease 0 1 7 1 2 100) = None.
Proof.
  assert (Ht : credit_op_typed (OpAcquire 7 kQwen 1 2 100)) by (cbn; lia).
  split; [exact sample_pool_reachable|]. split; [exact Ht|]. split; [reflexivity|].
  pose proof (credit_pool_refines sample_pool _ sample_pool_reachable Ht) as H.
  cbn in H. apply H.
Defined.

(** Capacity: in every reachable pool the live leases belong to distinct
    plans and stay inside the limits (at most five records, the slot and byte
    bounds), each holds its own credit, and the credits in use and the available
    ones add up to the configured count. *)
Theorem credit_pool_capacity p (Hp : m_reachable p) :
  (forall l l' s s', lease_view p l = Some s -> lease_view p l' = Some s' ->
     bl_plan_sequence l = bl_plan_sequence l' \/ bl_credit_index l = bl_credit_index l' ->
     l = l') /\
  (forall l s, lease_view p l = Some s ->
     bl_plan_sequence l <> 0 /\ 0 <= bl_records l <= 5 /\
     1 <= bl_slots l <= bcl_maximum_slots_per_credit (bp_limits p) /\
     1 <= bl_bytes l <= bcl_maximum_bytes_per_credit (bp_limits p)) /\
  available p + count_if (fun c => negb (credit_free c)) (bp_credits p)
    = bcl_credit_count (bp_limits p).
Proof.
  apply (reachable_inv pool_wf) in Hp as (Hu & _ & _ & Hn & Hc & Hd). split_and!.
  - intros l l' s s' Hl Hl' HE. apply lease_view_range in Hl as (Hr & Hs & Hf & Dl).
    apply lease_view_range in Hl' as (Hr' & Hs' & Hf' & Dl').
    apply lease_drifted_false in Dl, Dl'.
    assert (Ei : bl_credit_index l = bl_credit_index l').
    { destruct HE as [HE|HE]; [|done]. rewrite Dl, Dl' in HE. cbn in HE.
      apply Hd; try done; unfold credit_free; rewrite ?Hs, ?Hs'; by apply burst_eqb_false. }
    rewrite Dl, Dl', Ei. done.
  - intros l s Hl. apply lease_view_range in Hl as (Hr & Hs & Hf & Dl).
    apply lease_drifted_false in Dl. rewrite Dl. cbn. apply (Hc _ Hr).
    unfold credit_free. rewrite Hs. by apply burst_eqb_false.
  - unfold available. rewrite <- Hn in *.
    rewrite wrap32_id by (unfold is_u32 in *; pose proof (count_if_bounds credit_free (bp_credits p)); lia).
    clear. induction (bp_credits p) as [|c l IH]; [done|]. rewrite vsize_cons. cbn.
    destruct (credit_free c); cbn; lia.
Qed.

Lemma credit_pool_capacity_witness :
  m_reachable sample_pool /\
  available sample_pool + count_if (fun c => negb (credit_free c)) (bp_credits sample_pool) = 2.
Proof.
  split; [exact sample_pool_reachable|].
  destruct (credit_pool_capacity sample_pool sample_pool_reachable) as (_ & _ & H). exact H.
Defined.

(** C32. A lease is never revived: once a lease that the pool handed out has been
    aborted or released, no later sequence of operations makes it valid again,
    although its credit is reused. *)
Theorem lease_never_revived p plan kind records slots bytes l q r r' s
  (Hp : m_reachable p) (Ht : credit_op_typed (OpAcquire plan kind records slots bytes))
  (Ha : acquire p plan kind records slots bytes = (Value l, q))
  (Hqr : rtc m_step q r) (Hend : lease_view r l = None)
  (Hrr : rtc m_step r r') (Hs : s <> BurstState.kFree) :
  ok (validate r' l s) = false.
Proof.
  apply (reachable_inv pool_wf) in Hp. pose proof (run_credit_wf p _ Hp Ht) as Hq.
  cbn [run_credit] in Hq. rewrite Ha in Hq. cbn [snd] in Hq.
  destruct (acquire_view _ _ _ _ _ _ _ _ Hp Ha) as [_ Hv].
  destruct (pool_steps_issued q r l Hqr Hq) as [_ Hi].
  assert (Hiss : lease_issued q l)
    by (left; exists BurstState.kPrepared; rewrite Hv; unfold lease_set; by rewrite decide_True).
  destruct (Hi Hiss) as [[s' Hl]|He]; [congruence|].
  destruct (pool_steps_issued r r' l Hrr (steps_inv pool_wf _ _ Hqr Hq)) as [He' _].
  destruct (He' He) as (Hn & Hb & _). apply not_true_iff_false.
  rewrite validate_view by (done || lia). congruence.
Qed.

Lemma lease_never_revived_witness :
  let l := MkLease 0 1 7 1 2 100 in
  let q := snd (acquire sample_pool 7 kQwen 1 2 100) in
  let r := snd (abort q l) in
  let r' := snd (acquire r 7 kQwen 1 2 100) in
  ok (fst (abort q l)) = true /\ ok (validate r' l BurstState.kPrepared) = false.
Proof.
  intros l q r r'. split; [reflexivity|].
  assert (Ht : credit_op_typed (OpAcquire 7 kQwen 1 2 100)) by (cbn; lia).
  apply (lease_never_revived sample_pool 7 kQwen 1 2 100 l q r r'); try reflexivity.
  - exact sample_pool_reachable.
  - exact Ht.
  - apply rtc_once. exists (OpAbortLease l). split; [cbn; lia|reflexivity].
  - apply rtc_once. exists (OpAcquire 7 kQwen 1 2 100). split; [exact Ht|reflexivity].
  - discriminate.
Defined.
