(* ===== verification/Mailbox.v ===== *)
(** * The controller mailbox

    Models [include/pih/scheduler/controller_mailbox.h] and
    [plugins/execution-default/controller_mailbox.cpp]: two bounded rings, of
    commands to the controller thread and of events from it.  Every operation
    takes the mutex for its whole body, so an execution of several threads is a
    sequence of operations; the calling thread is an argument, [self]. *)

From S2P Require Import Prelude Core Sha256.

(** ** Rings

    A [std::vector] with its head and size fields.  The tail index is computed
    in [std::uint32_t]. *)
Record Ring (A : Type) := MkRing { rg_buffer : list A; rg_head : Z; rg_size : Z }.
Arguments MkRing {A} rg_buffer rg_head rg_size.
Arguments rg_buffer {A} r.
Arguments rg_head {A} r.
Arguments rg_size {A} r.

Section Ring.
Context {A : Type} `{Inhabited A}.

Definition ring_new (capacity : Z) : Ring A :=
  MkRing (replicate (Z.to_nat capacity) inhabitant) 0 0.

Definition ring_capacity (r : Ring A) : Z := vsize (rg_buffer r).

Definition ring_full (r : Ring A) : bool := rg_size r =? vsize (rg_buffer r).

Definition ring_push (r : Ring A) (x : A) : Ring A :=
  let tail := wrap32 (rg_head r + rg_size r) mod vsize (rg_buffer r) in
  MkRing ((rg_buffer r).[tail <- x]) (rg_head r) (wrap32 (rg_size r + 1)).

Definition ring_pop (r : Ring A) : option A * Ring A :=
  if rg_size r =? 0 then (None, r)
  else (Some ((rg_buffer r).[rg_head r]),
        MkRing (rg_buffer r) (wrap32 (rg_head r + 1) mod vsize (rg_buffer r))
               (wrap32 (rg_size r - 1))).

(** The contents, oldest first. *)
Definition ring_list (r : Ring A) : list A :=
  map (fun k => (rg_buffer r).[(rg_head r + Z.of_nat k) mod vsize (rg_buffer r)])
      (seq 0 (Z.to_nat (rg_size r))).

(** A ring whose index sums fit 32 bits. *)
Definition ring_wf (r : Ring A) : Prop :=
  1 <= vsize (rg_buffer r) <= 2147483648 /\
  0 <= rg_head r < vsize (rg_buffer r) /\ 0 <= rg_size r <= vsize (rg_buffer r).

Lemma ring_new_wf capacity : 1 <= capacity <= 2147483648 -> ring_wf (ring_new capacity).
Proof. intros Hc. unfold ring_wf, ring_new. cbn. rewrite vsize_replicate. lia. Qed.

Lemma vsize_ring_list r : ring_wf r -> vsize (ring_list r) = rg_size r.
Proof.
  intros (_ & _ & Hs). unfold vsize, ring_list. rewrite length_map, length_seq. lia.
Qed.

Lemma ring_mod_ne n h k j :
  1 <= n -> 0 <= k < n -> 0 <= j < n -> k <> j -> (h + k) mod n <> (h + j) mod n.
Proof.
  intros Hn Hk Hj Hne E. apply Hne.
  assert (Hz : (k - j) mod n = 0).
  { replace (k - j) with ((h + k) - (h + j)) by lia. rewrite Zminus_mod, E, Z.sub_diag.
    apply Z.mod_0_l. lia. }
  apply Z.mod_divide in Hz; [|lia]. destruct Hz as [q Hq].
  assert (q = 0) by nia. subst. lia.
Qed.

Lemma ring_push_spec r x :
  ring_wf r -> ring_full r = false ->
  ring_wf (ring_push r x) /\ ring_list (ring_push r x) = ring_list r ++ [x] /\
  ring_capacity (ring_push r x) = ring_capacity r.
Proof.
  intros (Hn & Hh & Hs) Hf. unfold ring_full in Hf. apply Z.eqb_neq in Hf.
  unfold ring_push. cbn zeta. rewrite (wrap32_id (rg_head r + rg_size r)),
    (wrap32_id (rg_size r + 1)) by (unfold is_u32; lia).
  unfold ring_wf, ring_list, ring_capacity. cbn [rg_buffer rg_head rg_size].
  rewrite !vsize_vput. split_and!; try lia.
  replace (Z.to_nat (rg_size r + 1)) with (Z.to_nat (rg_size r) + 1)%nat by lia.
  pose proof (Z.mod_pos_bound (rg_head r + rg_size r) (vsize (rg_buffer r)) ltac:(lia)).
  rewrite seq_app, map_app. f_equal.
  - apply map_ext_in. intros k Hk. apply in_seq in Hk.
    pose proof (Z.mod_pos_bound (rg_head r + Z.of_nat k) (vsize (rg_buffer r)) ltac:(lia)).
    rewrite vat_vput_ne; [done|lia|lia|]. apply ring_mod_ne; lia.
  - cbn [seq map]. rewrite Nat.add_0_l, Z2Nat.id by lia. rewrite vat_vput_eq by lia. done.
Qed.

Lemma ring_pop_spec r :
  ring_wf r ->
  ring_wf (snd (ring_pop r)) /\ ring_capacity (snd (ring_pop r)) = ring_capacity r /\
  match ring_list r with
  | [] => ring_pop r = (None, r)
  | x :: rest => fst (ring_pop r) = Some x /\ ring_list (snd (ring_pop r)) = rest
  end.
Proof.
  intros Hwf. pose proof Hwf as (Hn & Hh & Hs). unfold ring_pop.
  destruct (Z.eqb_spec (rg_size r) 0) as [E|E].
  - cbn. split; [done|]. split; [done|]. unfold ring_list. by rewrite E.
  - rewrite (wrap32_id (rg_head r + 1)), (wrap32_id (rg_size r - 1)) by (unfold is_u32; lia).
    cbn [fst snd]. unfold ring_wf, ring_capacity. cbn [rg_buffer rg_head rg_size].
    pose proof (Z.mod_pos_bound (rg_head r + 1) (vsize (rg_buffer r)) ltac:(lia)).
    split; [lia|]. split; [done|]. unfold ring_list. cbn [rg_buffer rg_head rg_size].
    replace (Z.to_nat (rg_size r)) with (S (Z.to_nat (rg_size r - 1))) by lia.
    cbn [seq map]. rewrite Z.add_0_r, Z.mod_small by lia. split; [done|].
    rewrite <- seq_shift, map_map. apply map_ext. intros k.
    rewrite Zplus_mod_idemp_l. do 2 f_equal. lia.
Qed.

Lemma ring_full_spec r :
  ring_wf r -> ring_full r = (vsize (ring_list r) =? ring_capacity r).
Proof. intros Hwf. unfold ring_full, ring_capacity. by rewrite vsize_ring_list. Qed.

(** The bound is needed.  In a ring of more than [2^31] entries the sum of head and
    size can pass [2^32]; the wrapped tail is then an entry still to be read, and the
    push replaces it. *)
Theorem ring_push_overwrites r x :
  vsize (rg_buffer r) <= u32_max -> 0 <= rg_head r < vsize (rg_buffer r) ->
  0 <= rg_size r < vsize (rg_buffer r) -> 4294967296 <= rg_head r + rg_size r ->
  exists k, (k < length (ring_list r))%nat /\ ring_list (ring_push r x) !! k = Some x.
Proof.
  intros Hc Hh Hs Ho. set (c := vsize (rg_buffer r)) in *. set (k := c + rg_size r - 4294967296).
  assert (Hk : 0 <= k < rg_size r) by lia. exists (Z.to_nat k).
  assert (Ht : wrap32 (rg_head r + rg_size r) = rg_head r + rg_size r - 4294967296).
  { unfold wrap32. symmetry. apply Z.mod_unique with 1; lia. }
  unfold ring_push, ring_list. cbn zeta. fold c. rewrite Ht, (Z.mod_small (_ - _) c) by lia.
  rewrite wrap32_id by (unfold is_u32; lia). cbn [rg_buffer rg_head rg_size].
  rewrite length_map, length_seq, vsize_vput. fold c. split; [lia|].
  rewrite list_lookup_fmap, lookup_seq_lt by lia. cbn [fmap option_fmap option_map]. f_equal.
  rewrite Nat.add_0_l, Z2Nat.id by lia.
  rewrite <- (Z.mod_unique (rg_head r + k) c 1 (rg_head r + rg_size r - 4294967296)) by lia.
  apply vat_vput_eq. fold c. lia.
Qed.

End Ring.

(** ** Commands and events *)

Module CommandKind.
Inductive ControllerCommandKind := kAdmit | kCancel | kShutdown.
End CommandKind.
Import CommandKind (ControllerCommandKind).

Module EventKind.
Inductive ControllerOutputEventKind :=
  kAdmitted | kTokenCommitted | kDraining | kCompleted | kCancelled | kFailed.
End EventKind.
Import EventKind (ControllerOutputEventKind).

Module FinishReason.
Inductive ControllerFinishReason := kNone | kStop | kLength.
End FinishReason.
Import FinishReason (ControllerFinishReason).

(** The underlying values of the enumerators. *)
Definition command_kind_value (k : ControllerCommandKind) : Z :=
  match k with CommandKind.kAdmit => 1 | CommandKind.kCancel => 2 | CommandKind.kShutdown => 3 end.

Definition event_kind_value (k : ControllerOutputEventKind) : Z :=
  match k with
  | EventKind.kAdmitted => 1 | EventKind.kTokenCommitted => 2 | EventKind.kDraining => 3
  | EventKind.kCompleted => 4 | EventKind.kCancelled => 5 | EventKind.kFailed => 6
  end.

Definition finish_reason_value (r : ControllerFinishReason) : Z :=
  match r with FinishReason.kNone => 0 | FinishReason.kStop => 1 | FinishReason.kLength => 2 end.

Definition command_kind_eqb a b := command_kind_value a =? command_kind_value b.
Definition event_kind_eqb a b := event_kind_value a =? event_kind_value b.
Definition finish_reason_eqb a b := finish_reason_value a =? finish_reason_value b.

Record ControllerCommand := MkCommand {
  cmd_kind : ControllerCommandKind;
  cmd_command_sequence : Z;
  cmd_epoch : Z;
  cmd_request_generation : Z;
  cmd_payload_digest : Sha256Digest }.

#[export] Instance ControllerCommand_inhabited : Inhabited ControllerCommand :=
  populate (MkCommand CommandKind.kAdmit 0 0 0 zero_digest).

Record ControllerOutputEventDraft := MkDraft {
  dr_kind : ControllerOutputEventKind;
  dr_epoch : Z;
  dr_request_generation : Z;
  dr_token_ordinal : Z;
  dr_token_id : Z;
  dr_state_digest : Sha256Digest;
  dr_plan_sequence : Z;
  dr_plan_event_index : Z;
  dr_plan_event_count : Z;
  dr_finish_reason : ControllerFinishReason }.

Record ControllerOutputEvent := MkEvent {
  ev_kind : ControllerOutputEventKind;
  ev_event_sequence : Z;
  ev_epoch : Z;
  ev_request_generation : Z;
  ev_token_ordinal : Z;
  ev_token_id : Z;
  ev_state_digest : Sha256Digest;
  ev_plan_sequence : Z;
  ev_plan_event_index : Z;
  ev_plan_event_count : Z;
  ev_finish_reason : ControllerFinishReason }.

#[export] Instance ControllerOutputEvent_inhabited : Inhabited ControllerOutputEvent :=
  populate (MkEvent EventKind.kAdmitted 0 0 0 0 0 zero_digest 0 0 0 FinishReason.kNone).

Record ControllerMailboxLimits := MkMailboxLimits {
  mbl_command_capacity : Z;
  mbl_event_capacity : Z }.

Record ControllerMailbox := MkMailbox {
  mb_commands : Ring ControllerCommand;
  mb_events : Ring ControllerOutputEvent;
  mb_next_command_sequence : Z;
  mb_next_event_sequence : Z;
  mb_controller_thread : option Z }.

#[export] Instance eta_ControllerMailbox : Eta ControllerMailbox := fun r =>
  MkMailbox r.(mb_commands) r.(mb_events) r.(mb_next_command_sequence)
    r.(mb_next_event_sequence) r.(mb_controller_thread).

Definition valid_command (kind : ControllerCommandKind) : bool :=
  command_kind_eqb kind CommandKind.kAdmit || command_kind_eqb kind CommandKind.kCancel ||
  command_kind_eqb kind CommandKind.kShutdown.

Definition valid_event (kind : ControllerOutputEventKind) : bool :=
  (event_kind_value EventKind.kAdmitted <=? event_kind_value kind) &&
  (event_kind_value kind <=? event_kind_value EventKind.kFailed).

Definition ControllerMailbox_Create (limits : ControllerMailboxLimits)
    : Result ControllerMailbox :=
  if (mbl_command_capacity limits =? 0) || (mbl_event_capacity limits =? 0)
  then Error (InvalidArgument "controller mailbox limits must be nonzero")
  else Value (MkMailbox (ring_new (mbl_command_capacity limits))
                (ring_new (mbl_event_capacity limits)) 1 1 None).

(** The move constructor: the vectors are taken from [other], the scalar fields
    are copied. *)
Definition ControllerMailbox_move (other : ControllerMailbox)
    : ControllerMailbox * ControllerMailbox :=
  (other,
   other <| mb_commands := MkRing [] (rg_head (mb_commands other)) (rg_size (mb_commands other)) |>
         <| mb_events := MkRing [] (rg_head (mb_events other)) (rg_size (mb_events other)) |>).

Definition command_invalid (kind : ControllerCommandKind) (epoch request_generation : Z)
    (payload_digest : Sha256Digest) : bool :=
  negb (valid_command kind) || (epoch =? 0) || (request_generation =? 0) ||
  negb (digest_nonzero payload_digest).

Definition submit_command (m : ControllerMailbox) (kind : ControllerCommandKind)
    (epoch request_generation : Z) (payload_digest : Sha256Digest)
    : Result ControllerCommand * ControllerMailbox :=
  if command_invalid kind epoch request_generation payload_digest
  then (Error (InvalidArgument "controller command identity is invalid"), m)
  else if ring_full (mb_commands m)
  then (Error (ResourceExhausted "controller command mailbox is full"), m)
  else if mb_next_command_sequence m =? 0
  then (Error (FailedPrecondition "controller command sequence wrapped"), m)
  else
    let command := MkCommand kind (mb_next_command_sequence m) epoch request_generation
                     payload_digest in
    (Value command,
     m <| mb_commands := ring_push (mb_commands m) command |>
       <| mb_next_command_sequence := wrap64 (mb_next_command_sequence m + 1) |>).

(** The first controller-side call fixes the owning thread. *)
Definition require_controller_thread_locked (m : ControllerMailbox) (self : Z)
    : Status * ControllerMailbox :=
  match mb_controller_thread m with
  | None => (StatusOk, m <| mb_controller_thread := Some self |>)
  | Some owner =>
      if negb (owner =? self)
      then (FailedPrecondition "controller mailbox has another owner", m)
      else (StatusOk, m)
  end.

Definition try_take_command (m : ControllerMailbox) (self : Z)
    : Result (option ControllerCommand) * ControllerMailbox :=
  let '(owner, m) := require_controller_thread_locked m self in
  if negb (ok owner) then (Error owner, m)
  else let '(command, r) := ring_pop (mb_commands m) in
       (Value command, m <| mb_commands := r |>).

Definition draft_invalid (draft : ControllerOutputEventDraft) : bool :=
  let token_event := event_kind_eqb (dr_kind draft) EventKind.kTokenCommitted in
  let plan_bundle := negb (dr_plan_sequence draft =? 0) ||
                     negb (dr_plan_event_index draft =? 0) ||
                     negb (dr_plan_event_count draft =? 0) in
  let terminal_reason := negb (finish_reason_eqb (dr_finish_reason draft) FinishReason.kNone) in
  negb (valid_event (dr_kind draft)) || (dr_epoch draft =? 0) ||
  (dr_request_generation draft =? 0) || negb (digest_nonzero (dr_state_digest draft)) ||
  (token_event && ((dr_token_ordinal draft =? 0) || (dr_token_id draft >=? 151936))) ||
  (negb token_event && (negb (dr_token_ordinal draft =? 0) || negb (dr_token_id draft =? 0))) ||
  (plan_bundle && ((dr_plan_sequence draft =? 0) || (dr_plan_event_count draft =? 0) ||
                   (dr_plan_event_index draft >=? dr_plan_event_count draft))) ||
  (token_event && (negb plan_bundle || terminal_reason)) ||
  (terminal_reason && (negb (event_kind_eqb (dr_kind draft) EventKind.kDraining) ||
                       negb plan_bundle)).

Definition event_of (draft : ControllerOutputEventDraft) (sequence : Z) : ControllerOutputEvent :=
  MkEvent (dr_kind draft) sequence (dr_epoch draft) (dr_request_generation draft)
    (dr_token_ordinal draft) (dr_token_id draft) (dr_state_digest draft)
    (dr_plan_sequence draft) (dr_plan_event_index draft) (dr_plan_event_count draft)
    (dr_finish_reason draft).

Definition publish_event (m : ControllerMailbox) (self : Z)
    (draft : ControllerOutputEventDraft) : Result ControllerOutputEvent * ControllerMailbox :=
  let '(owner, m) := require_controller_thread_locked m self in
  if negb (ok owner) then (Error owner, m)
  else if draft_invalid draft
  then (Error (InvalidArgument "controller output event is invalid"), m)
  else if ring_full (mb_events m)
  then (Error (ResourceExhausted "controller output mailbox is full"), m)
  else if mb_next_event_sequence m =? 0
  then (Error (FailedPrecondition "controller event sequence wrapped"), m)
  else
    let event := event_of draft (mb_next_event_sequence m) in
    (Value event,
     m <| mb_events := ring_push (mb_events m) event |>
       <| mb_next_event_sequence := wrap64 (mb_next_event_sequence m + 1) |>).

Definition try_take_event (m : ControllerMailbox)
    : Result (option ControllerOutputEvent) * ControllerMailbox :=
  let '(event, r) := ring_pop (mb_events m) in (Value event, m <| mb_events := r |>).

Definition command_size (m : ControllerMailbox) : Z := rg_size (mb_commands m).
Definition event_size (m : ControllerMailbox) : Z := rg_size (mb_events m).
Definition event_available_capacity (m : ControllerMailbox) : Z :=
  wrap32 (wrap32 (ring_capacity (mb_events m)) - rg_size (mb_events m)).

(** ** The mailbox as a machine *)

Inductive mbx_op :=
  | OpSubmit (kind : ControllerCommandKind) (epoch request_generation : Z)
             (payload_digest : Sha256Digest)
  | OpTakeCommand (self : Z)
  | OpPublish (self : Z) (draft : ControllerOutputEventDraft)
  | OpTakeEvent.

Inductive mbx_out :=
  | OutSubmit (r : Result ControllerCommand)
  | OutTakeCommand (r : Result (option ControllerCommand))
  | OutPublish (r : Result ControllerOutputEvent)
  | OutTakeEvent (r : Result (option ControllerOutputEvent)).

Definition run_mailbox (m : ControllerMailbox) (op : mbx_op) : mbx_out * ControllerMailbox :=
  match op with
  | OpSubmit kind epoch gen digest =>
      let '(r, m) := submit_command m kind epoch gen digest in (OutSubmit r, m)
  | OpTakeCommand self => let '(r, m) := try_take_command m self in (OutTakeCommand r, m)
  | OpPublish self draft => let '(r, m) := publish_event m self draft in (OutPublish r, m)
  | OpTakeEvent => let '(r, m) := try_take_event m in (OutTakeEvent r, m)
  end.

#[export] Instance mbx_op_Typed : Typed mbx_op := fun _ => True.

(** Ring indices are sums of two [std::uint32_t]: the rings hold at most
    [2^31] entries. *)
Definition mailbox_limits_ok (limits : ControllerMailboxLimits) : Prop :=
  0 <= mbl_command_capacity limits <= 2147483648 /\
  0 <= mbl_event_capacity limits <= 2147483648.

#[export] Instance mailbox_Machine : Machine ControllerMailbox mbx_op mbx_out := {|
  m_run := run_mailbox;
  m_init m := exists limits, mailbox_limits_ok limits /\
                             ControllerMailbox_Create limits = Value m |}.

(** ** Specification: two bounded queues *)

Record FifoMailbox := MkFifo {
  fm_commands : list ControllerCommand;
  fm_events : list ControllerOutputEvent;
  fm_command_capacity : Z;
  fm_event_capacity : Z;
  fm_next_command : Z;
  fm_next_event : Z;
  fm_owner : option Z }.

#[export] Instance eta_FifoMailbox : Eta FifoMailbox := fun r =>
  MkFifo r.(fm_commands) r.(fm_events) r.(fm_command_capacity) r.(fm_event_capacity)
    r.(fm_next_command) r.(fm_next_event) r.(fm_owner).

Definition fifo_submit (f : FifoMailbox) kind epoch gen digest
    : Result ControllerCommand * FifoMailbox :=
  if command_invalid kind epoch gen digest
  then (Error (InvalidArgument "controller command identity is invalid"), f)
  else if vsize (fm_commands f) =? fm_command_capacity f
  then (Error (ResourceExhausted "controller command mailbox is full"), f)
  else if fm_next_command f =? 0
  then (Error (FailedPrecondition "controller command sequence wrapped"), f)
  else let c := MkCommand kind (fm_next_command f) epoch gen digest in
       (Value c, f <| fm_commands := fm_commands f ++ [c] |>
                   <| fm_next_command := wrap64 (fm_next_command f + 1) |>).

Definition fifo_claim (f : FifoMailbox) (self : Z) : option FifoMailbox :=
  match fm_owner f with
  | None => Some (f <| fm_owner := Some self |>)
  | Some owner => if owner =? self then Some f else None
  end.

Definition not_owner : Status := FailedPrecondition "controller mailbox has another owner".

Definition fifo_take (f : FifoMailbox) (self : Z)
    : Result (option ControllerCommand) * FifoMailbox :=
  match fifo_claim f self with
  | None => (Error not_owner, f)
  | Some f => match fm_commands f with
              | [] => (Value None, f)
              | c :: rest => (Value (Some c), f <| fm_commands := rest |>)
              end
  end.

Definition fifo_publish (f : FifoMailbox) (self : Z) (draft : ControllerOutputEventDraft)
    : Result ControllerOutputEvent * FifoMailbox :=
  match fifo_claim f self with
  | None => (Error not_owner, f)
  | Some f =>
      if draft_invalid draft
      then (Error (InvalidArgument "controller output event is invalid"), f)
      else if vsize (fm_events f) =? fm_event_capacity f
      then (Error (ResourceExhausted "controller output mailbox is full"), f)
      else if fm_next_event f =? 0
      then (Error (FailedPrecondition "controller event sequence wrapped"), f)
      else let e := event_of draft (fm_next_event f) in
           (Value e, f <| fm_events := fm_events f ++ [e] |>
                       <| fm_next_event := wrap64 (fm_next_event f + 1) |>)
  end.

Definition fifo_take_event (f : FifoMailbox)
    : Result (option ControllerOutputEvent) * FifoMailbox :=
  match fm_events f with
  | [] => (Value None, f)
  | e :: rest => (Value (Some e), f <| fm_events := rest |>)
  end.

Definition run_fifo (f : FifoMailbox) (op : mbx_op) : mbx_out * FifoMailbox :=
  match op with
  | OpSubmit kind epoch gen digest =>
      let '(r, f) := fifo_submit f kind epoch gen digest in (OutSubmit r, f)
  | OpTakeCommand self => let '(r, f) := fifo_take f self in (OutTakeCommand r, f)
  | OpPublish self draft => let '(r, f) := fifo_publish f self draft in (OutPublish r, f)
  | OpTakeEvent => let '(r, f) := fifo_take_event f in (OutTakeEvent r, f)
  end.

Definition fifo_new (limits : ControllerMailboxLimits) : FifoMailbox :=
  MkFifo [] [] (mbl_command_capacity limits) (mbl_event_capacity limits) 1 1 None.

#[export] Instance fifo_Machine : Machine FifoMailbox mbx_op mbx_out := {|
  m_run := run_fifo;
  m_init f := exists limits, f = fifo_new limits |}.

(** ** The mailbox refines the queues *)

Definition mailbox_wf (m : ControllerMailbox) : Prop :=
  ring_wf (mb_commands m) /\ ring_wf (mb_events m).

Definition mailbox_abs (m : ControllerMailbox) : FifoMailbox :=
  MkFifo (ring_list (mb_commands m)) (ring_list (mb_events m))
    (ring_capacity (mb_commands m)) (ring_capacity (mb_events m))
    (mb_next_command_sequence m) (mb_next_event_sequence m) (mb_controller_thread m).

Lemma require_thread_spec m self :
  match fifo_claim (mailbox_abs m) self with
  | Some f => exists m', require_controller_thread_locked m self = (StatusOk, m') /\
      mailbox_abs m' = f /\ mb_commands m' = mb_commands m /\ mb_events m' = mb_events m
  | None => require_controller_thread_locked m self = (not_owner, m)
  end.
Proof.
  unfold fifo_claim, require_controller_thread_locked. cbn [mailbox_abs fm_owner].
  destruct (mb_controller_thread m) as [o|] eqn:Eo.
  - destruct (o =? self); cbn [negb]; [|done]. by exists m.
  - eexists. split; [done|]. done.
Qed.

Lemma mailbox_sim m op :
  mailbox_wf m ->
  mailbox_wf (snd (run_mailbox m op)) /\
  fst (run_mailbox m op) = fst (run_fifo (mailbox_abs m) op) /\
  mailbox_abs (snd (run_mailbox m op)) = snd (run_fifo (mailbox_abs m) op).
Proof.
  intros [Hc He]. destruct op as [kind epoch gen digest|self|self draft|]; cbn [run_mailbox run_fifo].
  - unfold submit_command, fifo_submit. cbn [mailbox_abs fm_commands fm_command_capacity fm_next_command].
    rewrite <- ring_full_spec by done. destruct (command_invalid _ _ _ _); [done|].
    destruct (ring_full (mb_commands m)) eqn:Ef; [done|]. destruct (_ =? 0); [done|].
    destruct (ring_push_spec (mb_commands m)
      (MkCommand kind (mb_next_command_sequence m) epoch gen digest) Hc Ef) as (Hw & Hl & Hk).
    cbn. split_and!; try done. unfold mailbox_abs, upd. cbn. by rewrite Hl, Hk.
  - unfold try_take_command, fifo_take. pose proof (require_thread_spec m self) as Hr.
    destruct (fifo_claim _ _) as [f|]; [|by rewrite Hr].
    destruct Hr as (m' & -> & <- & Ec & Ee). cbn. rewrite Ec.
    destruct (ring_pop_spec _ Hc) as (Hw & Hk & Hl). destruct (ring_list (mb_commands m)) as [|c rest].
    + rewrite Hl. unfold mailbox_abs, mailbox_wf, upd. cbn. by rewrite Ec, Ee.
    + destruct (ring_pop (mb_commands m)) as [x r]. cbn in Hl, Hw, Hk. destruct Hl as [-> Hl].
      unfold mailbox_abs, mailbox_wf, upd. cbn. by rewrite Hl, Hk, ?Ec, Ee.
  - unfold publish_event, fifo_publish. pose proof (require_thread_spec m self) as Hr.
    destruct (fifo_claim _ _) as [f|]; [|by rewrite Hr].
    destruct Hr as (m' & -> & <- & Ec & Ee). cbn [ok StatusOk Status_new code negb].
    cbn [mailbox_abs fm_events fm_event_capacity fm_next_event].
    rewrite <- ring_full_spec by (by rewrite Ee). unfold mailbox_wf.
    destruct (draft_invalid _); [cbn; by rewrite Ec, Ee|].
    destruct (ring_full (mb_events m')) eqn:Ef; [cbn; by rewrite Ec, Ee|].
    destruct (_ =? 0); [cbn; by rewrite Ec, Ee|].
    rewrite <- Ee in He.
    destruct (ring_push_spec (mb_events m') (event_of draft (mb_next_event_sequence m')) He Ef)
      as (Hw & Hl & Hk).
    cbn. rewrite Ec. split_and!; try done. unfold mailbox_abs, upd. cbn. by rewrite Hl, Hk.
  - unfold try_take_event, fifo_take_event. cbn [mailbox_abs fm_events].
    destruct (ring_pop_spec _ He) as (Hw & Hk & Hl). destruct (ring_list (mb_events m)) as [|e rest] eqn:El.
    + rewrite Hl. unfold mailbox_abs, mailbox_wf, upd. cbn. by rewrite El.
    + destruct (ring_pop (mb_events m)) as [x r]. cbn in Hl, Hw, Hk. destruct Hl as [-> Hl].
      unfold mailbox_abs, mailbox_wf, upd. cbn. by rewrite Hl, Hk.
Qed.

Lemma Create_mailbox limits m :
  mailbox_limits_ok limits -> ControllerMailbox_Create limits = Value m ->
  mailbox_wf m /\ mailbox_abs m = fifo_new limits.
Proof.
  unfold mailbox_limits_ok, ControllerMailbox_Create. intros Hl. bcase; [done|].
  intros [= <-]. unfold mailbox_wf, mailbox_abs, fifo_new, ring_capacity. cbn.
  rewrite !vsize_replicate, !Z2Nat.id by lia. split; [|done]. split; apply ring_new_wf; lia.
Qed.

#[export] Instance mailbox_wf_inv : MachineInv mailbox_wf.
Proof.
  split; [intros m (limits & Hl & Hc); by eapply Create_mailbox|].
  intros m op Hm _. by apply mailbox_sim.
Qed.

#[export] Instance mailbox_refines : Refines mailbox_wf mailbox_abs.
Proof. split; [apply _|]. intros m op Hm _. by apply mailbox_sim. Qed.

(** ** Delivery *)

Definition submitted (outs : list mbx_out) : list ControllerCommand :=
  omap (fun o => match o with OutSubmit (Value c) => Some c | _ => None end) outs.

Definition taken (outs : list mbx_out) : list ControllerCommand :=
  omap (fun o => match o with OutTakeCommand (Value (Some c)) => Some c | _ => None end) outs.

Definition published (outs : list mbx_out) : list ControllerOutputEvent :=
  omap (fun o => match o with OutPublish (Value e) => Some e | _ => None end) outs.

Definition delivered (outs : list mbx_out) : list ControllerOutputEvent :=
  omap (fun o => match o with OutTakeEvent (Value (Some e)) => Some e | _ => None end) outs.

(** A call that only the controller thread may make, and that was accepted. *)
Definition controller_call (op : mbx_op) (out : mbx_out) : option Z :=
  match op, out with
  | OpTakeCommand self, OutTakeCommand (Value _) => Some self
  | OpPublish self _, OutPublish (Value _) => Some self
  | _, _ => None
  end.

(** Sequence numbers count up from [n]. *)
Definition numbered (n : Z) (seqs : list Z) : Prop :=
  seqs = map (fun k => n + Z.of_nat k) (seq 0 (length seqs)) /\
  (n = 0 -> seqs = []) /\ n + vsize seqs <= u64_max + 1.

Lemma numbered_cons n seqs :
  1 <= n <= u64_max -> numbered (wrap64 (n + 1)) seqs -> numbered n (n :: seqs).
Proof.
  unfold numbered. intros Hn (E & H0 & Hb). rewrite vsize_cons.
  destruct (decide (n = u64_max)) as [->|Hne].
  - rewrite H0 by done. cbn. by split_and!.
  - rewrite wrap64_id in * by (unfold is_u64; lia). split_and!; [|lia|lia].
    cbn [length seq map]. rewrite Z.add_0_r. f_equal.
    rewrite E at 1. rewrite <- seq_shift, map_map. apply map_ext. lia.
Qed.

(** One call: what enters and leaves the queues. *)
Lemma fifo_step_delivery f op out f1 :
  is_u64 (fm_next_command f) -> is_u64 (fm_next_event f) -> run_fifo f op = (out, f1) ->
  is_u64 (fm_next_command f1) /\ is_u64 (fm_next_event f1) /\
  fm_commands f ++ submitted [out] = taken [out] ++ fm_commands f1 /\
  fm_events f ++ published [out] = delivered [out] ++ fm_events f1 /\
  (forall seqs, numbered (fm_next_command f1) seqs ->
     numbered (fm_next_command f) (map cmd_command_sequence (submitted [out]) ++ seqs)) /\
  (forall seqs, numbered (fm_next_event f1) seqs ->
     numbered (fm_next_event f) (map ev_event_sequence (published [out]) ++ seqs)) /\
  (forall t, fm_owner f = Some t -> fm_owner f1 = Some t) /\
  (forall self, controller_call op out = Some self -> fm_owner f1 = Some self).
Proof.
  intros Hc He E. unfold run_fifo, fifo_submit, fifo_take, fifo_publish, fifo_take_event,
    fifo_claim in E. unfold is_u64 in *.
  destruct op; repeat bcase_in E; simplify_eq; unfold upd in *; cbn in *; rewrite ?app_nil_r;
    split_and!; try done; try apply wrap64_range; breflect; try lia; try (intros; congruence);
    by intros; apply numbered_cons; [lia|].
Qed.

Lemma fifo_delivery ops : forall f,
  is_u64 (fm_next_command f) -> is_u64 (fm_next_event f) ->
  let outs := fst (m_trace f ops) in
  let f' := snd (m_trace f ops) in
  fm_commands f ++ submitted outs = taken outs ++ fm_commands f' /\
  fm_events f ++ published outs = delivered outs ++ fm_events f' /\
  numbered (fm_next_command f) (map cmd_command_sequence (submitted outs)) /\
  numbered (fm_next_event f) (map ev_event_sequence (published outs)) /\
  (forall t, fm_owner f = Some t -> fm_owner f' = Some t) /\
  (forall i op out self, ops !! i = Some op -> outs !! i = Some out ->
     controller_call op out = Some self -> fm_owner f' = Some self).
Proof.
  assert (Hnil : forall n, is_u64 n -> numbered n []).
  { intros n Hn. unfold numbered, is_u64, vsize in *. cbn. split_and!; try done. lia. }
  induction ops as [|op ops IH]; intros f Hc He; cbn zeta.
  { cbn. rewrite !app_nil_r. split_and!; auto. by intros []. }
  rewrite m_trace_cons. cbn [fst snd].
  destruct (m_run f op) as [out f1] eqn:E. cbn [fst snd].
  destruct (fifo_step_delivery f op out f1 Hc He E) as (C1 & E1 & Dc & De & Nc & Ne & O1 & O2).
  destruct (IH f1 C1 E1) as (Ic & Ie & IN & IM & IO & IW). cbn zeta in *.
  assert (Hcons : forall {B} (g : mbx_out -> option B) rest, omap g (out :: rest) = omap g [out] ++ omap g rest)
    by (intros B g rest; cbn; by destruct (g out)).
  unfold submitted, taken, published, delivered in *. rewrite !(Hcons _ _ (fst (m_trace f1 ops))), !map_app.
  split_and!.
  - by rewrite app_assoc, Dc, <- !app_assoc, Ic.
  - by rewrite app_assoc, De, <- !app_assoc, Ie.
  - by apply Nc.
  - by apply Ne.
  - auto.
  - intros [|i] op' out' self Ho Hu; cbn in Ho, Hu; simplify_eq; eauto.
Qed.

(** ** Properties *)

(** C14. A mailbox whose two capacities are at most [2^31] is linearizable to two
    bounded queues: for every sequence of calls, by any threads and in any
    interleaving, the results are those of the queue specification, and the rings hold
    the specified queues.  [ControllerMailbox::Create] also accepts capacities above
    [2^31]; there the tail of a ring can wrap ([ring_push_overwrites]) and the property
    does not hold. *)
Theorem mailbox_refines_queues limits m ops
  (Hl : mailbox_limits_ok limits) (Hm : ControllerMailbox_Create limits = Value m) :
  fst (m_trace m ops) = fst (m_trace (fifo_new limits) ops) /\
  ring_list (mb_commands (snd (m_trace m ops))) = fm_commands (snd (m_trace (fifo_new limits) ops)) /\
  ring_list (mb_events (snd (m_trace m ops))) = fm_events (snd (m_trace (fifo_new limits) ops)).
Proof.
  destruct (Create_mailbox limits m Hl Hm) as [Hwf Ha].
  destruct (refines_trace mailbox_wf mailbox_abs ops m Hwf) as [Hf Hs];
    [by apply Forall_true; intros []|].
  rewrite Ha in Hf, Hs. by rewrite <- Hs.
Qed.

Definition sample_mailbox_limits : ControllerMailboxLimits := MkMailboxLimits 2 1.

Definition one_digest : Sha256Digest := MkDigest (replicate 32 1).

Definition sample_calls : list mbx_op :=
  [OpSubmit CommandKind.kAdmit 1 5 one_digest; OpSubmit CommandKind.kAdmit 1 6 one_digest;
   OpSubmit CommandKind.kCancel 1 5 one_digest; OpTakeCommand 9; OpTakeCommand 8;
   OpSubmit CommandKind.kCancel 1 5 one_digest; OpTakeCommand 9].

Lemma mailbox_refines_queues_witness :
  exists m, ControllerMailbox_Create sample_mailbox_limits = Value m /\
    mailbox_limits_ok sample_mailbox_limits /\
    fst (m_trace m sample_calls) = fst (m_trace (fifo_new sample_mailbox_limits) sample_calls).
Proof.
  assert (Hl : mailbox_limits_ok sample_mailbox_limits) by (unfold mailbox_limits_ok; cbn; lia).
  eexists. split; [reflexivity|]. split; [exact Hl|].
  exact (proj1 (mailbox_refines_queues sample_mailbox_limits _ sample_calls Hl eq_refl)).
Defined.

(** C33. Exactly-once, in-order delivery to one controller thread, for a mailbox whose
    two capacities are at most [2^31] (see [ring_push_overwrites] for larger ones): over
    every sequence of calls, the commands taken followed by those still queued are the
    commands accepted, in order; events likewise; both are numbered 1, 2, 3, ...
    without gap or reuse; and every accepted controller-side call was made by
    the one thread that owns the mailbox. *)
Theorem mailbox_delivers limits m ops
  (Hl : mailbox_limits_ok limits) (Hm : ControllerMailbox_Create limits = Value m) :
  let outs := fst (m_trace m ops) in
  let m' := snd (m_trace m ops) in
  submitted outs = taken outs ++ ring_list (mb_commands m') /\
  published outs = delivered outs ++ ring_list (mb_events m') /\
  numbered 1 (map cmd_command_sequence (submitted outs)) /\
  numbered 1 (map ev_event_sequence (published outs)) /\
  (forall i op out self, ops !! i = Some op -> outs !! i = Some out ->
     controller_call op out = Some self -> mb_controller_thread m' = Some self).
Proof.
  destruct (Create_mailbox limits m Hl Hm) as [Hwf Ha]. cbn zeta.
  destruct (refines_trace mailbox_wf mailbox_abs ops m Hwf) as [Hf Hs];
    [by apply Forall_true; intros []|].
  destruct (fifo_delivery ops (fifo_new limits)) as (D1 & D2 & N1 & N2 & _ & O);
    [unfold is_u64; cbn; lia..|].
  rewrite <- Ha, <- Hf, <- Hs in *. rewrite Ha in D1, D2, N1, N2. done.
Qed.

Lemma mailbox_delivers_witness :
  exists m, ControllerMailbox_Create sample_mailbox_limits = Value m /\
    mailbox_limits_ok sample_mailbox_limits /\
    map cmd_command_sequence (submitted (fst (m_trace m sample_calls))) = [1; 2; 3] /\
    map cmd_command_sequence (taken (fst (m_trace m sample_calls))) = [1; 2] /\
    submitted (fst (m_trace m sample_calls)) =
      taken (fst (m_trace m sample_calls)) ++
      ring_list (mb_commands (snd (m_trace m sample_calls))).
Proof.
  assert (Hl : mailbox_limits_ok sample_mailbox_limits) by (unfold mailbox_limits_ok; cbn; lia).
  eexists. split; [reflexivity|]. split; [exact Hl|]. split; [reflexivity|]. split; [reflexivity|].
  exact (proj1 (mailbox_delivers sample_mailbox_limits _ sample_calls Hl eq_refl)).
Defined.
