(* ===== verification/RequestArena.v ===== *)
(** * The controller's request arena

    Models [include/pih/scheduler/controller_request_arena.h] and
    [plugins/execution-default/controller_request_arena.cpp]: fixed slots that
    carry the prompt and the sampling descriptor of a request from the producer
    that publishes it to the controller that claims it.  Every operation holds
    the arena's mutex while it touches the slots. *)

From Stdlib Require Import SpecFloat.
From S2P Require Import Prelude Core Sha256.

(** ** Single-precision floats

    A [float] is its 32-bit pattern, the argument of [std::bit_cast]; the
    comparisons are those of IEEE 754 on the decoded value. *)
Definition f32_decode (bits : Z) : spec_float :=
  let sign := Z.testbit bits 31 in
  let exponent := Z.land (Z.shiftr bits 23) 255 in
  let fraction := Z.land bits 8388607 in
  if exponent =? 255
  then if fraction =? 0 then S754_infinity sign else S754_nan
  else if exponent =? 0
  then if fraction =? 0 then S754_zero sign else S754_finite sign (Z.to_pos fraction) (-149)
  else S754_finite sign (Z.to_pos (fraction + 8388608)) (exponent - 150).

Definition f32_eqb (a b : Z) : bool := SFeqb (f32_decode a) (f32_decode b).
Definition f32_leb (a b : Z) : bool := SFleb (f32_decode a) (f32_decode b).
Definition f32_gtb (a b : Z) : bool := SFltb (f32_decode b) (f32_decode a).

Definition f32_isfinite (a : Z) : bool :=
  match f32_decode a with
  | S754_zero _ | S754_finite _ _ _ => true
  | S754_infinity _ | S754_nan => false
  end.

(** The literals [0.0F], [1.0F] and [2.0F]. *)
Definition f32_0 : Z := 0.
Definition f32_1 : Z := 0x3F800000.
Definition f32_2 : Z := 0x40000000.

(** ** Requests *)

Module SamplingMode.
Inductive ControllerSamplingMode := kGreedy | kStochastic.
End SamplingMode.
Import SamplingMode (ControllerSamplingMode).

Definition sampling_mode_value (m : ControllerSamplingMode) : Z :=
  match m with SamplingMode.kGreedy => 0 | SamplingMode.kStochastic => 1 end.

Definition kMaximumStopTokenIds : Z := 16.

(** The vocabulary bound written as [151936] in the source. *)
Definition kVocabulary : Z := 151936.

Record ControllerRequestSampling := MkSampling {
  sm_mode : ControllerSamplingMode;
  sm_temperature : Z;
  sm_top_p : Z;
  sm_top_k : option Z;
  sm_effective_seed : Z;
  sm_sample_ordinal : Z;
  sm_minimum_new_tokens : Z;
  sm_logprobs_enabled : bool;
  sm_top_logprobs_count : Z;
  sm_stop_token_ids : list Z;
  sm_stop_token_count : Z }.

Definition default_sampling : ControllerRequestSampling :=
  MkSampling SamplingMode.kGreedy f32_0 f32_1 None 0 0 0 false 0
    (replicate (Z.to_nat kMaximumStopTokenIds) 0) 0.

Definition descriptor_invalid (s : ControllerRequestSampling) (maximum_new_tokens : Z) : bool :=
  negb (sm_sample_ordinal s =? 0) || (sm_minimum_new_tokens s >? maximum_new_tokens) ||
  (sm_top_logprobs_count s >? 20) ||
  (negb (sm_logprobs_enabled s) && negb (sm_top_logprobs_count s =? 0)) ||
  (sm_stop_token_count s >? kMaximumStopTokenIds).

(** The loop over the stop-token array: [before] holds the entries already
    visited. *)
Fixpoint stop_tokens_error (count i : Z) (before ids : list Z) : option Status :=
  match ids with
  | [] => None
  | id :: rest =>
      if i >=? count
      then if negb (id =? 0)
           then Some (InvalidArgument "controller stop-token descriptor tail is not canonical")
           else stop_tokens_error count (i + 1) (before ++ [id]) rest
      else if id >=? kVocabulary
      then Some (InvalidArgument "controller stop-token id is outside the vocabulary")
      else if existsb (Z.eqb id) before
      then Some (InvalidArgument "controller stop-token descriptor contains duplicates")
      else stop_tokens_error count (i + 1) (before ++ [id]) rest
  end.

Definition validate_sampling (s : ControllerRequestSampling) (maximum_new_tokens : Z) : Status :=
  if descriptor_invalid s maximum_new_tokens
  then InvalidArgument "controller request sampling descriptor is invalid"
  else match stop_tokens_error (sm_stop_token_count s) 0 [] (sm_stop_token_ids s) with
  | Some e => e
  | None =>
      match sm_mode s with
      | SamplingMode.kGreedy =>
          if negb (f32_eqb (sm_temperature s) f32_0) || negb (f32_eqb (sm_top_p s) f32_1) ||
             match sm_top_k s with Some _ => true | None => false end
          then InvalidArgument "controller greedy sampling parameters conflict"
          else StatusOk
      | SamplingMode.kStochastic =>
          if negb (f32_isfinite (sm_temperature s)) || f32_leb (sm_temperature s) f32_0 ||
             f32_gtb (sm_temperature s) f32_2 ||
             negb (f32_isfinite (sm_top_p s)) || f32_leb (sm_top_p s) f32_0 ||
             f32_gtb (sm_top_p s) f32_1 ||
             match sm_top_k s with
             | Some k => (k =? 0) || (k >? kVocabulary)
             | None => false
             end
          then InvalidArgument "controller stochastic sampling parameters are invalid"
          else StatusOk
      end
  end.

Definition kRequestDigestDomain : string := "pih-controller-request-v1".

Definition top_k_flag (k : option Z) : Z := match k with Some _ => 1 | None => 0 end.
Definition top_k_value (k : option Z) : Z := match k with Some v => v | None => 0 end.

(** The bytes fed to the hasher, one element per [update] call. *)
Definition request_wire (request_generation : Z) (prompt : list Z) (maximum_new_tokens : Z)
    (s : ControllerRequestSampling) : list (list Z) :=
  [text_bytes kRequestDigestDomain; le64 request_generation; le32 (wrap32 (vsize prompt));
   le32 maximum_new_tokens; le32 (sampling_mode_value (sm_mode s)); le32 (sm_temperature s);
   le32 (sm_top_p s); le32 (top_k_flag (sm_top_k s)); le32 (top_k_value (sm_top_k s));
   le64 (sm_effective_seed s); le64 (sm_sample_ordinal s); le32 (sm_minimum_new_tokens s);
   le32 (Z.b2z (sm_logprobs_enabled s)); le32 (sm_top_logprobs_count s);
   le32 (sm_stop_token_count s)] ++
  map le32 (take (Z.to_nat (sm_stop_token_count s)) (sm_stop_token_ids s)) ++
  map le32 prompt.

Definition controller_request_payload_digest (request_generation : Z) (prompt : list Z)
    (maximum_new_tokens : Z) (s : ControllerRequestSampling) : Result Sha256Digest :=
  if (request_generation =? 0) || (vsize prompt =? 0) || (vsize prompt >? u32_max) ||
     (maximum_new_tokens =? 0) || negb (ok (validate_sampling s maximum_new_tokens))
  then Error (InvalidArgument "controller request digest input is invalid")
  else hash_chunks (request_wire request_generation prompt maximum_new_tokens s).

(** ** The arena *)

(** A [std::span] into the arena's token vector: reads go through the arena. *)
Record Span := MkSpan { sp_offset : Z; sp_size : Z }.

Definition span_read (tokens : list Z) (sp : Span) : list Z :=
  take (Z.to_nat (sp_size sp)) (drop (Z.to_nat (sp_offset sp)) tokens).

Record ControllerRequestArenaLimits := MkRequestLimits {
  rql_maximum_requests : Z;
  rql_maximum_prompt_tokens_per_request : Z;
  rql_maximum_context_tokens : Z }.

Record ControllerRequestReceipt := MkReceipt {
  rcp_slot_index : Z;
  rcp_slot_generation : Z;
  rcp_request_generation : Z;
  rcp_payload_digest : Sha256Digest }.

Record ControllerRequestView := MkRequestView {
  rqv_slot_index : Z;
  rqv_slot_generation : Z;
  rqv_request_generation : Z;
  rqv_prompt_token_ids : Span;
  rqv_maximum_new_tokens : Z;
  rqv_sampling : ControllerRequestSampling;
  rqv_payload_digest : Sha256Digest }.

Module SlotState.
Inductive SlotState := kFree | kPublished | kClaimed.

#[global] Instance SlotState_eq_dec : EqDecision SlotState.
Proof. solve_decision. Defined.
End SlotState.
Import SlotState (SlotState).

Definition slot_state_value (s : SlotState) : Z :=
  match s with SlotState.kFree => 0 | SlotState.kPublished => 1 | SlotState.kClaimed => 2 end.

Definition slot_eqb (a b : SlotState) : bool := slot_state_value a =? slot_state_value b.

Lemma slot_eqb_true a b : slot_eqb a b = true <-> a = b.
Proof. by destruct a, b. Qed.

Lemma slot_eqb_false a b : slot_eqb a b = false <-> a <> b.
Proof. by destruct a, b. Qed.

Record Slot := MkSlot {
  sl_state : SlotState;
  sl_generation : Z;
  sl_request_generation : Z;
  sl_prompt_tokens : Z;
  sl_maximum_new_tokens : Z;
  sl_sampling : ControllerRequestSampling;
  sl_payload_digest : Sha256Digest }.

Definition empty_slot : Slot :=
  MkSlot SlotState.kFree 0 0 0 0 default_sampling zero_digest.

#[export] Instance Slot_inhabited : Inhabited Slot := populate empty_slot.

#[export] Instance eta_Slot : Eta Slot := fun r =>
  MkSlot r.(sl_state) r.(sl_generation) r.(sl_request_generation) r.(sl_prompt_tokens)
    r.(sl_maximum_new_tokens) r.(sl_sampling) r.(sl_payload_digest).

Record ControllerRequestArena := MkArena {
  ra_limits : ControllerRequestArenaLimits;
  ra_tokens : list Z;
  ra_slots : list Slot }.

#[export] Instance eta_ControllerRequestArena : Eta ControllerRequestArena := fun r =>
  MkArena r.(ra_limits) r.(ra_tokens) r.(ra_slots).

(** [std::vector<std::uint32_t>().max_size()]: the largest byte count that fits
    [std::ptrdiff_t], in elements. *)
Definition kVectorU32MaxSize : Z := 2305843009213693951.

Definition ControllerRequestArena_Create (limits : ControllerRequestArenaLimits)
    : Result ControllerRequestArena :=
  if (rql_maximum_requests limits =? 0) ||
     (rql_maximum_prompt_tokens_per_request limits =? 0) ||
     (rql_maximum_context_tokens limits =? 0) ||
     (rql_maximum_prompt_tokens_per_request limits >? rql_maximum_context_tokens limits)
  then Error (InvalidArgument "controller request arena limits are invalid")
  else
    let too_large := Error (ResourceExhausted "controller request token arena is too large") in
    match checked_mul_u64 (rql_maximum_requests limits)
            (rql_maximum_prompt_tokens_per_request limits) with
    | Error _ => too_large
    | Value capacity =>
        if capacity >? kVectorU32MaxSize then too_large
        else Value (MkArena limits (replicate (Z.to_nat capacity) 0)
                      (replicate (Z.to_nat (rql_maximum_requests limits)) empty_slot))
    end.

Definition request_refused (limits : ControllerRequestArenaLimits) (request_generation : Z)
    (prompt : list Z) (maximum_new_tokens : Z) (s : ControllerRequestSampling) : bool :=
  (request_generation =? 0) || (vsize prompt =? 0) ||
  (vsize prompt >? rql_maximum_prompt_tokens_per_request limits) ||
  (maximum_new_tokens =? 0) ||
  (vsize prompt >? rql_maximum_context_tokens limits -
                   Z.min maximum_new_tokens (rql_maximum_context_tokens limits)) ||
  (maximum_new_tokens >? rql_maximum_context_tokens limits) ||
  negb (ok (validate_sampling s maximum_new_tokens)).

Definition slot_free (s : Slot) : bool := slot_eqb (sl_state s) SlotState.kFree.

Definition slot_resident (request_generation : Z) (s : Slot) : bool :=
  negb (slot_free s) && (sl_request_generation s =? request_generation).

Definition slot_offset (a : ControllerRequestArena) (i : Z) : Z :=
  i * rql_maximum_prompt_tokens_per_request (ra_limits a).

Definition publish (a : ControllerRequestArena) (request_generation : Z) (prompt : list Z)
    (maximum_new_tokens : Z) (s : ControllerRequestSampling)
    : Result ControllerRequestReceipt * ControllerRequestArena :=
  if request_refused (ra_limits a) request_generation prompt maximum_new_tokens s
  then (Error (InvalidArgument "controller request exceeds its token profile"), a)
  else if existsb (fun token => token >=? kVocabulary) prompt
  then (Error (InvalidArgument "controller request has invalid token id"), a)
  else match controller_request_payload_digest request_generation prompt maximum_new_tokens s with
  | Error e => (Error e, a)
  | Value digest =>
      if existsb (slot_resident request_generation) (ra_slots a)
      then (Error (FailedPrecondition "request generation is already resident"), a)
      else match first_index slot_free (ra_slots a) 0 with
      | None => (Error (ResourceExhausted "controller request arena is full"), a)
      | Some i =>
          let slot := (ra_slots a).[i] in
          if sl_generation slot =? u64_max
          then (Error (FailedPrecondition "controller request slot generation wrapped"), a)
          else
            let generation := wrap64 (sl_generation slot + 1) in
            (Value (MkReceipt i generation request_generation digest),
             a <| ra_tokens := splice (ra_tokens a) (slot_offset a i) prompt |>
               <| ra_slots := (ra_slots a).[i <-
                    MkSlot SlotState.kPublished generation request_generation
                      (wrap32 (vsize prompt)) maximum_new_tokens s digest] |>)
      end
  end.

Definition slot_published (request_generation : Z) (s : Slot) : bool :=
  slot_eqb (sl_state s) SlotState.kPublished && (sl_request_generation s =? request_generation).

Definition claim (a : ControllerRequestArena) (request_generation : Z)
    (payload_digest : Sha256Digest) : Result ControllerRequestView * ControllerRequestArena :=
  match first_index (slot_published request_generation) (ra_slots a) 0 with
  | None => (Error (FailedPrecondition "controller request is not published"), a)
  | Some i =>
      let slot := (ra_slots a).[i] in
      if negb (bool_decide (sl_payload_digest slot = payload_digest))
      then (Error (FailedPrecondition "controller request digest drifted"), a)
      else (Value (MkRequestView i (sl_generation slot) (sl_request_generation slot)
                     (MkSpan (slot_offset a i) (sl_prompt_tokens slot))
                     (sl_maximum_new_tokens slot) (sl_sampling slot) (sl_payload_digest slot)),
            a <| ra_slots := (ra_slots a).[i <- slot <| sl_state := SlotState.kClaimed |>] |>)
  end.

Definition clear_slot (a : ControllerRequestArena) (i : Z) : ControllerRequestArena :=
  let zeros := replicate (Z.to_nat (rql_maximum_prompt_tokens_per_request (ra_limits a))) 0 in
  a <| ra_tokens := splice (ra_tokens a) (slot_offset a i) zeros |>
    <| ra_slots := (ra_slots a).[i <-
         MkSlot SlotState.kFree (sl_generation ((ra_slots a).[i])) 0 0 0 default_sampling
           zero_digest] |>.

Definition rollback_published (a : ControllerRequestArena) (receipt : ControllerRequestReceipt)
    : Status * ControllerRequestArena :=
  if rcp_slot_index receipt >=? vsize (ra_slots a)
  then (InvalidArgument "controller request receipt index is invalid", a)
  else
    let slot := (ra_slots a).[rcp_slot_index receipt] in
    if negb (slot_eqb (sl_state slot) SlotState.kPublished) ||
       negb (sl_generation slot =? rcp_slot_generation receipt) ||
       negb (sl_request_generation slot =? rcp_request_generation receipt) ||
       negb (bool_decide (sl_payload_digest slot = rcp_payload_digest receipt))
    then (FailedPrecondition "controller request receipt is stale", a)
    else (StatusOk, clear_slot a (rcp_slot_index receipt)).

Definition release_claimed (a : ControllerRequestArena) (slot_index slot_generation : Z)
    : Status * ControllerRequestArena :=
  if slot_index >=? vsize (ra_slots a)
  then (InvalidArgument "controller request slot index is invalid", a)
  else
    let slot := (ra_slots a).[slot_index] in
    if negb (slot_eqb (sl_state slot) SlotState.kClaimed) ||
       negb (sl_generation slot =? slot_generation)
    then (FailedPrecondition "controller request claim is stale", a)
    else (StatusOk, clear_slot a slot_index).

Definition published_count (a : ControllerRequestArena) : Z :=
  wrap32 (count_if (fun s => slot_eqb (sl_state s) SlotState.kPublished) (ra_slots a)).

Definition claimed_count (a : ControllerRequestArena) : Z :=
  wrap32 (count_if (fun s => slot_eqb (sl_state s) SlotState.kClaimed) (ra_slots a)).

(** ** Disjoint token regions *)

(** Reading a region that a write does not touch. *)
Lemma span_read_splice_other tokens at_ src o n :
  0 <= at_ -> 0 <= o -> at_ + vsize src <= vsize tokens ->
  o + n <= at_ \/ at_ + vsize src <= o ->
  span_read (splice tokens at_ src) (MkSpan o n) = span_read tokens (MkSpan o n).
Proof.
  intros Ha Ho Hs Hd. unfold span_read. cbn [sp_offset sp_size]. apply list_eq. intros k.
  rewrite !lookup_take, !lookup_drop. destruct (decide _) as [Hk|]; [|done].
  rewrite splice_lookup by done. destruct (_ && _) eqn:E; [|done].
  apply andb_true_iff in E as [E1 E2]. apply Nat.leb_le in E1. apply Nat.ltb_lt in E2.
  unfold vsize in *. lia.
Qed.

(** Reading what was just written. *)
Lemma span_read_splice_same tokens at_ src :
  0 <= at_ -> at_ + vsize src <= vsize tokens ->
  span_read (splice tokens at_ src) (MkSpan at_ (vsize src)) = src.
Proof.
  intros Ha Hs. unfold span_read. cbn [sp_offset sp_size]. apply list_eq. intros k.
  rewrite lookup_take, lookup_drop, splice_lookup by done. unfold vsize in *.
  destruct (decide _) as [Hk|Hk].
  - rewrite (proj2 (Nat.leb_le _ _)), (proj2 (Nat.ltb_lt _ _)) by lia. cbn. f_equal. lia.
  - symmetry. apply lookup_ge_None. lia.
Qed.

(** ** Invariant *)

(** The whole region of a slot, and the prompt stored in it. *)
Definition slot_region (a : ControllerRequestArena) (i : Z) : Span :=
  MkSpan (slot_offset a i) (rql_maximum_prompt_tokens_per_request (ra_limits a)).

Definition slot_prompt (a : ControllerRequestArena) (i : Z) : list Z :=
  span_read (ra_tokens a) (MkSpan (slot_offset a i) (sl_prompt_tokens ((ra_slots a).[i]))).

(** A free slot is scrubbed: nothing of its last request remains. *)
Definition slot_scrubbed (a : ControllerRequestArena) (i : Z) : Prop :=
  (exists g, (ra_slots a).[i] = MkSlot SlotState.kFree g 0 0 0 default_sampling zero_digest) /\
  span_read (ra_tokens a) (slot_region a i)
  = replicate (Z.to_nat (rql_maximum_prompt_tokens_per_request (ra_limits a))) 0.

(** A slot in use holds a request within the limits, with its digest. *)
Definition slot_holds_request (a : ControllerRequestArena) (i : Z) : Prop :=
  let s := (ra_slots a).[i] in
  request_refused (ra_limits a) (sl_request_generation s) (slot_prompt a i)
    (sl_maximum_new_tokens s) (sl_sampling s) = false /\
  Forall (fun t => t < kVocabulary) (slot_prompt a i) /\
  vsize (slot_prompt a i) = sl_prompt_tokens s /\
  controller_request_payload_digest (sl_request_generation s) (slot_prompt a i)
    (sl_maximum_new_tokens s) (sl_sampling s) = Value (sl_payload_digest s).

Definition limits_ok (limits : ControllerRequestArenaLimits) : Prop :=
  is_u32 (rql_maximum_requests limits) /\
  is_u32 (rql_maximum_prompt_tokens_per_request limits) /\
  is_u32 (rql_maximum_context_tokens limits).

Definition arena_wf (a : ControllerRequestArena) : Prop :=
  limits_ok (ra_limits a) /\
  vsize (ra_slots a) = rql_maximum_requests (ra_limits a) /\
  vsize (ra_tokens a) =
    rql_maximum_requests (ra_limits a) * rql_maximum_prompt_tokens_per_request (ra_limits a) /\
  (forall i, 0 <= i < vsize (ra_slots a) ->
     is_u64 (sl_generation ((ra_slots a).[i])) /\
     (slot_free ((ra_slots a).[i]) = true -> slot_scrubbed a i) /\
     (slot_free ((ra_slots a).[i]) = false -> slot_holds_request a i)) /\
  (forall i j, 0 <= i < vsize (ra_slots a) -> 0 <= j < vsize (ra_slots a) ->
     slot_free ((ra_slots a).[i]) = false -> slot_free ((ra_slots a).[j]) = false ->
     sl_request_generation ((ra_slots a).[i]) = sl_request_generation ((ra_slots a).[j]) ->
     i = j).

(** One slot and its region are rewritten; every other slot keeps its state and
    its tokens. *)
Definition slot_write (a : ControllerRequestArena) (i : Z) (src : list Z) (s : Slot)
    : ControllerRequestArena :=
  a <| ra_tokens := splice (ra_tokens a) (slot_offset a i) src |>
    <| ra_slots := (ra_slots a).[i <- s] |>.

Lemma slot_offset_bound a j :
  arena_wf a -> 0 <= j < vsize (ra_slots a) ->
  0 <= slot_offset a j /\
  slot_offset a j + rql_maximum_prompt_tokens_per_request (ra_limits a) <= vsize (ra_tokens a).
Proof.
  intros Hwf Hj. destruct Hwf as ((L1 & L2 & L3) & Hn & Ht & _). unfold slot_offset, is_u32 in *.
  rewrite Ht, <- Hn. split; nia.
Qed.

Section Write.
Context (a : ControllerRequestArena) (i : Z) (src : list Z) (s : Slot).
Context (Hwf : arena_wf a) (Hi : 0 <= i < vsize (ra_slots a))
  (Hsrc : vsize src <= rql_maximum_prompt_tokens_per_request (ra_limits a)).

Lemma slot_offset_disjoint j :
  0 <= j < vsize (ra_slots a) -> j <> i ->
  slot_offset a j + rql_maximum_prompt_tokens_per_request (ra_limits a) <= slot_offset a i \/
  slot_offset a i + rql_maximum_prompt_tokens_per_request (ra_limits a) <= slot_offset a j.
Proof.
  intros Hj Hne. destruct Hwf as ((L1 & L2 & L3) & _). unfold slot_offset, is_u32 in *.
  destruct (Z.lt_trichotomy j i) as [|[|]]; [left; nia|done|right; nia].
Qed.

Lemma slot_write_at j :
  0 <= j < vsize (ra_slots a) ->
  (ra_slots (slot_write a i src s)).[j] = if j =? i then s else (ra_slots a).[j].
Proof. intros Hj. unfold slot_write, upd. cbn. apply vat_vput; lia. Qed.

Lemma slot_write_read j n :
  0 <= j < vsize (ra_slots a) -> j <> i ->
  n <= rql_maximum_prompt_tokens_per_request (ra_limits a) ->
  span_read (ra_tokens (slot_write a i src s)) (MkSpan (slot_offset a j) n)
  = span_read (ra_tokens a) (MkSpan (slot_offset a j) n).
Proof.
  intros Hj Hne Hn. destruct (slot_offset_bound a i Hwf Hi), (slot_offset_bound a j Hwf Hj).
  unfold slot_write, upd. cbn. apply span_read_splice_other; try lia.
  destruct (slot_offset_disjoint j Hj Hne); lia.
Qed.

Lemma slot_write_prompt_same :
  sl_prompt_tokens s = vsize src -> slot_prompt (slot_write a i src s) i = src.
Proof.
  intros Hs. unfold slot_prompt. rewrite slot_write_at, Z.eqb_refl, Hs by done.
  change (slot_offset (slot_write a i src s) i) with (slot_offset a i).
  destruct (slot_offset_bound a i Hwf Hi). apply span_read_splice_same; lia.
Qed.

(** Any other slot keeps its prompt, its contents and its scrubbed region. *)
Lemma slot_write_other j :
  0 <= j < vsize (ra_slots a) -> j <> i ->
  (slot_scrubbed a j -> slot_scrubbed (slot_write a i src s) j) /\
  (slot_holds_request a j ->
   slot_prompt (slot_write a i src s) j = slot_prompt a j /\
   slot_holds_request (slot_write a i src s) j).
Proof.
  intros Hj Hne. assert (Es : (ra_slots (slot_write a i src s)).[j] = (ra_slots a).[j])
    by (rewrite slot_write_at by done; by rewrite (proj2 (Z.eqb_neq _ _) Hne)).
  split.
  - unfold slot_scrubbed. rewrite Es. intros [Hg Hr]. split; [done|].
    etransitivity; [|exact Hr]. by apply slot_write_read.
  - intros Hh. assert (Ep : slot_prompt (slot_write a i src s) j = slot_prompt a j).
    { unfold slot_prompt. rewrite Es. apply slot_write_read; [done..|].
      destruct Hh as (Hr & _ & Hv & _). unfold request_refused in Hr. lia. }
    split; [done|]. unfold slot_holds_request in *. rewrite Es, Ep. done.
Qed.

(** Rewriting a slot keeps the invariant when the new contents are sound and the
    request is not resident elsewhere. *)
Lemma slot_write_wf :
  is_u64 (sl_generation s) ->
  (slot_free s = true -> slot_scrubbed (slot_write a i src s) i) ->
  (slot_free s = false -> slot_holds_request (slot_write a i src s) i) ->
  (slot_free s = false -> forall j, 0 <= j < vsize (ra_slots a) -> j <> i ->
     slot_free ((ra_slots a).[j]) = false ->
     sl_request_generation ((ra_slots a).[j]) <> sl_request_generation s) ->
  arena_wf (slot_write a i src s).
Proof.
  intros Hg Hf Hh Hu. pose proof Hwf as (L & Hn & Ht & Hs & Hd).
  destruct (slot_offset_bound a i Hwf Hi) as [B0 B1].
  assert (Ev : vsize (ra_slots (slot_write a i src s)) = vsize (ra_slots a)) by apply vsize_vput.
  assert (Et : vsize (ra_tokens (slot_write a i src s)) = vsize (ra_tokens a))
    by (apply vsize_splice; lia).
  unfold arena_wf. rewrite Ev, Et. split_and!; try done.
  - intros j Hj. rewrite slot_write_at by done. destruct (Z.eqb_spec j i) as [->|Hne]; [done|].
    destruct (slot_write_other j Hj Hne) as [Ho1 Ho2]. destruct (Hs j Hj) as (G & F & R).
    split_and!; [exact G|auto|]. intros Hx. apply Ho2, R, Hx.
  - intros j k Hj Hk. rewrite !slot_write_at by done.
    destruct (Z.eqb_spec j i) as [->|], (Z.eqb_spec k i) as [->|]; try done; intros Fj Fk E.
    + by destruct (Hu Fj k Hk).
    + by destruct (Hu Fk j Hj).
    + by apply Hd.
Qed.
End Write.

(** ** The abstract arena: resident requests by generation *)

Record Resident := MkResident {
  rs_index : Z;
  rs_generation : Z;
  rs_claimed : bool;
  rs_prompt : list Z;
  rs_maximum_new_tokens : Z;
  rs_sampling : ControllerRequestSampling;
  rs_digest : Sha256Digest }.

#[export] Instance eta_Resident : Eta Resident := fun r =>
  MkResident r.(rs_index) r.(rs_generation) r.(rs_claimed) r.(rs_prompt)
    r.(rs_maximum_new_tokens) r.(rs_sampling) r.(rs_digest).

Definition resident_at (a : ControllerRequestArena) (i : Z) : Resident :=
  let s := (ra_slots a).[i] in
  MkResident i (sl_generation s) (slot_eqb (sl_state s) SlotState.kClaimed) (slot_prompt a i)
    (sl_maximum_new_tokens s) (sl_sampling s) (sl_payload_digest s).

Definition resident (a : ControllerRequestArena) (g : Z) : option Resident :=
  match first_index (slot_resident g) (ra_slots a) 0 with
  | Some i => Some (resident_at a i)
  | None => None
  end.

Definition residents := Z -> option Resident.

Definition resident_set (m : residents) (g : Z) (r : option Resident) : residents :=
  fun g' => if g' =? g then r else m g'.

Lemma slot_resident_true g s :
  slot_resident g s = true <-> slot_free s = false /\ sl_request_generation s = g.
Proof. unfold slot_resident. rewrite andb_true_iff, negb_true_iff, Z.eqb_eq. done. Qed.

Lemma resident_None a g :
  resident a g = None <->
  forall i, 0 <= i < vsize (ra_slots a) -> slot_resident g ((ra_slots a).[i]) = false.
Proof.
  unfold resident. destruct (first_index _ _ _) as [i|] eqn:E.
  - apply first_index_Some in E as (Hi & Hr & _). rewrite Z.sub_0_r in Hr. split; [done|].
    intros H. rewrite H in Hr by lia. done.
  - apply first_index_None in E. split; [|done]. intros _ i Hi.
    rewrite Forall_forall in E. apply E. by apply list_elem_of_In, vat_In.
Qed.

Lemma resident_Some a g i :
  arena_wf a -> 0 <= i < vsize (ra_slots a) -> slot_resident g ((ra_slots a).[i]) = true ->
  resident a g = Some (resident_at a i).
Proof.
  intros (_ & _ & _ & _ & Hd) Hi Hr. unfold resident.
  destruct (first_index _ _ _) as [j|] eqn:E.
  - apply first_index_Some in E as (Hj & Hr' & _). rewrite Z.sub_0_r in Hr'.
    apply slot_resident_true in Hr as [F1 G1], Hr' as [F2 G2].
    rewrite (Hd i j) by (done || lia || congruence). done.
  - apply first_index_None in E. rewrite Forall_forall in E.
    rewrite E in Hr; [done|]. by apply list_elem_of_In, vat_In.
Qed.

Lemma resident_inv a g r :
  resident a g = Some r ->
  exists i, 0 <= i < vsize (ra_slots a) /\ slot_free ((ra_slots a).[i]) = false /\
    sl_request_generation ((ra_slots a).[i]) = g /\ r = resident_at a i.
Proof.
  unfold resident. destruct (first_index _ _ _) as [i|] eqn:E; [|done]. intros [= <-].
  apply first_index_Some in E as (Hi & Hr & _). rewrite Z.sub_0_r in Hr.
  apply slot_resident_true in Hr as [F G]. exists i. split_and!; try done; lia.
Qed.

(** The residents after one slot is rewritten. *)
Lemma resident_write a i src s g :
  arena_wf a -> 0 <= i < vsize (ra_slots a) ->
  vsize src <= rql_maximum_prompt_tokens_per_request (ra_limits a) ->
  arena_wf (slot_write a i src s) ->
  resident (slot_write a i src s) g =
  if slot_resident g s then Some (resident_at (slot_write a i src s) i)
  else if slot_resident g ((ra_slots a).[i]) then None else resident a g.
Proof.
  intros Hwf Hi Hsrc Hwf'. assert (Ev : vsize (ra_slots (slot_write a i src s)) = vsize (ra_slots a))
    by apply vsize_vput.
  destruct (slot_resident g s) eqn:Es.
  { apply resident_Some; [done|lia|]. by rewrite slot_write_at, Z.eqb_refl. }
  destruct (slot_resident g ((ra_slots a).[i])) eqn:Eo.
  - apply resident_None. intros j Hj. rewrite Ev in Hj. rewrite slot_write_at by done.
    destruct (Z.eqb_spec j i) as [|Hne]; [done|]. apply not_true_iff_false. intros Hr.
    apply Hne. apply slot_resident_true in Eo as [F1 G1], Hr as [F2 G2].
    apply Hwf; try done. congruence.
  - destruct (resident a g) as [r|] eqn:Er.
    + apply resident_inv in Er as (j & Hj & F & G & ->).
      assert (Hne : j <> i).
      { intros ->. rewrite (proj2 (slot_resident_true _ _)) in Eo; [done|by split]. }
      assert (Ej : (ra_slots (slot_write a i src s)).[j] = (ra_slots a).[j])
        by (rewrite slot_write_at by done; by rewrite (proj2 (Z.eqb_neq _ _) Hne)).
      rewrite (resident_Some _ _ j); [|done|lia|rewrite Ej; by apply slot_resident_true].
      f_equal. unfold resident_at. rewrite Ej. f_equal.
      destruct (slot_write_other a i src s Hwf Hi Hsrc j Hj Hne) as [_ Ho].
      apply Ho. by apply Hwf.
    + apply resident_None. intros j Hj. rewrite Ev in Hj. rewrite slot_write_at by done.
      destruct (Z.eqb_spec j i); [done|]. by apply (resident_None a g).
Qed.

(** ** The operations on the abstract arena *)

Lemma publish_Value a g prompt maxnew s rcp a' :
  arena_wf a -> publish a g prompt maxnew s = (Value rcp, a') ->
  exists i d, 0 <= i < vsize (ra_slots a) /\ slot_free ((ra_slots a).[i]) = true /\
    request_refused (ra_limits a) g prompt maxnew s = false /\
    Forall (fun t => t < kVocabulary) prompt /\
    controller_request_payload_digest g prompt maxnew s = Value d /\
    resident a g = None /\ sl_generation ((ra_slots a).[i]) + 1 <= u64_max /\
    rcp = MkReceipt i (sl_generation ((ra_slots a).[i]) + 1) g d /\
    a' = slot_write a i prompt (MkSlot SlotState.kPublished
           (sl_generation ((ra_slots a).[i]) + 1) g (vsize prompt) maxnew s d).
Proof.
  intros Hwf. unfold publish. destruct (request_refused _ _ _ _ _) eqn:Er; [done|].
  destruct (existsb _ prompt) eqn:Ev; [done|].
  destruct (controller_request_payload_digest g prompt maxnew s) as [d|] eqn:Ed; [|done].
  destruct (existsb _ (ra_slots a)) eqn:Ex; [done|].
  destruct (first_index _ _ _) as [i|] eqn:Ef; [|done].
  apply first_index_Some in Ef as (Hi & Hf & _). rewrite Z.sub_0_r in Hf. rewrite Z.add_0_l in Hi.
  destruct (_ =? u64_max) eqn:Eg; [done|]. breflect. cbn zeta.
  pose proof Hwf as ((L1 & L2 & L3) & _ & _ & Hs & _). destruct (Hs i Hi) as (Hg & _).
  unfold is_u64, is_u32 in *. unfold request_refused in Er. pose proof (vsize_nonneg prompt).
  rewrite (wrap64_id (_ + 1)), (wrap32_id (vsize prompt)) by (unfold is_u64, is_u32; lia).
  intros [= <- <-]. exists i, d. split_and!; try done; try lia.
  - apply Forall_forall. intros t Ht%list_elem_of_In. destruct (Z.ltb_spec t kVocabulary); [done|].
    assert (Hx : existsb (fun token => token >=? kVocabulary) prompt = true)
      by (apply existsb_exists; exists t; split; [done|lia]). congruence.
  - apply resident_None. intros j Hj. apply not_true_iff_false. intros Hr.
    assert (Hx : existsb (slot_resident g) (ra_slots a) = true)
      by (apply existsb_exists; eexists; split; [by apply vat_In|done]). congruence.
Qed.

(** The digest of an acceptable request is always computed. *)
Lemma request_wire_bound g prompt maxnew s :
  vsize prompt <= u32_max -> sm_stop_token_count s <= kMaximumStopTokenIds ->
  vsize (concat (request_wire g prompt maxnew s)) <= u64_max / 8.
Proof.
  intros Hp Hc. unfold request_wire. rewrite concat_app, concat_app.
  unfold vsize. rewrite !length_app, !length_concat_le32, length_take.
  cbn [concat app]. rewrite !length_app, !length_le64, !length_le32, length_text_bytes.
  change (u64_max / 8) with 2305843009213693951.
  unfold vsize, kMaximumStopTokenIds in *. cbn [length String.length kRequestDigestDomain]. lia.
Qed.

Lemma request_wire_bytes g prompt maxnew s : Forall is_byte (concat (request_wire g prompt maxnew s)).
Proof.
  unfold request_wire. rewrite !concat_app. cbn [concat].
  repeat (apply Forall_app; split); eauto with pih; apply Forall_concat_map; eauto with pih.
Qed.

Lemma validate_sampling_count s maxnew :
  ok (validate_sampling s maxnew) = true -> sm_stop_token_count s <= kMaximumStopTokenIds.
Proof.
  unfold validate_sampling, descriptor_invalid. destruct (_ || _) eqn:E; [done|]. intros _. lia.
Qed.

Lemma request_digest_total limits g prompt maxnew s :
  limits_ok limits -> request_refused limits g prompt maxnew s = false ->
  controller_request_payload_digest g prompt maxnew s
  = Value (sha256_spec (concat (request_wire g prompt maxnew s))).
Proof.
  intros (_ & L2 & _) Hr. unfold is_u32, request_refused in *.
  unfold controller_request_payload_digest.
  destruct (ok (validate_sampling s maxnew)) eqn:Ev; [|by rewrite !orb_true_r in Hr].
  match goal with |- (if ?b then _ else _) = _ => destruct b eqn:E end; [cbn [negb] in *; lia|].
  apply hash_chunks_eq; [|apply request_wire_bytes].
  apply request_wire_bound; [lia|]. by eapply validate_sampling_count.
Qed.

Lemma publish_Error a g prompt maxnew s e a' :
  publish a g prompt maxnew s = (Error e, a') -> a' = a.
Proof. unfold publish. cbn zeta. repeat bcase; intros [= <- <-]; done. Qed.

Lemma publish_spec a g prompt maxnew s rcp a' :
  arena_wf a -> publish a g prompt maxnew s = (Value rcp, a') ->
  arena_wf a' /\ resident a g = None /\ rcp_request_generation rcp = g /\
  forall g', resident a' g' = resident_set (resident a) g
    (Some (MkResident (rcp_slot_index rcp) (rcp_slot_generation rcp) false prompt maxnew s
             (rcp_payload_digest rcp))) g'.
Proof.
  intros Hwf Hp. apply publish_Value in Hp as
    (i & d & Hi & Hf & Er & Ev & Ed & Hn & Hg & -> & ->); [|done].
  pose proof Hwf as (_ & _ & _ & Hs & _). destruct (Hs i Hi) as (Hu & _). unfold is_u64 in Hu.
  set (sl := MkSlot _ _ _ _ _ _ _).
  assert (Hsrc : vsize prompt <= rql_maximum_prompt_tokens_per_request (ra_limits a))
    by (unfold request_refused in Er; lia).
  assert (Ep : slot_prompt (slot_write a i prompt sl) i = prompt)
    by (by apply slot_write_prompt_same).
  assert (Es : (ra_slots (slot_write a i prompt sl)).[i] = sl)
    by (rewrite slot_write_at by done; by rewrite Z.eqb_refl).
  assert (Hw : arena_wf (slot_write a i prompt sl)).
  { apply slot_write_wf; try done.
    - unfold is_u64. cbn. lia.
    - intros _. unfold slot_holds_request. rewrite Ep, Es. done.
    - intros _ j Hj Hne Fj E. pose proof (proj1 (resident_None a g) Hn j Hj) as Hr.
      rewrite (proj2 (slot_resident_true g _)) in Hr; [done|]. by split. }
  split; [done|]. split; [done|]. split; [done|]. intros g'.
  rewrite resident_write by done. unfold resident_set, slot_resident at 1. cbn.
  rewrite Z.eqb_sym. destruct (Z.eqb_spec g' g) as [->|Hne].
  - unfold resident_at. rewrite Es, Ep. done.
  - unfold slot_resident. rewrite Hf. done.
Qed.

Lemma resident_slot a i g :
  arena_wf a -> 0 <= i < vsize (ra_slots a) -> slot_free ((ra_slots a).[i]) = false ->
  sl_request_generation ((ra_slots a).[i]) = g -> resident a g = Some (resident_at a i).
Proof. intros Hwf Hi Hf Hg. apply resident_Some; [done..|]. by apply slot_resident_true. Qed.

(** The request view that [claim] returns for a resident request. *)
Definition view_of (a : ControllerRequestArena) (g : Z) (r : Resident) : ControllerRequestView :=
  MkRequestView (rs_index r) (rs_generation r) g
    (MkSpan (slot_offset a (rs_index r)) (vsize (rs_prompt r)))
    (rs_maximum_new_tokens r) (rs_sampling r) (rs_digest r).

Lemma claim_spec a g d r :
  arena_wf a -> resident a g = Some r -> rs_claimed r = false -> rs_digest r = d ->
  exists a', claim a g d = (Value (view_of a g r), a') /\ arena_wf a' /\
    ra_tokens a' = ra_tokens a /\ ra_limits a' = ra_limits a /\
    span_read (ra_tokens a') (rqv_prompt_token_ids (view_of a g r)) = rs_prompt r /\
    forall g', resident a' g' =
               resident_set (resident a) g (Some (r <| rs_claimed := true |>)) g'.
Proof.
  intros Hwf Hr Hc Hd. pose proof Hr as (i & Hi & Hf & Hg & Er)%resident_inv.
  assert (Hst : sl_state ((ra_slots a).[i]) = SlotState.kPublished).
  { rewrite Er in Hc. cbn in Hc. unfold slot_free in Hf. by destruct (sl_state ((ra_slots a).[i])). }
  assert (Hfi : first_index (slot_published g) (ra_slots a) 0 = Some i).
  { destruct (first_index _ _ _) as [j|] eqn:E.
    - apply first_index_Some in E as (Hj & Hp & _). rewrite Z.sub_0_r in Hp.
      unfold slot_published in Hp. apply andb_true_iff in Hp as [P1 P2]. breflect.
      apply slot_eqb_true in P1. f_equal. apply Hwf; try done; try lia; try congruence.
      unfold slot_free. by rewrite P1.
    - apply first_index_None in E. rewrite Forall_forall in E.
      assert (Hx : slot_published g ((ra_slots a).[i]) = false)
        by (apply E; by apply list_elem_of_In, vat_In).
      unfold slot_published in Hx. rewrite Hst, Hg, Z.eqb_refl in Hx. done. }
  unfold claim. rewrite Hfi. cbn zeta.
  rewrite (bool_decide_true (sl_payload_digest _ = d)) by (by rewrite Er in Hd). cbn [negb].
  set (s := upd (proj := sl_state) _ _).
  assert (Ew : a <| ra_slots := (ra_slots a).[i <- s] |> = slot_write a i [] s)
    by (unfold slot_write, upd; cbn; by rewrite splice_nil).
  pose proof Hwf as ((L1 & L2 & L3) & _ & _ & Hs & Hu). destruct (Hs i Hi) as (G & _ & Hh).
  assert (Es : (ra_slots (slot_write a i [] s)).[i] = s)
    by (rewrite slot_write_at by done; by rewrite Z.eqb_refl).
  assert (Ep : slot_prompt (slot_write a i [] s) i = slot_prompt a i)
    by (unfold slot_prompt; rewrite Es; unfold slot_write, upd; cbn; by rewrite splice_nil).
  assert (HM : vsize (@nil Z) <= rql_maximum_prompt_tokens_per_request (ra_limits a))
    by (unfold is_u32, vsize in *; cbn; lia).
  assert (Hw : arena_wf (slot_write a i [] s)).
  { apply slot_write_wf; try done.
    - intros _. unfold slot_holds_request. rewrite Ep, Es. by apply Hh.
    - intros _ j Hj Hne Fj E. apply Hne. by apply Hu. }
  destruct (Hh Hf) as (_ & _ & Hv & _).
  eexists. split; [f_equal; f_equal; rewrite Er; unfold view_of; cbn; by rewrite Hv, Hg|].
  rewrite Ew. split; [done|]. split; [by unfold slot_write, upd; cbn; rewrite splice_nil|].
  split; [done|]. split.
  { rewrite Er. cbn. rewrite splice_nil. unfold slot_prompt at 2. by rewrite Hv. }
  intros g'. rewrite resident_write by done. unfold resident_set, slot_resident at 1.
  cbn [s upd sl_state sl_request_generation]. rewrite Hg.
  change (slot_free s) with false. cbn [negb andb]. rewrite Z.eqb_sym.
  destruct (Z.eqb_spec g' g) as [->|Hne].
  - f_equal. unfold resident_at at 1. rewrite Es, Ep, Er. done.
  - unfold slot_resident. rewrite Hg, (proj2 (Z.eqb_neq g g')) by congruence.
    by rewrite andb_false_r.
Qed.

Lemma claim_Value a g d v a' :
  arena_wf a -> claim a g d = (Value v, a') ->
  exists r, resident a g = Some r /\ rs_claimed r = false /\ rs_digest r = d /\ v = view_of a g r.
Proof.
  intros Hwf E. assert (Hr : exists r, resident a g = Some r /\ rs_claimed r = false /\ rs_digest r = d).
  { unfold claim in E. destruct (first_index _ _ _) as [i|] eqn:Ei; [|done].
    apply first_index_Some in Ei as (Hi & Hp & _). rewrite Z.sub_0_r in Hp.
    unfold slot_published in Hp. apply andb_true_iff in Hp as [P1 P2]. breflect.
    apply slot_eqb_true in P1. cbn zeta in E. case_bool_decide as Hd; [|done].
    exists (resident_at a i). split; [apply resident_slot; try done; try lia; unfold slot_free; by rewrite P1|].
    unfold resident_at. cbn. by rewrite P1. }
  destruct Hr as (r & Hr & Hc & Hd). exists r. split_and!; try done.
  destruct (claim_spec a g d r Hwf Hr Hc Hd) as (a2 & E2 & _). rewrite E2 in E. by injection E.
Qed.

Lemma claim_Error a g d e a' : claim a g d = (Error e, a') -> a' = a.
Proof. unfold claim. cbn zeta. repeat bcase; intros [= <- <-]; done. Qed.

Lemma clear_slot_spec a i g :
  arena_wf a -> 0 <= i < vsize (ra_slots a) -> slot_free ((ra_slots a).[i]) = false ->
  sl_request_generation ((ra_slots a).[i]) = g ->
  arena_wf (clear_slot a i) /\ slot_scrubbed (clear_slot a i) i /\
  forall g', resident (clear_slot a i) g' = resident_set (resident a) g None g'.
Proof.
  intros Hwf Hi Hf Hg. pose proof Hwf as ((L1 & L2 & L3) & _ & _ & Hs & Hu).
  destruct (Hs i Hi) as (G & _ & _). unfold is_u32 in L2.
  set (zeros := replicate (Z.to_nat (rql_maximum_prompt_tokens_per_request (ra_limits a))) 0).
  assert (Hz : vsize zeros = rql_maximum_prompt_tokens_per_request (ra_limits a))
    by (unfold zeros; rewrite vsize_replicate; lia).
  set (s := MkSlot SlotState.kFree (sl_generation ((ra_slots a).[i])) 0 0 0 default_sampling zero_digest).
  change (clear_slot a i) with (slot_write a i zeros s).
  assert (Es : (ra_slots (slot_write a i zeros s)).[i] = s)
    by (rewrite slot_write_at by done; by rewrite Z.eqb_refl).
  assert (Hc : slot_scrubbed (slot_write a i zeros s) i).
  { split; [rewrite Es; by eexists|].
    destruct (slot_offset_bound a i Hwf Hi). unfold slot_region.
    change (ra_limits (slot_write a i zeros s)) with (ra_limits a). rewrite <- Hz.
    change (slot_offset (slot_write a i zeros s) i) with (slot_offset a i).
    unfold slot_write, upd. cbn [ra_tokens]. rewrite span_read_splice_same by lia.
    unfold zeros at 1. rewrite Hz. done. }
  assert (Hw : arena_wf (slot_write a i zeros s)) by (apply slot_write_wf; try done; lia).
  split; [done|]. split; [done|]. intros g'. rewrite resident_write by (done || lia).
  change (slot_resident g' s) with false. unfold resident_set. rewrite Z.eqb_sym.
  unfold slot_resident. rewrite Hf, Hg. cbn [negb andb]. by destruct (g =? g').
Qed.

Lemma rollback_spec a rcp :
  arena_wf a -> 0 <= rcp_slot_index rcp ->
  (forall r, resident a (rcp_request_generation rcp) = Some r -> rs_claimed r = false ->
     rs_index r = rcp_slot_index rcp -> rs_generation r = rcp_slot_generation rcp ->
     rs_digest r = rcp_payload_digest rcp ->
     exists a', rollback_published a rcp = (StatusOk, a') /\ arena_wf a' /\
       forall g, resident a' g = resident_set (resident a) (rcp_request_generation rcp) None g) /\
  (ok (fst (rollback_published a rcp)) = true ->
   exists r, resident a (rcp_request_generation rcp) = Some r /\ rs_claimed r = false /\
     rs_index r = rcp_slot_index rcp /\ rs_generation r = rcp_slot_generation rcp /\
     rs_digest r = rcp_payload_digest rcp) /\
  (ok (fst (rollback_published a rcp)) = false -> snd (rollback_published a rcp) = a).
Proof.
  intros Hwf H0. split_and!.
  - intros r Hr Hc Hx Hg Hd. apply resident_inv in Hr as (i & Hi & Hf & Hq & ->).
    cbn in Hc, Hx, Hg, Hd. subst i. unfold rollback_published.
    destruct (_ >=? _) eqn:E; [lia|]. cbn zeta.
    rewrite Hq, Hg, !Z.eqb_refl, bool_decide_true by done.
    assert (Hst : slot_eqb (sl_state ((ra_slots a).[rcp_slot_index rcp])) SlotState.kPublished = true)
      by (unfold slot_free in Hf; by destruct (sl_state _)).
    rewrite Hst. cbn. eexists. split; [done|].
    edestruct clear_slot_spec as (Hw & _ & Hres); [done..|]. by split.
  - unfold rollback_published. destruct (_ >=? _) eqn:E; [done|]. cbn zeta. bcase; [done|].
    intros _. breflect. apply slot_eqb_true in H. exists (resident_at a (rcp_slot_index rcp)).
    split; [apply resident_slot; try done; try lia; unfold slot_free; by rewrite H|].
    unfold resident_at. cbn. by rewrite H.
  - unfold rollback_published. cbn zeta. by repeat bcase.
Qed.

Lemma release_spec a i gen :
  arena_wf a -> 0 <= i ->
  (forall g r, resident a g = Some r -> rs_claimed r = true -> rs_index r = i ->
     rs_generation r = gen ->
     exists a', release_claimed a i gen = (StatusOk, a') /\ arena_wf a' /\
       forall g', resident a' g' = resident_set (resident a) g None g') /\
  (ok (fst (release_claimed a i gen)) = true ->
   exists g r, resident a g = Some r /\ rs_claimed r = true /\ rs_index r = i /\
     rs_generation r = gen) /\
  (ok (fst (release_claimed a i gen)) = false -> snd (release_claimed a i gen) = a).
Proof.
  intros Hwf H0. split_and!.
  - intros g r Hr Hc Hx Hg. apply resident_inv in Hr as (j & Hj & Hf & Hq & ->).
    cbn in Hc, Hx, Hg. subst j. unfold release_claimed. destruct (_ >=? _) eqn:E; [lia|].
    cbn zeta. rewrite Hg, Z.eqb_refl, Hc. cbn. eexists. split; [done|].
    edestruct clear_slot_spec as (Hw & _ & Hres); [done..|]. by split.
  - unfold release_claimed. destruct (_ >=? _) eqn:E; [done|]. cbn zeta. bcase; [done|].
    intros _. breflect. apply slot_eqb_true in H.
    exists (sl_request_generation ((ra_slots a).[i])), (resident_at a i).
    split; [apply resident_slot; try done; try lia; unfold slot_free; by rewrite H|].
    unfold resident_at. cbn. by rewrite H.
  - unfold release_claimed. cbn zeta. by repeat bcase.
Qed.

(** ** The arena as a machine *)

Inductive arena_op :=
  | RqPublish (request_generation : Z) (prompt : list Z) (maximum_new_tokens : Z)
              (s : ControllerRequestSampling)
  | RqClaim (request_generation : Z) (payload_digest : Sha256Digest)
  | RqRollback (receipt : ControllerRequestReceipt)
  | RqRelease (slot_index slot_generation : Z).

Inductive arena_out :=
  | RqReceipt (r : Result ControllerRequestReceipt)
  | RqView (r : Result ControllerRequestView)
  | RqStatus (s : Status).

Definition run_arena (a : ControllerRequestArena) (op : arena_op)
    : arena_out * ControllerRequestArena :=
  match op with
  | RqPublish g prompt maxnew s => let '(r, a) := publish a g prompt maxnew s in (RqReceipt r, a)
  | RqClaim g d => let '(r, a) := claim a g d in (RqView r, a)
  | RqRollback receipt => let '(s, a) := rollback_published a receipt in (RqStatus s, a)
  | RqRelease i gen => let '(s, a) := release_claimed a i gen in (RqStatus s, a)
  end.

(** Slot indices are unsigned. *)
#[export] Instance arena_op_Typed : Typed arena_op := fun op =>
  match op with
  | RqRollback receipt => 0 <= rcp_slot_index receipt
  | RqRelease i _ => 0 <= i
  | _ => True
  end.

#[export] Instance arena_Machine : Machine ControllerRequestArena arena_op arena_out := {|
  m_run := run_arena;
  m_init a := exists limits, limits_ok limits /\
                             ControllerRequestArena_Create limits = Value a |}.

Lemma Create_arena limits a :
  limits_ok limits -> ControllerRequestArena_Create limits = Value a ->
  arena_wf a /\ ra_limits a = limits /\ forall g, resident a g = None.
Proof.
  intros (L1 & L2 & L3) E. unfold ControllerRequestArena_Create in E. bcase_in E; [done|].
  unfold is_u32 in *. rewrite checked_mul_u64_spec in E by (unfold is_u64; lia).
  destruct (_ * _ <=? u64_max) eqn:Em; [|done]. bcase_in E; [done|]. injection E as <-.
  set (n := rql_maximum_requests limits) in *.
  set (m := rql_maximum_prompt_tokens_per_request limits) in *.
  assert (Hat : forall i, 0 <= i < n -> (replicate (Z.to_nat n) empty_slot).[i] = empty_slot).
  { intros i Hi. apply list_lookup_total_correct, lookup_replicate. split; [done|lia]. }
  assert (Hn0 : 0 <= n * m) by nia.
  split; [|split; [done|]].
  - unfold arena_wf. cbn [ra_limits ra_slots ra_tokens]. fold n m. rewrite !vsize_replicate.
    split_and!; try (unfold limits_ok, is_u32; fold n m; lia); try lia.
    + intros i Hi. rewrite Hat by lia. cbn. split_and!; [unfold is_u64; lia| |done].
      intros _. split; [cbn [ra_slots]; rewrite Hat by lia; by exists 0|].
      unfold span_read, slot_region, slot_offset. cbn [ra_tokens ra_limits sp_offset sp_size].
      fold m. rewrite drop_replicate, take_replicate. f_equal. nia.
    + intros i j Hi Hj. by rewrite Hat by lia.
  - intros g. apply resident_None. cbn [ra_slots]. rewrite vsize_replicate. intros i Hi.
    by rewrite Hat by lia.
Qed.

#[export] Instance arena_wf_inv : MachineInv arena_wf.
Proof.
  split; [intros a (limits & Hl & Hc); by eapply Create_arena|].
  intros a op Hwf Ht. destruct op as [g prompt maxnew s|g d|rcp|i gen]; cbn [m_run arena_Machine run_arena].
  - destruct (publish _ _ _ _ _) as [[rcp|e] a'] eqn:E; cbn [snd];
      [by eapply publish_spec|by apply publish_Error in E as ->].
  - destruct (claim _ _ _) as [[v|e] a'] eqn:E; cbn [snd]; [|by apply claim_Error in E as ->].
    pose proof (claim_Value _ _ _ _ _ Hwf E) as (r & Hr & Hc & Hd & _).
    destruct (claim_spec _ _ _ _ Hwf Hr Hc Hd) as (a2 & E2 & Hw & _). congruence.
  - destruct (rollback_spec a rcp Hwf Ht) as (Hyes & Hok & Hno).
    destruct (ok (fst (rollback_published a rcp))) eqn:Eo.
    + destruct (Hok eq_refl) as (r & Hr & H1 & H2 & H3 & H4).
      destruct (Hyes r Hr H1 H2 H3 H4) as (a' & -> & Hw & _). done.
    + specialize (Hno eq_refl). destruct (rollback_published a rcp). cbn in Hno |- *. by subst.
  - destruct (release_spec a i gen Hwf Ht) as (Hyes & Hok & Hno).
    destruct (ok (fst (release_claimed a i gen))) eqn:Eo.
    + destruct (Hok eq_refl) as (g & r & Hr & H1 & H2 & H3).
      destruct (Hyes g r Hr H1 H2 H3) as (a' & -> & Hw & _). done.
    + specialize (Hno eq_refl). destruct (release_claimed a i gen). cbn in Hno |- *. by subst.
Qed.

(** How one slot evolves under one call: it keeps its request, or takes a new
    one under a fresh generation, or is claimed, or is cleared. *)
Definition slot_evolves (a a' : ControllerRequestArena) (i : Z) : Prop :=
  let s := (ra_slots a).[i] in let s' := (ra_slots a').[i] in
  (s' = s /\ (slot_free s = false -> slot_prompt a' i = slot_prompt a i)) \/
  (slot_free s = true /\ sl_generation s' = sl_generation s + 1) \/
  (sl_state s = SlotState.kPublished /\ s' = s <| sl_state := SlotState.kClaimed |> /\
   slot_prompt a' i = slot_prompt a i) \/
  (slot_free s' = true /\ sl_generation s' = sl_generation s).

Lemma slot_write_evolves a i src s j :
  arena_wf a -> 0 <= i < vsize (ra_slots a) -> 0 <= j < vsize (ra_slots a) ->
  vsize src <= rql_maximum_prompt_tokens_per_request (ra_limits a) ->
  slot_evolves a (slot_write a i src s) i -> slot_evolves a (slot_write a i src s) j.
Proof.
  intros Hwf Hi Hj Hs He. destruct (decide (j = i)) as [->|Hne]; [done|]. left.
  rewrite slot_write_at by done. rewrite (proj2 (Z.eqb_neq _ _) Hne). split; [done|].
  intros Hf. destruct (slot_write_other a i src s Hwf Hi Hs j Hj Hne) as [_ Ho].
  apply Ho. by apply Hwf.
Qed.

Lemma clear_slot_evolves a i j :
  arena_wf a -> 0 <= i < vsize (ra_slots a) -> 0 <= j < vsize (ra_slots a) ->
  slot_evolves a (clear_slot a i) j.
Proof.
  intros Hwf Hi Hj. pose proof Hwf as ((_ & L2 & _) & _). unfold is_u32 in L2.
  apply slot_write_evolves; [done..|rewrite vsize_replicate; lia|].
  right. right. right. rewrite slot_write_at by done. rewrite Z.eqb_refl. done.
Qed.

Lemma run_arena_evolves a op j :
  arena_wf a -> m_typed op -> 0 <= j < vsize (ra_slots a) ->
  slot_evolves a (snd (m_run a op)) j /\
  vsize (ra_slots (snd (m_run a op))) = vsize (ra_slots a) /\
  ra_limits (snd (m_run a op)) = ra_limits a.
Proof.
  intros Hwf Ht Hj. assert (Hid : slot_evolves a a j) by (by left).
  assert (Hput : forall i s, vsize ((ra_slots a).[i <- s]) = vsize (ra_slots a)) by (intros; apply vsize_vput).
  destruct op as [g prompt maxnew s|g d|rcp|i gen]; cbn [m_run arena_Machine run_arena].
  - destruct (publish _ _ _ _ _) as [[rcp|e] a'] eqn:E; cbn [snd];
      [|by apply publish_Error in E as ->].
    apply publish_Value in E as (i & d & Hi & Hf & Er & _ & _ & _ & _ & _ & ->); [|done].
    split; [|split; [apply Hput|done]]. apply slot_write_evolves; try done.
    + unfold request_refused in Er. lia.
    + right. left. rewrite slot_write_at by done. rewrite Z.eqb_refl. done.
  - destruct (claim _ _ _) as [[v|e] a'] eqn:E; cbn [snd]; [|by apply claim_Error in E as ->].
    unfold claim in E. destruct (first_index _ _ _) as [i|] eqn:Ei; [|done].
    apply first_index_Some in Ei as (Hi & Hp & _). rewrite Z.sub_0_r in Hp.
    rewrite Z.add_0_l in Hi. apply andb_true_iff in Hp as [P1 _]. apply slot_eqb_true in P1.
    cbn zeta in E. bcase_in E; [done|]. injection E as <- <-. cbn [ra_slots ra_limits upd].
    split; [|split; [apply Hput|done]].
    unfold slot_evolves, upd. cbn [ra_slots]. rewrite vat_vput by lia.
    unfold slot_prompt. cbn [ra_slots]. rewrite vat_vput by lia.
    destruct (Z.eqb_spec j i) as [->|]; [right; right; left; done|by left].
  - unfold rollback_published. destruct (_ >=? _) eqn:E; [done|]. cbn zeta. bcase; [done|].
    cbn [snd]. split; [|split; [apply Hput|done]]. apply clear_slot_evolves; try done.
    cbn in Ht. lia.
  - unfold release_claimed. destruct (_ >=? _) eqn:E; [done|]. cbn zeta. bcase; [done|].
    cbn [snd]. split; [|split; [apply Hput|done]]. apply clear_slot_evolves; try done.
    cbn in Ht. lia.
Qed.

(** ** Views stay valid while claimed *)

(** The claim behind a view is still held. *)
Definition view_held (a : ControllerRequestArena) (v : ControllerRequestView) : Prop :=
  0 <= rqv_slot_index v < vsize (ra_slots a) /\
  sl_state ((ra_slots a).[rqv_slot_index v]) = SlotState.kClaimed /\
  sl_generation ((ra_slots a).[rqv_slot_index v]) = rqv_slot_generation v.

(** The claim is over: its slot is free, or has moved on to a later request. *)
Definition view_ended (a : ControllerRequestArena) (v : ControllerRequestView) : Prop :=
  0 <= rqv_slot_index v < vsize (ra_slots a) /\
  rqv_slot_generation v <= sl_generation ((ra_slots a).[rqv_slot_index v]) /\
  (sl_generation ((ra_slots a).[rqv_slot_index v]) = rqv_slot_generation v ->
   slot_free ((ra_slots a).[rqv_slot_index v]) = true).

(** The view describes its slot and reads [prompt]. *)
Definition view_reads (a : ControllerRequestArena) (v : ControllerRequestView)
    (prompt : list Z) : Prop :=
  view_held a v /\ slot_prompt a (rqv_slot_index v) = prompt /\
  rqv_prompt_token_ids v =
    MkSpan (slot_offset a (rqv_slot_index v))
           (sl_prompt_tokens ((ra_slots a).[rqv_slot_index v])).

Lemma view_reads_span a v prompt :
  view_reads a v prompt -> span_read (ra_tokens a) (rqv_prompt_token_ids v) = prompt.
Proof. intros (_ & <- & ->). done. Qed.

Lemma run_arena_view a op v prompt :
  arena_wf a -> m_typed op -> view_reads a v prompt \/ view_ended a v ->
  view_reads (snd (m_run a op)) v prompt \/ view_ended (snd (m_run a op)) v.
Proof.
  intros Hwf Ht Hv.
  assert (Hi : 0 <= rqv_slot_index v < vsize (ra_slots a)) by (destruct Hv as [[[? _] _]|[? _]]; done).
  destruct (run_arena_evolves a op _ Hwf Ht Hi) as (He & Hn & Hl).
  assert (Ho : slot_offset (snd (m_run a op)) (rqv_slot_index v) = slot_offset a (rqv_slot_index v))
    by (unfold slot_offset; by rewrite Hl).
  unfold view_reads, view_held, view_ended in *. rewrite Hn, Ho. unfold slot_evolves in He.
  destruct Hv as [((_ & Hs & Hg) & Hp & Hsp)|(_ & Hle & Hfree)].
  - destruct He as [[-> Hpr]|[[Hf _]|[(Hs' & _)|(Hf & Hg')]]].
    + left. rewrite Hpr; [done|]. unfold slot_free. by rewrite Hs.
    + unfold slot_free in Hf. by rewrite Hs in Hf.
    + congruence.
    + right. split_and!; try done; lia.
  - right. destruct He as [[-> _]|[[_ Hg]|[(Hs & -> & _)|(Hf & Hg)]]].
    + done.
    + split_and!; try done; lia.
    + cbn. split_and!; try done; try lia. intros E. specialize (Hfree E).
      unfold slot_free in Hfree. by rewrite Hs in Hfree.
    + split_and!; try done; lia.
Qed.

Lemma steps_view a a' v prompt :
  rtc m_step a a' -> arena_wf a -> view_reads a v prompt \/ view_ended a v ->
  view_reads a' v prompt \/ view_ended a' v.
Proof.
  induction 1 as [|a a1 a' (op & Ht & ->) _ IH]; [done|]. intros Hwf Hv.
  apply IH; [by apply inv_run|by apply run_arena_view].
Qed.

(** ** Properties *)

Definition resident_ok (limits : ControllerRequestArenaLimits) (g : Z) (r : Resident) : Prop :=
  request_refused limits g (rs_prompt r) (rs_maximum_new_tokens r) (rs_sampling r) = false /\
  Forall (fun t => t < kVocabulary) (rs_prompt r) /\
  controller_request_payload_digest g (rs_prompt r) (rs_maximum_new_tokens r) (rs_sampling r)
    = Value (rs_digest r).

(** C13. The arena refines a map from request generations to resident requests.
    Publishing adds exactly the given request, under a generation that was not
    resident; claiming succeeds exactly for a published request with the given
    digest, returns a view that reads back the published prompt, and marks it
    claimed; rolling back or releasing removes exactly the named request; every
    refused operation leaves the arena unchanged. *)
Theorem request_arena_refines a op (Ha : m_reachable a) (Ht : m_typed op) :
  match op with
  | RqPublish g prompt maxnew s =>
      match publish a g prompt maxnew s with
      | (Value rcp, a') =>
          resident a g = None /\
          forall g', resident a' g' = resident_set (resident a) g
            (Some (MkResident (rcp_slot_index rcp) (rcp_slot_generation rcp) false prompt maxnew s
                     (rcp_payload_digest rcp))) g'
      | (Error _, a') => a' = a
      end
  | RqClaim g d =>
      match claim a g d with
      | (Value v, a') =>
          exists r, resident a g = Some r /\ rs_claimed r = false /\ rs_digest r = d /\
            v = view_of a g r /\
            span_read (ra_tokens a') (rqv_prompt_token_ids v) = rs_prompt r /\
            forall g', resident a' g' =
                       resident_set (resident a) g (Some (r <| rs_claimed := true |>)) g'
      | (Error _, a') =>
          a' = a /\
          ~ exists r, resident a g = Some r /\ rs_claimed r = false /\ rs_digest r = d
      end
  | RqRollback rcp =>
      let g := rcp_request_generation rcp in
      let owns := exists r, resident a g = Some r /\ rs_claimed r = false /\
                    rs_index r = rcp_slot_index rcp /\ rs_generation r = rcp_slot_generation rcp /\
                    rs_digest r = rcp_payload_digest rcp in
      let '(st, a') := rollback_published a rcp in
      (owns -> ok st = true /\ forall g', resident a' g' = resident_set (resident a) g None g') /\
      (~ owns -> ok st = false /\ a' = a)
  | RqRelease i gen =>
      let '(st, a') := release_claimed a i gen in
      (forall g r, resident a g = Some r -> rs_claimed r = true -> rs_index r = i ->
         rs_generation r = gen ->
         ok st = true /\ forall g', resident a' g' = resident_set (resident a) g None g') /\
      (~ (exists g r, resident a g = Some r /\ rs_claimed r = true /\ rs_index r = i /\
            rs_generation r = gen) -> ok st = false /\ a' = a)
  end.
Proof.
  apply (reachable_inv arena_wf) in Ha. destruct op as [g prompt maxnew s|g d|rcp|i gen].
  - destruct (publish _ _ _ _ _) as [[rcp|e] a'] eqn:E; [|by eapply publish_Error].
    by apply publish_spec in E as (_ & Hn & _ & Hr).
  - destruct (claim _ _ _) as [[v|e] a'] eqn:E.
    + pose proof (claim_Value _ _ _ _ _ Ha E) as (r & Hr & Hc & Hd & ->).
      destruct (claim_spec _ _ _ _ Ha Hr Hc Hd) as (a2 & E2 & _ & _ & _ & Hp & Hm).
      rewrite E2 in E. injection E as <-. by exists r.
    + split; [by eapply claim_Error|]. intros (r & Hr & Hc & Hd).
      destruct (claim_spec _ _ _ _ Ha Hr Hc Hd) as (a2 & E2 & _). congruence.
  - destruct (rollback_spec a rcp Ha Ht) as (Hyes & Hok & Hno). cbn zeta.
    destruct (rollback_published a rcp) as [st a'] eqn:E. cbn [fst snd] in *. split.
    + intros (r & Hr & H1 & H2 & H3 & H4). destruct (Hyes r Hr H1 H2 H3 H4) as (a2 & E2 & _ & Hm).
      by injection E2 as -> ->.
    + intros Hn. destruct (ok st); [by destruct Hn; apply Hok|auto].
  - destruct (release_spec a i gen Ha Ht) as (Hyes & Hok & Hno).
    destruct (release_claimed a i gen) as [st a'] eqn:E. cbn [fst snd] in *. split.
    + intros g r Hr H1 H2 H3. destruct (Hyes g r Hr H1 H2 H3) as (a2 & E2 & _ & Hm).
      by injection E2 as -> ->.
    + intros Hn. destruct (ok st); [by destruct Hn; apply Hok|auto].
Qed.

Definition sample_request_limits : ControllerRequestArenaLimits := MkRequestLimits 2 4 16.

Definition sample_request_arena : ControllerRequestArena :=
  MkArena sample_request_limits (replicate 8 0) [empty_slot; empty_slot].

Lemma sample_request_arena_reachable : m_reachable sample_request_arena.
Proof.
  exists sample_request_arena. split; [|apply rtc_refl]. exists sample_request_limits.
  split; [unfold limits_ok, is_u32; cbn; lia|reflexivity].
Qed.

Lemma request_arena_refines_witness :
  m_reachable sample_request_arena /\
  exists rcp a', publish sample_request_arena 7 [5; 6] 3 default_sampling = (Value rcp, a') /\
    resident a' 7 = Some (MkResident 0 1 false [5; 6] 3 default_sampling (rcp_payload_digest rcp)).
Proof.
  split; [exact sample_request_arena_reachable|].
  pose proof (request_arena_refines sample_request_arena (RqPublish 7 [5; 6] 3 default_sampling)
                sample_request_arena_reachable Logic.I) as H. cbv beta iota in H.
  destruct (publish sample_request_arena 7 [5; 6] 3 default_sampling) as [[rcp|e] a'] eqn:E.
  - exists rcp, a'. split; [reflexivity|].
    destruct H as [_ H].
    etransitivity; [exact (H 7)|].
    unfold resident_set.
    assert (Hr : rcp_slot_index rcp = 0 /\ rcp_slot_generation rcp = 1).
    { change (match fst (Value rcp, a') with Value rcp => rcp_slot_index rcp = 0 /\
        rcp_slot_generation rcp = 1 | Error _ => True end). rewrite <- E. vm_compute. split; reflexivity. }
    destruct Hr as [-> ->]. reflexivity.
  - assert (Hx : rok (fst (publish sample_request_arena 7 [5; 6] 3 default_sampling)) = true)
      by (vm_compute; reflexivity). rewrite E in Hx. discriminate Hx.
Defined.

(** Isolation and scrubbing: in every reachable arena a free slot carries
    nothing of the requests it held (its fields are reset and its token region
    is zero), and every resident request is within the limits, has in-vocabulary
    tokens and carries the digest of exactly its own contents; the counters
    count the residents. *)
Theorem request_arena_scrubbed a (Ha : m_reachable a) :
  (forall i, 0 <= i < vsize (ra_slots a) -> slot_free ((ra_slots a).[i]) = true ->
     slot_scrubbed a i) /\
  (forall g r, resident a g = Some r -> resident_ok (ra_limits a) g r) /\
  published_count a + claimed_count a <= rql_maximum_requests (ra_limits a).
Proof.
  apply (reachable_inv arena_wf) in Ha as ((L1 & _) & Hn & _ & Hs & _). split_and!.
  - intros i Hi Hf. by apply Hs.
  - intros g r (i & Hi & Hf & <- & ->)%resident_inv. destruct (Hs i Hi) as (_ & _ & Hh).
    destruct (Hh Hf) as (H1 & H2 & _ & H3). done.
  - rewrite <- Hn in *. unfold published_count, claimed_count.
    assert (Hc : count_if (fun s => slot_eqb (sl_state s) SlotState.kPublished) (ra_slots a) +
      count_if (fun s => slot_eqb (sl_state s) SlotState.kClaimed) (ra_slots a)
      <= vsize (ra_slots a)).
    { clear. induction (ra_slots a) as [|s l IH]; [done|]. rewrite vsize_cons. cbn.
      destruct (sl_state s); cbn; lia. }
    pose proof (count_if_bounds (fun s => slot_eqb (sl_state s) SlotState.kPublished) (ra_slots a)).
    pose proof (count_if_bounds (fun s => slot_eqb (sl_state s) SlotState.kClaimed) (ra_slots a)).
    unfold is_u32 in *. rewrite !wrap32_id by (unfold is_u32; lia). lia.
Qed.

Lemma request_arena_scrubbed_witness :
  m_reachable sample_request_arena /\ slot_scrubbed sample_request_arena 1 /\
  published_count sample_request_arena + claimed_count sample_request_arena <= 2.
Proof.
  split; [exact sample_request_arena_reachable|].
  destruct (request_arena_scrubbed _ sample_request_arena_reachable) as (H1 & _ & H3).
  split; [|exact H3]. apply (H1 1); [vm_compute; split; congruence|reflexivity].
Defined.

Lemma claim_reads a g d v a' :
  arena_wf a -> claim a g d = (Value v, a') ->
  exists r, resident a g = Some r /\ view_reads a' v (rs_prompt r).
Proof.
  intros Hwf E. pose proof (claim_Value _ _ _ _ _ Hwf E) as (r & Hr & Hc & Hd & Hv).
  exists r. split; [done|]. destruct (claim_spec _ _ _ _ Hwf Hr Hc Hd) as (a2 & E2 & Hwf2 & Ht & Hl & Hsp & Hm).
  rewrite E2 in E. injection E as Ev <-. specialize (Hm g). unfold resident_set in Hm.
  rewrite Z.eqb_refl in Hm. apply resident_inv in Hm as (i & Hi & Hf & Hg & Er).
  destruct r as [ri rg rc rp rm rsm rd]. unfold upd in Er. cbn in Er. unfold resident_at in Er.
  injection Er as -> -> Ec -> _ _ _. symmetry in Ec. apply slot_eqb_true in Ec.
  unfold view_reads, view_held. rewrite <- Ev. cbn. split_and!; try done; try lia.
  destruct Hwf2 as (_ & _ & _ & Hs & _). destruct (Hs i Hi) as (_ & _ & Hh).
  destruct (Hh Hf) as (_ & _ & Hsz & _). rewrite Hsz. unfold slot_offset. by rewrite Hl.
Qed.

(** A claimed view never dangles and never changes: after [claim] returns a
    view of the prompt published under that generation, every later state of
    the arena either still reads that same prompt through the view's span, or
    the claim has ended (and [release_claimed] of it fails); no publication,
    claim or release of other requests disturbs it. *)
Theorem claimed_view_stable a g d v a1 a2
  (Ha : m_reachable a) (Hc : claim a g d = (Value v, a1)) (Hs : rtc m_step a1 a2) :
  exists r, resident a g = Some r /\
    span_read (ra_tokens a1) (rqv_prompt_token_ids v) = rs_prompt r /\
    (view_held a2 v ->
     span_read (ra_tokens a2) (rqv_prompt_token_ids v) = rs_prompt r) /\
    (~ view_held a2 v ->
     ok (fst (release_claimed a2 (rqv_slot_index v) (rqv_slot_generation v))) = false).
Proof.
  apply (reachable_inv arena_wf) in Ha. destruct (claim_reads _ _ _ _ _ Ha Hc) as (r & Hr & Hv).
  assert (Hwf1 : arena_wf a1).
  { pose proof (inv_run (Inv := arena_wf) a (RqClaim g d) Ha Logic.I) as H. cbn in H.
    by rewrite Hc in H. }
  exists r. split; [done|]. split; [by apply view_reads_span|].
  destruct (steps_view _ _ _ _ Hs Hwf1 (or_introl Hv)) as [Hv2|He].
  - split; [intros _; by apply view_reads_span|]. intros Hn. by destruct Hn, Hv2.
  - destruct He as (Hi & Hle & Hfree). split.
    + intros (_ & Hst & Hg). specialize (Hfree Hg). unfold slot_free in Hfree. by rewrite Hst in Hfree.
    + intros _. unfold release_claimed. destruct (_ >=? _) eqn:E; [done|]. cbn zeta.
      destruct (Z.eqb_spec (sl_generation ((ra_slots a2).[rqv_slot_index v])) (rqv_slot_generation v))
        as [Hg|]; [|by rewrite orb_true_r].
      specialize (Hfree Hg). unfold slot_free in Hfree. apply slot_eqb_true in Hfree.
      by rewrite Hfree.
Qed.

(** The sample arena with one published request. *)
Definition sample_published : ControllerRequestArena :=
  snd (publish sample_request_arena 7 [5; 6] 3 default_sampling).

Definition sample_request_digest : Sha256Digest :=
  match controller_request_payload_digest 7 [5; 6] 3 default_sampling with
  | Value d => d | Error _ => zero_digest
  end.

Lemma sample_published_reachable : m_reachable sample_published.
Proof.
  destruct sample_request_arena_reachable as (a0 & Hi & Hs). exists a0. split; [done|].
  eapply rtc_r; [exact Hs|]. exists (RqPublish 7 [5; 6] 3 default_sampling). split; [done|].
  unfold sample_published. cbn [m_run arena_Machine run_arena].
  by destruct (publish sample_request_arena 7 [5; 6] 3 default_sampling).
Qed.

Lemma claimed_view_stable_witness :
  exists v a1, claim sample_published 7 sample_request_digest = (Value v, a1) /\
  exists r, resident sample_published 7 = Some r /\
    span_read (ra_tokens a1) (rqv_prompt_token_ids v) = rs_prompt r.
Proof.
  destruct (claim sample_published 7 sample_request_digest) as [[v|e] a1] eqn:E.
  - exists v, a1. split; [reflexivity|].
    destruct (claimed_view_stable sample_published 7 sample_request_digest v a1 a1
                sample_published_reachable E (rtc_refl _ _)) as (r & H1 & H2 & _).
    exists r. split; [exact H1|exact H2].
  - assert (Hx : rok (fst (claim sample_published 7 sample_request_digest)) = true)
      by (vm_compute; reflexivity). rewrite E in Hx. discriminate Hx.
Defined.
