(* ===== verification/RequestDigest.v ===== *)
(** * Sampling descriptors and request digests

    What [validate_sampling] accepts and what the payload digest of
    [plugins/execution-default/controller_request_arena.cpp] identifies. *)

From Stdlib Require Import SpecFloat.
From S2P Require Import Prelude Core Sha256 RequestArena.

(** ** Ordered floats

    A non-negative float is ordered as its bit pattern. *)

Lemma pos_compare p q :
  match Pos.compare_cont Eq p q with
  | Eq => Z.pos p = Z.pos q | Lt => Z.pos p < Z.pos q | Gt => Z.pos q < Z.pos p
  end.
Proof.
  change (Pos.compare_cont Eq p q) with (p ?= q)%positive.
  destruct (Pos.compare_spec p q); subst; lia.
Qed.

Lemma f32_fields bits :
  is_u32 bits ->
  bits = (if Z.testbit bits 31 then 2147483648 else 0)
         + Z.land (Z.shiftr bits 23) 255 * 8388608 + Z.land bits 8388607.
Proof.
  unfold is_u32. intros H.
  assert (E1 : Z.land (Z.shiftr bits 23) 255 = (bits / 8388608) mod 256).
  { change 255 with (Z.ones 8). rewrite Z.land_ones, Z.shiftr_div_pow2 by lia. done. }
  assert (E2 : Z.land bits 8388607 = bits mod 8388608).
  { change 8388607 with (Z.ones 23). by rewrite Z.land_ones by lia. }
  assert (E3 : (if Z.testbit bits 31 then 1 else 0) = bits / 2147483648).
  { pose proof (Z.testbit_spec' bits 31 ltac:(lia)) as Hs. change (2 ^ 31) with 2147483648 in Hs.
    rewrite (Z.mod_small (bits / 2147483648)) in Hs by (split; [apply Z.div_pos; lia|
      apply Z.div_lt_upper_bound; lia]). destruct (Z.testbit bits 31); cbn in Hs; lia. }
  rewrite E1, E2.
  pose proof (Z.div_mod bits 8388608 ltac:(lia)).
  pose proof (Z.div_mod (bits / 8388608) 256 ltac:(lia)).
  assert (E4 : bits / 2147483648 = bits / 8388608 / 256) by (rewrite Z.div_div by lia; done).
  destruct (Z.testbit bits 31); lia.
Qed.

Lemma f32_field_bounds bits :
  0 <= Z.land (Z.shiftr bits 23) 255 < 256 /\ 0 <= Z.land bits 8388607 < 8388608.
Proof.
  change 255 with (Z.ones 8). change 8388607 with (Z.ones 23).
  rewrite !Z.land_ones by lia. split; apply Z.mod_pos_bound; lia.
Qed.

(** [x] is finite, positive and at most the power of two with exponent field
    [e], for the limits [1.0F] and [2.0F]. *)
Lemma f32_in_range bits e :
  is_u32 bits -> 1 <= e <= 254 ->
  f32_decode (e * 8388608) = S754_finite false 8388608 (e - 150) ->
  negb (f32_isfinite bits) || f32_leb bits f32_0 || f32_gtb bits (e * 8388608) = false <->
  1 <= bits <= e * 8388608.
Proof.
  intros Hu He Hl. pose proof (f32_fields bits Hu) as Hf. pose proof (f32_field_bounds bits) as [B1 B2].
  unfold f32_isfinite, f32_leb, f32_gtb. rewrite Hl. change (f32_decode f32_0) with (S754_zero false).
  unfold f32_decode. cbv zeta.
  set (x := Z.land (Z.shiftr bits 23) 255) in *. set (m := Z.land bits 8388607) in *.
  destruct (Z.testbit bits 31); cbn [negb].
  { destruct (Z.eqb_spec x 255), (Z.eqb_spec m 0); cbn; try (split; [done|lia]);
      destruct (Z.eqb_spec x 0); cbn; try (split; [done|lia]). }
  unfold is_u32 in Hu.
  destruct (Z.eqb_spec x 255); [destruct (Z.eqb_spec m 0); cbn; split; try done; lia|].
  destruct (Z.eqb_spec x 0) as [Ex|Ex].
  - destruct (Z.eqb_spec m 0); [cbn; split; [done|lia]|]. unfold SFltb, SFleb, SFcompare. cbn [negb orb].
    destruct (Z.compare_spec (e - 150) (-149)) as [E|E|E]; try (split; [lia|done]); try lia.
    pose proof (pos_compare 8388608 (Z.to_pos m)) as Hc; destruct (Pos.compare_cont Eq 8388608 (Z.to_pos m)) eqn:Ec; try (split; [lia|done]).
    pose proof (Z2Pos.id m). lia.
  - unfold SFltb, SFleb, SFcompare. cbn [negb orb]. pose proof (Z2Pos.id (m + 8388608)).
    destruct (Z.compare_spec (e - 150) (x - 150)) as [E|E|E]; [|split; [done|nia]|split; [nia|done]].
    pose proof (pos_compare 8388608 (Z.to_pos (m + 8388608))) as Hc; destruct (Pos.compare_cont Eq 8388608 (Z.to_pos (m + 8388608))) eqn:Ec.
    + assert (m = 0) by lia. split; [nia|done].
    + split; [done|nia].
    + lia.
Qed.

Lemma f32_eqb_zero bits :
  is_u32 bits -> f32_eqb bits f32_0 = true <-> bits = 0 \/ bits = 2147483648.
Proof.
  intros Hu. pose proof (f32_fields bits Hu) as Hf. pose proof (f32_field_bounds bits) as [B1 B2].
  unfold f32_eqb. change (f32_decode f32_0) with (S754_zero false). unfold f32_decode. cbv zeta.
  set (x := Z.land (Z.shiftr bits 23) 255) in *. set (m := Z.land bits 8388607) in *.
  destruct (Z.eqb_spec x 255); [destruct (Z.eqb_spec m 0), (Z.testbit bits 31); cbn; split; try done; lia|].
  destruct (Z.eqb_spec x 0); [destruct (Z.eqb_spec m 0); destruct (Z.testbit bits 31); cbn; split; try done; lia|].
  destruct (Z.testbit bits 31); cbn; split; try done; lia.
Qed.

Lemma f32_eqb_one bits : is_u32 bits -> f32_eqb bits f32_1 = true <-> bits = f32_1.
Proof.
  intros Hu. pose proof (f32_fields bits Hu) as Hf. pose proof (f32_field_bounds bits) as [B1 B2].
  unfold f32_eqb. change (f32_decode f32_1) with (S754_finite false 8388608 (-23)).
  unfold f32_decode, f32_1. cbv zeta.
  set (x := Z.land (Z.shiftr bits 23) 255) in *. set (m := Z.land bits 8388607) in *.
  destruct (Z.eqb_spec x 255); [destruct (Z.eqb_spec m 0), (Z.testbit bits 31); cbn; split; try done; lia|].
  destruct (Z.eqb_spec x 0).
  { destruct (Z.eqb_spec m 0), (Z.testbit bits 31); (split; [intros Hq; discriminate Hq|lia]). }
  destruct (Z.testbit bits 31); [split; [intros Hq; discriminate Hq|lia]|]. unfold SFeqb, SFcompare.
  pose proof (Z2Pos.id (m + 8388608)).
  destruct (Z.compare_spec (x - 150) (-23)); [|split; [done|lia]..].
  pose proof (pos_compare (Z.to_pos (m + 8388608)) 8388608) as Hc; destruct (Pos.compare_cont Eq (Z.to_pos (m + 8388608)) 8388608) eqn:Ec.
  - split; [lia|done].
  - split; [done|lia].
  - split; [done|lia].
Qed.

(** ** Accepted descriptors *)

Record sampling_typed (s : ControllerRequestSampling) : Prop := {
  st_temperature : is_u32 (sm_temperature s);
  st_top_p : is_u32 (sm_top_p s);
  st_top_k : forall k, sm_top_k s = Some k -> is_u32 k;
  st_seed : is_u64 (sm_effective_seed s);
  st_ordinal : is_u64 (sm_sample_ordinal s);
  st_minimum : is_u32 (sm_minimum_new_tokens s);
  st_logprobs : is_u32 (sm_top_logprobs_count s);
  st_stop_size : vsize (sm_stop_token_ids s) = kMaximumStopTokenIds;
  st_stop_ids : Forall is_u32 (sm_stop_token_ids s);
  st_stop_count : is_u32 (sm_stop_token_count s) }.

(** The active stop tokens. *)
Definition stop_tokens (s : ControllerRequestSampling) : list Z :=
  take (Z.to_nat (sm_stop_token_count s)) (sm_stop_token_ids s).

Definition sampling_admissible (s : ControllerRequestSampling) (maximum_new_tokens : Z) : Prop :=
  sm_sample_ordinal s = 0 /\ sm_minimum_new_tokens s <= maximum_new_tokens /\
  sm_top_logprobs_count s <= 20 /\
  (sm_logprobs_enabled s = true \/ sm_top_logprobs_count s = 0) /\
  sm_stop_token_count s <= kMaximumStopTokenIds /\
  NoDup (stop_tokens s) /\ Forall (fun t => t < kVocabulary) (stop_tokens s) /\
  Forall (fun t => t = 0)
    (drop (Z.to_nat (sm_stop_token_count s)) (sm_stop_token_ids s)) /\
  match sm_mode s with
  | SamplingMode.kGreedy =>
      (sm_temperature s = 0 \/ sm_temperature s = 0x80000000) /\ sm_top_p s = f32_1 /\
      sm_top_k s = None
  | SamplingMode.kStochastic =>
      1 <= sm_temperature s <= f32_2 /\ 1 <= sm_top_p s <= f32_1 /\
      forall k, sm_top_k s = Some k -> 1 <= k <= kVocabulary
  end.

Lemma stop_tokens_error_None count : forall ids i before,
  0 <= i ->
  stop_tokens_error count i before ids = None <->
  let n := Z.to_nat (count - i) in
  NoDup (take n ids) /\ Forall (fun t => t < kVocabulary) (take n ids) /\
  (forall t, t ∈ take n ids -> t ∉ before) /\ Forall (fun t => t = 0) (drop n ids).
Proof.
  induction ids as [|x ids IH]; intros i before Hi; cbn zeta.
  - cbn. rewrite take_nil, drop_nil. split; [|done]. intros _.
    split_and!; [constructor..| |constructor]. intros t Ht. by apply elem_of_nil in Ht.
  - cbn [stop_tokens_error]. destruct (Z.geb_spec i count) as [Hc|Hc].
    + replace (Z.to_nat (count - i)) with 0%nat by lia. rewrite take_0, drop_0.
      destruct (Z.eqb_spec x 0) as [->|Hx]; cbn [negb].
      * rewrite IH by lia. cbn zeta. replace (Z.to_nat (count - (i + 1))) with 0%nat by lia.
        rewrite take_0, drop_0, Forall_cons. set_solver.
      * rewrite Forall_cons. naive_solver.
    + replace (Z.to_nat (count - i)) with (S (Z.to_nat (count - (i + 1)))) by lia.
      cbn [firstn skipn]. rewrite NoDup_cons, Forall_cons.
      destruct (Z.geb_spec x kVocabulary) as [Hv|Hv]; [split; [done|lia]|].
      destruct (existsb (Z.eqb x) before) eqn:Ex.
      * apply existsb_exists in Ex as (y & Hy & E%Z.eqb_eq). subst y. split; [done|].
        intros (_ & _ & Hd & _). destruct (Hd x); [constructor|by apply list_elem_of_In].
      * rewrite IH by lia. cbn zeta.
        assert (Hx : x ∉ before).
        { intros Hx. assert (existsb (Z.eqb x) before = true); [|congruence].
          apply existsb_exists. exists x. split; [by apply list_elem_of_In|apply Z.eqb_refl]. }
        setoid_rewrite elem_of_app. setoid_rewrite list_elem_of_singleton.
        setoid_rewrite elem_of_cons. naive_solver.
Qed.

Lemma validate_sampling_ok s maxnew :
  sampling_typed s ->
  ok (validate_sampling s maxnew) = true <-> sampling_admissible s maxnew.
Proof.
  intros T. unfold validate_sampling, sampling_admissible, stop_tokens.
  pose proof (stop_tokens_error_None (sm_stop_token_count s) (sm_stop_token_ids s) 0 [] ltac:(lia))
    as Hst. cbn zeta in Hst. rewrite Z.sub_0_r in Hst.
  destruct (descriptor_invalid s maxnew) eqn:Ed.
  { split; [done|]. unfold descriptor_invalid in Ed. destruct T. intros. destruct_and?.
    destruct (sm_logprobs_enabled s); cbn in Ed; lia. }
  assert (Hd : sm_sample_ordinal s = 0 /\ sm_minimum_new_tokens s <= maxnew /\
    sm_top_logprobs_count s <= 20 /\ (sm_logprobs_enabled s = true \/ sm_top_logprobs_count s = 0) /\
    sm_stop_token_count s <= kMaximumStopTokenIds).
  { unfold descriptor_invalid in Ed. destruct (sm_logprobs_enabled s); cbn in Ed; intuition lia. }
  destruct (stop_tokens_error _ _ _ _) as [e|] eqn:Es.
  { assert (Hno : ok e = false).
    { clear -Es. revert Es. generalize (@nil Z) 0. induction (sm_stop_token_ids s) as [|x l IH]; [done|].
      intros b i. cbn. repeat bcase; intros Hx; try (by injection Hx as <-); by eapply IH. }
    rewrite Hno. split; [done|]. intros H. destruct Hst as [_ Hst]. discriminate Hst.
    destruct_and?. split_and!; try done. intros t _ Ht. by apply elem_of_nil in Ht. }
  destruct Hst as [Hst _]. specialize (Hst eq_refl) as (S1 & S2 & _ & S3).
  pose proof (st_temperature s T) as Tt. pose proof (st_top_p s T) as Tp.
  destruct (sm_mode s).
  - pose proof (f32_eqb_zero _ Tt) as Fz. pose proof (f32_eqb_one _ Tp) as Fo.
    destruct (f32_eqb (sm_temperature s) f32_0) eqn:E1, (f32_eqb (sm_top_p s) f32_1) eqn:E2,
      (sm_top_k s) eqn:E3; cbn; naive_solver.
  - pose proof (f32_in_range _ 128 Tt ltac:(lia) eq_refl) as Fz.
    pose proof (f32_in_range _ 127 Tp ltac:(lia) eq_refl) as Fo.
    change (128 * 8388608) with f32_2 in Fz. change (127 * 8388608) with f32_1 in Fo.
    rewrite <- !orb_assoc in *.
    assert (Hor : forall a b c d e f g, a || (b || (c || (d || (e || (f || g))))) =
      (a || (b || c)) || ((d || (e || f)) || g)) by (intros [] [] [] [] [] []; done).
    rewrite Hor. pose proof (st_top_k s T) as Tk. unfold is_u32 in Tk.
    revert Fz Fo.
    generalize (negb (f32_isfinite (sm_temperature s)) ||
      (f32_leb (sm_temperature s) f32_0 || f32_gtb (sm_temperature s) f32_2)).
    generalize (negb (f32_isfinite (sm_top_p s)) ||
      (f32_leb (sm_top_p s) f32_0 || f32_gtb (sm_top_p s) f32_1)).
    intros bp bt Fz Fo. destruct bt.
    { split; [done|]. intros (_ & _ & _ & _ & _ & _ & _ & _ & Ht & _). by apply Fz in Ht. }
    destruct bp.
    { split; [done|]. intros (_ & _ & _ & _ & _ & _ & _ & _ & _ & Hp & _). by apply Fo in Hp. }
    destruct Fz as [Fz _], Fo as [Fo _]. specialize (Fz eq_refl). specialize (Fo eq_refl).
    destruct (sm_top_k s) as [k|]; cbn [orb]; [|naive_solver].
    specialize (Tk k eq_refl). destruct ((k =? 0) || (k >? kVocabulary)) eqn:E3.
    + split; [done|]. intros (_ & _ & _ & _ & _ & _ & _ & _ & _ & _ & Hk).
      specialize (Hk k eq_refl). lia.
    + split; [|done]. intros _. destruct Hd as (D1 & D2 & D3 & D4 & D5). split_and!; try done; try lia.
      intros k' [= <-]. lia.
Qed.

(** ** What the digest identifies *)

Record request_typed (g : Z) (prompt : list Z) (maxnew : Z) (s : ControllerRequestSampling)
    : Prop := {
  rt_generation : is_u64 g;
  rt_prompt : Forall is_u32 prompt;
  rt_maxnew : is_u32 maxnew;
  rt_sampling : sampling_typed s }.

Definition request_bytes (g : Z) (prompt : list Z) (maxnew : Z) (s : ControllerRequestSampling)
    : list Z := concat (request_wire g prompt maxnew s).

Lemma digest_Value g prompt maxnew s d :
  sampling_typed s -> controller_request_payload_digest g prompt maxnew s = Value d ->
  1 <= vsize prompt <= u32_max /\ sampling_admissible s maxnew /\
  d = sha256_spec (request_bytes g prompt maxnew s).
Proof.
  intros T. unfold controller_request_payload_digest. bcase; [done|]. breflect.
  pose proof (vsize_nonneg prompt). match goal with Ho : ok _ = true |- _ => apply validate_sampling_ok in Ho; [|done] end.
  assert (HL : vsize (request_bytes g prompt maxnew s) <= u64_max / 8).
  { apply request_wire_bound; [lia|]. match goal with A : sampling_admissible _ _ |- _ => apply A end. }
  rewrite hash_chunks_eq by (exact HL || apply request_wire_bytes). intros E%Value_inj. split_and!; try done; lia.
Qed.

(** The stop-token array is determined by its active part. *)
Lemma stop_tokens_full s :
  sampling_typed s -> Forall (fun t => t = 0)
    (drop (Z.to_nat (sm_stop_token_count s)) (sm_stop_token_ids s)) ->
  sm_stop_token_ids s = stop_tokens s ++ replicate (16 - length (stop_tokens s)) 0.
Proof.
  intros T Hz. rewrite <- (take_drop (Z.to_nat (sm_stop_token_count s)) (sm_stop_token_ids s)) at 1.
  unfold stop_tokens at 1. f_equal. pose proof (st_stop_size s T) as Hs.
  unfold vsize, kMaximumStopTokenIds in Hs.
  symmetry. apply replicate_as_elem_of. rewrite length_drop. unfold stop_tokens.
  rewrite length_take. split; [lia|]. intros y Hy. rewrite Forall_forall in Hz. by apply Hz.
Qed.

Lemma sampling_mode_value_inj a b : sampling_mode_value a = sampling_mode_value b -> a = b.
Proof. by destruct a, b. Qed.

(** The next 32-bit field of two equal encodings. *)
Ltac peel_le32 E F :=
  apply wire_app_inj in E as [F E]; [|by rewrite !length_le32];
  apply le32_inj in F; [|done..].

Lemma stop_tokens_u32 s : sampling_typed s -> Forall is_u32 (stop_tokens s).
Proof. intros T. apply Forall_take. apply T. Qed.

Lemma length_stop_tokens s :
  sampling_typed s -> sm_stop_token_count s <= kMaximumStopTokenIds ->
  length (stop_tokens s) = Z.to_nat (sm_stop_token_count s).
Proof.
  intros T Hc. pose proof (st_stop_size s T) as Hs. unfold vsize, kMaximumStopTokenIds in *.
  unfold stop_tokens. rewrite length_take. lia.
Qed.

Lemma request_bytes_inj g1 p1 m1 s1 g2 p2 m2 s2 :
  request_typed g1 p1 m1 s1 -> request_typed g2 p2 m2 s2 ->
  sampling_admissible s1 m1 -> sampling_admissible s2 m2 ->
  vsize p1 <= u32_max -> vsize p2 <= u32_max ->
  request_bytes g1 p1 m1 s1 = request_bytes g2 p2 m2 s2 ->
  g1 = g2 /\ p1 = p2 /\ m1 = m2 /\ s1 = s2.
Proof.
  intros [G1 P1 M1 T1] [G2 P2 M2 T2] A1 A2 L1 L2 E.
  pose proof T1 as []. pose proof T2 as []. unfold request_bytes, request_wire in E.
  pose proof (vsize_nonneg p1). pose proof (vsize_nonneg p2).
  rewrite !wrap32_id in E by (unfold is_u32; lia).
  assert (Hb : forall b, is_u32 (Z.b2z b)) by (intros []; unfold is_u32; cbn; lia).
  assert (Hm : forall m, is_u32 (sampling_mode_value m)) by (intros []; unfold is_u32; cbn; lia).
  assert (Hf : forall k, is_u32 (top_k_flag k)) by (intros []; unfold is_u32; cbn; lia).
  assert (Hv : forall s, sampling_typed s -> is_u32 (top_k_value (sm_top_k s))).
  { intros s T. destruct (sm_top_k s) eqn:Ek; [by apply (st_top_k s T)|unfold is_u32; cbn; lia]. }
  pose proof (Hv s1 T1). pose proof (Hv s2 T2).
  rewrite !concat_app in E. cbn [concat app] in E. rewrite <- !app_assoc in E.
  apply wire_app_inj in E as [_ E]; [|done]. peel_le64 E EG; [|done..].
  apply wire_app_inj in E as [EL E]; [|by rewrite !length_le32].
  apply le32_inj in EL; [|unfold is_u32; lia..].
  peel_le32 E EM. peel_le32 E Emode. peel_le32 E Etemp. peel_le32 E Etop. peel_le32 E Ekf.
  peel_le32 E Ekv. peel_le64 E Eseed; [|done..]. peel_le64 E Eord; [|done..]. peel_le32 E Emin. peel_le32 E Elog.
  peel_le32 E Etlp. peel_le32 E Ecount. cbn [app] in E.
  destruct A1 as (_ & _ & _ & _ & C1 & _ & _ & Z1 & _), A2 as (_ & _ & _ & _ & C2 & _ & _ & Z2 & _).
  apply wire_app_inj in E as [Estop Eprompt];
    [|rewrite !length_concat_le32; fold (stop_tokens s1) (stop_tokens s2);
      rewrite !length_stop_tokens by done; lia].
  apply le32s_inj in Eprompt; [|done..|unfold vsize in EL; lia].
  apply le32s_inj in Estop; [|by apply stop_tokens_u32..|
    fold (stop_tokens s1) (stop_tokens s2); rewrite !length_stop_tokens by done; lia].
  fold (stop_tokens s1) (stop_tokens s2) in Estop.
  split_and!; try done.
  pose proof (stop_tokens_full s1 T1 Z1) as F1. pose proof (stop_tokens_full s2 T2 Z2) as F2.
  rewrite Estop in F1. rewrite <- F2 in F1.
  destruct s1, s2. cbn in *. apply sampling_mode_value_inj in Emode.
  assert (sm_top_k = sm_top_k0) by (destruct sm_top_k, sm_top_k0; cbn in *; congruence).
  assert (sm_logprobs_enabled = sm_logprobs_enabled0)
    by (destruct sm_logprobs_enabled, sm_logprobs_enabled0; done).
  by subst.
Qed.

(** ** Properties *)

(** Which sampling descriptors are accepted: greedy requests have zero
    temperature (of either sign), unit nucleus and no top-k; stochastic ones have
    a finite temperature in (0, 2], a nucleus in (0, 1] and a top-k within the
    vocabulary, where a positive float is at most another exactly when its bit
    pattern is; the stop tokens are distinct, in the vocabulary, and the unused
    tail of their array is zero. *)
Theorem validate_sampling_spec s maxnew (T : sampling_typed s) :
  ok (validate_sampling s maxnew) = true <-> sampling_admissible s maxnew.
Proof. by apply validate_sampling_ok. Qed.

Definition stochastic_sampling : ControllerRequestSampling :=
  MkSampling SamplingMode.kStochastic 0x3F000000 0x3F666666 (Some 40) 9 0 1 true 5
    ([3; 8] ++ replicate 14 0) 2.

Lemma stochastic_sampling_typed : sampling_typed stochastic_sampling.
Proof.
  split; unfold is_u32, is_u64; cbn; try lia; try done.
  - intros k [= <-]. lia.
  - repeat constructor; lia.
Qed.

Lemma validate_sampling_spec_witness :
  sampling_typed stochastic_sampling /\ sampling_admissible stochastic_sampling 4.
Proof.
  split; [exact stochastic_sampling_typed|].
  apply (validate_sampling_spec stochastic_sampling 4 stochastic_sampling_typed).
  vm_compute. reflexivity.
Defined.

(** C34. The payload digest is the SHA-256 of the request's encoding and binds the
    request: two well-typed requests that have digests, and the same one, are equal in
    generation, prompt, token budget and every sampling field, unless the byte streams of these two requests are distinct
    and collide under SHA-256. *)
Theorem request_digest_binds g1 p1 m1 s1 g2 p2 m2 s2 d
  (T1 : request_typed g1 p1 m1 s1) (T2 : request_typed g2 p2 m2 s2)
  (H1 : controller_request_payload_digest g1 p1 m1 s1 = Value d)
  (H2 : controller_request_payload_digest g2 p2 m2 s2 = Value d) :
  d = sha256_spec (request_bytes g1 p1 m1 s1) /\
  ((g1 = g2 /\ p1 = p2 /\ m1 = m2 /\ s1 = s2) \/
   (request_bytes g1 p1 m1 s1 <> request_bytes g2 p2 m2 s2 /\
    sha256_spec (request_bytes g1 p1 m1 s1) = sha256_spec (request_bytes g2 p2 m2 s2))).
Proof.
  apply digest_Value in H1 as (L1 & A1 & E1); [|apply T1].
  apply digest_Value in H2 as (L2 & A2 & E2); [|apply T2]. split; [done|].
  destruct (decide (request_bytes g1 p1 m1 s1 = request_bytes g2 p2 m2 s2)) as [Eb|Eb].
  - left. apply request_bytes_inj; try done; lia.
  - right. split; [exact Eb|congruence].
Qed.

Lemma request_digest_binds_witness :
  request_typed 7 [5; 6] 4 stochastic_sampling /\
  rok (controller_request_payload_digest 7 [5; 6] 4 stochastic_sampling) = true /\
  ((7 = 7 /\ [5; 6] = [5; 6] /\ 4 = 4 /\ stochastic_sampling = stochastic_sampling) \/
   (request_bytes 7 [5; 6] 4 stochastic_sampling <> request_bytes 7 [5; 6] 4 stochastic_sampling /\
    sha256_spec (request_bytes 7 [5; 6] 4 stochastic_sampling) =
    sha256_spec (request_bytes 7 [5; 6] 4 stochastic_sampling))).
Proof.
  assert (T : request_typed 7 [5; 6] 4 stochastic_sampling).
  { split; unfold is_u32, is_u64; try lia; [repeat constructor; lia|exact stochastic_sampling_typed]. }
  split; [exact T|]. split; [vm_compute; reflexivity|].
  destruct (controller_request_payload_digest 7 [5; 6] 4 stochastic_sampling) as [d|e] eqn:E.
  - exact (proj2 (request_digest_binds _ _ _ _ _ _ _ _ d T T E E)).
  - assert (Hx : rok (controller_request_payload_digest 7 [5; 6] 4 stochastic_sampling) = true)
      by (vm_compute; reflexivity). rewrite E in Hx. discriminate Hx.
Defined.
