(* ===== verification/Ingress.v ===== *)
(** * Controller ingress

    Models [include/pih/scheduler/controller_ingress.h] and
    [plugins/execution-default/controller_ingress.cpp]: a request is published
    in the arena and announced in the mailbox as one transaction, and the
    controller takes the command and claims the request.  The two parts have
    their own mutexes, so a transaction of one thread interleaves with those of
    others between its calls; the second half of the file models those steps. *)

From S2P Require Import Prelude Core Sha256 Mailbox RequestArena.

Record ControllerIngressLimits := MkIngressLimits {
  igl_mailbox : ControllerMailboxLimits;
  igl_requests : ControllerRequestArenaLimits }.

Record ControllerAdmissionView := MkAdmissionView {
  av_command : ControllerCommand;
  av_request : ControllerRequestView }.

Record ControllerIngressCommandView := MkCommandView {
  cv_command : ControllerCommand;
  cv_request : option ControllerRequestView }.

Record ControllerIngress := MkIngress {
  ig_mailbox : ControllerMailbox;
  ig_requests : ControllerRequestArena }.

#[export] Instance eta_ControllerIngress : Eta ControllerIngress := fun r =>
  MkIngress r.(ig_mailbox) r.(ig_requests).

Definition kCancelDigestDomain : string := "pih-controller-cancel-v1".

Definition controller_cancel_payload_digest (epoch request_generation : Z)
    : Result Sha256Digest :=
  if (epoch =? 0) || (request_generation =? 0)
  then Error (InvalidArgument "controller cancel identity is invalid")
  else hash_chunks [text_bytes kCancelDigestDomain; le64 epoch; le64 request_generation].

Definition ControllerIngress_Create (limits : ControllerIngressLimits)
    : Result ControllerIngress :=
  let? mailbox := ControllerMailbox_Create (igl_mailbox limits) in
  let? requests := ControllerRequestArena_Create (igl_requests limits) in
  Value (MkIngress mailbox requests).

Definition submit_admit (ig : ControllerIngress) (epoch request_generation : Z)
    (prompt : list Z) (maximum_new_tokens : Z) (sampling : ControllerRequestSampling)
    : Result ControllerCommand * ControllerIngress :=
  if epoch =? 0
  then (Error (InvalidArgument "controller admission epoch is invalid"), ig)
  else
    let '(receipt, requests) :=
      publish (ig_requests ig) request_generation prompt maximum_new_tokens sampling in
    let ig := ig <| ig_requests := requests |> in
    match receipt with
    | Error e => (Error e, ig)
    | Value receipt =>
        let '(command, mailbox) :=
          submit_command (ig_mailbox ig) CommandKind.kAdmit epoch request_generation
            (rcp_payload_digest receipt) in
        let ig := ig <| ig_mailbox := mailbox |> in
        match command with
        | Error e =>
            let '(rollback, requests) := rollback_published (ig_requests ig) receipt in
            let ig := ig <| ig_requests := requests |> in
            if negb (ok rollback)
            then (Error (Internal "controller admission rollback failed"), ig)
            else (Error e, ig)
        | Value command => (Value command, ig)
        end
    end.

Definition submit_cancel (ig : ControllerIngress) (epoch request_generation : Z)
    : Result ControllerCommand * ControllerIngress :=
  match controller_cancel_payload_digest epoch request_generation with
  | Error e => (Error e, ig)
  | Value digest =>
      let '(command, mailbox) :=
        submit_command (ig_mailbox ig) CommandKind.kCancel epoch request_generation digest in
      (command, ig <| ig_mailbox := mailbox |>)
  end.

Definition try_take_command (ig : ControllerIngress) (self : Z)
    : Result (option ControllerIngressCommandView) * ControllerIngress :=
  let '(command, mailbox) := Mailbox.try_take_command (ig_mailbox ig) self in
  let ig := ig <| ig_mailbox := mailbox |> in
  match command with
  | Error e => (Error e, ig)
  | Value None => (Value None, ig)
  | Value (Some command) =>
      if command_kind_eqb (cmd_kind command) CommandKind.kAdmit
      then
        let '(request, requests) := claim (ig_requests ig) (cmd_request_generation command)
                                      (cmd_payload_digest command) in
        let ig := ig <| ig_requests := requests |> in
        match request with
        | Error _ => (Error (Internal "controller command has no matching request payload"), ig)
        | Value request => (Value (Some (MkCommandView command (Some request))), ig)
        end
      else (Value (Some (MkCommandView command None)), ig)
  end.

Definition try_take_admission (ig : ControllerIngress) (self : Z)
    : Result (option ControllerAdmissionView) * ControllerIngress :=
  let '(item, ig) := try_take_command ig self in
  match item with
  | Error e => (Error e, ig)
  | Value None => (Value None, ig)
  | Value (Some item) =>
      match command_kind_eqb (cmd_kind (cv_command item)) CommandKind.kAdmit, cv_request item with
      | true, Some request => (Value (Some (MkAdmissionView (cv_command item) request)), ig)
      | _, _ => (Error (Internal "non-admit command reached admission ingress"), ig)
      end
  end.

Definition release_request (ig : ControllerIngress) (request : ControllerRequestView)
    : Status * ControllerIngress :=
  let '(status, requests) :=
    release_claimed (ig_requests ig) (rqv_slot_index request) (rqv_slot_generation request) in
  (status, ig <| ig_requests := requests |>).

Definition publish_event (ig : ControllerIngress) (self : Z) (draft : ControllerOutputEventDraft)
    : Result ControllerOutputEvent * ControllerIngress :=
  let '(event, mailbox) := Mailbox.publish_event (ig_mailbox ig) self draft in
  (event, ig <| ig_mailbox := mailbox |>).

Definition try_take_event (ig : ControllerIngress)
    : Result (option ControllerOutputEvent) * ControllerIngress :=
  let '(event, mailbox) := Mailbox.try_take_event (ig_mailbox ig) in
  (event, ig <| ig_mailbox := mailbox |>).

Definition queued_command_count (ig : ControllerIngress) : Z := command_size (ig_mailbox ig).
Definition published_request_count (ig : ControllerIngress) : Z :=
  published_count (ig_requests ig).
Definition claimed_request_count (ig : ControllerIngress) : Z := claimed_count (ig_requests ig).
Definition available_event_credit (ig : ControllerIngress) : Z :=
  event_available_capacity (ig_mailbox ig).
Definition queued_event_count (ig : ControllerIngress) : Z := event_size (ig_mailbox ig).

(** ** Interleaved execution

    The atomic steps are the calls on the mailbox and on the arena.  A producer
    inside [submit_admit] is between its publication and its command
    ([ic_publishing]) or between a refused command and the rollback
    ([ic_rolling]); the controller is between taking an admission and claiming
    it ([ic_taking]).  [ic_internal] records that a step reached one of the two
    [Internal] errors. *)
Record Concurrent := MkConcurrent {
  ic_ingress : ControllerIngress;
  ic_publishing : list (Z * ControllerRequestReceipt);
  ic_rolling : list ControllerRequestReceipt;
  ic_taking : option ControllerCommand;
  ic_internal : bool }.

#[export] Instance eta_Concurrent : Eta Concurrent := fun r =>
  MkConcurrent r.(ic_ingress) r.(ic_publishing) r.(ic_rolling) r.(ic_taking) r.(ic_internal).

Inductive ingress_step :=
  | StPublish (epoch request_generation : Z) (prompt : list Z) (maximum_new_tokens : Z)
              (sampling : ControllerRequestSampling)
  | StSubmit (k : nat)
  | StRollback (k : nat)
  | StCancel (epoch request_generation : Z)
  | StTake (self : Z)
  | StClaim
  | StRelease (request : ControllerRequestView)
  | StPublishEvent (self : Z) (draft : ControllerOutputEventDraft)
  | StTakeEvent.

Definition with_requests (c : Concurrent) (requests : ControllerRequestArena) : Concurrent :=
  c <| ic_ingress := ((ic_ingress c) <| ig_requests := requests |>) |>.

Definition with_mailbox (c : Concurrent) (mailbox : ControllerMailbox) : Concurrent :=
  c <| ic_ingress := ((ic_ingress c) <| ig_mailbox := mailbox |>) |>.

Definition run_step (c : Concurrent) (st : ingress_step) : Concurrent :=
  let ig := ic_ingress c in
  match st with
  | StPublish epoch g prompt maxnew sampling =>
      if epoch =? 0 then c
      else match publish (ig_requests ig) g prompt maxnew sampling with
           | (Value receipt, requests) =>
               (with_requests c requests) <| ic_publishing := ic_publishing c ++ [(epoch, receipt)] |>
           | (Error _, requests) => with_requests c requests
           end
  | StSubmit k =>
      match ic_publishing c !! k with
      | None => c
      | Some (epoch, receipt) =>
          let '(command, mailbox) :=
            submit_command (ig_mailbox ig) CommandKind.kAdmit epoch
              (rcp_request_generation receipt) (rcp_payload_digest receipt) in
          let c := (with_mailbox c mailbox)
                     <| ic_publishing := take k (ic_publishing c) ++ drop (S k) (ic_publishing c) |> in
          match command with
          | Value _ => c
          | Error _ => c <| ic_rolling := ic_rolling c ++ [receipt] |>
          end
      end
  | StRollback k =>
      match ic_rolling c !! k with
      | None => c
      | Some receipt =>
          let '(status, requests) := rollback_published (ig_requests ig) receipt in
          (with_requests c requests)
            <| ic_rolling := take k (ic_rolling c) ++ drop (S k) (ic_rolling c) |>
            <| ic_internal := ic_internal c || negb (ok status) |>
      end
  | StCancel epoch g => c <| ic_ingress := snd (submit_cancel ig epoch g) |>
  | StTake self =>
      match ic_taking c with
      | Some _ => c
      | None =>
          let '(command, mailbox) := Mailbox.try_take_command (ig_mailbox ig) self in
          let c := with_mailbox c mailbox in
          match command with
          | Value (Some command) =>
              if command_kind_eqb (cmd_kind command) CommandKind.kAdmit
              then c <| ic_taking := Some command |> else c
          | _ => c
          end
      end
  | StClaim =>
      match ic_taking c with
      | None => c
      | Some command =>
          let '(request, requests) := claim (ig_requests ig) (cmd_request_generation command)
                                        (cmd_payload_digest command) in
          (with_requests c requests) <| ic_taking := None |>
            <| ic_internal := ic_internal c || negb (rok request) |>
      end
  | StRelease request => c <| ic_ingress := snd (release_request ig request) |>
  | StPublishEvent self draft => c <| ic_ingress := snd (publish_event ig self draft) |>
  | StTakeEvent => c <| ic_ingress := snd (try_take_event ig) |>
  end.

#[export] Instance ingress_step_Typed : Typed ingress_step := fun st =>
  match st with StRelease request => 0 <= rqv_slot_index request | _ => True end.

Definition ingress_limits_ok (limits : ControllerIngressLimits) : Prop :=
  mailbox_limits_ok (igl_mailbox limits) /\ limits_ok (igl_requests limits).

#[export] Instance ingress_Machine : Machine Concurrent ingress_step unit := {|
  m_run c st := (tt, run_step c st);
  m_init c := exists limits ig, ingress_limits_ok limits /\
    ControllerIngress_Create limits = Value ig /\ c = MkConcurrent ig [] [] None false |}.

(** ** The command queue under the mailbox operations *)

Definition queue (m : ControllerMailbox) : list ControllerCommand := ring_list (mb_commands m).

Lemma submit_queue m kind epoch g d r m' :
  mailbox_wf m -> submit_command m kind epoch g d = (r, m') ->
  mailbox_wf m' /\ mb_events m' = mb_events m /\
  match r with
  | Value c => queue m' = queue m ++ [c] /\ cmd_kind c = kind /\
               cmd_request_generation c = g /\ cmd_payload_digest c = d /\
               cmd_command_sequence c <> 0 /\ cmd_epoch c <> 0
  | Error _ => m' = m
  end.
Proof.
  intros Hm E. destruct (mailbox_sim m (OpSubmit kind epoch g d) Hm) as (Hw & _ & Ha).
  cbn [run_mailbox run_fifo] in *. rewrite E in Hw, Ha. cbn [fst snd] in *.
  split; [done|]. unfold submit_command in E. unfold fifo_submit in Ha.
  destruct (command_invalid _ _ _ _) eqn:Ec; [by injection E as <- <-|].
  destruct (ring_full _) eqn:Ef; [by injection E as <- <-|].
  destruct (_ =? 0) eqn:En; [by injection E as <- <-|]. injection E as <- <-. split; [done|].
  split; [apply ring_push_spec; [apply Hm|done]|]. unfold command_invalid in Ec. breflect.
  split_and!; cbn; [done..|lia|lia].
Qed.

Lemma take_queue m self r m' :
  mailbox_wf m -> Mailbox.try_take_command m self = (r, m') ->
  mailbox_wf m' /\ mb_events m' = mb_events m /\
  match r with
  | Value (Some c) => queue m = c :: queue m'
  | _ => queue m' = queue m
  end.
Proof.
  intros Hm E. destruct (mailbox_sim m (OpTakeCommand self) Hm) as (Hw & _ & _).
  cbn [run_mailbox] in Hw. rewrite E in Hw. cbn [snd] in Hw. split; [done|].
  unfold Mailbox.try_take_command in E. pose proof (require_thread_spec m self) as Hr.
  destruct (fifo_claim _ _) as [f|].
  - destruct Hr as (m1 & E1 & _ & Ec & Ee). rewrite E1 in E. cbn in E. rewrite Ec in E.
    destruct (ring_pop_spec (mb_commands m) (proj1 Hm)) as (_ & _ & Hl).
    destruct (ring_pop (mb_commands m)) as [x rg] eqn:Ep. injection E as <- <-.
    cbn. split; [done|]. unfold queue. cbn [mb_commands upd]. cbn in Hl.
    destruct (ring_list (mb_commands m)) as [|c rest] eqn:El.
    + injection Hl as -> ->. done.
    + destruct Hl as [-> <-]. done.
  - rewrite Hr in E. cbn in E. by injection E as <- <-.
Qed.

Lemma publish_event_queue m self draft r m' :
  mailbox_wf m -> Mailbox.publish_event m self draft = (r, m') ->
  mailbox_wf m' /\ queue m' = queue m.
Proof.
  intros Hm E. destruct (mailbox_sim m (OpPublish self draft) Hm) as (Hw & _ & _).
  cbn [run_mailbox] in Hw. rewrite E in Hw. cbn [snd] in Hw. split; [done|].
  unfold Mailbox.publish_event in E. pose proof (require_thread_spec m self) as Hr.
  destruct (fifo_claim _ _) as [f|].
  - destruct Hr as (m1 & E1 & _ & Ec & Ee). rewrite E1 in E. cbn in E. unfold queue.
    repeat bcase_in E; injection E as <- <-; cbn; by rewrite Ec.
  - rewrite Hr in E. cbn in E. by injection E as <- <-.
Qed.

Lemma take_event_queue m r m' :
  mailbox_wf m -> Mailbox.try_take_event m = (r, m') -> mailbox_wf m' /\ queue m' = queue m.
Proof.
  intros Hm E. destruct (mailbox_sim m OpTakeEvent Hm) as (Hw & _ & _).
  cbn [run_mailbox] in Hw. rewrite E in Hw. cbn [snd] in Hw. split; [done|].
  unfold Mailbox.try_take_event in E. destruct (ring_pop _). by injection E as <- <-.
Qed.

(** ** Pledges

    A command that announces a request, and a receipt whose command is not yet
    queued, pledge that the request is resident and unclaimed. *)
Record Pledge := MkPledge {
  pl_generation : Z;
  pl_digest : Sha256Digest;
  pl_slot : option (Z * Z) }.

Definition pledge_ok (a : ControllerRequestArena) (p : Pledge) : Prop :=
  exists r, resident a (pl_generation p) = Some r /\ rs_claimed r = false /\
    rs_digest r = pl_digest p /\
    forall i g, pl_slot p = Some (i, g) -> rs_index r = i /\ rs_generation r = g.

Definition of_receipt (r : ControllerRequestReceipt) : Pledge :=
  MkPledge (rcp_request_generation r) (rcp_payload_digest r)
    (Some (rcp_slot_index r, rcp_slot_generation r)).

Definition of_command (c : ControllerCommand) : option Pledge :=
  if command_kind_eqb (cmd_kind c) CommandKind.kAdmit
  then Some (MkPledge (cmd_request_generation c) (cmd_payload_digest c) None) else None.

Definition pledges (c : Concurrent) : list Pledge :=
  omap of_command (option_list (ic_taking c) ++ queue (ig_mailbox (ic_ingress c))) ++
  map of_receipt (map snd (ic_publishing c) ++ ic_rolling c).

Definition pledged (a : ControllerRequestArena) (ps : list Pledge) : Prop :=
  Forall (pledge_ok a) ps /\ NoDup (map pl_generation ps).

(** Every pledge holds, for distinct requests, and no [Internal] error was
    reached. *)
Definition ingress_inv (c : Concurrent) : Prop :=
  arena_wf (ig_requests (ic_ingress c)) /\ mailbox_wf (ig_mailbox (ic_ingress c)) /\
  pledged (ig_requests (ic_ingress c)) (pledges c) /\ ic_internal c = false /\
  (forall cmd, ic_taking c = Some cmd -> cmd_kind cmd = CommandKind.kAdmit).

#[export] Instance pledged_perm a : Proper ((≡ₚ) ==> iff) (pledged a).
Proof. intros ps qs E. unfold pledged. by rewrite E. Qed.

(** Changing one request keeps the pledges about the others. *)
Lemma pledged_set a a' ps g r :
  (forall g', resident a' g' = resident_set (resident a) g r g') ->
  (g ∉ map pl_generation ps) -> pledged a ps -> pledged a' ps.
Proof.
  intros Hres Hg [Hf Hn]. split; [|done]. rewrite Forall_forall in *. intros p Hp.
  destruct (Hf p Hp) as (x & Hx & Hrest). exists x. split; [|done]. rewrite Hres.
  unfold resident_set. destruct (Z.eqb_spec (pl_generation p) g) as [<-|]; [|done].
  destruct Hg. apply list_elem_of_fmap. by exists p.
Qed.

(** A resident claimed or absent request is not pledged. *)
Lemma not_pledged a ps g :
  pledged a ps -> (forall r, resident a g = Some r -> rs_claimed r = true) ->
  g ∉ map pl_generation ps.
Proof.
  intros [Hf _] Hr (p & -> & Hp)%list_elem_of_fmap. rewrite Forall_forall in Hf.
  destruct (Hf p Hp) as (x & Hx & Hc & _). rewrite (Hr x Hx) in Hc. done.
Qed.

Lemma pledged_cons a p ps :
  pledged a (p :: ps) <-> pledge_ok a p /\ (pl_generation p ∉ map pl_generation ps) /\ pledged a ps.
Proof. unfold pledged. cbn. rewrite Forall_cons, NoDup_cons. naive_solver. Qed.

(** Forgetting the slot of a pledge. *)
Lemma pledge_weaken a g d s : pledge_ok a (MkPledge g d s) -> pledge_ok a (MkPledge g d None).
Proof. intros (r & H1 & H2 & H3 & _). exists r. by split_and!. Qed.

Lemma delete_perm {A} (l : list A) k x :
  l !! k = Some x -> l ≡ₚ (x :: (take k l ++ drop (S k) l)).
Proof.
  intros H. rewrite <- (take_drop_middle l k x H) at 1. by rewrite Permutation_middle.
Qed.

Lemma perm_mid {A} (x : A) l1 l2 l3 : l1 ++ (l2 ++ [x]) ++ l3 ≡ₚ (x :: l1 ++ l2 ++ l3).
Proof. rewrite <- app_assoc. cbn. by rewrite (Permutation_middle l1), (Permutation_middle l2). Qed.

#[local] Arguments of_command : simpl never.

Lemma perm_end {A} (x : A) l1 l2 l3 : l1 ++ l2 ++ l3 ++ [x] ≡ₚ (x :: l1 ++ l2 ++ l3).
Proof. by rewrite (Permutation_middle l1), (Permutation_middle l2), (Permutation_cons_append l3). Qed.

Lemma of_command_kind cmd :
  of_command cmd = match cmd_kind cmd with
                   | CommandKind.kAdmit =>
                       Some (MkPledge (cmd_request_generation cmd) (cmd_payload_digest cmd) None)
                   | _ => None
                   end.
Proof. unfold of_command. by destruct (cmd_kind cmd). Qed.

Lemma pledges_parts c :
  pledges c = omap of_command (option_list (ic_taking c) ++ queue (ig_mailbox (ic_ingress c))) ++
              map of_receipt (map snd (ic_publishing c)) ++ map of_receipt (ic_rolling c).
Proof. unfold pledges. by rewrite map_app. Qed.

Lemma step_publish_inv c epoch g prompt maxnew s :
  ingress_inv c -> ingress_inv (run_step c (StPublish epoch g prompt maxnew s)).
Proof.
  intros (Ha & Hm & Hp & Hi & Hk). cbn [run_step]. destruct (epoch =? 0); [done|].
  destruct (publish _ _ _ _ _) as [[rcp|e] a'] eqn:E.
  - apply publish_spec in E as (Ha' & Hn & Hg & Hr); [|done].
    split_and!; try done. rewrite pledges_parts. cbn. rewrite !map_app. cbn.
    rewrite perm_mid, pledged_cons, <- pledges_parts. unfold of_receipt at 1 2. cbn [pl_generation].
    assert (Hng : g ∉ map pl_generation (pledges c))
      by (eapply not_pledged; [done|]; intros r Hx; congruence).
    rewrite Hg. split_and!; [|done|by eapply pledged_set].
    unfold pledge_ok. cbn [pl_generation pl_digest pl_slot]. eexists. rewrite Hr. unfold resident_set. rewrite Z.eqb_refl. split; [done|].
    cbn. split; [done|]. split; [done|]. by intros i gen [= <- <-].
  - apply publish_Error in E as ->. split_and!; done.
Qed.

Lemma step_submit_inv c k : ingress_inv c -> ingress_inv (run_step c (StSubmit k)).
Proof.
  intros (Ha & Hm & Hp & Hi & Hk). cbn [run_step]. destruct (ic_publishing c !! k) as [[epoch rcp]|] eqn:Ek; [|done].
  destruct (submit_command _ _ _ _ _) as [r m'] eqn:E.
  apply submit_queue in E as (Hm' & _ & Hr); [|done].
  rewrite pledges_parts in Hp. rewrite (delete_perm _ _ _ Ek) in Hp. cbn [map snd] in Hp.
  rewrite <- app_comm_cons, <- Permutation_middle in Hp.
  destruct r as [cmd|e].
  - destruct Hr as (Hq & Hkd & Hg & Hd & _). split_and!; try done. rewrite pledges_parts. cbn.
    rewrite Hq, !omap_app. rewrite omap_app in Hp. cbn.
    rewrite of_command_kind, Hkd. cbn. rewrite Hg, Hd.
    rewrite <- !app_assoc in *. cbn [app]. rewrite <- !Permutation_middle.
    apply pledged_cons in Hp as (P1 & P2 & P3). apply pledged_cons.
    split; [by eapply pledge_weaken|]. done.
  - subst m'. split_and!; try done. rewrite pledges_parts. cbn.
    rewrite (map_app of_receipt (ic_rolling c)). cbn. by rewrite perm_end.
Qed.

Lemma step_rollback_inv c k : ingress_inv c -> ingress_inv (run_step c (StRollback k)).
Proof.
  intros (Ha & Hm & Hp & Hi & Hk). cbn [run_step]. destruct (ic_rolling c !! k) as [rcp|] eqn:Ek; [|done].
  rewrite pledges_parts, (delete_perm _ _ _ Ek) in Hp. cbn [map] in Hp.
  rewrite app_assoc, <- Permutation_middle, <- app_assoc in Hp.
  apply pledged_cons in Hp as ((r & H1 & H2 & H3 & H4) & P2 & P3).
  destruct (H4 _ _ eq_refl) as [Hx Hg].
  assert (H0 : 0 <= rcp_slot_index rcp)
    by (pose proof (resident_inv _ _ _ H1) as (i & Hr & _ & _ & ->); cbn in Hx; lia).
  destruct (rollback_spec _ rcp Ha H0) as (Hyes & _).
  destruct (Hyes r H1 H2 Hx Hg H3) as (a' & -> & Ha' & Hres).
  split_and!; try done; [|cbn; by rewrite Hi]. rewrite pledges_parts. cbn.
  by eapply pledged_set.
Qed.

Lemma step_take_inv c self : ingress_inv c -> ingress_inv (run_step c (StTake self)).
Proof.
  intros Hc. pose proof Hc as (Ha & Hm & Hp & Hi & Hk). cbn [run_step].
  destruct (ic_taking c) eqn:Et; [exact Hc|].
  destruct (Mailbox.try_take_command _ _) as [r m'] eqn:E.
  apply take_queue in E as (Hm' & _ & Hq); [|done]. rewrite pledges_parts, Et in Hp. cbn in Hp.
  destruct r as [[cmd|]|e].
  - rewrite Hq in Hp. cbn in Hp. destruct (command_kind_eqb (cmd_kind cmd) CommandKind.kAdmit) eqn:Ek.
    + split_and!; try done; [by rewrite pledges_parts|]. intros cmd' [= <-].
      by destruct (cmd_kind cmd).
    + split_and!; try done; try (intros ? Hx; cbn in Hx; congruence).
      rewrite pledges_parts. cbn. rewrite Et. cbn.
      rewrite of_command_kind in Hp. by destruct (cmd_kind cmd).
  - split_and!; try done; try (intros ? Hx; cbn in Hx; congruence).
      rewrite pledges_parts. cbn. rewrite Et, Hq. done.
  - split_and!; try done; try (intros ? Hx; cbn in Hx; congruence).
      rewrite pledges_parts. cbn. rewrite Et, Hq. done.
Qed.

Lemma step_claim_inv c : ingress_inv c -> ingress_inv (run_step c StClaim).
Proof.
  intros Hc. pose proof Hc as (Ha & Hm & Hp & Hi & Hk). cbn [run_step].
  destruct (ic_taking c) as [cmd|] eqn:Et; [|exact Hc].
  rewrite pledges_parts, Et in Hp. cbn in Hp.
  rewrite of_command_kind, (Hk cmd eq_refl) in Hp. cbn in Hp.
  apply pledged_cons in Hp as ((r & H1 & H2 & H3 & _) & P2 & P3). cbn in H1, H3, P2.
  destruct (claim_spec _ _ _ _ Ha H1 H2 H3) as (a' & -> & Ha' & _ & _ & _ & Hres).
  split_and!; try done; [|cbn; by rewrite Hi]. rewrite pledges_parts. cbn.
  by eapply pledged_set.
Qed.

Lemma step_release_inv c v :
  0 <= rqv_slot_index v -> ingress_inv c -> ingress_inv (run_step c (StRelease v)).
Proof.
  intros H0 (Ha & Hm & Hp & Hi & Hk). cbn [run_step]. unfold release_request.
  destruct (release_spec _ (rqv_slot_index v) (rqv_slot_generation v) Ha H0) as (Hyes & Hok & Hno).
  destruct (release_claimed _ _ _) as [st a'] eqn:E. cbn [fst snd] in *.
  destruct (ok st) eqn:Eo.
  - destruct (Hok eq_refl) as (g & r & H1 & H2 & H3 & H4).
    destruct (Hyes g r H1 H2 H3 H4) as (a2 & E2 & Ha' & Hres). injection E2 as -> ->.
    split_and!; try done. rewrite pledges_parts. cbn. rewrite <- pledges_parts.
    eapply pledged_set; [done| |done]. eapply not_pledged; [done|]. intros r' Hr'. congruence.
  - rewrite (Hno eq_refl). split_and!; done.
Qed.

#[export] Instance ingress_inv_inv : MachineInv ingress_inv.
Proof.
  split.
  - intros c (limits & ig & [Hl1 Hl2] & Hc & ->). unfold ControllerIngress_Create in Hc.
    destruct (ControllerMailbox_Create _) as [m|] eqn:Em; [|done].
    destruct (ControllerRequestArena_Create _) as [a|] eqn:Ea; [|done]. injection Hc as <-.
    destruct (Create_mailbox _ _ Hl1 Em) as [Hm Habs]. destruct (Create_arena _ _ Hl2 Ea) as (Ha & _ & _).
    split_and!; try done. unfold pledges. cbn. unfold queue.
    change (ring_list (mb_commands m)) with (fm_commands (mailbox_abs m)). rewrite Habs.
    split; constructor.
  - intros c st Hc Ht. destruct st; cbn [m_run ingress_Machine snd].
    + by apply step_publish_inv.
    + by apply step_submit_inv.
    + by apply step_rollback_inv.
    + destruct Hc as (Ha & Hm & Hp & Hi & Hk). cbn [run_step]. unfold submit_cancel.
      destruct (controller_cancel_payload_digest _ _) as [d|]; [|by split_and!].
      destruct (submit_command _ _ _ _ _) as [r m'] eqn:E. cbn [snd].
      apply submit_queue in E as (Hm' & _ & Hr); [|done]. split_and!; try done.
      rewrite pledges_parts in *. cbn. destruct r as [cmd|]; [|by subst].
      destruct Hr as (Hq & Hkd & _). rewrite Hq, !omap_app. rewrite omap_app in Hp. cbn.
      rewrite of_command_kind, Hkd. cbn. by rewrite app_nil_r.
    + by apply step_take_inv.
    + by apply step_claim_inv.
    + by apply step_release_inv.
    + destruct Hc as (Ha & Hm & Hp & Hi & Hk). cbn [run_step]. unfold publish_event.
      destruct (Mailbox.publish_event _ _ _) as [r m'] eqn:E. cbn [snd].
      apply publish_event_queue in E as [Hm' Hq]; [|done]. split_and!; try done.
      rewrite pledges_parts in *. cbn. by rewrite Hq.
    + destruct Hc as (Ha & Hm & Hp & Hi & Hk). cbn [run_step]. unfold try_take_event.
      destruct (Mailbox.try_take_event _) as [r m'] eqn:E. cbn [snd].
      apply take_event_queue in E as [Hm' Hq]; [|done]. split_and!; try done.
      rewrite pledges_parts in *. cbn. by rewrite Hq.
Qed.

(** ** Properties *)

Lemma resident_contents a g r :
  arena_wf a -> resident a g = Some r ->
  controller_request_payload_digest g (rs_prompt r) (rs_maximum_new_tokens r) (rs_sampling r)
  = Value (rs_digest r).
Proof.
  intros (_ & _ & _ & Hs & _) (i & Hi & Hf & <- & ->)%resident_inv.
  destruct (Hs i Hi) as (_ & _ & Hh). apply (Hh Hf).
Qed.

(** C35. No interleaving reaches an [Internal] error of [submit_admit] or of
    [try_take_command], in an ingress whose mailbox capacities are at most [2^31]:
    whatever the producers, the controller and the releases do in between, a taken
    admission command always finds its own unclaimed request (whose contents hash to
    the command's digest), so the claim succeeds, and a producer whose command was
    refused always rolls its publication back.  ([try_take_admission] has an
    [Internal] error of its own, for a command that is not an admission.) *)
Theorem ingress_never_internal c (Hc : m_reachable c) :
  ic_internal c = false /\
  (forall cmd, ic_taking c = Some cmd ->
     exists r a', resident (ig_requests (ic_ingress c)) (cmd_request_generation cmd) = Some r /\
       claim (ig_requests (ic_ingress c)) (cmd_request_generation cmd) (cmd_payload_digest cmd)
         = (Value (view_of (ig_requests (ic_ingress c)) (cmd_request_generation cmd) r), a') /\
       controller_request_payload_digest (cmd_request_generation cmd) (rs_prompt r)
         (rs_maximum_new_tokens r) (rs_sampling r) = Value (cmd_payload_digest cmd)) /\
  (forall rcp, rcp ∈ ic_rolling c ->
     ok (fst (rollback_published (ig_requests (ic_ingress c)) rcp)) = true).
Proof.
  apply (reachable_inv ingress_inv) in Hc as (Ha & Hm & [Hp _] & Hi & Hk).
  rewrite pledges_parts, Forall_app, Forall_app in Hp. destruct Hp as (P1 & _ & P3).
  split_and!; [done| |].
  - intros cmd Et. rewrite Et in P1. cbn in P1.
    rewrite of_command_kind, (Hk cmd Et), Forall_cons in P1.
    destruct P1 as [(r & H1 & H2 & H3 & _) _]. cbn in H1, H3.
    destruct (claim_spec _ _ _ _ Ha H1 H2 H3) as (a' & E & _). exists r, a'.
    split_and!; try done. rewrite <- H3. by eapply resident_contents.
  - intros rcp Hr. rewrite Forall_map, Forall_forall in P3.
    destruct (P3 rcp Hr) as (r & H1 & H2 & H3 & H4). destruct (H4 _ _ eq_refl) as [Hx Hg].
    assert (H0 : 0 <= rcp_slot_index rcp)
      by (pose proof (resident_inv _ _ _ H1) as (i & Hi' & _ & _ & ->); cbn in Hx; lia).
    destruct (rollback_spec _ rcp Ha H0) as (Hyes & _).
    by destruct (Hyes r H1 H2 Hx Hg H3) as (a' & -> & _).
Qed.

Definition sample_ingress_limits : ControllerIngressLimits :=
  MkIngressLimits sample_mailbox_limits sample_request_limits.

Definition sample_ingress : ControllerIngress :=
  MkIngress (MkMailbox (ring_new 2) (ring_new 1) 1 1 None) sample_request_arena.

Definition sample_concurrent : Concurrent := MkConcurrent sample_ingress [] [] None false.

Lemma sample_concurrent_reachable : m_reachable sample_concurrent.
Proof.
  exists sample_concurrent. split; [|apply rtc_refl].
  exists sample_ingress_limits, sample_ingress. split; [|split; [reflexivity|done]].
  split; [unfold mailbox_limits_ok; cbn; lia|unfold limits_ok, is_u32; cbn; lia].
Qed.

(** Two producers and the controller, interleaved: the second producer publishes
    between the two calls of the first. *)
Definition sample_steps : list ingress_step :=
  [StPublish 1 7 [5; 6] 3 default_sampling; StPublish 1 8 [9] 3 default_sampling;
   StSubmit 1; StSubmit 0; StTake 4].

Lemma ingress_never_internal_witness :
  let c := snd (m_trace sample_concurrent sample_steps) in
  ic_internal c = false /\
  exists cmd, ic_taking c = Some cmd /\ cmd_request_generation cmd = 8.
Proof.
  intros c. assert (Hr : m_reachable c).
  { apply trace_reachable; [exact sample_concurrent_reachable|]. repeat constructor. }
  split; [exact (proj1 (ingress_never_internal c Hr))|].
  assert (Hx : match ic_taking c with Some cmd => cmd_request_generation cmd =? 8 | None => false end
    = true) by (vm_compute; reflexivity).
  destruct (ic_taking c) as [cmd|]; [|discriminate Hx]. exists cmd. split; [reflexivity|].
  apply Z.eqb_eq. exact Hx.
Defined.

(** C36. [submit_admit] is a transaction: on success the request is resident and
    unclaimed with exactly the submitted contents and its command is queued
    last; on failure, also when the mailbox is full, neither the queue nor any
    resident request has changed, and the error is not [Internal]. *)
Theorem submit_admit_transaction c epoch g prompt maxnew s r ig'
  (Hc : m_reachable c)
  (E : submit_admit (ic_ingress c) epoch g prompt maxnew s = (r, ig')) :
  match r with
  | Value cmd =>
      queue (ig_mailbox ig') = queue (ig_mailbox (ic_ingress c)) ++ [cmd] /\
      cmd_kind cmd = CommandKind.kAdmit /\ cmd_request_generation cmd = g /\
      resident (ig_requests (ic_ingress c)) g = None /\
      exists x, rs_prompt x = prompt /\ rs_maximum_new_tokens x = maxnew /\ rs_sampling x = s /\
        rs_claimed x = false /\ rs_digest x = cmd_payload_digest cmd /\
        forall g', resident (ig_requests ig') g' =
                   resident_set (resident (ig_requests (ic_ingress c))) g (Some x) g'
  | Error e =>
      queue (ig_mailbox ig') = queue (ig_mailbox (ic_ingress c)) /\
      (forall g', resident (ig_requests ig') g' = resident (ig_requests (ic_ingress c)) g') /\
      (code e = kInternal -> False)
  end.
Proof.
  apply (reachable_inv ingress_inv) in Hc as (Ha & Hm & _). unfold submit_admit in E.
  destruct (epoch =? 0); [by injection E as <- <-|].
  destruct (publish _ _ _ _ _) as [[rcp|e] a'] eqn:Ep.
  - pose proof Ep as (Ha' & Hn & Hg & Hres)%publish_spec; [|done]. cbn in E.
    destruct (submit_command _ _ _ _ _) as [[cmd|e] m'] eqn:Es.
    + injection E as <- <-. apply submit_queue in Es as (_ & _ & Hq & Hk & Hgg & Hd & _); [|done].
      cbn. split_and!; try done. eexists. split_and!; [..|exact Hres]; done.
    + assert (H0 : 0 <= rcp_slot_index rcp).
      { assert (Hx : resident a' g = Some (MkResident (rcp_slot_index rcp) (rcp_slot_generation rcp)
          false prompt maxnew s (rcp_payload_digest rcp)))
          by (rewrite Hres; unfold resident_set; by rewrite Z.eqb_refl).
        apply resident_inv in Hx as (i & Hi & _ & _ & Er). injection Er as -> _ _ _. lia. }
      destruct (rollback_spec a' rcp Ha' H0) as (Hyes & _). rewrite Hg in Hyes.
      assert (Hx : resident a' g = Some (MkResident (rcp_slot_index rcp) (rcp_slot_generation rcp)
          false prompt maxnew s (rcp_payload_digest rcp)))
        by (rewrite Hres; unfold resident_set; by rewrite Z.eqb_refl).
      destruct (Hyes _ Hx) as (a2 & E2 & _ & Hres2); [done..|].
      rewrite E2 in E. cbn in E. injection E as <- <-. cbn.
      split; [|split].
      * by apply submit_queue in Es as (_ & _ & ->).
      * intros g'. rewrite Hres2. unfold resident_set.
        destruct (Z.eqb_spec g' g) as [->|Hne]; [done|]. rewrite Hres. unfold resident_set.
        by rewrite (proj2 (Z.eqb_neq g' g) Hne).
      * unfold submit_command in Es. repeat bcase_in Es; by simplify_eq.
  - cbn in E. injection E as <- <-. apply publish_Error in Ep as Ea. subst a'. cbn.
    split_and!; try done. intros Hcode. unfold publish in Ep.
    destruct (request_refused _ _ _ _ _) eqn:Er; [by injection Ep as <-|].
    destruct (existsb _ prompt); [by injection Ep as <-|].
    destruct (controller_request_payload_digest _ _ _ _) as [d|ed] eqn:Ed.
    + destruct (existsb _ _); [by injection Ep as <-|].
      destruct (first_index _ _ _); [|by injection Ep as <-].
      cbn zeta in Ep. bcase_in Ep; [by injection Ep as <-|done].
    + rewrite (request_digest_total (ra_limits (ig_requests (ic_ingress c)))) in Ed; [done| |done].
      apply Ha.
Qed.

Lemma submit_admit_transaction_witness :
  m_reachable sample_concurrent /\
  exists cmd ig', submit_admit sample_ingress 1 7 [5; 6] 3 default_sampling = (Value cmd, ig') /\
    queue (ig_mailbox ig') = [cmd] /\ cmd_request_generation cmd = 7.
Proof.
  split; [exact sample_concurrent_reachable|].
  destruct (submit_admit sample_ingress 1 7 [5; 6] 3 default_sampling) as [[cmd|e] ig'] eqn:E.
  - exists cmd, ig'. split; [reflexivity|].
    pose proof (submit_admit_transaction sample_concurrent 1 7 [5; 6] 3 default_sampling
                  (Value cmd) ig' sample_concurrent_reachable E) as (Hq & _ & Hg & _).
    split; [exact Hq|exact Hg].
  - assert (Hx : rok (fst (submit_admit sample_ingress 1 7 [5; 6] 3 default_sampling)) = true)
      by (vm_compute; reflexivity). rewrite E in Hx. discriminate Hx.
Defined.

(** The controller takes commands in submission order and an admission comes
    with its request: between its own calls, [try_take_command] either reports
    another owner, or finds the queue empty, or returns the oldest command; for
    an admission it returns a view that reads the prompt, budget and sampling of
    the resident request of that generation, and marks exactly that request
    claimed. *)
Theorem ingress_take_delivers c self r ig'
  (Hc : m_reachable c) (Hidle : ic_taking c = None)
  (E : try_take_command (ic_ingress c) self = (r, ig')) :
  let a := ig_requests (ic_ingress c) in
  match r with
  | Error e => e = not_owner /\ ig' = ic_ingress c
  | Value None => queue (ig_mailbox (ic_ingress c)) = [] /\ ig_requests ig' = a
  | Value (Some item) =>
      queue (ig_mailbox (ic_ingress c)) = cv_command item :: queue (ig_mailbox ig') /\
      match cmd_kind (cv_command item) with
      | CommandKind.kAdmit =>
          exists x, resident a (cmd_request_generation (cv_command item)) = Some x /\
            rs_claimed x = false /\
            cv_request item = Some (view_of a (cmd_request_generation (cv_command item)) x) /\
            span_read (ra_tokens (ig_requests ig'))
              (rqv_prompt_token_ids (view_of a (cmd_request_generation (cv_command item)) x))
              = rs_prompt x /\
            forall g, resident (ig_requests ig') g =
              resident_set (resident a) (cmd_request_generation (cv_command item))
                (Some (x <| rs_claimed := true |>)) g
      | _ => cv_request item = None /\ ig_requests ig' = a
      end
  end.
Proof.
  apply (reachable_inv ingress_inv) in Hc as (Ha & Hm & [Hp _] & _ & _). cbn zeta.
  unfold try_take_command in E. destruct (Mailbox.try_take_command _ _) as [t m'] eqn:Et.
  pose proof (take_queue _ _ _ _ Hm Et) as (_ & _ & Hq).
  destruct t as [[cmd|]|e]; cbn in E.
  - rewrite pledges_parts, Forall_app, Hidle in Hp. destruct Hp as [Hp _]. cbn in Hp.
    rewrite Hq in Hp. cbn in Hp. rewrite of_command_kind in Hp.
    destruct (cmd_kind cmd) eqn:Ek; cbn in E, Hp.
    + rewrite Forall_cons in Hp. destruct Hp as [(x & H1 & H2 & H3 & _) _]. cbn in H1, H3.
      destruct (claim_spec _ _ _ _ Ha H1 H2 H3) as (a' & E2 & _ & _ & _ & Hsp & Hres).
      rewrite E2 in E. injection E as <- <-. cbn. rewrite Ek. split; [done|].
      exists x. by split_and!.
    + injection E as <- <-. cbn. by rewrite Ek.
    + injection E as <- <-. cbn. by rewrite Ek.
  - injection E as <- <-. split; [|done]. unfold Mailbox.try_take_command in Et.
    pose proof (require_thread_spec (ig_mailbox (ic_ingress c)) self) as Hr.
    destruct (fifo_claim _ _) as [f|]; [|by rewrite Hr in Et].
    destruct Hr as (m1 & E1 & _ & Ec & _). rewrite E1 in Et. cbn in Et. rewrite Ec in Et.
    destruct (ring_pop_spec _ (proj1 Hm)) as (_ & _ & Hl). unfold queue.
    destruct (ring_list _) as [|y l]; [done|]. destruct Hl as [Hl _].
    destruct (ring_pop _) as [y' rg]. cbn in Hl. by simplify_eq.
  - unfold Mailbox.try_take_command in Et.
    pose proof (require_thread_spec (ig_mailbox (ic_ingress c)) self) as Hr.
    destruct (fifo_claim _ _) as [f|].
    + destruct Hr as (m1 & E1 & _). rewrite E1 in Et. cbn in Et. by destruct (ring_pop _).
    + rewrite Hr in Et. cbn in Et. injection Et as <- <-. injection E as <- <-.
      split; [done|]. by destruct (ic_ingress c).
Qed.

Lemma ingress_take_delivers_witness :
  let c := snd (m_trace sample_concurrent
             [StPublish 1 7 [5; 6] 3 default_sampling; StSubmit 0]) in
  exists item ig', try_take_command (ic_ingress c) 4 = (Value (Some item), ig') /\
    queue (ig_mailbox (ic_ingress c)) = cv_command item :: queue (ig_mailbox ig').
Proof.
  intros c. assert (Hr : m_reachable c).
  { apply trace_reachable; [exact sample_concurrent_reachable|]. repeat constructor. }
  assert (Hi : ic_taking c = None) by (vm_compute; reflexivity).
  destruct (try_take_command (ic_ingress c) 4) as [r ig'] eqn:E.
  pose proof (ingress_take_delivers c 4 r ig' Hr Hi E) as H.
  assert (Hx : match fst (try_take_command (ic_ingress c) 4) with Value (Some _) => true | _ => false end
    = true) by (vm_compute; reflexivity).
  rewrite E in Hx. destruct r as [[item|]|e]; try discriminate Hx.
  exists item, ig'. split; [reflexivity|]. exact (proj1 H).
Defined.
