(* ===== verification/Scheduler.v ===== *)
(** * The phase-tier scheduler

    Models [include/pih/scheduler/phase_tier_scheduler.h] and
    [plugins/execution-default/phase_tier_scheduler.cpp]: the choice of the next
    homogeneous batch among the ready sequences ([select]), and the two routines
    that turn the current decision into a plan ([assemble_current_plan]) and into
    its device metadata ([materialize_current_metadata]).  The vectors the class
    preallocates are state here too, with their stale contents. *)

From stdpp Require Import gmap sorting.
From S2P Require Import Prelude Core Sha256 TokenPlan TokenMetadata.

(** ** Enumerations and records *)

Module Tier.
Inductive SchedulerTier := kIdle | kProtectedPrefill | kDecodeFamily | kNormalPrefill.

#[global] Instance SchedulerTier_eq_dec : EqDecision SchedulerTier.
Proof. solve_decision. Defined.

Definition tier_value (t : SchedulerTier) : Z :=
  match t with kIdle => 0 | kProtectedPrefill => 1 | kDecodeFamily => 2 | kNormalPrefill => 3 end.

Definition tier_eqb (a b : SchedulerTier) : bool := tier_value a =? tier_value b.

Lemma tier_eqb_true a b : tier_eqb a b = true <-> a = b.
Proof. by destruct a, b. Qed.

Lemma tier_eqb_false a b : tier_eqb a b = false <-> a <> b.
Proof. by destruct a, b. Qed.
End Tier.
Export Tier(SchedulerTier, SchedulerTier_eq_dec, tier_eqb, tier_eqb_true, tier_eqb_false).

Module Infeasible.
Inductive SchedulerInfeasibility :=
  | kNone | kPersistentResource | kWorkspace | kBoundaryCredit
  | kExpertPaging | kOutputCredit | kPlanTokenBound.

#[global] Instance SchedulerInfeasibility_eq_dec : EqDecision SchedulerInfeasibility.
Proof. solve_decision. Defined.

#[global] Instance SchedulerInfeasibility_inhabited : Inhabited SchedulerInfeasibility :=
  populate kNone.

Definition infeasibility_value (i : SchedulerInfeasibility) : Z :=
  match i with
  | kNone => 0 | kPersistentResource => 1 | kWorkspace => 2 | kBoundaryCredit => 3
  | kExpertPaging => 4 | kOutputCredit => 5 | kPlanTokenBound => 6
  end.

Definition infeasibility_eqb (a b : SchedulerInfeasibility) : bool :=
  infeasibility_value a =? infeasibility_value b.

Lemma infeasibility_eqb_true a b : infeasibility_eqb a b = true <-> a = b.
Proof. by destruct a, b. Qed.

Lemma infeasibility_eqb_false a b : infeasibility_eqb a b = false <-> a <> b.
Proof. by destruct a, b. Qed.
End Infeasible.
Export Infeasible(SchedulerInfeasibility, SchedulerInfeasibility_eq_dec,
  SchedulerInfeasibility_inhabited, infeasibility_value, infeasibility_eqb,
  infeasibility_eqb_true, infeasibility_eqb_false).

Record SchedulerCandidate := MkCandidate {
  sc_sequence_generation : Z;
  sc_next_phase : PackedTokenPhase;
  sc_last_service_plan_seq : Z;
  sc_ready_enqueue_seq : Z;
  sc_prefill_eligible_since_ns : Z;
  sc_real_token_count : Z;
  sc_infeasibility : SchedulerInfeasibility }.

#[export] Instance SchedulerCandidate_inhabited : Inhabited SchedulerCandidate :=
  populate (MkCandidate 0 kPrefill 0 0 0 0 Infeasible.kNone).

Record PhaseTierProfile := MkProfile {
  ptp_maximum_candidates : Z;
  ptp_maximum_sequences_per_plan : Z;
  ptp_maximum_real_tokens_per_plan : Z;
  ptp_scheduler_scan_limit : Z;
  ptp_max_consecutive_decode_rounds : Z;
  ptp_prefill_starvation_threshold_ns : Z }.

Record SchedulerSnapshot := MkSnapshot {
  sn_now_ns : Z;
  sn_consecutive_decode_rounds : Z;
  sn_last_successful_plan_was_protected_prefill : bool;
  sn_candidates : list SchedulerCandidate }.

Record SchedulerDecisionView := MkDecision {
  dv_generation : Z;
  dv_tier : SchedulerTier;
  dv_phase : PackedTokenPhase;
  dv_included_candidate_indices : list Z;
  dv_candidate_results : list SchedulerInfeasibility;
  dv_scanned_count : Z;
  dv_total_real_tokens : Z }.

Record ScheduledSequenceState := MkScheduledState {
  sss_sequence_generation : Z;
  sss_committed_start_position : Z;
  sss_state_generation : Z;
  sss_input_digest : Sha256Digest }.

#[export] Instance ScheduledSequenceState_inhabited : Inhabited ScheduledSequenceState :=
  populate (MkScheduledState 0 0 0 zero_digest).

Record ScheduledPlanIdentity := MkPlanIdentity {
  spi_epoch : Z;
  spi_plan_sequence : Z;
  spi_profile_revision : string;
  spi_resource_vector_hash : Sha256Digest;
  spi_execution_bucket_tokens : Z;
  spi_maximum_execution_bucket_tokens : Z }.

Record ScheduledSequenceTokens := MkScheduledTokens {
  sst_sequence_generation : Z;
  sst_token_ids : list Z;
  sst_produces_logits : bool }.

#[export] Instance ScheduledSequenceTokens_inhabited : Inhabited ScheduledSequenceTokens :=
  populate (MkScheduledTokens 0 [] false).

Record PhaseTierScheduler := MkScheduler {
  pts_profile : PhaseTierProfile;
  pts_generation : Z;
  pts_ordered_indices : list Z;
  pts_included_indices : list Z;
  pts_results : list SchedulerInfeasibility;
  pts_scanned : list Z;
  pts_selected_generations : list Z;
  pts_selected_token_counts : list Z;
  pts_plan_inputs : list PackedSequenceInput;
  pts_metadata_inputs : list PackedSequenceTokens;
  pts_current_candidate_count : Z;
  pts_current_included_count : Z;
  pts_current_total_tokens : Z;
  pts_current_tier : SchedulerTier;
  pts_current_phase : PackedTokenPhase }.

#[export] Instance PhaseTierScheduler_eta : Eta PhaseTierScheduler := fun s =>
  MkScheduler (pts_profile s) (pts_generation s) (pts_ordered_indices s)
    (pts_included_indices s) (pts_results s) (pts_scanned s) (pts_selected_generations s)
    (pts_selected_token_counts s) (pts_plan_inputs s) (pts_metadata_inputs s)
    (pts_current_candidate_count s) (pts_current_included_count s)
    (pts_current_total_tokens s) (pts_current_tier s) (pts_current_phase s).

(** ** [std::sort]

    The standard promises a permutation that is sorted by the comparison; with a
    comparison that separates the elements there is only one ([std_sort_unique]),
    so the algorithm does not matter. *)
Definition sort_rel {A} (less : A -> A -> bool) (x y : A) : Prop := less y x = false.

#[export] Instance sort_rel_dec {A} (less : A -> A -> bool) x y : Decision (sort_rel less x y).
Proof. unfold sort_rel. apply _. Defined.

Definition std_sort {A} (less : A -> A -> bool) (l : list A) : list A :=
  merge_sort (sort_rel less) l.

(** ** Operations *)

Definition valid_phase (phase : PackedTokenPhase) : bool :=
  phase_eqb phase kPrefill || phase_eqb phase kDecode || phase_eqb phase kVerify.

Definition key_less (left right : SchedulerCandidate) : bool :=
  if negb (sc_last_service_plan_seq left =? sc_last_service_plan_seq right)
  then sc_last_service_plan_seq left <? sc_last_service_plan_seq right
  else if negb (sc_ready_enqueue_seq left =? sc_ready_enqueue_seq right)
  then sc_ready_enqueue_seq left <? sc_ready_enqueue_seq right
  else sc_sequence_generation left <? sc_sequence_generation right.

(** The constructor sizes every vector from the profile. *)
Definition PhaseTierScheduler_new (p : PhaseTierProfile) : PhaseTierScheduler :=
  let cands := Z.to_nat (ptp_maximum_candidates p) in
  let seqs := Z.to_nat (ptp_maximum_sequences_per_plan p) in
  MkScheduler p 0 (replicate cands 0) (replicate seqs 0)
    (replicate cands Infeasible.kNone) (replicate cands 0)
    (replicate seqs 0) (replicate seqs 0)
    (replicate seqs (MkSequenceInput 0 0 0 0 zero_digest))
    (replicate seqs (MkSequenceTokens 0 [] false))
    0 0 0 Tier.kIdle kPrefill.

Definition PhaseTierScheduler_Create (p : PhaseTierProfile) : Result PhaseTierScheduler :=
  if (ptp_maximum_candidates p =? 0)
     || (ptp_maximum_sequences_per_plan p =? 0)
     || (ptp_maximum_sequences_per_plan p >? ptp_maximum_candidates p)
     || (ptp_maximum_real_tokens_per_plan p =? 0)
     || (ptp_scheduler_scan_limit p <? ptp_maximum_candidates p)
     || (ptp_max_consecutive_decode_rounds p =? 0)
     || (ptp_prefill_starvation_threshold_ns p <=? 0)
  then Error (InvalidArgument "phase-tier scheduler profile is invalid")
  else Value (PhaseTierScheduler_new p).

(** *** [select]: the validation loop *)

Definition candidate_invalid (now_ns : Z) (c : SchedulerCandidate) : bool :=
  (sc_sequence_generation c =? 0) || (sc_ready_enqueue_seq c =? 0)
  || (sc_real_token_count c =? 0) || negb (valid_phase (sc_next_phase c))
  || (sc_prefill_eligible_since_ns c <? 0)
  || (sc_prefill_eligible_since_ns c >? now_ns)
  || (infeasibility_value (sc_infeasibility c) >?
      infeasibility_value Infeasible.kPlanTokenBound).

Definition same_identity (prior c : SchedulerCandidate) : bool :=
  (sc_sequence_generation prior =? sc_sequence_generation c)
  || (sc_ready_enqueue_seq prior =? sc_ready_enqueue_seq c).

Record tier_flags := MkFlags { has_prefill : bool; has_decode : bool; has_protected : bool }.

(** [age >= prefill_starvation_threshold_ns]; both times are nonnegative, so the
    signed subtraction is exact. *)
Definition starved (p : PhaseTierProfile) (now_ns : Z) (c : SchedulerCandidate) : bool :=
  now_ns - sc_prefill_eligible_since_ns c >=? ptp_prefill_starvation_threshold_ns p.

Definition note_candidate (p : PhaseTierProfile) (now_ns : Z) (f : tier_flags)
    (c : SchedulerCandidate) : tier_flags :=
  if phase_eqb (sc_next_phase c) kPrefill
  then MkFlags true (has_decode f) (has_protected f || starved p now_ns c)
  else MkFlags (has_prefill f) true (has_protected f).

Fixpoint validate_candidates (p : PhaseTierProfile) (now_ns : Z)
    (prior rest : list SchedulerCandidate) (f : tier_flags) : Result tier_flags :=
  match rest with
  | [] => Value f
  | c :: rest =>
      if candidate_invalid now_ns c
      then Error (InvalidArgument "scheduler candidate is invalid")
      else if existsb (fun q => same_identity q c) prior
      then Error (InvalidArgument "scheduler candidate identity is duplicated")
      else validate_candidates p now_ns (prior ++ [c]) rest (note_candidate p now_ns f c)
  end.

(** *** [select]: the tier preferences *)

Definition append_unique (preferences : list SchedulerTier) (tier : SchedulerTier) :
    list SchedulerTier :=
  if tier_eqb tier Tier.kIdle then preferences
  else if existsb (fun t => tier_eqb t tier) preferences then preferences
  else preferences ++ [tier].

Definition tier_preferences (p : PhaseTierProfile) (snapshot : SchedulerSnapshot)
    (f : tier_flags) : list SchedulerTier :=
  let last := sn_last_successful_plan_was_protected_prefill snapshot in
  let prefs := [] in
  let prefs := if has_protected f && (negb (has_decode f) || negb last)
               then append_unique prefs Tier.kProtectedPrefill else prefs in
  let prefs := if has_decode f &&
                  (last || negb (has_prefill f)
                   || (sn_consecutive_decode_rounds snapshot <?
                       ptp_max_consecutive_decode_rounds p))
               then append_unique prefs Tier.kDecodeFamily else prefs in
  let prefs := if has_prefill f then append_unique prefs Tier.kNormalPrefill else prefs in
  if has_decode f then append_unique prefs Tier.kDecodeFamily else prefs.

(** *** [select]: scanning the tiers *)

Definition belongs (p : PhaseTierProfile) (now_ns : Z) (tier : SchedulerTier)
    (c : SchedulerCandidate) : bool :=
  if tier_eqb tier Tier.kProtectedPrefill
  then phase_eqb (sc_next_phase c) kPrefill && starved p now_ns c
  else if tier_eqb tier Tier.kNormalPrefill
  then phase_eqb (sc_next_phase c) kPrefill
  else negb (phase_eqb (sc_next_phase c) kPrefill).

(** The indices from [index] on that belong to the tier and are not scanned. *)
Fixpoint tier_members (p : PhaseTierProfile) (now_ns : Z) (tier : SchedulerTier)
    (scanned : list Z) (index : Z) (candidates : list SchedulerCandidate) : list Z :=
  match candidates with
  | [] => []
  | c :: rest =>
      if belongs p now_ns tier c && (scanned.[index] =? 0)
      then index :: tier_members p now_ns tier scanned (index + 1) rest
      else tier_members p now_ns tier scanned (index + 1) rest
  end.

Definition tier_phase (candidates : list SchedulerCandidate) (tier : SchedulerTier)
    (ordered : list Z) : PackedTokenPhase :=
  if tier_eqb tier Tier.kDecodeFamily && negb (vsize ordered =? 0)
  then sc_next_phase (candidates.[ordered.[0]])
  else kPrefill.

(** The variables the scan assigns: two vectors indexed by candidate, three
    indexed by position in the plan, and three counters. *)
Record scan_state := MkScan {
  ss_scanned : list Z;
  ss_results : list SchedulerInfeasibility;
  ss_included : list Z;
  ss_generations : list Z;
  ss_counts : list Z;
  ss_scanned_count : Z;
  ss_included_count : Z;
  ss_total : Z }.

Definition scan_one (p : PhaseTierProfile) (candidates : list SchedulerCandidate)
    (phase : PackedTokenPhase) (s : scan_state) (index : Z) : scan_state :=
  let c := candidates.[index] in
  if negb (phase_eqb (sc_next_phase c) phase) then s
  else
    let scanned := (ss_scanned s).[index <- 1] in
    let scanned_count := wrap32 (ss_scanned_count s + 1) in
    let n := ss_included_count s in
    if negb (infeasibility_eqb (sc_infeasibility c) Infeasible.kNone)
    then MkScan scanned ((ss_results s).[index <- sc_infeasibility c]) (ss_included s)
           (ss_generations s) (ss_counts s) scanned_count n (ss_total s)
    else if (n =? ptp_maximum_sequences_per_plan p)
            || (sc_real_token_count c >?
                wrap32 (ptp_maximum_real_tokens_per_plan p - ss_total s))
    then MkScan scanned ((ss_results s).[index <- Infeasible.kPlanTokenBound]) (ss_included s)
           (ss_generations s) (ss_counts s) scanned_count n (ss_total s)
    else MkScan scanned (ss_results s) ((ss_included s).[n <- index])
           ((ss_generations s).[n <- sc_sequence_generation c])
           ((ss_counts s).[n <- sc_real_token_count c])
           scanned_count (wrap32 (n + 1)) (wrap32 (ss_total s + sc_real_token_count c)).

(** The loop over the preferences stops at the first tier that yields a batch. *)
Fixpoint scan_tiers (p : PhaseTierProfile) (snapshot : SchedulerSnapshot)
    (preferences : list SchedulerTier) (ordered_buf : list Z) (s : scan_state) :
    (SchedulerTier * PackedTokenPhase) * list Z * scan_state :=
  match preferences with
  | [] => ((Tier.kIdle, kPrefill), ordered_buf, s)
  | tier :: rest =>
      let cs := sn_candidates snapshot in
      let ordered :=
        std_sort (fun l r => key_less (cs.[l]) (cs.[r]))
          (tier_members p (sn_now_ns snapshot) tier (ss_scanned s) 0 cs) in
      let ordered_buf := splice ordered_buf 0 ordered in
      let phase := tier_phase cs tier ordered in
      let s := foldl (scan_one p cs phase) s ordered in
      if negb (ss_included_count s =? 0) then ((tier, phase), ordered_buf, s)
      else scan_tiers p snapshot rest ordered_buf s
  end.

Definition select (s : PhaseTierScheduler) (snapshot : SchedulerSnapshot) :
    Result SchedulerDecisionView * PhaseTierScheduler :=
  let p := pts_profile s in
  let cs := sn_candidates snapshot in
  if (sn_now_ns snapshot <? 0)
     || (vsize cs >? ptp_maximum_candidates p)
     || (vsize cs >? ptp_scheduler_scan_limit p)
     || (pts_generation s =? u64_max)
  then (Error (InvalidArgument "scheduler snapshot exceeds its profile"), s)
  else match validate_candidates p (sn_now_ns snapshot) [] cs (MkFlags false false false) with
  | Error e => (Error e, s)
  | Value flags =>
      let start := MkScan (splice (pts_scanned s) 0 (replicate (length cs) 0))
        (splice (pts_results s) 0 (replicate (length cs) Infeasible.kNone))
        (pts_included_indices s) (pts_selected_generations s) (pts_selected_token_counts s)
        0 0 0 in
      let '((tier, phase), ordered, r) :=
        scan_tiers p snapshot (tier_preferences p snapshot flags) (pts_ordered_indices s) start in
      let generation := wrap64 (pts_generation s + 1) in
      let s' := MkScheduler p generation ordered (ss_included r) (ss_results r) (ss_scanned r)
        (ss_generations r) (ss_counts r) (pts_plan_inputs s) (pts_metadata_inputs s)
        (wrap32 (vsize cs)) (ss_included_count r) (ss_total r) tier phase in
      (Value (MkDecision generation tier phase
                (take (Z.to_nat (ss_included_count r)) (ss_included r))
                (take (length cs) (ss_results r)) (ss_scanned_count r) (ss_total r)), s')
  end.

(** *** [assemble_current_plan] *)

(** The loop over the selected rows: the filled [plan_inputs_], and the checked
    total. *)
Fixpoint assemble_rows (s : PhaseTierScheduler) (states : list ScheduledSequenceState)
    (fuel : nat) (ordinal checked_total : Z) (inputs : list PackedSequenceInput) :
    Result Z * list PackedSequenceInput :=
  match fuel with
  | O => (Value checked_total, inputs)
  | S fuel =>
      let candidate_index := (pts_included_indices s).[ordinal] in
      if candidate_index >=? vsize states
      then (Error (InvalidArgument "scheduler decision index is invalid"), inputs)
      else
        let st := states.[candidate_index] in
        if negb (sss_sequence_generation st =? (pts_selected_generations s).[ordinal])
           || (sss_state_generation st =? 0)
        then (Error (InvalidArgument "scheduled sequence state drifted"), inputs)
        else
          let count := (pts_selected_token_counts s).[ordinal] in
          assemble_rows s states fuel (ordinal + 1) (wrap64 (checked_total + count))
            (inputs.[ordinal <- MkSequenceInput (sss_sequence_generation st)
               (sss_committed_start_position st) count (sss_state_generation st)
               (sss_input_digest st)])
  end.

Definition assemble_current_plan (s : PhaseTierScheduler) (decision_generation : Z)
    (identity : ScheduledPlanIdentity) (states : list ScheduledSequenceState) :
    Result PackedTokenPlan * PhaseTierScheduler :=
  if (decision_generation =? 0) || negb (decision_generation =? pts_generation s)
     || tier_eqb (pts_current_tier s) Tier.kIdle || (pts_current_included_count s =? 0)
     || negb (vsize states =? pts_current_candidate_count s)
  then (Error (InvalidArgument "scheduler decision is stale or idle"), s)
  else
    let n := Z.to_nat (pts_current_included_count s) in
    let '(r, inputs) := assemble_rows s states n 0 0 (pts_plan_inputs s) in
    let s' := s <| pts_plan_inputs := inputs |> in
    match r with
    | Error e => (Error e, s')
    | Value checked_total =>
        if negb (checked_total =? pts_current_total_tokens s)
        then (Error (Internal "scheduler selected-token ledger drifted"), s')
        else
          (PackedTokenPlan_Create (spi_epoch identity) (spi_plan_sequence identity)
             (pts_current_phase s) (spi_profile_revision identity)
             (spi_resource_vector_hash identity) (take n inputs)
             (spi_execution_bucket_tokens identity)
             (MkPlanLimits (ptp_maximum_sequences_per_plan (pts_profile s))
                (ptp_maximum_real_tokens_per_plan (pts_profile s))
                (spi_maximum_execution_bucket_tokens identity)), s')
    end.

(** *** [materialize_current_metadata] *)

Fixpoint metadata_rows (s : PhaseTierScheduler) (plan : PackedTokenPlan)
    (tokens : list ScheduledSequenceTokens) (fuel : nat) (ordinal : Z)
    (inputs : list PackedSequenceTokens) : Status * list PackedSequenceTokens :=
  match fuel with
  | O => (StatusOk, inputs)
  | S fuel =>
      let candidate_index := (pts_included_indices s).[ordinal] in
      let t := tokens.[candidate_index] in
      let generation := (pts_selected_generations s).[ordinal] in
      let count := (pts_selected_token_counts s).[ordinal] in
      if (candidate_index >=? vsize tokens)
         || negb (sst_sequence_generation t =? generation)
         || negb (vsize (sst_token_ids t) =? count)
         || negb ((pp_sequence_generations plan).[ordinal] =? generation)
         || negb ((pp_real_token_counts plan).[ordinal] =? count)
      then (InvalidArgument "scheduled token payload drifted", inputs)
      else
        metadata_rows s plan tokens fuel (ordinal + 1)
          (inputs.[ordinal <- MkSequenceTokens (sst_sequence_generation t)
             (sst_token_ids t) (sst_produces_logits t)])
  end.

Definition materialize_current_metadata (s : PhaseTierScheduler) (decision_generation : Z)
    (plan : PackedTokenPlan) (tokens : list ScheduledSequenceTokens)
    (arena : PackedTokenMetadataArena) :
    Result PackedTokenMetadataView * (PhaseTierScheduler * PackedTokenMetadataArena) :=
  if (decision_generation =? 0) || negb (decision_generation =? pts_generation s)
     || tier_eqb (pts_current_tier s) Tier.kIdle || (pts_current_included_count s =? 0)
     || negb (vsize tokens =? pts_current_candidate_count s)
     || negb (phase_eqb (pp_phase plan) (pts_current_phase s))
     || negb (pp_sequence_count plan =? pts_current_included_count s)
     || negb (pp_total_real_tokens plan =? pts_current_total_tokens s)
  then (Error (InvalidArgument "packed metadata decision identity drifted"), (s, arena))
  else
    let n := Z.to_nat (pts_current_included_count s) in
    let '(status, inputs) := metadata_rows s plan tokens n 0 (pts_metadata_inputs s) in
    let s' := s <| pts_metadata_inputs := inputs |> in
    if negb (ok status) then (Error status, (s', arena))
    else
      let '(view, arena') := materialize arena plan (take n inputs) in
      (view, (s', arena')).

(** ** The reference decision

    The policy, without buffers, flags or counters: a tier's candidates in
    round-robin order, the greedy batch of the tier's phase, and the first
    preferred tier whose batch is not empty. *)
Definition feasible (c : SchedulerCandidate) : bool :=
  infeasibility_eqb (sc_infeasibility c) Infeasible.kNone.

Definition batch_tokens (cs : list SchedulerCandidate) (batch : list Z) : Z :=
  sum_list (map (fun i => sc_real_token_count (cs.[i])) batch).

Definition fits (p : PhaseTierProfile) (cs : list SchedulerCandidate) (batch : list Z)
    (i : Z) : bool :=
  feasible (cs.[i]) && (vsize batch <? ptp_maximum_sequences_per_plan p)
  && (batch_tokens cs batch + sc_real_token_count (cs.[i]) <=?
      ptp_maximum_real_tokens_per_plan p).

Definition admit_one (p : PhaseTierProfile) (cs : list SchedulerCandidate) (batch : list Z)
    (i : Z) : list Z :=
  if fits p cs batch i then batch ++ [i] else batch.

(** Lexicographic: the plan that served the sequence last, its place in the ready
    queue, its generation. *)
Definition round_robin (cs : list SchedulerCandidate) (l r : Z) : bool :=
  let a := cs.[l] in let b := cs.[r] in
  (sc_last_service_plan_seq a <? sc_last_service_plan_seq b)
  || (sc_last_service_plan_seq a =? sc_last_service_plan_seq b)
     && ((sc_ready_enqueue_seq a <? sc_ready_enqueue_seq b)
         || (sc_ready_enqueue_seq a =? sc_ready_enqueue_seq b)
            && (sc_sequence_generation a <? sc_sequence_generation b)).

Definition tier_order (p : PhaseTierProfile) (snapshot : SchedulerSnapshot)
    (tier : SchedulerTier) : list Z :=
  let cs := sn_candidates snapshot in
  std_sort (round_robin cs)
    (filter (fun i => belongs p (sn_now_ns snapshot) tier (cs.[i]) = true) (seqZ 0 (vsize cs))).

Definition in_phase (cs : list SchedulerCandidate) (phase : PackedTokenPhase) (i : Z) : Prop :=
  sc_next_phase (cs.[i]) = phase.

#[export] Instance in_phase_dec cs phase i : Decision (in_phase cs phase i).
Proof. unfold in_phase. apply _. Defined.

Definition tier_batch (p : PhaseTierProfile) (snapshot : SchedulerSnapshot)
    (tier : SchedulerTier) : PackedTokenPhase * list Z :=
  let cs := sn_candidates snapshot in
  let ordered := tier_order p snapshot tier in
  let phase := tier_phase cs tier ordered in
  (phase, foldl (admit_one p cs) [] (filter (in_phase cs phase) ordered)).

Fixpoint first_batch (p : PhaseTierProfile) (snapshot : SchedulerSnapshot)
    (preferences : list SchedulerTier) : SchedulerTier * PackedTokenPhase * list Z :=
  match preferences with
  | [] => (Tier.kIdle, kPrefill, [])
  | tier :: rest =>
      match tier_batch p snapshot tier with
      | (_, []) => first_batch p snapshot rest
      | (phase, batch) => (tier, phase, batch)
      end
  end.

Definition snapshot_flags (p : PhaseTierProfile) (snapshot : SchedulerSnapshot) : tier_flags :=
  foldl (note_candidate p (sn_now_ns snapshot)) (MkFlags false false false)
    (sn_candidates snapshot).

Definition reference_decision (p : PhaseTierProfile) (snapshot : SchedulerSnapshot) :
    SchedulerTier * PackedTokenPhase * list Z :=
  first_batch p snapshot (tier_preferences p snapshot (snapshot_flags p snapshot)).

(** ** Typing and well-formedness *)

Definition profile_ok (p : PhaseTierProfile) : Prop :=
  1 <= ptp_maximum_sequences_per_plan p <= ptp_maximum_candidates p /\
  is_u32 (ptp_maximum_candidates p) /\
  1 <= ptp_maximum_real_tokens_per_plan p <= u32_max /\
  ptp_maximum_candidates p <= ptp_scheduler_scan_limit p /\
  1 <= ptp_max_consecutive_decode_rounds p /\
  1 <= ptp_prefill_starvation_threshold_ns p.

(** The identities that the round-robin key needs to be distinct. *)
Definition distinct_identities (cs : list SchedulerCandidate) : Prop :=
  NoDup (map sc_sequence_generation cs) /\ NoDup (map sc_ready_enqueue_seq cs).

Definition candidate_ok (now_ns : Z) (c : SchedulerCandidate) : Prop :=
  candidate_invalid now_ns c = false.

Definition snapshot_ok (s : PhaseTierScheduler) (snapshot : SchedulerSnapshot) : Prop :=
  0 <= sn_now_ns snapshot /\
  vsize (sn_candidates snapshot) <= ptp_maximum_candidates (pts_profile s) /\
  pts_generation s <> u64_max /\
  Forall (candidate_ok (sn_now_ns snapshot)) (sn_candidates snapshot) /\
  distinct_identities (sn_candidates snapshot).

(** The snapshot's integers are values of their C++ types. *)
Definition candidate_typed (c : SchedulerCandidate) : Prop :=
  is_u64 (sc_sequence_generation c) /\ is_u64 (sc_last_service_plan_seq c) /\
  is_u64 (sc_ready_enqueue_seq c) /\ is_u32 (sc_real_token_count c).

Definition snapshot_typed (snapshot : SchedulerSnapshot) : Prop :=
  is_u32 (sn_consecutive_decode_rounds snapshot) /\
  Forall candidate_typed (sn_candidates snapshot).

(** ** Lemmas: sorting *)

Section Sorting.
Context {A : Type} (less : A -> A -> bool) `{!Transitive (sort_rel less), !Total (sort_rel less)}.

Lemma std_sort_perm (l : list A) : std_sort less l ≡ₚ l.
Proof. apply merge_sort_Permutation. Qed.

Lemma std_sort_sorted (l : list A) : StronglySorted (sort_rel less) (std_sort less l).
Proof. by apply StronglySorted_merge_sort. Qed.

(** Any sorted permutation is the one computed here, when the comparison
    separates the elements. *)
Lemma std_sort_unique (l k : list A) :
  (forall x y, x ∈ l -> y ∈ l -> sort_rel less x y -> sort_rel less y x -> x = y) ->
  StronglySorted (sort_rel less) k -> k ≡ₚ l -> k = std_sort less l.
Proof.
  intros Hsep Hk Hp. apply (StronglySorted_unique_strong (sort_rel less)).
  - intros x y Hx Hy. apply Hsep; [by rewrite <- Hp|]. by rewrite <- (std_sort_perm l).
  - done.
  - apply std_sort_sorted.
  - by rewrite std_sort_perm.
Qed.

Lemma StronglySorted_filter (P : A -> Prop) `{!forall x, Decision (P x)} (l : list A) :
  StronglySorted (sort_rel less) l -> StronglySorted (sort_rel less) (filter P l).
Proof.
  induction 1 as [|x l Hl IH Hx]; [constructor|]. rewrite filter_cons. case_decide; [|done].
  constructor; [done|]. rewrite Forall_forall in *. intros y [_ Hy]%list_elem_of_filter.
  by apply Hx.
Qed.

(** Filtering before sorting is filtering after it. *)
Lemma std_sort_filter (P : A -> Prop) `{!forall x, Decision (P x)} (l : list A) :
  (forall x y, x ∈ l -> y ∈ l -> sort_rel less x y -> sort_rel less y x -> x = y) ->
  std_sort less (filter P l) = filter P (std_sort less l).
Proof.
  intros Hsep. symmetry. apply std_sort_unique.
  - intros x y Hx%list_elem_of_filter Hy%list_elem_of_filter. naive_solver.
  - apply StronglySorted_filter, std_sort_sorted.
  - by rewrite (std_sort_perm l).
Qed.
End Sorting.

Lemma key_less_round_robin cs l r : key_less (cs.[l]) (cs.[r]) = round_robin cs l r.
Proof. unfold key_less, round_robin. repeat case_match; breflect; lia. Qed.

Lemma list_merge_ext {A} (R S : relation A) `{!RelDecision R, !RelDecision S} :
  (forall x y, R x y <-> S x y) -> forall l1 l2, list_merge R l1 l2 = list_merge S l1 l2.
Proof.
  intros H. induction l1 as [|x l1 IH1]; [by intros []|].
  induction l2 as [|y l2 IH2]; [done|]. cbn. pose proof (H x y).
  repeat case_decide; [f_equal; apply IH1|tauto|tauto|f_equal; apply IH2].
Qed.

Lemma merge_stack_ext {A} (R S : relation A) `{!RelDecision R, !RelDecision S} :
  (forall x y, R x y <-> S x y) -> forall st l,
  merge_list_to_stack R st l = merge_list_to_stack S st l.
Proof.
  intros H. induction st as [|[l'|] st IH]; intros l; cbn; [done| |done].
  by rewrite (list_merge_ext R S H), IH.
Qed.

Lemma merge_sort_ext {A} (R S : relation A) `{!RelDecision R, !RelDecision S} l :
  (forall x y, R x y <-> S x y) -> merge_sort R l = merge_sort S l.
Proof.
  intros H. unfold merge_sort. generalize (@nil (option (list A))).
  induction l as [|x l IH]; intros st; cbn.
  - induction st as [|[l'|] st IH]; cbn; [done| |done]. by rewrite IH, (list_merge_ext R S H).
  - by rewrite (merge_stack_ext R S H), IH.
Qed.

(** The order of the code is the order of the policy. *)
Lemma sort_round_robin cs l :
  std_sort (fun i j => key_less (cs.[i]) (cs.[j])) l = std_sort (round_robin cs) l.
Proof. apply merge_sort_ext. intros x y. unfold sort_rel. by rewrite key_less_round_robin. Qed.

#[export] Instance round_robin_trans cs : Transitive (sort_rel (round_robin cs)).
Proof.
  intros x y z. unfold sort_rel, round_robin. cbn zeta. lia.
Qed.

#[export] Instance round_robin_total cs : Total (sort_rel (round_robin cs)).
Proof.
  intros x y. unfold sort_rel, round_robin. cbn zeta. lia.
Qed.

Lemma NoDup_map_vat {A B} `{Inhabited A} (f : A -> B) (l : list A) i j :
  NoDup (map f l) -> 0 <= i < vsize l -> 0 <= j < vsize l ->
  f (l.[i]) = f (l.[j]) -> i = j.
Proof.
  intros Hnd Hi Hj E. apply vat_lookup in Hi as Li, Hj as Lj.
  assert (Z.to_nat i = Z.to_nat j); [|lia].
  eapply (NoDup_lookup (f <$> l)); [done| |].
  - by rewrite list_lookup_fmap, Li.
  - by rewrite list_lookup_fmap, Lj, E.
Qed.

Lemma round_robin_separates cs i j :
  distinct_identities cs -> 0 <= i < vsize cs -> 0 <= j < vsize cs ->
  sort_rel (round_robin cs) i j -> sort_rel (round_robin cs) j i -> i = j.
Proof.
  intros [_ Hr] Hi Hj. unfold sort_rel, round_robin. cbn zeta. intros H1 H2.
  apply (NoDup_map_vat sc_ready_enqueue_seq cs); [done..|]. lia.
Qed.

(** ** Lemmas: validation *)

Lemma same_identity_false q c :
  same_identity q c = false <->
  sc_sequence_generation q <> sc_sequence_generation c /\
  sc_ready_enqueue_seq q <> sc_ready_enqueue_seq c.
Proof. unfold same_identity. rewrite orb_false_iff, !Z.eqb_neq. done. Qed.

Lemma distinct_snoc prior c :
  distinct_identities (prior ++ [c]) <->
  distinct_identities prior /\ existsb (fun q => same_identity q c) prior = false.
Proof.
  unfold distinct_identities. rewrite !map_app, !NoDup_app. cbn [map].
  assert (E : existsb (fun q => same_identity q c) prior = false <->
    forall q, In q prior -> same_identity q c = false).
  { rewrite <- not_true_iff_false, existsb_exists. split.
    - intros Hn q Hq. apply not_true_is_false. eauto.
    - intros Ha (q & Hq & Ht). specialize (Ha q Hq). congruence. }
  rewrite E. setoid_rewrite same_identity_false. setoid_rewrite list_elem_of_singleton.
  setoid_rewrite (list_elem_of_fmap _ prior). setoid_rewrite list_elem_of_In.
  split.
  - intros ((H1 & H2 & _) & (H3 & H4 & _)). naive_solver.
  - intros ((H1 & H2) & H3). split_and!; try done; try apply NoDup_singleton.
    + intros x (q & -> & Hq) E'. by destruct (H3 q Hq).
    + intros x (q & -> & Hq) E'. by destruct (H3 q Hq).
Qed.

Lemma distinct_app_l l k : distinct_identities (l ++ k) -> distinct_identities l.
Proof. unfold distinct_identities. rewrite !map_app, !NoDup_app. naive_solver. Qed.

(** The validation loop accepts exactly the valid, distinct candidates. *)
Lemma validate_candidates_spec p now : forall rest prior f,
  distinct_identities prior ->
  match validate_candidates p now prior rest f with
  | Value f' => Forall (candidate_ok now) rest /\ distinct_identities (prior ++ rest) /\
      f' = foldl (note_candidate p now) f rest
  | Error e => ~ (Forall (candidate_ok now) rest /\ distinct_identities (prior ++ rest))
  end.
Proof.
  induction rest as [|c rest IH]; intros prior f Hd; cbn [validate_candidates].
  - rewrite app_nil_r. by split_and!.
  - destruct (candidate_invalid now c) eqn:Ei.
    { intros [Hf _]. inversion Hf. unfold candidate_ok in *. congruence. }
    assert (Ea : prior ++ c :: rest = (prior ++ [c]) ++ rest) by (by rewrite <- app_assoc).
    destruct (existsb _ prior) eqn:Ex; rewrite ?Ea.
    { intros [_ H%distinct_app_l]. apply distinct_snoc in H as [_ H]. congruence. }
    specialize (IH (prior ++ [c]) (note_candidate p now f c)).
    destruct (validate_candidates _ _ _ rest _); rewrite Forall_cons; cbn [foldl].
    + destruct IH as (? & ? & ?); [by apply distinct_snoc|]. by split_and!.
    + intros [[] ?]. apply IH; [by apply distinct_snoc|]. done.
Qed.

(** ** Lemmas: the scan *)

Lemma tier_members_filter p now tier scanned cs : forall rest pre index,
  cs = pre ++ rest -> index = vsize pre ->
  tier_members p now tier scanned index rest =
  filter (fun i => belongs p now tier (cs.[i]) = true /\ scanned.[i] = 0)
    (seqZ index (vsize rest)).
Proof.
  induction rest as [|c rest IH]; intros pre index Hcs Hi; [done|].
  cbn [tier_members]. rewrite vsize_cons. pose proof (vsize_nonneg rest).
  rewrite seqZ_cons by lia. replace (Z.pred (1 + vsize rest)) with (vsize rest) by lia.
  assert (Hc : cs.[index] = c).
  { subst. unfold vat, vsize. rewrite Nat2Z.id. by rewrite list_lookup_total_middle. }
  rewrite (IH (pre ++ [c]) (index + 1));
    [|by rewrite <- app_assoc|by rewrite vsize_app, vsize_cons, <- Hi].
  rewrite filter_cons, Hc. change (Z.succ index) with (index + 1).
  destruct (belongs _ _ _ c) eqn:Eb, (scanned.[index] =? 0) eqn:Es; cbn [andb];
    breflect; case_decide; try done; naive_solver.
Qed.

Lemma tier_members_eq p now tier scanned cs :
  tier_members p now tier scanned 0 cs =
  filter (fun i => scanned.[i] = 0)
    (filter (fun i => belongs p now tier (cs.[i]) = true) (seqZ 0 (vsize cs))).
Proof.
  rewrite (tier_members_filter p now tier scanned cs cs []) by done.
  rewrite list_filter_filter. apply list_filter_iff. intros i. tauto.
Qed.

Lemma Forall_at {A} `{Inhabited A} (P : A -> Prop) (l : list A) i :
  Forall P l -> 0 <= i < vsize l -> P (l.[i]).
Proof. rewrite Forall_forall. intros Hf Hi. apply Hf, list_elem_of_In. by apply vat_In. Qed.

Lemma take_vput_snoc {A} (l : list A) (k : nat) n x :
  n = Z.of_nat k -> n < vsize l -> take (S k) (l.[n <- x]) = take k l ++ [x].
Proof.
  intros -> H. unfold vput, vsize in *. rewrite Nat2Z.id.
  rewrite (take_S_r _ _ x) by (apply list_lookup_insert_eq; lia).
  by rewrite take_insert_ge by lia.
Qed.

(** What the scan has done so far: [seen] are the scanned candidates, in order,
    and [batch] the included ones. *)
Record scan_inv (p : PhaseTierProfile) (cs : list SchedulerCandidate) (s : scan_state)
    (seen batch : list Z) : Prop := {
  si_size_scanned : vsize (ss_scanned s) = ptp_maximum_candidates p;
  si_size_results : vsize (ss_results s) = ptp_maximum_candidates p;
  si_size_included : vsize (ss_included s) = ptp_maximum_sequences_per_plan p;
  si_size_generations : vsize (ss_generations s) = ptp_maximum_sequences_per_plan p;
  si_size_counts : vsize (ss_counts s) = ptp_maximum_sequences_per_plan p;
  si_seen : NoDup seen;
  si_range : Forall (fun i => 0 <= i < vsize cs) seen;
  si_scanned : forall i, 0 <= i < vsize cs -> (ss_scanned s).[i] = 0 <-> i ∉ seen;
  si_results : forall i, 0 <= i < vsize cs ->
    (ss_results s).[i] = Infeasible.kNone <-> (i ∉ seen \/ i ∈ batch);
  si_batch_seen : Forall (.∈ seen) batch;
  si_scanned_count : ss_scanned_count s = vsize seen;
  si_included_count : ss_included_count s = vsize batch;
  si_batch_size : vsize batch <= ptp_maximum_sequences_per_plan p;
  si_included : take (length batch) (ss_included s) = batch;
  si_generations : take (length batch) (ss_generations s) =
    map (fun i => sc_sequence_generation (cs.[i])) batch;
  si_counts : take (length batch) (ss_counts s) =
    map (fun i => sc_real_token_count (cs.[i])) batch;
  si_total : ss_total s = batch_tokens cs batch;
  si_tokens : 0 <= batch_tokens cs batch <= ptp_maximum_real_tokens_per_plan p }.

Lemma batch_tokens_snoc cs batch i :
  batch_tokens cs (batch ++ [i]) = batch_tokens cs batch + sc_real_token_count (cs.[i]).
Proof. unfold batch_tokens. rewrite map_app, sum_list_app. cbn. lia. Qed.

Lemma seen_bound (cs : list SchedulerCandidate) seen :
  NoDup seen -> Forall (fun i => 0 <= i < vsize cs) seen -> vsize seen <= vsize cs.
Proof.
  intros Hn Hr. assert (Hs : seen ⊆+ seqZ 0 (vsize cs)).
  { apply NoDup_submseteq; [done|]. intros i Hi. rewrite Forall_forall in Hr.
    apply elem_of_seqZ. specialize (Hr i Hi). lia. }
  apply submseteq_length in Hs. rewrite length_seqZ in Hs.
  pose proof (vsize_nonneg cs). unfold vsize in *. lia.
Qed.

Section Scan.
Context (p : PhaseTierProfile) (cs : list SchedulerCandidate).
Context (Hp : profile_ok p) (Hn : vsize cs <= ptp_maximum_candidates p).
Context (Hty : Forall candidate_typed cs).

Lemma count_typed i : 0 <= i < vsize cs -> is_u32 (sc_real_token_count (cs.[i])).
Proof.
  intros Hi. apply (Forall_at _ _ _ Hty Hi).
Qed.

(** The parts of the invariant about the two candidate-indexed vectors. *)
Lemma mark_scanned (l : list Z) (seen : list Z) i :
  vsize l = ptp_maximum_candidates p -> 0 <= i < vsize cs ->
  (forall j, 0 <= j < vsize cs -> l.[j] = 0 <-> j ∉ seen) ->
  forall j, 0 <= j < vsize cs -> (l.[i <- 1]).[j] = 0 <-> j ∉ seen ++ [i].
Proof.
  intros Hl Hi Hs j Hj. rewrite vat_vput by lia. rewrite not_elem_of_app, not_elem_of_cons.
  destruct (Z.eqb_spec j i); [naive_solver|]. rewrite Hs by done. set_solver.
Qed.

Lemma mark_result (l : list SchedulerInfeasibility) (seen batch : list Z) i r :
  vsize l = ptp_maximum_candidates p -> 0 <= i < vsize cs -> r <> Infeasible.kNone ->
  i ∉ batch ->
  (forall j, 0 <= j < vsize cs -> l.[j] = Infeasible.kNone <-> (j ∉ seen \/ j ∈ batch)) ->
  forall j, 0 <= j < vsize cs ->
    (l.[i <- r]).[j] = Infeasible.kNone <-> (j ∉ seen ++ [i] \/ j ∈ batch).
Proof.
  intros Hl Hi Hr Hb Hs j Hj. rewrite vat_vput by lia.
  rewrite not_elem_of_app, not_elem_of_cons.
  destruct (Z.eqb_spec j i) as [->|]; [naive_solver|]. rewrite Hs by done. set_solver.
Qed.

Lemma keep_result (l : list SchedulerInfeasibility) (seen batch : list Z) i :
  i ∉ seen -> 0 <= i < vsize cs ->
  (forall j, 0 <= j < vsize cs -> l.[j] = Infeasible.kNone <-> (j ∉ seen \/ j ∈ batch)) ->
  forall j, 0 <= j < vsize cs ->
    l.[j] = Infeasible.kNone <-> (j ∉ seen ++ [i] \/ j ∈ batch ++ [i]).
Proof.
  intros Hi Hir Hs j Hj. rewrite Hs by done. rewrite not_elem_of_app, not_elem_of_cons, elem_of_app.
  destruct (decide (j = i)) as [->|]; set_solver.
Qed.

(** One step of the scan is one step of the greedy batch. *)
Lemma scan_one_inv phase s seen batch i :
  scan_inv p cs s seen batch -> 0 <= i < vsize cs -> i ∉ seen ->
  sc_next_phase (cs.[i]) = phase ->
  scan_inv p cs (scan_one p cs phase s i) (seen ++ [i]) (admit_one p cs batch i).
Proof.
  intros [] Hi Hs Hph. unfold scan_one. destruct Hp as (? & ? & ? & ? & ? & ?).
  rewrite (proj2 (phase_eqb_true _ _) Hph). cbn [negb].
  pose proof (count_typed i Hi) as Hc. unfold is_u32 in *.
  assert (Hib : i ∉ batch) by (rewrite Forall_forall in si_batch_seen0; naive_solver).
  assert (Hnd : NoDup (seen ++ [i])) by (apply NoDup_app; split_and!;
    [done|set_solver|apply NoDup_singleton]).
  assert (Hr : Forall (fun i => 0 <= i < vsize cs) (seen ++ [i])) by (apply Forall_app_2; auto).
  assert (Hbs : Forall (.∈ seen ++ [i]) batch)
    by (eapply Forall_impl; [done|set_solver]).
  assert (Hcnt : wrap32 (ss_scanned_count s + 1) = vsize (seen ++ [i])).
  { pose proof (seen_bound cs _ Hnd Hr). rewrite vsize_app, vsize_cons in *.
    change (vsize (@nil Z)) with 0 in *. pose proof (vsize_nonneg seen).
    rewrite wrap32_id by (unfold is_u32; lia). lia. }
  pose proof (mark_scanned _ _ i si_size_scanned0 Hi si_scanned0) as Hsc.
  unfold admit_one, fits, feasible.
  rewrite si_included_count0, si_total0,
    (wrap32_id (_ - batch_tokens cs batch)) by (unfold is_u32; lia).
  destruct (infeasibility_eqb _ _) eqn:Ef; cbn [negb andb]; [|apply infeasibility_eqb_false in Ef].
  2: { constructor; cbn; rewrite ?vsize_vput; try done. by apply mark_result. }
  destruct (_ || _) eqn:Eb.
  - assert (E : (vsize batch <? ptp_maximum_sequences_per_plan p) &&
        (batch_tokens cs batch + sc_real_token_count cs.[i] <=?
         ptp_maximum_real_tokens_per_plan p) = false) by lia.
    rewrite E. constructor; cbn; rewrite ?vsize_vput; try done. by apply mark_result.
  - breflect.
    assert (E : (vsize batch <? ptp_maximum_sequences_per_plan p) &&
        (batch_tokens cs batch + sc_real_token_count cs.[i] <=?
         ptp_maximum_real_tokens_per_plan p) = true) by lia.
    rewrite E. constructor; cbn; rewrite ?vsize_vput, ?map_app, ?batch_tokens_snoc,
      ?length_app, ?vsize_app, ?vsize_cons; change (vsize (@nil Z)) with 0; try done; try lia.
    + by apply keep_result.
    + apply Forall_app_2; [done|]. apply Forall_singleton. set_solver.
    + by rewrite Hcnt, vsize_app, vsize_cons.
    + rewrite wrap32_id; [lia|]. pose proof (vsize_nonneg batch). unfold is_u32. lia.
    + rewrite Nat.add_1_r, take_vput_snoc by (unfold vsize in *; lia). by rewrite si_included0.
    + rewrite Nat.add_1_r, take_vput_snoc by (unfold vsize in *; lia). by rewrite si_generations0.
    + rewrite Nat.add_1_r, take_vput_snoc by (unfold vsize in *; lia). by rewrite si_counts0.
    + apply wrap32_id. unfold is_u32. lia.
Qed.

Lemma scan_fold_inv phase : forall l s seen batch,
  scan_inv p cs s seen batch -> Forall (fun i => 0 <= i < vsize cs) l -> NoDup l ->
  (forall i, i ∈ l -> i ∉ seen) ->
  scan_inv p cs (foldl (scan_one p cs phase) s l) (seen ++ filter (in_phase cs phase) l)
    (foldl (admit_one p cs) batch (filter (in_phase cs phase) l)).
Proof.
  induction l as [|i l IH]; intros s seen batch Hi Hr Hnd Hs; [by rewrite app_nil_r|].
  inversion Hr; inversion Hnd; subst. cbn [foldl]. rewrite filter_cons. case_decide as Hph.
  - replace (seen ++ i :: filter (in_phase cs phase) l)
      with ((seen ++ [i]) ++ filter (in_phase cs phase) l) by (by rewrite <- app_assoc).
    apply IH; [|done..|set_solver]. apply scan_one_inv; [done..|set_solver|done].
  - replace (scan_one p cs phase s i) with s; [apply IH; set_solver|].
    unfold scan_one. apply phase_eqb_false in Hph. by rewrite Hph.
Qed.
End Scan.

(** ** Lemmas: the tiers *)

Lemma fold_admit_nil p cs : forall l,
  foldl (admit_one p cs) [] l = [] -> Forall (fun i => fits p cs [] i = false) l.
Proof.
  assert (Hlen : forall l b, (length b <= length (foldl (admit_one p cs) b l))%nat).
  { induction l as [|i l IH]; intros b; cbn [foldl]; [done|]. etrans; [|apply IH].
    unfold admit_one. case_match; rewrite ?length_app; lia. }
  induction l as [|i l IH]; intros E; [done|]. cbn [foldl] in E. unfold admit_one at 2 in E.
  destruct (fits p cs [] i) eqn:Ef.
  - specialize (Hlen l ([] ++ [i])). rewrite E in Hlen. cbn in Hlen. lia.
  - constructor; [done|]. by apply IH.
Qed.

Section Tiers.
Context (p : PhaseTierProfile) (snapshot : SchedulerSnapshot).
Let cs := sn_candidates snapshot.
Context (Hp : profile_ok p) (Hn : vsize cs <= ptp_maximum_candidates p).
Context (Hty : Forall candidate_typed cs) (Hd : distinct_identities cs).

Lemma fits_hopeless batch i :
  0 <= i < vsize cs -> 0 <= batch_tokens cs batch ->
  fits p cs [] i = false -> fits p cs batch i = false.
Proof.
  intros Hi Hb. unfold fits. destruct (feasible _); cbn [andb]; [|done].
  change (batch_tokens cs []) with 0. change (vsize (@nil Z)) with 0.
  destruct Hp as (? & ? & ? & ?). intros E. breflect. lia.
Qed.

Lemma batch_tokens_admit batch i :
  0 <= i < vsize cs -> 0 <= batch_tokens cs batch -> 0 <= batch_tokens cs (admit_one p cs batch i).
Proof.
  intros Hi Hb. unfold admit_one. case_match; [|done]. rewrite batch_tokens_snoc.
  pose proof (count_typed cs Hty i Hi). unfold is_u32 in *. lia.
Qed.

(** Dropping candidates that fit in no batch does not change the batch. *)
Lemma fold_admit_skip (Q : Z -> Prop) `{!forall i, Decision (Q i)} : forall l batch,
  Forall (fun i => 0 <= i < vsize cs) l -> 0 <= batch_tokens cs batch ->
  (forall i, i ∈ l -> ~ Q i -> fits p cs [] i = false) ->
  foldl (admit_one p cs) batch (filter Q l) = foldl (admit_one p cs) batch l.
Proof.
  induction l as [|i l IH]; intros batch Hr Hb Hq; [done|]. inversion Hr; subst.
  rewrite filter_cons. cbn [foldl]. case_decide as HQ; cbn [foldl].
  - apply IH; [done|by apply batch_tokens_admit|set_solver].
  - replace (admit_one p cs batch i) with batch; [apply IH; set_solver|].
    unfold admit_one. rewrite fits_hopeless; [done..|]. apply Hq; [set_solver|done].
Qed.

Lemma tier_order_elem tier i :
  i ∈ tier_order p snapshot tier <->
  0 <= i < vsize cs /\ belongs p (sn_now_ns snapshot) tier (cs.[i]) = true.
Proof.
  unfold tier_order. rewrite (std_sort_perm _ _), list_elem_of_filter, elem_of_seqZ.
  fold cs. intuition lia.
Qed.

Lemma tier_order_range tier :
  Forall (fun i => 0 <= i < vsize cs) (tier_order p snapshot tier).
Proof. apply Forall_forall. intros i Hi%tier_order_elem. tauto. Qed.

Lemma tier_order_NoDup tier : NoDup (tier_order p snapshot tier).
Proof.
  unfold tier_order. rewrite (std_sort_perm _ _). apply NoDup_filter, NoDup_seqZ.
Qed.

(** The indices the code sorts: the tier's order without the scanned ones. *)
Lemma ordered_eq tier scanned :
  std_sort (fun l r => key_less (cs.[l]) (cs.[r]))
    (tier_members p (sn_now_ns snapshot) tier scanned 0 cs) =
  filter (fun i => scanned.[i] = 0) (tier_order p snapshot tier).
Proof.
  rewrite sort_round_robin.
  rewrite tier_members_eq, std_sort_filter; [done|apply _..|].
  intros i j [_ Hi]%list_elem_of_filter [_ Hj]%list_elem_of_filter.
  apply elem_of_seqZ in Hi, Hj. apply round_robin_separates; [done|lia..].
Qed.

Lemma filter_all {A} (Q : A -> Prop) `{!forall x, Decision (Q x)} (l : list A) :
  Forall Q l -> filter Q l = l.
Proof. induction 1; [done|]. rewrite filter_cons_True by done. by f_equal. Qed.

Lemma tier_phase_filter tier seen s :
  scan_inv p cs s seen [] ->
  (tier = Tier.kDecodeFamily -> Forall (in_phase cs kPrefill) seen) ->
  tier_phase cs tier (filter (fun i => (ss_scanned s).[i] = 0) (tier_order p snapshot tier)) =
  tier_phase cs tier (tier_order p snapshot tier).
Proof.
  intros Hs Hdec. unfold tier_phase. destruct (tier_eqb tier Tier.kDecodeFamily) eqn:Et; [|done].
  apply tier_eqb_true in Et. rewrite filter_all; [done|]. apply Forall_forall.
  intros i [Hi Hb]%tier_order_elem. apply (si_scanned _ _ _ _ _ Hs); [done|]. intros Hin.
  specialize (Hdec Et). rewrite Forall_forall in Hdec. apply Hdec in Hin. unfold in_phase in Hin.
  subst tier. unfold belongs in Hb. cbn in Hb. rewrite Hin in Hb. done.
Qed.

(** One tier of the scan computes the tier's greedy batch. *)
Lemma scan_tier_spec tier s seen ordered phase :
  scan_inv p cs s seen [] ->
  Forall (fun i => fits p cs [] i = false) seen ->
  (tier = Tier.kDecodeFamily -> Forall (in_phase cs kPrefill) seen) ->
  ordered = std_sort (fun l r => key_less (cs.[l]) (cs.[r]))
    (tier_members p (sn_now_ns snapshot) tier (ss_scanned s) 0 cs) ->
  phase = tier_phase cs tier ordered ->
  (phase, foldl (admit_one p cs) [] (filter (in_phase cs phase) ordered)) =
    tier_batch p snapshot tier /\
  vsize ordered <= vsize cs /\
  scan_inv p cs (foldl (scan_one p cs phase) s ordered)
    (seen ++ filter (in_phase cs phase) ordered) (snd (tier_batch p snapshot tier)) /\
  forall i, 0 <= i < vsize cs -> belongs p (sn_now_ns snapshot) tier (cs.[i]) = true ->
    in_phase cs phase i -> i ∈ seen ++ filter (in_phase cs phase) ordered.
Proof.
  intros Hs Hh Hdec -> ->. rewrite ordered_eq, (tier_phase_filter _ seen) by done.
  set (ph := tier_phase cs tier (tier_order p snapshot tier)).
  set (ordered := filter _ (tier_order p snapshot tier)).
  assert (Hor : Forall (fun i => 0 <= i < vsize cs) ordered).
  { apply Forall_forall. intros i [_ Hi]%list_elem_of_filter. apply tier_order_elem in Hi. tauto. }
  assert (Hond : NoDup ordered) by (apply NoDup_filter, tier_order_NoDup).
  assert (Hsc := si_scanned _ _ _ _ _ Hs).
  assert (Eb : foldl (admit_one p cs) [] (filter (in_phase cs ph) ordered) =
               snd (tier_batch p snapshot tier)).
  { cbn. fold cs ph. unfold ordered. rewrite list_filter_filter.
    rewrite (list_filter_iff _ (fun i => (ss_scanned s).[i] = 0 /\ in_phase cs ph i))
      by (intros; tauto).
    rewrite <- (list_filter_filter (fun i => (ss_scanned s).[i] = 0) (in_phase cs ph)).
    apply fold_admit_skip; [|done|].
    - apply Forall_forall. intros i [_ Hi%tier_order_elem]%list_elem_of_filter. tauto.
    - intros i [_ Hi%tier_order_elem]%list_elem_of_filter Hq. rewrite Forall_forall in Hh.
      apply Hh. apply dec_stable. rewrite <- (Hsc i); tauto. }
  split_and!.
  - rewrite Eb. done.
  - by apply seen_bound.
  - rewrite <- Eb. apply scan_fold_inv; try done.
    intros i [Hi Hi']%list_elem_of_filter. apply Hsc; [|done]. apply tier_order_elem in Hi'. tauto.
  - intros i Hi Hb Hph. rewrite elem_of_app. destruct (decide (i ∈ seen)); [by left|right].
    apply list_elem_of_filter. split; [done|]. apply list_elem_of_filter. split; [by apply Hsc|].
    by apply tier_order_elem.
Qed.

(** The loop over the preferences computes the first non-empty batch. *)
Lemma scan_tiers_spec : forall prefs buf s seen,
  NoDup prefs -> scan_inv p cs s seen [] ->
  Forall (fun i => fits p cs [] i = false) seen ->
  (Tier.kDecodeFamily ∈ prefs -> Forall (in_phase cs kPrefill) seen) ->
  vsize buf = ptp_maximum_candidates p ->
  exists seen' buf' s',
    scan_tiers p snapshot prefs buf s = (fst (first_batch p snapshot prefs), buf', s') /\
    vsize buf' = ptp_maximum_candidates p /\
    scan_inv p cs s' seen' (snd (first_batch p snapshot prefs)) /\
    (snd (first_batch p snapshot prefs) <> [] -> forall i, 0 <= i < vsize cs ->
       belongs p (sn_now_ns snapshot) (fst (fst (first_batch p snapshot prefs))) (cs.[i]) = true ->
       in_phase cs (snd (fst (first_batch p snapshot prefs))) i -> i ∈ seen').
Proof.
  induction prefs as [|tier rest IH]; intros buf s seen Hnd Hs Hh Hdec Hbuf.
  { exists seen, buf, s. by split_and!. }
  inversion Hnd as [|? ? Hnt Hndr]; subst. cbn [scan_tiers first_batch]. fold cs.
  set (ordered := std_sort _ _). set (phase := tier_phase cs tier ordered).
  destruct (scan_tier_spec tier s seen ordered phase) as (Eb & Hos & Hinv & Hall);
    [done|done|intros ->; apply Hdec; set_solver|done|done|].
  rewrite <- Eb in Hinv |- *. cbn [snd] in Hinv.
  rewrite (si_included_count _ _ _ _ _ Hinv).
  assert (Hbuf' : vsize (splice buf 0 ordered) = ptp_maximum_candidates p)
    by (rewrite vsize_splice; lia).
  destruct (foldl (admit_one p cs) [] _) as [|b batch] eqn:Ef.
  - change (vsize (@nil Z) =? 0) with true. cbn [negb].
    apply (IH _ _ (seen ++ filter (in_phase cs phase) ordered)); [done..| | |done].
    + apply Forall_app_2; [done|]. by apply fold_admit_nil.
    + intros Hin. apply Forall_app_2; [apply Hdec; set_solver|]. apply Forall_forall.
      intros i [Hi _]%list_elem_of_filter. unfold phase, tier_phase in Hi.
      destruct (tier_eqb tier Tier.kDecodeFamily) eqn:Et; [|done].
      apply tier_eqb_true in Et. congruence.
  - rewrite vsize_cons. pose proof (vsize_nonneg batch).
    destruct (1 + vsize batch =? 0) eqn:E0; [lia|]. cbn [negb].
    eexists _, _, _. split_and!; [reflexivity|done|done|]. cbn. eauto.
Qed.
End Tiers.

(** ** The specification of [select] *)

Record sched_wf (s : PhaseTierScheduler) : Prop := {
  sw_profile : profile_ok (pts_profile s);
  sw_generation : is_u64 (pts_generation s);
  sw_ordered : vsize (pts_ordered_indices s) = ptp_maximum_candidates (pts_profile s);
  sw_results : vsize (pts_results s) = ptp_maximum_candidates (pts_profile s);
  sw_scanned : vsize (pts_scanned s) = ptp_maximum_candidates (pts_profile s);
  sw_included : vsize (pts_included_indices s) = ptp_maximum_sequences_per_plan (pts_profile s);
  sw_generations :
    vsize (pts_selected_generations s) = ptp_maximum_sequences_per_plan (pts_profile s);
  sw_counts :
    vsize (pts_selected_token_counts s) = ptp_maximum_sequences_per_plan (pts_profile s);
  sw_plan_inputs : vsize (pts_plan_inputs s) = ptp_maximum_sequences_per_plan (pts_profile s);
  sw_metadata_inputs :
    vsize (pts_metadata_inputs s) = ptp_maximum_sequences_per_plan (pts_profile s);
  sw_included_count :
    0 <= pts_current_included_count s <= ptp_maximum_sequences_per_plan (pts_profile s);
  sw_indices : Forall (fun i => 0 <= i < pts_current_candidate_count s)
    (take (Z.to_nat (pts_current_included_count s)) (pts_included_indices s));
  sw_counts_typed : Forall is_u32
    (take (Z.to_nat (pts_current_included_count s)) (pts_selected_token_counts s));
  sw_total : pts_current_total_tokens s =
    sum_list (take (Z.to_nat (pts_current_included_count s)) (pts_selected_token_counts s));
  sw_tokens : pts_current_total_tokens s <= ptp_maximum_real_tokens_per_plan (pts_profile s) }.

(** The decision [d] on a snapshot, and the scheduler [s'] that remembers it. *)
Record decided (s : PhaseTierScheduler) (snapshot : SchedulerSnapshot)
    (d : SchedulerDecisionView) (s' : PhaseTierScheduler) : Prop := {
  de_generation : dv_generation d = pts_generation s + 1;
  de_reference : (dv_tier d, dv_phase d, dv_included_candidate_indices d) =
    reference_decision (pts_profile s) snapshot;
  de_total : dv_total_real_tokens d =
    batch_tokens (sn_candidates snapshot) (dv_included_candidate_indices d);
  de_tokens : dv_total_real_tokens d <= ptp_maximum_real_tokens_per_plan (pts_profile s);
  de_size : vsize (dv_included_candidate_indices d) <=
    ptp_maximum_sequences_per_plan (pts_profile s);
  de_range : Forall (fun i => 0 <= i < vsize (sn_candidates snapshot))
    (dv_included_candidate_indices d);
  de_scanned : 0 <= dv_scanned_count d <= vsize (sn_candidates snapshot);
  de_results_size : vsize (dv_candidate_results d) = vsize (sn_candidates snapshot);
  de_included_result : forall i, i ∈ dv_included_candidate_indices d ->
    (dv_candidate_results d).[i] = Infeasible.kNone;
  de_excluded_result : forall i, 0 <= i < vsize (sn_candidates snapshot) ->
    dv_included_candidate_indices d <> [] ->
    belongs (pts_profile s) (sn_now_ns snapshot) (dv_tier d) ((sn_candidates snapshot).[i]) = true ->
    sc_next_phase ((sn_candidates snapshot).[i]) = dv_phase d ->
    i ∉ dv_included_candidate_indices d ->
    (dv_candidate_results d).[i] <> Infeasible.kNone;
  de_profile : pts_profile s' = pts_profile s;
  de_current_generation : pts_generation s' = dv_generation d;
  de_current_tier : pts_current_tier s' = dv_tier d;
  de_current_phase : pts_current_phase s' = dv_phase d;
  de_current_candidates : pts_current_candidate_count s' = vsize (sn_candidates snapshot);
  de_current_count : pts_current_included_count s' = vsize (dv_included_candidate_indices d);
  de_current_total : pts_current_total_tokens s' = dv_total_real_tokens d;
  de_current_included :
    take (length (dv_included_candidate_indices d)) (pts_included_indices s') =
    dv_included_candidate_indices d;
  de_current_generations :
    take (length (dv_included_candidate_indices d)) (pts_selected_generations s') =
    map (fun i => sc_sequence_generation ((sn_candidates snapshot).[i]))
      (dv_included_candidate_indices d);
  de_current_counts :
    take (length (dv_included_candidate_indices d)) (pts_selected_token_counts s') =
    map (fun i => sc_real_token_count ((sn_candidates snapshot).[i]))
      (dv_included_candidate_indices d);
  de_wf : sched_wf s' }.

Lemma append_unique_NoDup prefs t : NoDup prefs -> NoDup (append_unique prefs t).
Proof.
  intros Hn. unfold append_unique. case_match; [done|].
  destruct (existsb _ prefs) eqn:Ex; [done|]. apply NoDup_app. split_and!; [done| |apply NoDup_singleton].
  intros x Hx ->%list_elem_of_singleton. apply not_true_iff_false in Ex. apply Ex.
  apply existsb_exists. exists t. split; [by apply list_elem_of_In|by apply tier_eqb_true].
Qed.

Lemma tier_preferences_NoDup p snapshot f : NoDup (tier_preferences p snapshot f).
Proof.
  unfold tier_preferences. repeat case_match; auto using append_unique_NoDup, NoDup_nil_2.
Qed.

Lemma splice_front_vat {A} `{Inhabited A} (buf : list A) n x i :
  Z.of_nat n <= vsize buf -> 0 <= i < Z.of_nat n ->
  (splice buf 0 (replicate n x)).[i] = x.
Proof.
  intros Hb Hi. unfold vat. apply list_lookup_total_correct.
  rewrite splice_lookup by (rewrite ?vsize_replicate; lia). rewrite length_replicate.
  change (Z.to_nat 0) with 0%nat.
  destruct (Nat.leb_spec 0 (Z.to_nat i)); [|lia]. destruct (Nat.ltb_spec (Z.to_nat i) (0 + n)); [|lia].
  apply lookup_replicate. split; [done|lia].
Qed.

Lemma scan_start s (cs : list SchedulerCandidate) :
  sched_wf s -> vsize cs <= ptp_maximum_candidates (pts_profile s) ->
  scan_inv (pts_profile s) cs
    (MkScan (splice (pts_scanned s) 0 (replicate (length cs) 0))
       (splice (pts_results s) 0 (replicate (length cs) Infeasible.kNone))
       (pts_included_indices s) (pts_selected_generations s) (pts_selected_token_counts s)
       0 0 0) [] [].
Proof.
  intros [] Hn. destruct sw_profile0 as (? & ? & ? & ?).
  assert (Hl : Z.of_nat (length cs) = vsize cs) by done.
  constructor; cbn; rewrite ?vsize_splice by (rewrite ?vsize_replicate; lia); try done;
    try constructor; try (change (vsize (@nil Z)) with 0; lia).
  - intros _. apply not_elem_of_nil.
  - intros _. apply splice_front_vat; lia.
  - intros _. left. apply not_elem_of_nil.
  - intros _. apply splice_front_vat; lia.
Qed.

Lemma sched_next_generation s :
  sched_wf s -> pts_generation s <> u64_max ->
  wrap64 (pts_generation s + 1) = pts_generation s + 1.
Proof. intros [] Hg. unfold is_u64 in *. apply wrap64_id. unfold is_u64. lia. Qed.

Lemma select_spec s snapshot :
  sched_wf s -> snapshot_typed snapshot ->
  match select s snapshot with
  | (Error e, s') => s' = s /\ ~ snapshot_ok s snapshot
  | (Value d, s') => snapshot_ok s snapshot /\ decided s snapshot d s'
  end.
Proof.
  intros Hw [Hr Hty]. unfold select. pose proof (sw_profile _ Hw) as Hp.
  pose proof Hp as (? & ? & ? & ? & ? & ?). set (cs := sn_candidates snapshot) in *.
  destruct (_ || _) eqn:Eg.
  { split; [done|]. intros (? & ? & ? & _). subst cs. lia. }
  breflect. pose proof (validate_candidates_spec (pts_profile s) (sn_now_ns snapshot) cs []
    (MkFlags false false false)) as Hv.
  destruct (validate_candidates _ _ _ _ _) as [flags|e].
  2: { split; [done|]. intros (_ & _ & _ & ? & ?). apply Hv; [by split; constructor|]. done. }
  destruct Hv as (Hok & Hdi & Hfl); [by split; constructor|]. cbn [app] in Hdi.
  assert (Hn : vsize cs <= ptp_maximum_candidates (pts_profile s)) by lia.
  set (start := MkScan _ _ _ _ _ _ _ _).
  destruct (scan_tiers_spec (pts_profile s) snapshot Hp Hn Hty Hdi
    (tier_preferences (pts_profile s) snapshot flags) (pts_ordered_indices s) start [])
    as (seen & buf & r & Er & Hbuf & Hinv & Hall).
  { apply tier_preferences_NoDup. } { by apply scan_start. } { done. } { done. } { apply Hw. }
  rewrite Er. rewrite Hfl in *. change (foldl _ _ cs) with (snapshot_flags (pts_profile s) snapshot) in *.
  change (first_batch _ _ _) with (reference_decision (pts_profile s) snapshot) in *.
  destruct (reference_decision (pts_profile s) snapshot) as [[tier phase] batch] eqn:Eref.
  cbn [fst snd] in *. destruct Hinv.
  assert (Hg : pts_generation s <> u64_max) by lia.
  rewrite sched_next_generation, si_included_count0 by done.
  assert (Htn : Z.to_nat (vsize batch) = length batch) by (unfold vsize; lia).
  rewrite Htn, si_included0. pose proof (vsize_nonneg cs).
  rewrite (wrap32_id (vsize cs)) by (unfold is_u32 in *; lia).
  pose proof (seen_bound cs seen si_seen0 si_range0) as Hsb.
  assert (Hrange : Forall (fun i => 0 <= i < vsize cs) batch).
  { rewrite Forall_forall in si_range0, si_batch_seen0 |- *. auto. }
  assert (Hres : forall i, 0 <= i < vsize cs -> (take (length cs) (ss_results r)).[i] = (ss_results r).[i]).
  { intros i Hi. unfold vat. rewrite lookup_total_take_lt by (unfold vsize in Hi; lia). done. }
  subst cs. split; [by split_and!|]. constructor; cbn; try done.
  - rewrite si_total0. apply si_tokens0.
  - rewrite si_scanned_count0. pose proof (vsize_nonneg seen). lia.
  - unfold vsize. rewrite length_take. unfold vsize in *. lia.
  - intros i Hi. rewrite Forall_forall in Hrange. rewrite Hres by auto. apply si_results0; auto.
  - intros i Hi Hne Hb Hph Hnb. rewrite Hres by done. intros Hk%si_results0; [|done].
    destruct Hk as [Hk|Hk]; [|done]. apply Hk. apply Hall; [done|exact Hi|exact Hb|exact Hph].
  - destruct Hw; constructor; cbn; rewrite ?Htn, ?si_counts0, ?si_included0; try done; try lia.
    + unfold is_u64 in *. lia.
    + pose proof (vsize_nonneg batch). lia.
    + apply Forall_map. eapply Forall_impl; [exact Hrange|]. intros i Hi.
      apply (count_typed _ Hty i Hi).
Qed.

(** ** Assembling the current decision *)

(** The row of the plan at an ordinal of the decision. *)
Definition plan_input_row (s : PhaseTierScheduler) (states : list ScheduledSequenceState)
    (ordinal : Z) : PackedSequenceInput :=
  let st := states.[(pts_included_indices s).[ordinal]] in
  MkSequenceInput (sss_sequence_generation st) (sss_committed_start_position st)
    ((pts_selected_token_counts s).[ordinal]) (sss_state_generation st) (sss_input_digest st).

Definition state_matches (s : PhaseTierScheduler) (states : list ScheduledSequenceState)
    (ordinal : Z) : bool :=
  let st := states.[(pts_included_indices s).[ordinal]] in
  (sss_sequence_generation st =? (pts_selected_generations s).[ordinal])
  && negb (sss_state_generation st =? 0).

Definition metadata_row (s : PhaseTierScheduler) (tokens : list ScheduledSequenceTokens)
    (ordinal : Z) : PackedSequenceTokens :=
  let t := tokens.[(pts_included_indices s).[ordinal]] in
  MkSequenceTokens (sst_sequence_generation t) (sst_token_ids t) (sst_produces_logits t).

Definition tokens_match (s : PhaseTierScheduler) (plan : PackedTokenPlan)
    (tokens : list ScheduledSequenceTokens) (ordinal : Z) : bool :=
  let t := tokens.[(pts_included_indices s).[ordinal]] in
  (sst_sequence_generation t =? (pts_selected_generations s).[ordinal])
  && (vsize (sst_token_ids t) =? (pts_selected_token_counts s).[ordinal])
  && ((pp_sequence_generations plan).[ordinal] =? (pts_selected_generations s).[ordinal])
  && ((pp_real_token_counts plan).[ordinal] =? (pts_selected_token_counts s).[ordinal]).

Lemma sum_counts_nonneg (l : list Z) : Forall is_u32 l -> 0 <= sum_list l.
Proof.
  intros H. apply sum_list_nonneg. eapply Forall_impl; [done|]. unfold is_u32. lia.
Qed.

Lemma assemble_rows_spec s states : forall fuel ordinal total inputs,
  0 <= ordinal -> ordinal + Z.of_nat fuel <= vsize inputs ->
  Forall (fun i => (pts_included_indices s).[i] < vsize states) (seqZ ordinal (Z.of_nat fuel)) ->
  Forall (fun i => is_u32 ((pts_selected_token_counts s).[i])) (seqZ ordinal (Z.of_nat fuel)) ->
  0 <= total ->
  total + sum_list (map (fun i => (pts_selected_token_counts s).[i]) (seqZ ordinal (Z.of_nat fuel))) <= u64_max ->
  if forallb (state_matches s states) (seqZ ordinal (Z.of_nat fuel))
  then assemble_rows s states fuel ordinal total inputs =
    (Value (total + sum_list (map (fun i => (pts_selected_token_counts s).[i]) (seqZ ordinal (Z.of_nat fuel)))),
     splice inputs ordinal (map (plan_input_row s states) (seqZ ordinal (Z.of_nat fuel))))
  else fst (assemble_rows s states fuel ordinal total inputs) =
    Error (InvalidArgument "scheduled sequence state drifted") /\
    vsize (snd (assemble_rows s states fuel ordinal total inputs)) = vsize inputs.
Proof.
  induction fuel as [|fuel IH]; intros ordinal total inputs H0 Hf Hi Hc Ht Hb.
  { rewrite seqZ_nil by lia. cbn [forallb map sum_list assemble_rows].
    by rewrite splice_nil, Z.add_0_r. }
  rewrite seqZ_cons in * by lia. replace (Z.pred (Z.of_nat (S fuel))) with (Z.of_nat fuel) in * by lia.
  change (Z.succ ordinal) with (ordinal + 1) in *.
  inversion Hi; inversion Hc; subst. cbn [map sum_list] in Hb.
  cbn [forallb assemble_rows map]. unfold state_matches at 1.
  destruct (_ >=? _) eqn:Eg; [lia|].
  set (st := states.[_]).
  destruct (sss_sequence_generation st =? _) eqn:E1, (sss_state_generation st =? 0) eqn:E2;
    cbn [negb andb orb]; try done.
  pose proof (sum_counts_nonneg (map (fun i => (pts_selected_token_counts s).[i])
    (seqZ (ordinal + 1) (Z.of_nat fuel)))) as Hs. rewrite Forall_map in Hs. specialize (Hs ltac:(done)).
  unfold is_u32 in *.
  rewrite wrap64_id by (unfold is_u64; lia).
  set (inputs' := inputs.[ordinal <- _]).
  assert (Hv : vsize inputs' = vsize inputs) by apply vsize_vput.
  specialize (IH (ordinal + 1) (total + (pts_selected_token_counts s).[ordinal]) inputs').
  do 6 (specialize (IH ltac:(first [done|lia]))).
  destruct (forallb _ _).
  - rewrite IH. cbn [sum_list]. f_equal; [f_equal; lia|].
    unfold inputs'. rewrite splice_cons by lia. done.
  - destruct IH as [-> ->]. by rewrite Hv.
Qed.

Lemma metadata_rows_spec s plan tokens : forall fuel ordinal inputs,
  0 <= ordinal -> ordinal + Z.of_nat fuel <= vsize inputs ->
  Forall (fun i => (pts_included_indices s).[i] < vsize tokens) (seqZ ordinal (Z.of_nat fuel)) ->
  if forallb (tokens_match s plan tokens) (seqZ ordinal (Z.of_nat fuel))
  then metadata_rows s plan tokens fuel ordinal inputs =
    (StatusOk, splice inputs ordinal (map (metadata_row s tokens) (seqZ ordinal (Z.of_nat fuel))))
  else fst (metadata_rows s plan tokens fuel ordinal inputs) =
    InvalidArgument "scheduled token payload drifted" /\
    vsize (snd (metadata_rows s plan tokens fuel ordinal inputs)) = vsize inputs.
Proof.
  induction fuel as [|fuel IH]; intros ordinal inputs H0 Hf Hi.
  { rewrite seqZ_nil by lia. cbn [forallb map metadata_rows]. by rewrite splice_nil. }
  rewrite seqZ_cons in * by lia. replace (Z.pred (Z.of_nat (S fuel))) with (Z.of_nat fuel) in * by lia.
  change (Z.succ ordinal) with (ordinal + 1) in *.
  inversion Hi; subst. cbn [forallb metadata_rows map].
  set (inputs' := inputs.[ordinal <- _]).
  assert (Hv : vsize inputs' = vsize inputs) by apply vsize_vput.
  specialize (IH (ordinal + 1) inputs'). do 3 (specialize (IH ltac:(first [done|lia]))).
  replace (_ || _) with (negb (tokens_match s plan tokens ordinal)).
  2: { unfold tokens_match. rewrite !negb_andb. destruct (_ >=? _) eqn:Eg; [lia|]. done. }
  destruct (tokens_match s plan tokens ordinal); cbn [negb andb]; [|done].
  destruct (forallb _ _).
  - rewrite IH. f_equal. unfold inputs'. rewrite splice_cons by lia. done.
  - destruct IH as [-> ->]. by rewrite Hv.
Qed.

Lemma map_vat_take {A} `{Inhabited A} (l : list A) n :
  0 <= n <= vsize l -> map (fun i => l.[i]) (seqZ 0 n) = take (Z.to_nat n) l.
Proof.
  intros Hn. apply list_eq. intros k.
  change (map (fun i => l.[i]) (seqZ 0 n)) with ((fun i => l.[i]) <$> seqZ 0 n).
  rewrite list_lookup_fmap. destruct (decide (Z.of_nat k < n)) as [Hk|Hk].
  - rewrite lookup_seqZ_lt by done. rewrite lookup_take_lt by lia. cbn.
    unfold vsize in *.
    pose proof (vat_lookup l (Z.of_nat k)) as E. unfold vsize in E. rewrite Nat2Z.id in E.
    rewrite E by lia. done.
  - rewrite lookup_seqZ_ge by lia. rewrite lookup_take_ge by lia. done.
Qed.

(** Facts on the ordinals of the current decision. *)
Lemma current_ordinals s :
  sched_wf s -> let n := pts_current_included_count s in
  Forall (fun i => 0 <= (pts_included_indices s).[i] < pts_current_candidate_count s) (seqZ 0 n) /\
  Forall (fun i => is_u32 ((pts_selected_token_counts s).[i])) (seqZ 0 n) /\
  sum_list (map (fun i => (pts_selected_token_counts s).[i]) (seqZ 0 n)) =
    pts_current_total_tokens s.
Proof.
  intros [] n. split_and!.
  - rewrite <- map_vat_take, Forall_map in sw_indices0 by lia. done.
  - rewrite <- map_vat_take, Forall_map in sw_counts_typed0 by lia. done.
  - rewrite map_vat_take by lia. done.
Qed.

Definition decision_current (s : PhaseTierScheduler) (generation size : Z) : bool :=
  negb (generation =? 0) && (generation =? pts_generation s)
  && negb (tier_eqb (pts_current_tier s) Tier.kIdle)
  && negb (pts_current_included_count s =? 0) && (size =? pts_current_candidate_count s).

Lemma upd_plan_inputs s inputs :
  sched_wf s -> vsize inputs = vsize (pts_plan_inputs s) ->
  sched_wf (s <| pts_plan_inputs := inputs |>).
Proof. intros [] Hv. constructor; cbn; try done. by rewrite Hv. Qed.

Lemma upd_metadata_inputs s inputs :
  sched_wf s -> vsize inputs = vsize (pts_metadata_inputs s) ->
  sched_wf (s <| pts_metadata_inputs := inputs |>).
Proof. intros [] Hv. constructor; cbn; try done. by rewrite Hv. Qed.

(** The whole of [assemble_current_plan], in closed form. *)
Lemma assemble_spec s generation identity states :
  sched_wf s ->
  let n := pts_current_included_count s in
  let '(r, s') := assemble_current_plan s generation identity states in
  sched_wf s' /\
  (exists inputs, s' = s <| pts_plan_inputs := inputs |>) /\
  r = if negb (decision_current s generation (vsize states))
      then Error (InvalidArgument "scheduler decision is stale or idle")
      else if negb (forallb (state_matches s states) (seqZ 0 n))
      then Error (InvalidArgument "scheduled sequence state drifted")
      else PackedTokenPlan_Create (spi_epoch identity) (spi_plan_sequence identity)
             (pts_current_phase s) (spi_profile_revision identity)
             (spi_resource_vector_hash identity) (map (plan_input_row s states) (seqZ 0 n))
             (spi_execution_bucket_tokens identity)
             (MkPlanLimits (ptp_maximum_sequences_per_plan (pts_profile s))
                (ptp_maximum_real_tokens_per_plan (pts_profile s))
                (spi_maximum_execution_bucket_tokens identity)).
Proof.
  intros Hw n. unfold assemble_current_plan.
  replace (_ || _) with (negb (decision_current s generation (vsize states)))
    by (unfold decision_current; rewrite !negb_andb, !negb_involutive; done).
  destruct (decision_current s generation (vsize states)) eqn:Ed; cbn [negb].
  2: { split_and!; [done|exists (pts_plan_inputs s); by destruct s|done]. }
  unfold decision_current in Ed. breflect.
  destruct (current_ordinals s Hw) as (Hi & Hc & Hsum). fold n in Hi, Hc, Hsum.
  pose proof Hw as []. destruct sw_profile0 as (? & ? & ? & ?). unfold is_u32 in *.
  pose proof (assemble_rows_spec s states (Z.to_nat n) 0 0 (pts_plan_inputs s)) as H'.
  rewrite Z2Nat.id in H' by lia. rewrite Hsum in H'.
  assert (Hi' : Forall (fun i => (pts_included_indices s).[i] < vsize states) (seqZ 0 n))
    by (eapply Forall_impl; [exact Hi|]; cbn; lia).
  specialize (H' ltac:(lia) ltac:(lia) Hi' Hc ltac:(lia) ltac:(lia)).
  fold n. destruct (forallb _ _); cbn [negb].
  - rewrite H'. rewrite Z.add_0_l, Z.eqb_refl. cbn [negb]. split_and!.
    + apply upd_plan_inputs; [done|]. apply vsize_splice; [lia|].
      unfold vsize at 1. rewrite length_map, length_seqZ. lia.
    + eauto.
    + f_equal. apply take_splice_0. rewrite length_map, length_seqZ. done.
  - destruct (assemble_rows _ _ _ _ _ _) as [r inputs]. cbn in H'. destruct H' as [-> Hv].
    split_and!; [by apply upd_plan_inputs|eauto|done].
Qed.

Definition metadata_current (s : PhaseTierScheduler) (generation size : Z)
    (plan : PackedTokenPlan) : bool :=
  decision_current s generation size && phase_eqb (pp_phase plan) (pts_current_phase s)
  && (pp_sequence_count plan =? pts_current_included_count s)
  && (pp_total_real_tokens plan =? pts_current_total_tokens s).

Lemma materialize_current_spec s generation plan tokens arena :
  sched_wf s ->
  let n := pts_current_included_count s in
  let '(r, (s', arena')) := materialize_current_metadata s generation plan tokens arena in
  sched_wf s' /\
  (exists inputs, s' = s <| pts_metadata_inputs := inputs |>) /\
  (r, arena') =
    if negb (metadata_current s generation (vsize tokens) plan)
    then (Error (InvalidArgument "packed metadata decision identity drifted"), arena)
    else if negb (forallb (tokens_match s plan tokens) (seqZ 0 n))
    then (Error (InvalidArgument "scheduled token payload drifted"), arena)
    else materialize arena plan (map (metadata_row s tokens) (seqZ 0 n)).
Proof.
  intros Hw n. unfold materialize_current_metadata.
  replace (_ || _) with (negb (metadata_current s generation (vsize tokens) plan)).
  2: { unfold metadata_current, decision_current. rewrite !negb_andb, !negb_involutive. done. }
  destruct (metadata_current s generation (vsize tokens) plan) eqn:Ed; cbn [negb].
  2: { split_and!; [done|exists (pts_metadata_inputs s); by destruct s|done]. }
  unfold metadata_current, decision_current in Ed. breflect.
  destruct (current_ordinals s Hw) as (Hi & _ & _). fold n in Hi. pose proof Hw as [].
  pose proof (metadata_rows_spec s plan tokens (Z.to_nat n) 0 (pts_metadata_inputs s)) as H'.
  rewrite Z2Nat.id in H' by lia.
  assert (Hi' : Forall (fun i => (pts_included_indices s).[i] < vsize tokens) (seqZ 0 n))
    by (eapply Forall_impl; [exact Hi|]; cbn; lia).
  specialize (H' ltac:(lia) ltac:(lia) Hi').
  fold n. destruct (forallb _ _); cbn [negb].
  - rewrite H'. change (negb (ok StatusOk)) with false. cbn beta iota.
    rewrite take_splice_0 by (rewrite length_map, length_seqZ; done).
    destruct (materialize _ _ _) as [view arena']. split_and!; [|eauto|done].
    apply upd_metadata_inputs; [done|]. apply vsize_splice; [lia|].
    unfold vsize at 1. rewrite length_map, length_seqZ. lia.
  - destruct (metadata_rows _ _ _ _ _ _) as [r inputs]. cbn in H'. destruct H' as [-> Hv].
    change (negb (ok (InvalidArgument _))) with true. cbn beta iota.
    split_and!; [by apply upd_metadata_inputs|eauto|done].
Qed.

(** ** The scheduler as a machine *)

Inductive sched_op :=
  | OpSelect (snapshot : SchedulerSnapshot)
  | OpAssemble (generation : Z) (identity : ScheduledPlanIdentity)
      (states : list ScheduledSequenceState)
  | OpMaterialize (generation : Z) (plan : PackedTokenPlan)
      (tokens : list ScheduledSequenceTokens) (arena : PackedTokenMetadataArena).

Inductive sched_result :=
  | Decision (r : Result SchedulerDecisionView)
  | Plan (r : Result PackedTokenPlan)
  | Metadata (r : Result PackedTokenMetadataView) (arena : PackedTokenMetadataArena).

Definition run_sched (s : PhaseTierScheduler) (op : sched_op) :
    sched_result * PhaseTierScheduler :=
  match op with
  | OpSelect snapshot => let '(r, s) := select s snapshot in (Decision r, s)
  | OpAssemble g identity states =>
      let '(r, s) := assemble_current_plan s g identity states in (Plan r, s)
  | OpMaterialize g plan tokens arena =>
      let '(r, (s, a)) := materialize_current_metadata s g plan tokens arena in
      (Metadata r a, s)
  end.

#[export] Instance sched_op_Typed : Typed sched_op := fun op =>
  match op with OpSelect snapshot => snapshot_typed snapshot | _ => True end.

Definition profile_typed (p : PhaseTierProfile) : Prop :=
  is_u32 (ptp_maximum_candidates p) /\ is_u32 (ptp_maximum_sequences_per_plan p) /\
  is_u32 (ptp_maximum_real_tokens_per_plan p) /\ is_u32 (ptp_scheduler_scan_limit p) /\
  is_u32 (ptp_max_consecutive_decode_rounds p).

#[export] Instance sched_Machine : Machine PhaseTierScheduler sched_op sched_result := {|
  m_run := run_sched;
  m_init s := exists p, profile_typed p /\ PhaseTierScheduler_Create p = Value s |}.

Lemma Create_sched_wf p s :
  profile_typed p -> PhaseTierScheduler_Create p = Value s -> sched_wf s.
Proof.
  intros (Hc & Hs & Ht & Hl & Hr). unfold PhaseTierScheduler_Create. case_match; [done|].
  breflect. intros [= <-]. unfold is_u32 in *.
  constructor; cbn; rewrite ?vsize_replicate, ?Z2Nat.id by lia; try done; try lia.
  unfold profile_ok, is_u32. lia.
Qed.

#[export] Instance sched_wf_inv : MachineInv sched_wf.
Proof.
  split.
  - intros s (p & Hp & Hc). by eapply Create_sched_wf.
  - intros s [snapshot|g identity states|g plan tokens arena] Hw Ht; cbn.
    + pose proof (select_spec s snapshot Hw Ht) as H.
      destruct (select s snapshot) as [[d|e] s']; cbn.
      * apply H.
      * destruct H as [-> _]. done.
    + pose proof (assemble_spec s g identity states Hw) as H. cbn zeta in H.
      destruct (assemble_current_plan _ _ _ _) as [r s']. apply H.
    + pose proof (materialize_current_spec s g plan tokens arena Hw) as H. cbn zeta in H.
      destruct (materialize_current_metadata _ _ _ _ _) as [r [s' a]]. apply H.
Qed.

(** The decision on a snapshot, from a state the scheduler can reach. *)
Lemma select_reachable s snapshot d s' :
  m_reachable s -> snapshot_typed snapshot -> select s snapshot = (Value d, s') ->
  profile_ok (pts_profile s) /\ snapshot_ok s snapshot /\ decided s snapshot d s'.
Proof.
  intros Hs Ht E. apply (reachable_inv sched_wf) in Hs.
  pose proof (select_spec s snapshot Hs Ht) as H. rewrite E in H. destruct H.
  split_and!; [apply Hs|done..].
Qed.
