(* ===== verification/SchedulerPolicy.v ===== *)
(** * What the phase-tier scheduler guarantees

    The policy behind [Scheduler.select], as properties of its decisions: the
    batch is the greedy one of the reference policy, the tiers rotate without
    starvation, and a decision assembles into its own plan. *)

From stdpp Require Import gmap sorting.
From S2P Require Import Prelude Core Sha256 TokenPlan TokenMetadata Scheduler.

(** ** Lemmas: the policy *)

Lemma fold_admit_app p cs : forall l b,
  exists b', foldl (admit_one p cs) b l = b ++ b' /\ sublist b' l.
Proof.
  induction l as [|i l IH]; intros b; cbn [foldl].
  { exists []. rewrite app_nil_r. split; [done|constructor]. }
  destruct (IH (admit_one p cs b i)) as (b' & -> & Hs). unfold admit_one. case_match.
  - exists (i :: b'). rewrite <- app_assoc. split; [done|by constructor].
  - exists b'. split; [done|by constructor].
Qed.

Lemma sublist_elem_of {A} (l k : list A) x : sublist l k -> x ∈ l -> x ∈ k.
Proof. intros H Hx. by eapply elem_of_submseteq, sublist_submseteq. Qed.

(** Whether a candidate enters the greedy batch depends on the members of the
    batch that precede it. *)
Lemma fold_admit_elem p cs l i :
  NoDup l -> StronglySorted (fun x y => round_robin cs x y = true /\ round_robin cs y x = false) l ->
  i ∈ foldl (admit_one p cs) [] l <->
  i ∈ l /\ fits p cs (filter (fun j => round_robin cs j i = true)
                        (foldl (admit_one p cs) [] l)) i = true.
Proof.
  intros Hnd Hsort.
  destruct (decide (i ∈ l)) as [Hi|Hi].
  2: { destruct (fold_admit_app p cs l []) as (b & -> & Hb). cbn [app].
       split; [intros Hin|tauto]. exfalso. apply Hi. by eapply sublist_elem_of. }
  apply list_elem_of_split in Hi as (l1 & l2 & ->).
  rewrite foldl_app. cbn [foldl]. set (b1 := foldl (admit_one p cs) [] l1).
  destruct (fold_admit_app p cs l1 []) as (b1' & E1 & Hb1). cbn [app] in E1.
  fold b1 in E1. subst b1'.
  destruct (fold_admit_app p cs l2 (admit_one p cs b1 i)) as (b2 & -> & Hb2).
  apply NoDup_app in Hnd as (_ & Hn1 & Hn2). apply NoDup_cons in Hn2 as [Hn2 _].
  apply StronglySorted_app in Hsort as (Hbefore & _ & Hafter).
  apply StronglySorted_cons in Hafter as [Hafter _]. rewrite Forall_forall in Hafter.
  assert (F1 : filter (fun j => round_robin cs j i = true) b1 = b1).
  { apply filter_all, Forall_forall. intros j Hj. apply (Hbefore j i); [|set_solver].
    by eapply sublist_elem_of. }
  assert (F2 : filter (fun j => round_robin cs j i = true) b2 = []).
  { apply elem_of_nil_inv. intros j [Hj Hjb]%list_elem_of_filter.
    destruct (Hafter j); [by eapply sublist_elem_of|congruence]. }
  assert (Hib1 : i ∉ b1) by (intros H; apply (Hn1 i); [by eapply sublist_elem_of|set_solver]).
  assert (Hib2 : i ∉ b2) by (intros H; apply Hn2; by eapply sublist_elem_of).
  assert (Fi : filter (fun j => round_robin cs j i = true) (admit_one p cs b1 i) = b1).
  { unfold admit_one. case_match; [|done]. rewrite filter_app, F1, filter_cons_False, filter_nil;
      [apply app_nil_r|]. unfold round_robin. cbn zeta. lia. }
  rewrite filter_app, Fi, F2, app_nil_r. unfold admit_one.
  destruct (fits p cs b1 i); set_solver.
Qed.

Lemma StronglySorted_sublist {A} (R : relation A) l k :
  sublist l k -> StronglySorted R k -> StronglySorted R l.
Proof.
  induction 1 as [|x l k Hs IH|x l k Hs IH]; [done| |]; intros [Hf Hk]%StronglySorted_cons.
  - apply StronglySorted_cons. split; [|by apply IH]. rewrite Forall_forall in *.
    intros y Hy. apply Hf. by eapply sublist_elem_of.
  - by apply IH.
Qed.

(** On distinct candidates the order of a tier is strict. *)
Lemma tier_order_strict p snapshot tier :
  distinct_identities (sn_candidates snapshot) ->
  StronglySorted (fun x y => round_robin (sn_candidates snapshot) x y = true /\
                             round_robin (sn_candidates snapshot) y x = false)
    (tier_order p snapshot tier).
Proof.
  intros Hd. pose proof (tier_order_NoDup p snapshot tier) as Hn.
  pose proof (tier_order_range p snapshot tier) as Hr.
  assert (Hs : StronglySorted (sort_rel (round_robin (sn_candidates snapshot)))
    (tier_order p snapshot tier)) by (apply std_sort_sorted; apply _).
  induction Hs as [|i l Hl IH Hi]; constructor.
  - apply IH; [by inversion Hn|by inversion Hr].
  - inversion Hn; inversion Hr; subst. rewrite Forall_forall in *. intros j Hj.
    split; [|by apply Hi]. apply not_false_iff_true. intros E.
    assert (i = j); [|by subst]. apply (round_robin_separates (sn_candidates snapshot)); auto.
Qed.

Lemma first_batch_cases p snapshot : forall prefs,
  match first_batch p snapshot prefs with
  | (tier, phase, []) =>
      tier = Tier.kIdle /\ forall t, t ∈ prefs -> snd (tier_batch p snapshot t) = []
  | (tier, phase, batch) => tier ∈ prefs /\ tier_batch p snapshot tier = (phase, batch)
  end.
Proof.
  induction prefs as [|t prefs IH]; cbn [first_batch].
  { split; [done|]. intros t Ht. by apply not_elem_of_nil in Ht. }
  destruct (tier_batch p snapshot t) as [ph [|b batch]] eqn:Eb; [|split; [set_solver|done]].
  destruct (first_batch p snapshot prefs) as [[tier phase] [|b batch]].
  - destruct IH as [-> IH]. split; [done|]. intros t' [->|?]%elem_of_cons; [by rewrite Eb|auto].
  - destruct IH. split; [set_solver|done].
Qed.

Lemma append_unique_idle prefs t : Tier.kIdle ∉ prefs -> Tier.kIdle ∉ append_unique prefs t.
Proof.
  intros Hi. unfold append_unique. destruct (tier_eqb t Tier.kIdle) eqn:Et; [done|].
  apply tier_eqb_false in Et. case_match; set_solver.
Qed.

Lemma tier_preferences_idle p snapshot f : Tier.kIdle ∉ tier_preferences p snapshot f.
Proof.
  unfold tier_preferences. repeat case_match;
    repeat apply append_unique_idle; apply not_elem_of_nil.
Qed.

(** A decision is idle exactly when its batch is empty, and its batch is its
    tier's greedy batch. *)
Lemma reference_cases p snapshot tier phase batch :
  reference_decision p snapshot = (tier, phase, batch) ->
  (tier = Tier.kIdle <-> batch = []) /\
  (batch <> [] -> tier_batch p snapshot tier = (phase, batch)).
Proof.
  intros E. unfold reference_decision in E.
  set (prefs := tier_preferences _ _ _) in E. pose proof (first_batch_cases p snapshot prefs) as H.
  rewrite E in H. destruct batch as [|b batch].
  - destruct H as [-> _]. done.
  - destruct H as [Ht ->]. split; [|done]. split; [|done]. intros ->.
    by apply tier_preferences_idle in Ht.
Qed.

(** The members of a batch are distinct and have its phase. *)
Lemma decided_members s snapshot d s' :
  decided s snapshot d s' ->
  NoDup (dv_included_candidate_indices d) /\
  forall i, i ∈ dv_included_candidate_indices d ->
    sc_next_phase ((sn_candidates snapshot).[i]) = dv_phase d.
Proof.
  intros []. symmetry in de_reference. apply reference_cases in de_reference as [_ Hb].
  destruct (decide (dv_included_candidate_indices d = [])) as [->|Hne].
  { split; [constructor|]. intros i Hi. by apply not_elem_of_nil in Hi. }
  specialize (Hb Hne). unfold tier_batch in Hb. injection Hb as Hph Hba. rewrite Hph in Hba.
  match type of Hba with foldl _ _ ?l = _ =>
    destruct (fold_admit_app (pts_profile s) (sn_candidates snapshot) l []) as (b & Eb & Hsub)
  end. cbn [app] in Eb. rewrite Eb in Hba. subst b. split.
  - eapply sublist_NoDup; [|exact Hsub]. apply NoDup_filter, tier_order_NoDup.
  - intros i Hi. eapply sublist_elem_of in Hi; [|exact Hsub].
    apply list_elem_of_filter in Hi as [Hi _]. exact Hi.
Qed.

Lemma belongs_phase p now tier c :
  belongs p now tier c = true ->
  tier = Tier.kDecodeFamily \/ tier = Tier.kIdle \/ sc_next_phase c = kPrefill.
Proof.
  unfold belongs. destruct tier; cbn; auto; intros; breflect; right; right; by apply phase_eqb_true.
Qed.

Lemma flags_fold p now : forall cs f,
  has_prefill (foldl (note_candidate p now) f cs) =
    has_prefill f || existsb (fun c => phase_eqb (sc_next_phase c) kPrefill) cs /\
  has_decode (foldl (note_candidate p now) f cs) =
    has_decode f || existsb (fun c => negb (phase_eqb (sc_next_phase c) kPrefill)) cs /\
  has_protected (foldl (note_candidate p now) f cs) =
    has_protected f ||
    existsb (fun c => phase_eqb (sc_next_phase c) kPrefill && starved p now c) cs.
Proof.
  induction cs as [|c cs IH]; intros f; cbn [foldl existsb].
  { by rewrite !orb_false_r. }
  destruct (IH (note_candidate p now f c)) as (-> & -> & ->). unfold note_candidate.
  destruct (phase_eqb _ _); cbn; rewrite ?orb_true_r, ?orb_assoc, ?orb_false_r; done.
Qed.

Lemma existsb_vat {A} `{Inhabited A} (f : A -> bool) l i :
  0 <= i < vsize l -> f (l.[i]) = true -> existsb f l = true.
Proof. intros Hi Hf. apply existsb_exists. exists (l.[i]). split; [by apply vat_In|done]. Qed.

(** A tier with a candidate of its phase that fits alone has a batch. *)
Lemma tier_batch_nonempty p snapshot tier i :
  0 <= i < vsize (sn_candidates snapshot) ->
  belongs p (sn_now_ns snapshot) tier ((sn_candidates snapshot).[i]) = true ->
  sc_next_phase ((sn_candidates snapshot).[i]) = fst (tier_batch p snapshot tier) ->
  fits p (sn_candidates snapshot) [] i = true ->
  snd (tier_batch p snapshot tier) <> [].
Proof.
  intros Hi Hb Hph Hf E. unfold tier_batch in E, Hph. cbn [fst snd] in E, Hph.
  apply fold_admit_nil in E. rewrite Forall_forall in E.
  rewrite (E i) in Hf; [done|]. apply list_elem_of_filter. split; [done|].
  by apply tier_order_elem.
Qed.

Lemma first_batch_head p snapshot tier prefs :
  snd (tier_batch p snapshot tier) <> [] ->
  first_batch p snapshot (tier :: prefs) =
  (tier, fst (tier_batch p snapshot tier), snd (tier_batch p snapshot tier)).
Proof.
  intros Hne. cbn [first_batch]. destruct (tier_batch p snapshot tier) as [ph [|b batch]]; done.
Qed.

(** ** Properties *)

(** C11. [select] decides by the policy: it rejects, unchanged, exactly the
    snapshots that exceed the profile or carry an invalid or duplicated
    candidate; otherwise its tier, phase and batch are those of the reference
    decision, which rescans every tier from scratch, although the code marks
    candidates as scanned and looks at each at most once, within the profile's
    scan limit. *)
Theorem select_implements_policy s snapshot
    (Hs : m_reachable s) (Ht : snapshot_typed snapshot) :
  match select s snapshot with
  | (Error e, s') => s' = s /\ ~ snapshot_ok s snapshot
  | (Value d, s') =>
      snapshot_ok s snapshot /\
      (dv_tier d, dv_phase d, dv_included_candidate_indices d) =
        reference_decision (pts_profile s) snapshot /\
      dv_generation d = pts_generation s + 1 /\ pts_generation s' = dv_generation d /\
      dv_scanned_count d <= vsize (sn_candidates snapshot) <=
        ptp_scheduler_scan_limit (pts_profile s)
  end.
Proof.
  pose proof (select_spec s snapshot (reachable_inv _ _ Hs) Ht) as H.
  pose proof (sw_profile _ (reachable_inv sched_wf _ Hs)) as (_ & _ & _ & Hl & _).
  destruct (select s snapshot) as [[d|e] s']; [|done]. destruct H as [Ho []].
  split_and!; try done; [|]. { lia. } destruct Ho as (_ & ? & _). lia.
Qed.

(** A batch is homogeneous, bounded and greedy: within the profile's limits
    on sequences and tokens, strictly in round-robin order; and a candidate is in
    it exactly when it belongs to the chosen tier, has the batch's phase, is
    feasible, and fits beside the members of the batch that precede it.  A
    candidate of that tier and phase that is left out has a recorded reason. *)
Theorem select_batch_greedy s snapshot d s'
    (Hs : m_reachable s) (Ht : snapshot_typed snapshot)
    (E : select s snapshot = (Value d, s')) :
  let p := pts_profile s in
  let cs := sn_candidates snapshot in
  let batch := dv_included_candidate_indices d in
  vsize batch <= ptp_maximum_sequences_per_plan p /\
  dv_total_real_tokens d = batch_tokens cs batch /\
  dv_total_real_tokens d <= ptp_maximum_real_tokens_per_plan p /\
  StronglySorted (fun i j => round_robin cs i j = true) batch /\
  (forall i, 0 <= i < vsize cs -> dv_tier d <> Tier.kIdle ->
     belongs p (sn_now_ns snapshot) (dv_tier d) (cs.[i]) = true ->
     sc_next_phase (cs.[i]) = dv_phase d ->
     (i ∈ batch <-> fits p cs (filter (fun j => round_robin cs j i = true) batch) i = true) /\
     ((dv_candidate_results d).[i] = Infeasible.kNone <-> i ∈ batch)) /\
  (forall i, i ∈ batch ->
     0 <= i < vsize cs /\ dv_tier d <> Tier.kIdle /\
     belongs p (sn_now_ns snapshot) (dv_tier d) (cs.[i]) = true /\
     sc_next_phase (cs.[i]) = dv_phase d).
Proof.
  intros p cs batch.
  destruct (select_reachable s snapshot d s' Hs Ht E) as (Hp & Hok & Hde).
  destruct Hok as (_ & Hn & _ & _ & Hd). pose proof (de_reference _ _ _ _ Hde) as Er. symmetry in Er.
  apply reference_cases in Er as [Hidle Hb]. fold p batch in Hidle, Hb.
  assert (Hl : batch <> [] -> batch =
    foldl (admit_one p cs) [] (filter (in_phase cs (dv_phase d)) (tier_order p snapshot (dv_tier d)))).
  { intros Hne. specialize (Hb Hne). unfold tier_batch in Hb. fold cs in Hb.
    injection Hb as Hph Hba. rewrite <- Hph. by rewrite Hba. }
  set (l := filter (in_phase cs (dv_phase d)) (tier_order p snapshot (dv_tier d))) in *.
  assert (Hls : StronglySorted (fun x y => round_robin cs x y = true /\ round_robin cs y x = false) l)
    by (eapply StronglySorted_sublist; [apply sublist_filter|by apply tier_order_strict]).
  assert (Hln : NoDup l) by (apply NoDup_filter, tier_order_NoDup).
  assert (Hmem : forall i, i ∈ l <-> 0 <= i < vsize cs /\
    belongs p (sn_now_ns snapshot) (dv_tier d) (cs.[i]) = true /\
    sc_next_phase (cs.[i]) = dv_phase d).
  { intros i. unfold l. rewrite list_elem_of_filter, tier_order_elem. unfold in_phase. tauto. }
  pose proof (fold_admit_elem p cs l) as Hel. pose proof Hde as [].
  split_and!; try done.
  - destruct (decide (batch = [])) as [->|Hne]; [constructor|]. rewrite Hl by done.
    destruct (fold_admit_app p cs l []) as (b & Eb & Hsub). cbn [app] in Eb. rewrite Eb.
    apply (StronglySorted_sublist _ _ l Hsub). clear -Hls.
    induction Hls; constructor; [done|]. eapply Forall_impl; [done|]. naive_solver.
  - intros i Hi Hni Hbe Hph. assert (Hne : batch <> []) by (by rewrite <- Hidle).
    split; [rewrite Hl, Hel by done; rewrite Hmem; tauto|]. split; [|by apply de_included_result].
    intros Hk. destruct (decide (i ∈ batch)); [done|]. by destruct (de_excluded_result i).
  - intros i Hi. assert (Hne : batch <> []) by (intros E'; rewrite E' in Hi; set_solver).
    rewrite Hl in Hi by done. apply Hel in Hi as [Hi _]; [|done..].
    apply Hmem in Hi as (? & ? & ?). split_and!; try done; [lia..|]. by rewrite Hidle.
Qed.

(** The first preference, in the three situations the rotation is about. *)
Lemma append_unique_head t l x : exists l', append_unique (t :: l) x = t :: l'.
Proof.
  unfold append_unique. do 2 (case_match; [eauto|]). exists (l ++ [x]). done.
Qed.

Ltac prefs_head :=
  repeat match goal with
  | |- context [append_unique (?t :: ?l) ?x] =>
      let l' := fresh "l'" in destruct (append_unique_head t l x) as [l' ->]
  end; eauto.

Lemma preferences_protected p snapshot f :
  has_protected f = true ->
  sn_last_successful_plan_was_protected_prefill snapshot = false \/ has_decode f = false ->
  exists rest, tier_preferences p snapshot f = Tier.kProtectedPrefill :: rest.
Proof.
  intros Hp Hl. unfold tier_preferences. rewrite Hp. cbn [andb].
  replace (negb (has_decode f) || _) with true
    by (destruct Hl as [-> | ->]; cbn; [by rewrite orb_true_r|done]).
  change (append_unique [] Tier.kProtectedPrefill) with [Tier.kProtectedPrefill].
  repeat case_match; prefs_head.
Qed.

Lemma preferences_decode p snapshot f :
  has_decode f = true -> sn_last_successful_plan_was_protected_prefill snapshot = true ->
  exists rest, tier_preferences p snapshot f = Tier.kDecodeFamily :: rest.
Proof.
  intros Hd Hl. unfold tier_preferences. rewrite Hd, Hl. cbn [negb orb]. rewrite andb_false_r. cbn [andb].
  change (append_unique [] Tier.kDecodeFamily) with [Tier.kDecodeFamily].
  repeat case_match; prefs_head.
Qed.

Lemma preferences_prefill p snapshot f :
  has_prefill f = true -> sn_last_successful_plan_was_protected_prefill snapshot = false ->
  ptp_max_consecutive_decode_rounds p <= sn_consecutive_decode_rounds snapshot ->
  exists rest, tier_preferences p snapshot f = Tier.kNormalPrefill :: rest \/
    tier_preferences p snapshot f = Tier.kProtectedPrefill :: Tier.kNormalPrefill :: rest.
Proof.
  intros Hpre Hl Hr. unfold tier_preferences. rewrite Hpre, Hl.
  replace (_ <? _) with false by lia. cbn [negb orb]. rewrite andb_false_r, orb_true_r, andb_true_r.
  destruct (has_protected f), (has_decode f); cbn; eauto.
Qed.

Lemma preferences_has_prefill p snapshot f :
  has_prefill f = true -> Tier.kNormalPrefill ∈ tier_preferences p snapshot f.
Proof.
  intros H. unfold tier_preferences. rewrite H.
  assert (Hn : forall l, Tier.kNormalPrefill ∈ append_unique l Tier.kNormalPrefill).
  { intros l. unfold append_unique. cbn. destruct (existsb _ l) eqn:Ex; [|set_solver].
    apply existsb_exists in Ex as (t & Ht & ->%tier_eqb_true). by apply list_elem_of_In. }
  assert (Hk : forall l t, Tier.kNormalPrefill ∈ l -> Tier.kNormalPrefill ∈ append_unique l t).
  { intros l t Hl. unfold append_unique. repeat case_match; set_solver. }
  case_match; auto.
Qed.

(** A starved prefill candidate. *)
Definition due (p : PhaseTierProfile) (now_ns : Z) (c : SchedulerCandidate) : bool :=
  phase_eqb (sc_next_phase c) kPrefill && starved p now_ns c.

Definition is_decode (c : SchedulerCandidate) : bool := negb (phase_eqb (sc_next_phase c) kPrefill).

Lemma snapshot_flags_eq p snapshot :
  let cs := sn_candidates snapshot in
  snapshot_flags p snapshot =
  MkFlags (existsb (fun c => phase_eqb (sc_next_phase c) kPrefill) cs) (existsb is_decode cs)
    (existsb (due p (sn_now_ns snapshot)) cs).
Proof.
  cbn. unfold snapshot_flags.
  destruct (flags_fold p (sn_now_ns snapshot) (sn_candidates snapshot) (MkFlags false false false))
    as (H1 & H2 & H3).
  destruct (foldl _ _ _) as [a b c]. cbn in *. by subst.
Qed.

Lemma prefill_tier_phase p snapshot tier :
  tier <> Tier.kDecodeFamily -> fst (tier_batch p snapshot tier) = kPrefill.
Proof.
  intros Ht. unfold tier_batch, tier_phase. cbn. apply tier_eqb_false in Ht. by rewrite Ht.
Qed.

Lemma prefill_batch_nonempty p snapshot i :
  0 <= i < vsize (sn_candidates snapshot) ->
  sc_next_phase ((sn_candidates snapshot).[i]) = kPrefill ->
  fits p (sn_candidates snapshot) [] i = true ->
  snd (tier_batch p snapshot Tier.kNormalPrefill) <> [].
Proof.
  intros Hi Hph Hf. apply (tier_batch_nonempty p snapshot _ i); [done| | |done].
  - unfold belongs. cbn. by apply phase_eqb_true.
  - by rewrite prefill_tier_phase.
Qed.

(** The first due candidate that fits alone is in the protected batch. *)
Lemma first_due_included p snapshot i :
  profile_ok p -> vsize (sn_candidates snapshot) <= ptp_maximum_candidates p ->
  Forall candidate_typed (sn_candidates snapshot) ->
  distinct_identities (sn_candidates snapshot) ->
  let cs := sn_candidates snapshot in
  0 <= i < vsize cs -> due p (sn_now_ns snapshot) (cs.[i]) = true -> fits p cs [] i = true ->
  (forall j, 0 <= j < vsize cs -> due p (sn_now_ns snapshot) (cs.[j]) = true ->
     round_robin cs j i = true -> fits p cs [] j = false) ->
  i ∈ snd (tier_batch p snapshot Tier.kProtectedPrefill).
Proof.
  intros Hp Hn Hty Hd cs Hi Hdue Hf Hfirst. cbn.
  set (l := filter _ _).
  assert (Hl : forall j, j ∈ l -> 0 <= j < vsize cs /\ due p (sn_now_ns snapshot) (cs.[j]) = true).
  { intros j [_ Hj%tier_order_elem]%list_elem_of_filter. exact Hj. }
  assert (Hlr : Forall (fun j => 0 <= j < vsize cs) l)
    by (apply Forall_forall; intros j Hj; apply (Hl j Hj)).
  apply fold_admit_elem.
  - apply NoDup_filter, tier_order_NoDup.
  - eapply StronglySorted_sublist; [apply sublist_filter|by apply tier_order_strict].
  - split.
    + apply list_elem_of_filter. unfold due in Hdue. breflect. split.
      * by apply phase_eqb_true.
      * apply tier_order_elem. split; [done|]. unfold belongs. cbn. fold cs. by rewrite H, H0.
    + replace (filter _ _) with (@nil Z); [done|]. symmetry. apply elem_of_nil_inv.
      intros j [Hji Hj]%list_elem_of_filter.
      destruct (fold_admit_app p cs l []) as (b & Eb & Hsub). cbn [app] in Eb.
      assert (Hjl : j ∈ l) by (eapply sublist_elem_of; [exact Hsub|by rewrite <- Eb]).
      destruct (Hl j Hjl) as [Hjr Hjd]. specialize (Hfirst j Hjr Hjd Hji).
      assert (Hskip := fold_admit_skip p snapshot Hp Hn Hty Hd (fun k => k <> j) l [] Hlr).
      rewrite <- Hskip in Hj; [|done|].
      * destruct (fold_admit_app p (sn_candidates snapshot) (filter (fun k => k <> j) l) []) as (b' & Eb' & Hsub').
        rewrite Eb' in Hj. cbn [app] in Hj. eapply sublist_elem_of in Hj; [|exact Hsub'].
        apply list_elem_of_filter in Hj as [Hj _]. done.
      * intros k _ Hk. apply dec_stable in Hk. by subst.
Qed.

(** The tiers rotate and nobody starves.  (1) Unless the last plan was a
    protected prefill and decode work is waiting, a starved prefill that fits
    makes the next batch a protected prefill, which includes the first such
    candidate in round-robin order.  (2) After a protected prefill, decode work
    that fits comes next.  (3) Once the decode rounds are used up, a prefill that
    fits is served.  (4) The scheduler idles only when no prefill fits. *)
Theorem tier_rotation s snapshot d s'
    (Hs : m_reachable s) (Ht : snapshot_typed snapshot)
    (E : select s snapshot = (Value d, s')) :
  let p := pts_profile s in
  let now := sn_now_ns snapshot in
  let cs := sn_candidates snapshot in
  let last := sn_last_successful_plan_was_protected_prefill snapshot in
  (forall i, 0 <= i < vsize cs -> due p now (cs.[i]) = true -> fits p cs [] i = true ->
     last = false \/ Forall (fun c => is_decode c = false) cs ->
     dv_tier d = Tier.kProtectedPrefill /\
     ((forall j, 0 <= j < vsize cs -> due p now (cs.[j]) = true ->
         round_robin cs j i = true -> fits p cs [] j = false) ->
      i ∈ dv_included_candidate_indices d)) /\
  (forall i, 0 <= i < vsize cs -> is_decode (cs.[i]) = true -> fits p cs [] i = true ->
     (forall j, 0 <= j < vsize cs -> is_decode (cs.[j]) = true ->
        sc_next_phase (cs.[j]) = sc_next_phase (cs.[i])) ->
     last = true -> dv_tier d = Tier.kDecodeFamily) /\
  (forall i, 0 <= i < vsize cs -> sc_next_phase (cs.[i]) = kPrefill -> fits p cs [] i = true ->
     last = false ->
     ptp_max_consecutive_decode_rounds p <= sn_consecutive_decode_rounds snapshot ->
     dv_phase d = kPrefill /\ dv_included_candidate_indices d <> []) /\
  (dv_tier d = Tier.kIdle -> forall i, 0 <= i < vsize cs ->
     sc_next_phase (cs.[i]) = kPrefill -> fits p cs [] i = false).
Proof.
  intros p now cs last.
  destruct (select_reachable s snapshot d s' Hs Ht E) as (Hp & Hok & Hde).
  destruct Hok as (_ & Hn & _ & _ & Hdi). destruct Ht as [_ Hty].
  pose proof (de_reference _ _ _ _ Hde) as Er. fold p in Er.
  pose proof (reference_cases p snapshot _ _ _ (eq_sym Er)) as [Hidle _].
  unfold reference_decision in Er. rewrite snapshot_flags_eq in Er. fold cs now in Er.
  set (f := MkFlags _ _ _) in Er.
  assert (Hpre : forall i, 0 <= i < vsize cs -> sc_next_phase (cs.[i]) = kPrefill ->
    has_prefill f = true).
  { intros i Hi Hph. apply (existsb_vat _ _ i Hi). by apply phase_eqb_true. }
  split_and!.
  - intros i Hi Hdue Hf Hl.
    destruct (preferences_protected p snapshot f) as [rest Hr].
    { by apply (existsb_vat _ _ i). }
    { destruct Hl as [Hl|Hl]; [by left|right]. cbn. apply not_true_iff_false.
      rewrite existsb_exists. intros (c & Hc & Hc'). rewrite Forall_forall in Hl.
      rewrite Hl in Hc'; [done|by apply list_elem_of_In]. }
    rewrite Hr, first_batch_head in Er.
    + injection Er as -> _ ->. split; [done|]. intros Hfirst. by apply first_due_included.
    + apply (tier_batch_nonempty p snapshot _ i); [done..| |done].
      rewrite prefill_tier_phase by done. unfold due in Hdue. breflect. by apply phase_eqb_true.
  - intros i Hi Hdec Hf Hsame Hl.
    destruct (preferences_decode p snapshot f) as [rest Hr]; [by apply (existsb_vat _ _ i)|done|].
    rewrite Hr, first_batch_head in Er; [by injection Er|].
    apply (tier_batch_nonempty p snapshot _ i); [done..| |done].
    unfold tier_batch, tier_phase. cbn [fst]. fold cs.
    assert (Hin : i ∈ tier_order p snapshot Tier.kDecodeFamily) by (by apply tier_order_elem).
    assert (Hrng := tier_order_elem p snapshot Tier.kDecodeFamily).
    destruct (tier_order p snapshot Tier.kDecodeFamily) as [|j l]; [set_solver|].
    rewrite vsize_cons. pose proof (vsize_nonneg l).
    destruct (1 + vsize l =? 0) eqn:E0; [lia|]. cbn. symmetry.
    destruct (proj1 (Hrng j)) as [Hjr Hjb]; [set_solver|]. by apply Hsame.
  - intros i Hi Hph Hf Hl Hr.
    pose proof (prefill_batch_nonempty p snapshot i Hi Hph Hf) as Hne.
    destruct (preferences_prefill p snapshot f) as [rest Hrest]; [eauto..|].
    pose proof (prefill_tier_phase p snapshot Tier.kProtectedPrefill ltac:(done)) as Hp1.
    pose proof (prefill_tier_phase p snapshot Tier.kNormalPrefill ltac:(done)) as Hp2.
    destruct Hrest as [Hrest|Hrest]; rewrite Hrest in Er.
    + rewrite first_batch_head in Er by done. split; congruence.
    + destruct (decide (snd (tier_batch p snapshot Tier.kProtectedPrefill) = [])) as [Hz|Hz].
      * pose proof (first_batch_head p snapshot _ rest Hne) as Hh.
        assert (Hsk : first_batch p snapshot (Tier.kProtectedPrefill :: Tier.kNormalPrefill :: rest)
          = first_batch p snapshot (Tier.kNormalPrefill :: rest)).
        { cbn [first_batch]. destruct (tier_batch p snapshot Tier.kProtectedPrefill) as [ph b].
          cbn in Hz. by subst b. }
        rewrite Hsk, Hh in Er. split; congruence.
      * rewrite first_batch_head in Er by done. split; congruence.
  - intros Hid i Hi Hph. apply not_true_iff_false. intros Hf.
    pose proof (prefill_batch_nonempty p snapshot i Hi Hph Hf) as Hne. apply Hne.
    pose proof (first_batch_cases p snapshot (tier_preferences p snapshot f)) as Hc.
    rewrite <- Er in Hc. apply Hidle in Hid as Hb. rewrite Hb in Hc. apply Hc.
    by apply preferences_has_prefill, (Hpre i).
Qed.

(** Running over the ordinals of a vector is running over the vector. *)
Lemma map_ordinals {A B} `{Inhabited A} (f : A -> B) (g : Z -> B) (l : list A) :
  (forall o, 0 <= o < vsize l -> g o = f (l.[o])) -> map g (seqZ 0 (vsize l)) = map f l.
Proof.
  intros Hg. transitivity (map f (map (fun o => l.[o]) (seqZ 0 (vsize l)))).
  - rewrite map_map. apply map_ext_in. intros o Ho%list_elem_of_In%elem_of_seqZ. apply Hg. lia.
  - rewrite map_vat_take by (pose proof (vsize_nonneg l); lia). unfold vsize.
    by rewrite Nat2Z.id, take_ge.
Qed.

Lemma forallb_ordinals {A} `{Inhabited A} (f : A -> bool) (g : Z -> bool) (l : list A) :
  (forall o, 0 <= o < vsize l -> g o = f (l.[o])) ->
  forallb g (seqZ 0 (vsize l)) = forallb f l.
Proof.
  intros Hg.
  assert (E : forall {C} (h : C -> bool) k, forallb h k = forallb (fun b => b) (map h k)).
  { intros C h k. induction k; cbn; [done|]. by f_equal. }
  rewrite (E _ g), (E _ f). f_equal. by apply map_ordinals.
Qed.

Lemma vat_take {A} `{Inhabited A} (l b : list A) n o :
  take n l = b -> 0 <= o < vsize b -> l.[o] = b.[o].
Proof.
  intros <- Ho. unfold vat, vsize in *. rewrite length_take in Ho.
  by rewrite lookup_total_take_lt by lia.
Qed.

(** The parallel vectors of a decision, at an ordinal of its batch. *)
Lemma decided_rows s snapshot d s' o :
  decided s snapshot d s' -> 0 <= o < vsize (dv_included_candidate_indices d) ->
  let i := (dv_included_candidate_indices d).[o] in
  (pts_included_indices s').[o] = i /\
  (pts_selected_generations s').[o] = sc_sequence_generation ((sn_candidates snapshot).[i]) /\
  (pts_selected_token_counts s').[o] = sc_real_token_count ((sn_candidates snapshot).[i]).
Proof.
  intros [] Ho i. split_and!.
  - by eapply vat_take.
  - erewrite vat_take; [|exact de_current_generations|by rewrite vsize_map]. by rewrite vat_map.
  - erewrite vat_take; [|exact de_current_counts|by rewrite vsize_map]. by rewrite vat_map.
Qed.

(** Assembling right after a decision, in terms of the decision. *)
Lemma assemble_decided s snapshot d s' generation identity states :
  sched_wf s -> decided s snapshot d s' ->
  let cs := sn_candidates snapshot in
  fst (assemble_current_plan s' generation identity states) =
  if negb ((generation =? dv_generation d) && negb (tier_eqb (dv_tier d) Tier.kIdle)
           && (vsize states =? vsize cs))
  then Error (InvalidArgument "scheduler decision is stale or idle")
  else if negb (forallb (fun i =>
    (sss_sequence_generation (states.[i]) =? sc_sequence_generation (cs.[i]))
    && negb (sss_state_generation (states.[i]) =? 0)) (dv_included_candidate_indices d))
  then Error (InvalidArgument "scheduled sequence state drifted")
  else PackedTokenPlan_Create (spi_epoch identity) (spi_plan_sequence identity) (dv_phase d)
    (spi_profile_revision identity) (spi_resource_vector_hash identity)
    (map (fun i => MkSequenceInput (sss_sequence_generation (states.[i]))
            (sss_committed_start_position (states.[i])) (sc_real_token_count (cs.[i]))
            (sss_state_generation (states.[i])) (sss_input_digest (states.[i])))
       (dv_included_candidate_indices d))
    (spi_execution_bucket_tokens identity)
    (MkPlanLimits (ptp_maximum_sequences_per_plan (pts_profile s))
       (ptp_maximum_real_tokens_per_plan (pts_profile s))
       (spi_maximum_execution_bucket_tokens identity)).
Proof.
  intros Hsw Hde cs. pose proof (sw_generation _ Hsw) as Hg.
  pose proof (reference_cases _ _ _ _ _ (eq_sym (de_reference _ _ _ _ Hde))) as [Hidle _].
  pose proof (assemble_spec s' generation identity states (de_wf _ _ _ _ Hde)) as Ha. cbn zeta in Ha.
  destruct (assemble_current_plan _ _ _ _) as [r s1]. destruct Ha as (_ & _ & ->). cbn [fst].
  pose proof (decided_rows s snapshot d s') as Hrow. destruct Hde.
  rewrite de_current_count, de_profile, de_current_phase.
  erewrite forallb_ordinals, map_ordinals.
  - replace (decision_current s' generation (vsize states))
      with ((generation =? dv_generation d) && negb (tier_eqb (dv_tier d) Tier.kIdle)
            && (vsize states =? vsize cs)); [reflexivity|].
    unfold decision_current. rewrite de_current_tier, de_current_generation,
      de_current_count, de_current_candidates. fold cs. unfold is_u64 in *.
    destruct (tier_eqb (dv_tier d) Tier.kIdle) eqn:Et; [by rewrite !andb_false_r|].
    apply tier_eqb_false in Et.
    destruct (dv_included_candidate_indices d) as [|b batch] eqn:Eb; [by destruct Et; apply Hidle|].
    rewrite vsize_cons. pose proof (vsize_nonneg batch).
    destruct (1 + vsize batch =? 0) eqn:E1; [lia|].
    destruct (generation =? dv_generation d) eqn:E2, (generation =? 0) eqn:E3; try done. lia.
  - intros o Ho. destruct (Hrow o ltac:(by constructor) Ho) as (H1 & H2 & H3).
    unfold plan_input_row. rewrite H1, H3. reflexivity.
  - intros o Ho. destruct (Hrow o ltac:(by constructor) Ho) as (H1 & H2 & H3).
    unfold state_matches. rewrite H1, H2. reflexivity.
Qed.

(** C37. A decision assembles into its own plan.  Right after [select], a stale
    generation, an idle decision or a state vector of another size is refused; a
    state that does not belong to the candidate it stands for is refused as
    drifted; otherwise the result is the packed plan of exactly the selected
    candidates, in batch order, with their selected token counts and the
    decision's phase.  The token ledger never drifts. *)
Theorem assemble_selected_plan s snapshot d s' generation identity states
    (Hs : m_reachable s) (Ht : snapshot_typed snapshot)
    (E : select s snapshot = (Value d, s')) :
  let cs := sn_candidates snapshot in
  fst (assemble_current_plan s' generation identity states) =
  if negb ((generation =? dv_generation d) && negb (tier_eqb (dv_tier d) Tier.kIdle)
           && (vsize states =? vsize cs))
  then Error (InvalidArgument "scheduler decision is stale or idle")
  else if negb (forallb (fun i =>
    (sss_sequence_generation (states.[i]) =? sc_sequence_generation (cs.[i]))
    && negb (sss_state_generation (states.[i]) =? 0)) (dv_included_candidate_indices d))
  then Error (InvalidArgument "scheduled sequence state drifted")
  else PackedTokenPlan_Create (spi_epoch identity) (spi_plan_sequence identity) (dv_phase d)
    (spi_profile_revision identity) (spi_resource_vector_hash identity)
    (map (fun i => MkSequenceInput (sss_sequence_generation (states.[i]))
            (sss_committed_start_position (states.[i])) (sc_real_token_count (cs.[i]))
            (sss_state_generation (states.[i])) (sss_input_digest (states.[i])))
       (dv_included_candidate_indices d))
    (spi_execution_bucket_tokens identity)
    (MkPlanLimits (ptp_maximum_sequences_per_plan (pts_profile s))
       (ptp_maximum_real_tokens_per_plan (pts_profile s))
       (spi_maximum_execution_bucket_tokens identity)).
Proof.
  pose proof (reachable_inv sched_wf _ Hs) as Hw.
  destruct (select_reachable s snapshot d s' Hs Ht E) as (_ & _ & Hde).
  by apply assemble_decided.
Qed.

(** ** Witnesses *)

(** A profile, and a snapshot with one starved prefill, one recent prefill and
    two decodes, one of which lacks an output credit. *)
Definition sample_profile : PhaseTierProfile := MkProfile 4 2 8 4 2 100.

Definition sample_scheduler : PhaseTierScheduler := PhaseTierScheduler_new sample_profile.

Definition sample_snapshot (last : bool) : SchedulerSnapshot :=
  MkSnapshot 150 2 last
    [ MkCandidate 11 kPrefill 3 7 120 4 Infeasible.kNone;
      MkCandidate 12 kPrefill 2 6 10 5 Infeasible.kNone;
      MkCandidate 13 kDecode 1 5 0 1 Infeasible.kOutputCredit;
      MkCandidate 14 kDecode 2 4 0 1 Infeasible.kNone ].

Lemma sample_scheduler_reachable : m_reachable sample_scheduler.
Proof.
  exists sample_scheduler. split; [|constructor].
  exists sample_profile. split; [|reflexivity].
  unfold profile_typed, is_u32; cbn; lia.
Qed.

Lemma sample_snapshot_typed last : snapshot_typed (sample_snapshot last).
Proof.
  split; [unfold is_u32; cbn; lia|].
  repeat constructor; unfold is_u64, is_u32; cbn; lia.
Qed.

Lemma select_implements_policy_witness :
  reference_decision sample_profile (sample_snapshot true) = (Tier.kDecodeFamily, kDecode, [3]) /\
  match select sample_scheduler (sample_snapshot true) with
  | (Value d, _) => dv_tier d = Tier.kDecodeFamily /\ dv_scanned_count d = 2
  | _ => False
  end.
Proof.
  pose proof (select_implements_policy sample_scheduler (sample_snapshot true)
    sample_scheduler_reachable (sample_snapshot_typed true)) as H.
  destruct (select sample_scheduler (sample_snapshot true)) as [r s'] eqn:E.
  assert (E' : fst (select sample_scheduler (sample_snapshot true)) = r) by (by rewrite E).
  vm_compute in E'. subst r. split; [|done].
  destruct H as (_ & H & _). exact (eq_sym H).
Defined.

Lemma select_batch_greedy_witness :
  match select sample_scheduler (sample_snapshot false) with
  | (Value d, _) => dv_tier d = Tier.kProtectedPrefill /\ 1 ∈ dv_included_candidate_indices d
  | _ => False
  end.
Proof.
  destruct (select sample_scheduler (sample_snapshot false)) as [[d|e] s'] eqn:E;
    [|by vm_compute in E].
  assert (Hd : dv_tier d = Tier.kProtectedPrefill) by (vm_compute in E; by simplify_eq).
  assert (Hph : dv_phase d = kPrefill) by (vm_compute in E; by simplify_eq).
  assert (Hr : (dv_candidate_results d).[1] = Infeasible.kNone)
    by (vm_compute in E; by simplify_eq).
  split; [done|].
  destruct (select_batch_greedy sample_scheduler (sample_snapshot false) d s'
    sample_scheduler_reachable (sample_snapshot_typed false) E) as (_ & _ & _ & _ & H & _).
  apply (H 1); [by cbn|by rewrite Hd|by rewrite Hd|by rewrite Hph|done].
Defined.

Lemma tier_rotation_witness :
  match select sample_scheduler (sample_snapshot false) with
  | (Value d, _) => dv_tier d = Tier.kProtectedPrefill
  | _ => False
  end.
Proof.
  destruct (select sample_scheduler (sample_snapshot false)) as [[d|e] s'] eqn:E;
    [|by vm_compute in E].
  destruct (tier_rotation sample_scheduler (sample_snapshot false) d s'
    sample_scheduler_reachable (sample_snapshot_typed false) E) as (H & _).
  apply (H 1); [by cbn|reflexivity|reflexivity|by left].
Defined.

Lemma assemble_selected_plan_witness :
  match select sample_scheduler (sample_snapshot true) with
  | (Value d, s') =>
      rok (fst (assemble_current_plan s' 1
        (MkPlanIdentity 1 1 "rev" (sample_digest 1) 1 8)
        (replicate 4 (MkScheduledState 14 9 3 (sample_digest 2))))) = true
  | _ => False
  end.
Proof.
  destruct (select sample_scheduler (sample_snapshot true)) as [[d|e] s'] eqn:E;
    [|by vm_compute in E].
  rewrite (assemble_selected_plan sample_scheduler (sample_snapshot true) d s' 1
    (MkPlanIdentity 1 1 "rev" (sample_digest 1) 1 8)
    (replicate 4 (MkScheduledState 14 9 3 (sample_digest 2)))
    sample_scheduler_reachable (sample_snapshot_typed true) E).
  vm_compute in E. simplify_eq. vm_compute. reflexivity.
Defined.
