(* ===== verification/Runtime.v ===== *)
(** * The controller runtime

    Models [include/pih/scheduler/controller_runtime.h] and
    [plugins/execution-default/controller_runtime.cpp]: the single-writer
    controller that owns the ingress, the sequence slots, the scheduler, the
    metadata arena and the output credits, and drives a plan from admission to
    acknowledgement.

    The class keeps vectors for the rows of one call ([candidates_],
    [candidate_states_], [candidate_tokens_], [candidate_slot_indices_],
    [completion_digests_], [sampled_completions_], [sampled_token_storage_]);
    a call writes a prefix of them and reads only that prefix, so they are lists
    local to the call here.  The vectors that outlive a call are state. *)

From stdpp Require Import gmap.
From S2P Require Import Prelude Core Sha256 TokenPlan TokenMetadata Sequence BurstCredits.
From S2P Require Import Mailbox RequestArena Ingress Scheduler.

Module RuntimeState.
Inductive ControllerRuntimeState := kReady | kFailed | kClosed.

#[global] Instance ControllerRuntimeState_eq_dec : EqDecision ControllerRuntimeState.
Proof. solve_decision. Defined.
End RuntimeState.
Export RuntimeState(ControllerRuntimeState).

Definition ready (s : ControllerRuntimeState) : bool :=
  match s with RuntimeState.kReady => true | _ => false end.

Module RuntimeStep.
Inductive ControllerRuntimeStep :=
  kIdle | kOutputBackpressured | kAdmitted | kCancelRequested | kAdmissionRejected.
End RuntimeStep.
Export RuntimeStep(ControllerRuntimeStep).

Record ControllerRuntimeLimits := MkRuntimeLimits {
  rl_epoch : Z;
  rl_maximum_sequences : Z;
  rl_ingress : ControllerIngressLimits;
  rl_scheduler : PhaseTierProfile;
  rl_metadata : PackedTokenMetadataLimits;
  rl_maximum_prefill_chunk_tokens : Z;
  rl_pad_to_maximum_execution_bucket : bool;
  rl_profile_revision : string;
  rl_resource_vector_hash : Sha256Digest;
  rl_eos_token_id : Z;
  rl_output_burst_credit_count : Z;
  rl_output_maximum_slots_per_credit : Z;
  rl_output_maximum_bytes_per_credit : Z;
  rl_output_plan_kind : OutputPlanKind }.

Record ControllerPreparedPlanView := MkPreparedPlan {
  ppv_plan : PackedTokenPlan;
  ppv_metadata : PackedTokenMetadataView;
  ppv_selected_slot_indices : list Z;
  ppv_selected_sampling : list ControllerRequestSampling;
  ppv_plan_digest : Sha256Digest }.

Record ControllerBackendSequenceResult := MkBackendResult {
  br_completion : ControllerPlanCompletion;
  br_accepted_token_ids : list Z }.

#[export] Instance ControllerBackendSequenceResult_inhabited :
    Inhabited ControllerBackendSequenceResult :=
  populate (MkBackendResult (MkCompletion 0 0 0 0 0 kPrefill false) []).

(** The abstract class whose implementations take part in an admission, with
    the state [PS] of the implementation. *)
Record ControllerAdmissionParticipant (PS : Type) := MkParticipant {
  pa_reserve : PS -> ControllerAdmissionView -> Status * PS;
  pa_publish : PS -> Z -> Status * PS;
  pa_rollback : PS -> Z -> Status * PS }.
Arguments pa_reserve {PS} c.
Arguments pa_publish {PS} c.
Arguments pa_rollback {PS} c.

Module RuntimeSlot.
Record Slot := MkSlot {
  sequence : option ControllerSequence;
  request : ControllerRequestView;
  pending_token : option Z;
  last_service_plan_sequence : Z;
  ready_enqueue_sequence : Z;
  prefill_eligible_since_ns : Z }.

Definition empty_request : ControllerRequestView :=
  MkRequestView 0 0 0 (MkSpan 0 0) 0 default_sampling zero_digest.

Definition empty : Slot := MkSlot None empty_request None 0 0 0.

#[global] Instance Slot_inhabited : Inhabited Slot := populate empty.

#[global] Instance eta_Slot : Eta Slot := fun s =>
  MkSlot (sequence s) (request s) (pending_token s) (last_service_plan_sequence s)
    (ready_enqueue_sequence s) (prefill_eligible_since_ns s).
End RuntimeSlot.
Abbreviation Slot := RuntimeSlot.Slot.
Abbreviation slot_sequence := RuntimeSlot.sequence.
Abbreviation slot_request := RuntimeSlot.request.
Abbreviation slot_pending_token := RuntimeSlot.pending_token.

(** The members that the constructor sets once. *)
Record RuntimeConfig := MkRuntimeConfig {
  rc_epoch : Z;
  rc_output_maximum_slots_per_credit : Z;
  rc_output_maximum_bytes_per_credit : Z;
  rc_output_plan_kind : OutputPlanKind;
  rc_maximum_prefill_chunk_tokens : Z;
  rc_maximum_execution_bucket_tokens : Z;
  rc_pad_to_maximum_execution_bucket : bool;
  rc_profile_revision : string;
  rc_resource_vector_hash : Sha256Digest;
  rc_eos_token_id : Z }.

(** The members that [clear_current_plan] resets. *)
Record CurrentPlan := MkCurrentPlan {
  cp_plan : option PackedTokenPlan;
  cp_output_burst : option OutputBurstLease;
  cp_plan_digest : Sha256Digest;
  cp_tier : SchedulerTier;
  cp_selected_count : Z }.

Record ControllerRuntime := MkRuntime {
  rt_config : RuntimeConfig;
  rt_ingress : ControllerIngress;
  rt_slots : list Slot;
  rt_scheduler : PhaseTierScheduler;
  rt_metadata : PackedTokenMetadataArena;
  rt_output_credits : OutputBurstCreditPool;
  rt_pending_output_bursts : list (option OutputBurstLease);
  rt_selected_slot_indices : list Z;
  rt_selected_sampling : list ControllerRequestSampling;
  rt_current : CurrentPlan;
  rt_next_ready_enqueue_sequence : Z;
  rt_next_plan_sequence : Z;
  rt_last_controller_now_ns : Z;
  rt_consecutive_decode_rounds : Z;
  rt_last_successful_plan_was_protected_prefill : bool;
  rt_state : ControllerRuntimeState;
  rt_active_sequence_count : Z }.

#[export] Instance eta_ControllerRuntime : Eta ControllerRuntime := fun r =>
  MkRuntime (rt_config r) (rt_ingress r) (rt_slots r) (rt_scheduler r) (rt_metadata r)
    (rt_output_credits r) (rt_pending_output_bursts r) (rt_selected_slot_indices r)
    (rt_selected_sampling r) (rt_current r) (rt_next_ready_enqueue_sequence r)
    (rt_next_plan_sequence r) (rt_last_controller_now_ns r) (rt_consecutive_decode_rounds r)
    (rt_last_successful_plan_was_protected_prefill r) (rt_state r) (rt_active_sequence_count r).

#[export] Instance ControllerRequestSampling_inhabited : Inhabited ControllerRequestSampling :=
  populate default_sampling.

#[export] Instance eta_ControllerRequestSampling : Eta ControllerRequestSampling := fun s =>
  MkSampling (sm_mode s) (sm_temperature s) (sm_top_p s) (sm_top_k s) (sm_effective_seed s)
    (sm_sample_ordinal s) (sm_minimum_new_tokens s) (sm_logprobs_enabled s)
    (sm_top_logprobs_count s) (sm_stop_token_ids s) (sm_stop_token_count s).

Definition no_current_plan : CurrentPlan := MkCurrentPlan None None zero_digest Tier.kIdle 0.

(** ** Construction *)

Definition runtime_limits_invalid (l : ControllerRuntimeLimits) : bool :=
  (rl_epoch l =? 0) || (rl_maximum_sequences l =? 0)
  || negb (rl_maximum_sequences l =? rql_maximum_requests (igl_requests (rl_ingress l)))
  || negb (ptp_maximum_candidates (rl_scheduler l) =? rl_maximum_sequences l)
  || (pml_maximum_sequences (rl_metadata l) <? ptp_maximum_sequences_per_plan (rl_scheduler l))
  || (pml_maximum_execution_bucket_tokens (rl_metadata l) <?
      ptp_maximum_real_tokens_per_plan (rl_scheduler l))
  || (rl_maximum_prefill_chunk_tokens l =? 0)
  || (rl_maximum_prefill_chunk_tokens l >? ptp_maximum_real_tokens_per_plan (rl_scheduler l))
  || (String.length (rl_profile_revision l) =? 0)%nat
  || (128 <? String.length (rl_profile_revision l))%nat
  || negb (digest_nonzero (rl_resource_vector_hash l)).

Definition ControllerRuntime_new (l : ControllerRuntimeLimits) (ingress : ControllerIngress)
    (scheduler : PhaseTierScheduler) (metadata : PackedTokenMetadataArena)
    (output_credits : OutputBurstCreditPool) : ControllerRuntime :=
  let seqs := Z.to_nat (ptp_maximum_sequences_per_plan (rl_scheduler l)) in
  MkRuntime
    (MkRuntimeConfig (rl_epoch l) (rl_output_maximum_slots_per_credit l)
       (rl_output_maximum_bytes_per_credit l) (rl_output_plan_kind l)
       (rl_maximum_prefill_chunk_tokens l)
       (pml_maximum_execution_bucket_tokens (rl_metadata l))
       (rl_pad_to_maximum_execution_bucket l) (rl_profile_revision l)
       (rl_resource_vector_hash l) (rl_eos_token_id l))
    ingress (replicate (Z.to_nat (rl_maximum_sequences l)) RuntimeSlot.empty) scheduler metadata
    output_credits (replicate (Z.to_nat (rl_output_burst_credit_count l)) None)
    (replicate seqs 0) (replicate seqs default_sampling) no_current_plan 1 1 0 0 false
    RuntimeState.kReady 0.

Definition ControllerRuntime_Create (l : ControllerRuntimeLimits) : Result ControllerRuntime :=
  if runtime_limits_invalid l
  then Error (InvalidArgument "controller runtime limits are inconsistent")
  else
    let? ingress := ControllerIngress_Create (rl_ingress l) in
    let? scheduler := PhaseTierScheduler_Create (rl_scheduler l) in
    let? metadata := PackedTokenMetadataArena_Create (rl_metadata l) in
    let? output_credits := OutputBurstCreditPool_Create
      (MkCreditLimits (rl_output_burst_credit_count l) 1 5
         (rl_output_maximum_slots_per_credit l) (rl_output_maximum_bytes_per_credit l)) in
    Value (ControllerRuntime_new l ingress scheduler metadata output_credits).

(** [state_.store(kFailed)]. *)
Definition mark_failed (rt : ControllerRuntime) : ControllerRuntime :=
  rt <| rt_state := RuntimeState.kFailed |>.

Definition set_sequence (rt : ControllerRuntime) (i : Z) (s : option ControllerSequence) :
    ControllerRuntime :=
  rt <| rt_slots := (rt_slots rt).[i <- ((rt_slots rt).[i]) <| RuntimeSlot.sequence := s |>] |>.

(** [*slots_[i].sequence]; the callers dereference an engaged optional. *)
Definition sequence_at (rt : ControllerRuntime) (i : Z) : ControllerSequence :=
  match slot_sequence ((rt_slots rt).[i]) with
  | Some s => s
  | None => MkSequence 0 0 0 0 0 0 0 kPrefill kDecode SeqState.kQueuedPrefill
              SeqState.kQueuedPrefill false
  end.

(** A call of a member function of the sequence in a slot. *)
Definition on_sequence (rt : ControllerRuntime) (i : Z)
    (op : ControllerSequence -> Status * ControllerSequence) : Status * ControllerRuntime :=
  let '(status, s) := op (sequence_at rt i) in (status, set_sequence rt i (Some s)).

(** ** Ingress side *)

Definition submit_admit (rt : ControllerRuntime) (request_generation : Z) (prompt : list Z)
    (maximum_new_tokens : Z) (sampling : ControllerRequestSampling) :
    Result ControllerCommand * ControllerRuntime :=
  if negb (ready (rt_state rt))
  then (Error (FailedPrecondition "controller runtime is not ready"), rt)
  else
    let '(r, ig) := Ingress.submit_admit (rt_ingress rt) (rc_epoch (rt_config rt))
      request_generation prompt maximum_new_tokens sampling in
    (r, rt <| rt_ingress := ig |>).

Definition submit_cancel (rt : ControllerRuntime) (request_generation : Z) :
    Result ControllerCommand * ControllerRuntime :=
  if negb (ready (rt_state rt))
  then (Error (FailedPrecondition "controller runtime is not ready"), rt)
  else
    let '(r, ig) := Ingress.submit_cancel (rt_ingress rt) (rc_epoch (rt_config rt))
      request_generation in
    (r, rt <| rt_ingress := ig |>).

Definition try_take_event (rt : ControllerRuntime) :
    Result (option ControllerOutputEvent) * ControllerRuntime :=
  let '(r, ig) := Ingress.try_take_event (rt_ingress rt) in (r, rt <| rt_ingress := ig |>).

(** [ingress_.publish_event] and [ingress_.release_request]. *)
Definition publish (rt : ControllerRuntime) (self : Z) (draft : ControllerOutputEventDraft) :
    Result ControllerOutputEvent * ControllerRuntime :=
  let '(r, ig) := Ingress.publish_event (rt_ingress rt) self draft in
  (r, rt <| rt_ingress := ig |>).

Definition release (rt : ControllerRuntime) (request : ControllerRequestView) :
    Status * ControllerRuntime :=
  let '(st, ig) := Ingress.release_request (rt_ingress rt) request in
  (st, rt <| rt_ingress := ig |>).

(** An event draft with the default plan fields. *)
Definition plain_draft (kind : EventKind.ControllerOutputEventKind) (epoch request_generation : Z)
    (digest : Sha256Digest) : ControllerOutputEventDraft :=
  MkDraft kind epoch request_generation 0 0 digest 0 0 0 FinishReason.kNone.

Definition kAdmittedDomain : string := "pih-controller-admitted-state-v1".

Definition admitted_state_digest (rt : ControllerRuntime) (admission : ControllerAdmissionView) :
    Result Sha256Digest :=
  let request := av_request admission in
  hash_chunks [text_bytes kAdmittedDomain; le64 (rc_epoch (rt_config rt));
    le64 (rqv_request_generation request); le64 (rqv_slot_generation request);
    bytes (rqv_payload_digest request)].

(** ** [step] *)

Definition slot_has (g : Z) (s : Slot) : bool :=
  match slot_sequence s with
  | Some q => cs_sequence_generation q =? g
  | None => false
  end.

Definition slot_vacant (s : Slot) : bool :=
  match slot_sequence s with Some _ => false | None => true end.

(** The cancel branch of [step_impl]. *)
Definition step_cancel (rt : ControllerRuntime) (self : Z) (command : ControllerCommand) :
    Result ControllerRuntimeStep * ControllerRuntime :=
  let epoch := rc_epoch (rt_config rt) in
  let g := cmd_request_generation command in
  match controller_cancel_payload_digest epoch g with
  | Error _ => (Error (Internal "controller cancel command digest drifted"), mark_failed rt)
  | Value digest =>
      if negb (bool_decide (digest = cmd_payload_digest command))
      then (Error (Internal "controller cancel command digest drifted"), mark_failed rt)
      else match first_index (slot_has g) (rt_slots rt) 0 with
      | None => (Error (FailedPrecondition "controller cancel target is not active"), rt)
      | Some target =>
          let '(cancelled, rt) := on_sequence rt target request_cancel in
          if negb (ok cancelled) then (Error cancelled, rt)
          else if negb (has_active_plan (sequence_at rt target))
          then
            let '(draining, rt) := on_sequence rt target begin_draining in
            if negb (ok draining) then (Error draining, rt)
            else
              let '(event, rt) := publish rt self
                (plain_draft EventKind.kDraining epoch
                   (cs_sequence_generation (sequence_at rt target)) digest) in
              match event with
              | Error e => (Error e, mark_failed rt)
              | Value _ => (Value RuntimeStep.kCancelRequested, rt)
              end
          else (Value RuntimeStep.kCancelRequested, rt)
      end
  end.

Section Admission.
Context {PS : Type} (participant : option (ControllerAdmissionParticipant PS)).

Definition p_reserve (ps : PS) (a : ControllerAdmissionView) : Status * PS :=
  match participant with Some p => pa_reserve p ps a | None => (StatusOk, ps) end.
Definition p_publish (ps : PS) (g : Z) : Status * PS :=
  match participant with Some p => pa_publish p ps g | None => (StatusOk, ps) end.
Definition p_rollback (ps : PS) (g : Z) : Status * PS :=
  match participant with Some p => pa_rollback p ps g | None => (StatusOk, ps) end.

(** The participant refused to reserve: release the request, and report a
    rejection to the client when the refusal is for lack of resources. *)
Definition reserve_refused (rt : ControllerRuntime) (self : Z)
    (admission : ControllerAdmissionView) (reserved : Status) :
    Result ControllerRuntimeStep * ControllerRuntime :=
  let '(released, rt) := release rt (av_request admission) in
  let exhausted := bool_decide (code reserved = kResourceExhausted) in
  let rt := if negb (ok released) || negb exhausted then mark_failed rt else rt in
  if negb (ok released)
  then (Error (Internal "controller admission reserve cleanup failed"), rt)
  else if exhausted
  then
    let '(rejected, rt) := publish rt self
      (plain_draft EventKind.kFailed (rc_epoch (rt_config rt))
         (rqv_request_generation (av_request admission))
         (cmd_payload_digest (av_command admission))) in
    match rejected with
    | Error e => (Error e, mark_failed rt)
    | Value _ => (Value RuntimeStep.kAdmissionRejected, rt)
    end
  else (Error reserved, rt).

(** The slot takes the request and its new sequence; [last_service_plan_sequence]
    and [pending_token] keep what the slot had. *)
Definition occupy_slot (rt : ControllerRuntime) (i now_ns : Z)
    (request : ControllerRequestView) (s : ControllerSequence) : ControllerRuntime :=
  let slot := (rt_slots rt).[i] in
  rt <| rt_slots := (rt_slots rt).[i <-
          RuntimeSlot.MkSlot (Some s) request (RuntimeSlot.pending_token slot)
            (RuntimeSlot.last_service_plan_sequence slot)
            (rt_next_ready_enqueue_sequence rt) now_ns] |>
     <| rt_next_ready_enqueue_sequence := wrap64 (rt_next_ready_enqueue_sequence rt + 1) |>.

(** The admit branch of [step_impl]. *)
Definition step_admit (rt : ControllerRuntime) (self now_ns : Z) (ps : PS)
    (admission : ControllerAdmissionView) :
    Result ControllerRuntimeStep * (ControllerRuntime * PS) :=
  let request := av_request admission in
  let g := rqv_request_generation request in
  match first_index slot_vacant (rt_slots rt) 0 with
  | None => (Error (Internal "controller persistent sequence ledger overflowed"),
             (mark_failed rt, ps))
  | Some free_slot =>
      let '(reserved, ps) := p_reserve ps admission in
      if negb (ok reserved)
      then let '(r, rt) := reserve_refused rt self admission reserved in (r, (rt, ps))
      else
        let sequence := Admit g (sp_size (rqv_prompt_token_ids request)) 1 in
        let state_digest := admitted_state_digest rt admission in
        match sequence, state_digest with
        | Value s, Value digest =>
            let rt := occupy_slot rt free_slot now_ns request s in
            let '(published, ps) := p_publish ps g in
            if negb (ok published)
            then
              let '(released, rt) := release rt (slot_request ((rt_slots rt).[free_slot])) in
              let rt := mark_failed (set_sequence rt free_slot None) in
              if negb (ok released)
              then (Error (Internal "controller admission publish cleanup failed"), (rt, ps))
              else (Error published, (rt, ps))
            else
              let '(event, rt) := publish rt self
                (plain_draft EventKind.kAdmitted (rc_epoch (rt_config rt)) g digest) in
              match event with
              | Error e =>
                  let '(released, rt) := release rt (slot_request ((rt_slots rt).[free_slot])) in
                  let rt := mark_failed (set_sequence rt free_slot None) in
                  if negb (ok released)
                  then (Error (Internal "controller admitted-event rollback failed"), (rt, ps))
                  else (Error e, (rt, ps))
              | Value _ =>
                  (Value RuntimeStep.kAdmitted,
                   (rt <| rt_active_sequence_count :=
                            wrap32 (rt_active_sequence_count rt + 1) |>, ps))
              end
        | _, _ =>
            let '(rollback, ps) := p_rollback ps g in
            let '(released, rt) := release rt request in
            let rt := mark_failed rt in
            if negb (ok rollback) || negb (ok released)
            then (Error (Internal "controller admission cleanup failed"), (rt, ps))
            else (Error (if rok sequence then rstatus state_digest else rstatus sequence),
                  (rt, ps))
        end
  end.

Definition step_impl (rt : ControllerRuntime) (self now_ns : Z) (ps : PS) :
    Result ControllerRuntimeStep * (ControllerRuntime * PS) :=
  if negb (ready (rt_state rt))
  then (Error (FailedPrecondition "controller runtime is not ready"), (rt, ps))
  else if (now_ns <? rt_last_controller_now_ns rt) || (rt_next_ready_enqueue_sequence rt =? 0)
  then (Error (InvalidArgument "controller time or enqueue sequence is invalid"), (rt, ps))
  else
    let rt := rt <| rt_last_controller_now_ns := now_ns |> in
    if queued_command_count (rt_ingress rt) =? 0 then (Value RuntimeStep.kIdle, (rt, ps))
    else if available_event_credit (rt_ingress rt) =? 0
    then (Value RuntimeStep.kOutputBackpressured, (rt, ps))
    else
      let '(item, ig) := Ingress.try_take_command (rt_ingress rt) self in
      let rt := rt <| rt_ingress := ig |> in
      match item with
      | Error e => (Error e, (mark_failed rt, ps))
      | Value None => (Value RuntimeStep.kIdle, (rt, ps))
      | Value (Some item) =>
          if command_kind_eqb (cmd_kind (cv_command item)) CommandKind.kCancel
          then let '(r, rt) := step_cancel rt self (cv_command item) in (r, (rt, ps))
          else match command_kind_eqb (cmd_kind (cv_command item)) CommandKind.kAdmit,
                     cv_request item with
          | true, Some request =>
              step_admit rt self now_ns ps (MkAdmissionView (cv_command item) request)
          | _, _ => (Error (Internal "unsupported controller command reached runtime"),
                     (mark_failed rt, ps))
          end
      end.
End Admission.

(** [step] without a participant, and with one. *)
Definition step (rt : ControllerRuntime) (self now_ns : Z) :
    Result ControllerRuntimeStep * ControllerRuntime :=
  let '(r, (rt, _)) := step_impl (PS := unit) None rt self now_ns tt in (r, rt).

Definition step_with {PS} (participant : ControllerAdmissionParticipant PS)
    (rt : ControllerRuntime) (self now_ns : Z) (ps : PS) :
    Result ControllerRuntimeStep * (ControllerRuntime * PS) :=
  step_impl (Some participant) rt self now_ns ps.

(** ** [prepare_next_plan] *)

(** The row of a schedulable slot in the four candidate vectors. *)
Record CandidateRow := MkRow {
  cr_candidate : SchedulerCandidate;
  cr_scheduled_state : ScheduledSequenceState;
  cr_scheduled_tokens : ScheduledSequenceTokens;
  cr_slot_index : Z }.

#[export] Instance CandidateRow_inhabited : Inhabited CandidateRow :=
  populate (MkRow inhabitant inhabitant inhabitant 0).

(** The tokens of the next plan of a slot: the next prompt chunk, or the pending
    token. *)
Definition next_tokens (rt : ControllerRuntime) (slot : Slot) (s : ControllerSequence)
    (phase : PackedTokenPhase) (count : Z) : Result (list Z) :=
  let start := cs_model_processed_length s in
  let prompt := rqv_prompt_token_ids (slot_request slot) in
  if phase_eqb phase kPrefill
  then
    if (start >? sp_size prompt) || (count >? wrap64 (sp_size prompt - start))
    then Error (Internal "controller prompt chunk mapping drifted")
    else Value (span_read (ra_tokens (ig_requests (rt_ingress rt)))
                  (MkSpan (sp_offset prompt + start) count))
  else match slot_pending_token slot with
  | None => Error (FailedPrecondition "decode-ready sequence has no valid pending token")
  | Some token =>
      if negb (phase_eqb phase kDecode) || negb (count =? 1)
      then Error (FailedPrecondition "decode-ready sequence has no valid pending token")
      else Value [token]
  end.

(** The body of the loop over the slots: [None] for a slot that is skipped. *)
Definition candidate_row (rt : ControllerRuntime) (slot_index : Z) (slot : Slot) :
    Result (option CandidateRow) :=
  match slot_sequence slot with
  | None => Value None
  | Some s =>
      match ready_phase s with
      | Error _ => Value None
      | Value phase =>
          if phase_eqb phase kVerify
          then Error (FailedPrecondition "verify-ready sequence has no bound draft payload")
          else
            let chunk := rc_maximum_prefill_chunk_tokens (rt_config rt) in
            let? count := next_real_token_count s chunk 0 in
            let? produces_logits := next_plan_produces_logits s chunk 0 in
            let? tokens := next_tokens rt slot s phase count in
            let? input_digest := packed_token_input_digest tokens in
            Value (Some (MkRow
              (MkCandidate (cs_sequence_generation s) phase
                 (RuntimeSlot.last_service_plan_sequence slot)
                 (RuntimeSlot.ready_enqueue_sequence slot)
                 (RuntimeSlot.prefill_eligible_since_ns slot) count Infeasible.kNone)
              (MkScheduledState (cs_sequence_generation s) (cs_model_processed_length s)
                 (cs_state_generation s) input_digest)
              (MkScheduledTokens (cs_sequence_generation s) tokens produces_logits)
              slot_index))
      end
  end.

Fixpoint candidate_rows (rt : ControllerRuntime) (slot_index : Z) (slots : list Slot) :
    Result (list CandidateRow) :=
  match slots with
  | [] => Value []
  | slot :: rest =>
      let? row := candidate_row rt slot_index slot in
      let? rows := candidate_rows rt (slot_index + 1) rest in
      Value (match row with Some r => r :: rows | None => rows end)
  end.

(** The rollback loop over the sequences prepared so far. *)
Fixpoint rollback_prepared (rt : ControllerRuntime) (plan_sequence : Z) (fuel : nat) (i : Z) :
    Status * ControllerRuntime :=
  match fuel with
  | O => (StatusOk, rt)
  | S fuel =>
      let '(status, rt) := on_sequence rt ((rt_selected_slot_indices rt).[i])
        (fun s => abort_prepared s plan_sequence) in
      if negb (ok status)
      then (Internal "controller plan prepare rollback failed", mark_failed rt)
      else rollback_prepared rt plan_sequence fuel (i + 1)
  end.

(** The loop that prepares the included sequences, with its rollback. *)
Fixpoint prepare_included (rt : ControllerRuntime) (plan : PackedTokenPlan)
    (rows : list CandidateRow) (output_burst : OutputBurstLease) (included : list Z)
    (prepared_count : Z) : Result Z * ControllerRuntime :=
  match included with
  | [] => (Value prepared_count, rt)
  | candidate_index :: rest =>
      let row := rows.[candidate_index] in
      let slot_index := cr_slot_index row in
      let plan_sequence := rt_next_plan_sequence rt in
      let '(status, rt) := on_sequence rt slot_index (fun s =>
        prepare s plan_sequence (pp_phase plan) (sc_real_token_count (cr_candidate row))) in
      if negb (ok status)
      then
        let '(rollback, rt) :=
          rollback_prepared rt plan_sequence (Z.to_nat prepared_count) 0 in
        if negb (ok rollback) then (Error rollback, rt)
        else
          let '(credit_rollback, pool) := abort (rt_output_credits rt) output_burst in
          let rt := rt <| rt_output_credits := pool |> in
          if negb (ok credit_rollback)
          then (Error (Internal "controller output credit rollback failed"), mark_failed rt)
          else (Error status, rt)
      else
        let sampling := rqv_sampling (slot_request ((rt_slots rt).[slot_index])) in
        let rt := rt
          <| rt_selected_slot_indices :=
               (rt_selected_slot_indices rt).[prepared_count <- slot_index] |>
          <| rt_selected_sampling :=
               (rt_selected_sampling rt).[prepared_count <-
                 sampling <| sm_sample_ordinal :=
                   cs_accepted_completion_count (sequence_at rt slot_index) |>] |> in
        prepare_included rt plan rows output_burst rest (wrap32 (prepared_count + 1))
  end.

(** From the decision to the prepared plan. *)
Definition prepare_decision (rt : ControllerRuntime) (rows : list CandidateRow)
    (decision : SchedulerDecisionView) :
    Result (option ControllerPreparedPlanView) * ControllerRuntime :=
  let cfg := rt_config rt in
  let execution_bucket :=
    if rc_pad_to_maximum_execution_bucket cfg
    then rc_maximum_execution_bucket_tokens cfg else dv_total_real_tokens decision in
  let '(plan, scheduler) := assemble_current_plan (rt_scheduler rt) (dv_generation decision)
    (MkPlanIdentity (rc_epoch cfg) (rt_next_plan_sequence rt) (rc_profile_revision cfg)
       (rc_resource_vector_hash cfg) execution_bucket (rc_maximum_execution_bucket_tokens cfg))
    (map cr_scheduled_state rows) in
  let rt := rt <| rt_scheduler := scheduler |> in
  match plan with
  | Error e => (Error e, rt)
  | Value plan =>
      match semantic_digest plan with
      | Error e => (Error e, rt)
      | Value plan_digest =>
          let '(metadata, (scheduler, arena)) :=
            materialize_current_metadata (rt_scheduler rt) (dv_generation decision) plan
              (map cr_scheduled_tokens rows) (rt_metadata rt) in
          let rt := rt <| rt_scheduler := scheduler |> <| rt_metadata := arena |> in
          match metadata with
          | Error e => (Error e, rt)
          | Value metadata =>
              let maximum_records := foldl (fun m i =>
                Z.max m (if sst_produces_logits (cr_scheduled_tokens (rows.[i])) then 1 else 0))
                0 (dv_included_candidate_indices decision) in
              let '(output_burst, pool) := acquire (rt_output_credits rt)
                (rt_next_plan_sequence rt) (rc_output_plan_kind cfg) maximum_records
                (rc_output_maximum_slots_per_credit cfg)
                (rc_output_maximum_bytes_per_credit cfg) in
              let rt := rt <| rt_output_credits := pool |> in
              match output_burst with
              | Error e => (Error e, rt)
              | Value output_burst =>
                  let '(count, rt) := prepare_included rt plan rows output_burst
                    (dv_included_candidate_indices decision) 0 in
                  match count with
                  | Error e => (Error e, rt)
                  | Value count =>
                      let rt := rt
                        <| rt_current := MkCurrentPlan (Some plan) (Some output_burst)
                             plan_digest (dv_tier decision) count |>
                        <| rt_next_plan_sequence := wrap64 (rt_next_plan_sequence rt + 1) |> in
                      (Value (Some (MkPreparedPlan plan metadata
                         (take (Z.to_nat count) (rt_selected_slot_indices rt))
                         (take (Z.to_nat count) (rt_selected_sampling rt)) plan_digest)), rt)
                  end
              end
          end
      end
  end.

Definition prepare_next_plan (rt : ControllerRuntime) (now_ns : Z) :
    Result (option ControllerPreparedPlanView) * ControllerRuntime :=
  if negb (ready (rt_state rt)) || bool_decide (is_Some (cp_plan (rt_current rt)))
  then (Error (FailedPrecondition "controller cannot prepare another plan"), rt)
  else if (now_ns <? rt_last_controller_now_ns rt) || (rt_next_plan_sequence rt =? 0)
  then (Error (InvalidArgument "controller plan identity is invalid"), rt)
  else
    let rt := rt <| rt_last_controller_now_ns := now_ns |> in
    match candidate_rows rt 0 (rt_slots rt) with
    | Error e => (Error e, rt)
    | Value rows =>
        if vsize rows =? 0 then (Value None, rt)
        else
          let '(decision, scheduler) := select (rt_scheduler rt)
            (MkSnapshot now_ns (rt_consecutive_decode_rounds rt)
               (rt_last_successful_plan_was_protected_prefill rt) (map cr_candidate rows)) in
          let rt := rt <| rt_scheduler := scheduler |> in
          match decision with
          | Error e => (Error e, rt)
          | Value decision =>
              if tier_eqb (dv_tier decision) Tier.kIdle then (Value None, rt)
              else prepare_decision rt rows decision
          end
    end.

(** ** The life of the current plan *)

Definition plan_identity_drifted (rt : ControllerRuntime) (plan_sequence : Z)
    (plan_digest : Sha256Digest) : bool :=
  match cp_plan (rt_current rt) with
  | None => true
  | Some plan =>
      negb (pp_plan_sequence plan =? plan_sequence)
      || negb (bool_decide (cp_plan_digest (rt_current rt) = plan_digest))
  end.

(** The loops of [commit_current_plan], [mark_current_plan_in_flight] and
    [abort_current_plan]: the same call on every selected sequence, stopping the
    runtime with [failure] at the first one that refuses. *)
Fixpoint for_selected (op : ControllerSequence -> Status * ControllerSequence)
    (failure : string) (rt : ControllerRuntime) (fuel : nat) (i : Z) :
    Status * ControllerRuntime :=
  match fuel with
  | O => (StatusOk, rt)
  | S fuel =>
      let '(status, rt) := on_sequence rt ((rt_selected_slot_indices rt).[i]) op in
      if negb (ok status) then (Internal failure, mark_failed rt)
      else for_selected op failure rt fuel (i + 1)
  end.

Definition commit_current_plan (rt : ControllerRuntime) (plan_sequence : Z)
    (plan_digest : Sha256Digest) : Status * ControllerRuntime :=
  match cp_output_burst (rt_current rt), plan_identity_drifted rt plan_sequence plan_digest with
  | Some output_burst, false =>
      let '(credit, pool) := BurstCredits.commit (rt_output_credits rt) output_burst in
      let rt := rt <| rt_output_credits := pool |> in
      if negb (ok credit) then (credit, rt)
      else for_selected (fun s => Sequence.commit s plan_sequence)
             "controller plan commit became partial" rt
             (Z.to_nat (cp_selected_count (rt_current rt))) 0
  | _, _ => (FailedPrecondition "controller plan commit identity drifted", rt)
  end.

Definition mark_current_plan_in_flight (rt : ControllerRuntime) (plan_sequence : Z)
    (plan_digest : Sha256Digest) : Status * ControllerRuntime :=
  if plan_identity_drifted rt plan_sequence plan_digest
  then (FailedPrecondition "controller in-flight identity drifted", rt)
  else for_selected (fun s => mark_in_flight s plan_sequence)
         "controller in-flight publication became partial" rt
         (Z.to_nat (cp_selected_count (rt_current rt))) 0.

Definition clear_current_plan (rt : ControllerRuntime) : ControllerRuntime :=
  rt <| rt_current := no_current_plan |>.

Definition abort_current_plan (rt : ControllerRuntime) (plan_sequence : Z)
    (plan_digest : Sha256Digest) : Status * ControllerRuntime :=
  match cp_output_burst (rt_current rt), plan_identity_drifted rt plan_sequence plan_digest with
  | Some output_burst, false =>
      let '(status, rt) := for_selected (fun s => abort_prepared s plan_sequence)
        "controller plan abort became partial" rt
        (Z.to_nat (cp_selected_count (rt_current rt))) 0 in
      if negb (ok status) then (status, rt)
      else
        let '(credit, pool) := abort (rt_output_credits rt) output_burst in
        let rt := rt <| rt_output_credits := pool |> in
        if negb (ok credit)
        then (Internal "controller output credit abort failed", mark_failed rt)
        else (StatusOk, clear_current_plan rt)
  | _, _ => (FailedPrecondition "controller plan abort identity drifted", rt)
  end.

(** ** [complete_current_plan] *)

Definition kCompletionDomain : string := "pih-controller-completion-state-v1".

Definition completion_state_digest (rt : ControllerRuntime) (c : ControllerPlanCompletion) :
    Result Sha256Digest :=
  hash_chunks [text_bytes kCompletionDomain; bytes (cp_plan_digest (rt_current rt));
    le64 (cc_plan_sequence c); le64 (cc_sequence_generation c);
    le64 (cc_committed_model_processed_length c); le64 (cc_accepted_completion_count c);
    le64 (cc_state_generation c); le64 (phase_value (cc_next_decode_phase c));
    le64 (Z.b2z (cc_terminal c))].

(** What the validation loop accumulates. *)
Record completion_need := MkNeed {
  cn_events : Z;
  cn_requeues : Z;
  cn_digests : list Sha256Digest }.

Definition will_drain (s : ControllerSequence) (c : ControllerPlanCompletion) : bool :=
  cc_terminal c || state_eqb (cs_state s) SeqState.kCancelRequested.

(** The body of the validation loop. *)
Definition validate_result (rt : ControllerRuntime) (slot : Slot) (s : ControllerSequence)
    (r : ControllerBackendSequenceResult) (need : completion_need) : Result completion_need :=
  let c := br_completion r in
  let tokens := br_accepted_token_ids r in
  let validation := validate_completion s c in
  let maximum := rqv_maximum_new_tokens (slot_request slot) in
  let drain := will_drain s c in
  if negb (ok validation) then Error validation
  else if negb (wrap64 (cc_accepted_completion_count c - cs_accepted_completion_count s) =?
                vsize tokens)
  then Error (InvalidArgument "controller accepted-token result drifted")
  else if existsb (fun token => token >=? 151936) tokens
  then Error (InvalidArgument "controller backend token is invalid")
  else if (cc_accepted_completion_count c >? maximum)
          || ((cc_accepted_completion_count c =? maximum) && negb (cc_terminal c))
  then Error (InvalidArgument "controller generation limit requires terminal completion")
  else if negb drain && (cc_committed_model_processed_length c >=? cs_prompt_token_count s)
          && (vsize tokens =? 0)
  then Error (InvalidArgument "controller decode boundary requires a pending token")
  else if vsize tokens >? u64_max - cn_events need
  then Error (ResourceExhausted "controller output event count overflowed")
  else
    let events := wrap64 (cn_events need + vsize tokens) in
    if drain && (events =? u64_max)
    then Error (ResourceExhausted "controller output event count overflowed")
    else
      let? digest := completion_state_digest rt c in
      Value (MkNeed (wrap64 (events + Z.b2z drain))
               (wrap64 (cn_requeues need + Z.b2z (negb drain)))
               (cn_digests need ++ [digest])).

Fixpoint validate_results (rt : ControllerRuntime) (i : Z)
    (results : list ControllerBackendSequenceResult) (need : completion_need) :
    Result completion_need :=
  match results with
  | [] => Value need
  | r :: rest =>
      let slot_index := (rt_selected_slot_indices rt).[i] in
      let? need := validate_result rt ((rt_slots rt).[slot_index]) (sequence_at rt slot_index)
                     r need in
      validate_results rt (i + 1) rest need
  end.

(** The loop that publishes the accepted tokens of one sequence. *)
Fixpoint publish_tokens (rt : ControllerRuntime) (self generation previous token_index : Z)
    (tokens : list Z) (digest : Sha256Digest) (plan_sequence event_index event_count : Z) :
    Result Z * ControllerRuntime :=
  match tokens with
  | [] => (Value event_index, rt)
  | token :: rest =>
      let '(event, rt) := publish rt self
        (MkDraft EventKind.kTokenCommitted (rc_epoch (rt_config rt)) generation
           (wrap64 (previous + token_index + 1)) token digest plan_sequence event_index
           event_count FinishReason.kNone) in
      match event with
      | Error _ => (Error (Internal "reserved controller token event publish failed"),
                    mark_failed rt)
      | Value _ =>
          publish_tokens rt self generation previous (token_index + 1) rest digest plan_sequence
            (wrap32 (event_index + 1)) event_count
      end
  end.

Definition finish_reason (c : ControllerPlanCompletion) (maximum_new_tokens : Z) :
    FinishReason.ControllerFinishReason :=
  if cc_terminal c
  then if cc_accepted_completion_count c =? maximum_new_tokens
       then FinishReason.kLength else FinishReason.kStop
  else FinishReason.kNone.

(** The body of the loop that applies the validated results. *)
Definition apply_result (rt : ControllerRuntime) (self now_ns slot_index : Z)
    (r : ControllerBackendSequenceResult) (digest : Sha256Digest)
    (plan_sequence event_index event_count : Z) : Result Z * ControllerRuntime :=
  let c := br_completion r in
  let previous := cs_accepted_completion_count (sequence_at rt slot_index) in
  let '(completion, rt) := on_sequence rt slot_index (fun s => complete s c) in
  if negb (ok completion)
  then (Error (Internal "validated controller completion failed to apply"), mark_failed rt)
  else
    let generation := cs_sequence_generation (sequence_at rt slot_index) in
    let '(published, rt) := publish_tokens rt self generation previous 0
      (br_accepted_token_ids r) digest plan_sequence event_index event_count in
    match published with
    | Error e => (Error e, rt)
    | Value event_index =>
        let slot := (rt_slots rt).[slot_index] in
        if state_eqb (cs_state (sequence_at rt slot_index)) SeqState.kDraining
        then
          let slot := RuntimeSlot.MkSlot (slot_sequence slot) (slot_request slot) None
            (RuntimeSlot.last_service_plan_sequence slot)
            (RuntimeSlot.ready_enqueue_sequence slot)
            (RuntimeSlot.prefill_eligible_since_ns slot) in
          let rt := rt <| rt_slots := (rt_slots rt).[slot_index <- slot] |> in
          let '(event, rt) := publish rt self
            (MkDraft EventKind.kDraining (rc_epoch (rt_config rt)) generation 0 0 digest
               plan_sequence event_index event_count
               (finish_reason c (rqv_maximum_new_tokens (slot_request slot)))) in
          match event with
          | Error _ => (Error (Internal "reserved controller drain event publish failed"),
                        mark_failed rt)
          | Value _ =>
              (Value (wrap32 (event_index + 1)),
               rt <| rt_slots := (rt_slots rt).[slot_index <-
                       slot <| RuntimeSlot.last_service_plan_sequence := plan_sequence |>] |>)
          end
        else
          let pending :=
            if state_eqb (cs_state (sequence_at rt slot_index)) SeqState.kReadyDecode
            then last (br_accepted_token_ids r) else slot_pending_token slot in
          (Value event_index,
           rt <| rt_slots := (rt_slots rt).[slot_index <-
                   RuntimeSlot.MkSlot (slot_sequence slot) (slot_request slot) pending
                     plan_sequence (rt_next_ready_enqueue_sequence rt) now_ns] |>
              <| rt_next_ready_enqueue_sequence :=
                   wrap64 (rt_next_ready_enqueue_sequence rt + 1) |>)
    end.

Fixpoint apply_results (rt : ControllerRuntime) (self now_ns i : Z)
    (results : list ControllerBackendSequenceResult) (digests : list Sha256Digest)
    (plan_sequence event_index event_count : Z) : Result Z * ControllerRuntime :=
  match results, digests with
  | r :: results, digest :: digests =>
      let '(applied, rt) := apply_result rt self now_ns ((rt_selected_slot_indices rt).[i]) r
        digest plan_sequence event_index event_count in
      match applied with
      | Error e => (Error e, rt)
      | Value event_index =>
          apply_results rt self now_ns (i + 1) results digests plan_sequence event_index
            event_count
      end
  | _, _ => (Value event_index, rt)
  end.

(** After the loop: the rotation state, and the credit, which is released when
    the plan published nothing and waits for its acknowledgement otherwise. *)
Definition finish_plan (rt : ControllerRuntime) (output_burst : OutputBurstLease)
    (phase : PackedTokenPhase) (tier : SchedulerTier) (required_events : Z) :
    Status * ControllerRuntime :=
  let rt :=
    if phase_eqb phase kPrefill
    then rt <| rt_consecutive_decode_rounds := 0 |>
            <| rt_last_successful_plan_was_protected_prefill :=
                 tier_eqb tier Tier.kProtectedPrefill |>
    else rt <| rt_consecutive_decode_rounds := wrap32 (rt_consecutive_decode_rounds rt + 1) |>
            <| rt_last_successful_plan_was_protected_prefill := false |> in
  if required_events =? 0
  then
    let '(released, pool) := BurstCredits.release (rt_output_credits rt) output_burst in
    let rt := rt <| rt_output_credits := pool |> in
    if negb (ok released) then (released, mark_failed rt)
    else (StatusOk, clear_current_plan rt)
  else match first_index (fun lease : option OutputBurstLease => bool_decide (lease = None))
               (rt_pending_output_bursts rt) 0 with
  | None => (Internal "controller transferred output credit has no owner slot", mark_failed rt)
  | Some pending =>
      (StatusOk, clear_current_plan
         (rt <| rt_pending_output_bursts :=
                  (rt_pending_output_bursts rt).[pending <- Some output_burst] |>))
  end.

Definition complete_current_plan (rt : ControllerRuntime) (self : Z)
    (results : list ControllerBackendSequenceResult) (now_ns : Z) : Status * ControllerRuntime :=
  match cp_plan (rt_current rt), cp_output_burst (rt_current rt) with
  | Some plan, Some output_burst =>
      if negb (vsize results =? cp_selected_count (rt_current rt))
         || (now_ns <? rt_last_controller_now_ns rt) || (rt_next_ready_enqueue_sequence rt =? 0)
      then (FailedPrecondition "controller completion batch is invalid", rt)
      else match validate_results rt 0 results (MkNeed 0 0 []) with
      | Error e => (e, rt)
      | Value need =>
          if cn_events need >? available_event_credit (rt_ingress rt)
          then (ResourceExhausted "controller output event credit is unavailable", rt)
          else if negb (cn_requeues need =? 0)
                  && (rt_next_ready_enqueue_sequence rt >?
                      wrap64 (u64_max - cn_requeues need + 1))
          then (FailedPrecondition "controller ready enqueue sequence wrapped", rt)
          else
            let '(transferred, pool) := transfer (rt_output_credits rt) output_burst in
            let rt := rt <| rt_output_credits := pool |> in
            if negb (ok transferred) then (transferred, rt)
            else
              let rt := rt <| rt_last_controller_now_ns := now_ns |> in
              if negb (phase_eqb (pp_phase plan) kPrefill)
                 && (rt_consecutive_decode_rounds rt =? u32_max)
              then (Internal "controller decode round counter wrapped", mark_failed rt)
              else
                let '(applied, rt) := apply_results rt self now_ns 0 results (cn_digests need)
                  (pp_plan_sequence plan) 0 (wrap32 (cn_events need)) in
                match applied with
                | Error e => (e, rt)
                | Value _ =>
                    finish_plan rt output_burst (pp_phase plan) (cp_tier (rt_current rt))
                      (cn_events need)
                end
      end
  | _, _ => (FailedPrecondition "controller completion batch is invalid", rt)
  end.

Definition burst_of_plan (plan_sequence : Z) (lease : option OutputBurstLease) : bool :=
  match lease with
  | Some l => bl_plan_sequence l =? plan_sequence
  | None => false
  end.

Definition acknowledge_output_plan (rt : ControllerRuntime) (plan_sequence : Z) :
    Status * ControllerRuntime :=
  if plan_sequence =? 0
  then (InvalidArgument "controller output ACK plan is zero", rt)
  else match first_index (burst_of_plan plan_sequence) (rt_pending_output_bursts rt) 0 with
  | None => (FailedPrecondition "controller output ACK is stale or forged", rt)
  | Some pending =>
      match (rt_pending_output_bursts rt).[pending] with
      | None => (FailedPrecondition "controller output ACK is stale or forged", rt)
      | Some lease =>
          let '(released, pool) := BurstCredits.release (rt_output_credits rt) lease in
          let rt := rt <| rt_output_credits := pool |> in
          if negb (ok released)
          then (Internal "controller output ACK release failed", mark_failed rt)
          else (StatusOk, rt <| rt_pending_output_bursts :=
                  (rt_pending_output_bursts rt).[pending <- None] |>)
      end
  end.

(** ** [complete_current_sampled_tokens] *)

Definition sampled_stop (rt : ControllerRuntime) (sampling : ControllerRequestSampling)
    (produces_token : bool) (accepted token : Z) : bool :=
  let eos := rc_eos_token_id (rt_config rt) in
  produces_token && (accepted >=? sm_minimum_new_tokens sampling) &&
  ((negb (eos =? u32_max) && (token =? eos)) ||
   existsb (fun stop => token =? stop)
     (take (Z.to_nat (sm_stop_token_count sampling)) (sm_stop_token_ids sampling))).

(** The loop over the selected sequences: the completions, and the samples that
    are left. *)
Fixpoint sampled_results (rt : ControllerRuntime) (plan : PackedTokenPlan) (fuel : nat) (i : Z)
    (samples : list Z) : Result (list ControllerBackendSequenceResult * list Z) :=
  match fuel with
  | O => Value ([], samples)
  | S fuel =>
      let slot_index := (rt_selected_slot_indices rt).[i] in
      let slot := (rt_slots rt).[slot_index] in
      let s := sequence_at rt slot_index in
      let exhausted := Error (ResourceExhausted
        "controller sampled completion identity exhausted") in
      match checked_add_u64 (cs_model_processed_length s) ((pp_real_token_counts plan).[i]) with
      | Error _ => exhausted
      | Value committed =>
          if cs_state_generation s =? u64_max then exhausted
          else
            let produces_token := negb (phase_eqb (pp_phase plan) kPrefill)
                                  || (committed =? cs_prompt_token_count s) in
            let accepted := wrap64 (cs_accepted_completion_count s + Z.b2z produces_token) in
            match produces_token, samples with
            | true, [] => Error (InvalidArgument "controller sampled token count is short")
            | _, _ =>
                if accepted <? cs_accepted_completion_count s
                then Error (ResourceExhausted "controller accepted token identity exhausted")
                else
                  let token := if produces_token then hd 0 samples else 0 in
                  let samples := if produces_token then tl samples else samples in
                  let stop := sampled_stop rt (rqv_sampling (slot_request slot)) produces_token
                                accepted token in
                  let? rest := sampled_results rt plan fuel (i + 1) samples in
                  Value
                    (MkBackendResult
                       (MkCompletion (pp_plan_sequence plan) (cs_sequence_generation s)
                          committed accepted (wrap64 (cs_state_generation s + 1)) kDecode
                          ((accepted =? rqv_maximum_new_tokens (slot_request slot)) || stop))
                       (if produces_token then [token] else []) :: fst rest, snd rest)
            end
      end
  end.

Definition complete_current_sampled_tokens (rt : ControllerRuntime) (self : Z)
    (sampled_token_ids : list Z) (now_ns : Z) : Status * ControllerRuntime :=
  match cp_plan (rt_current rt) with
  | None => (FailedPrecondition "controller has no canonical sampled completion plan", rt)
  | Some plan =>
      if negb (pp_sequence_count plan =? cp_selected_count (rt_current rt))
      then (FailedPrecondition "controller has no canonical sampled completion plan", rt)
      else match sampled_results rt plan (Z.to_nat (cp_selected_count (rt_current rt))) 0
                   sampled_token_ids with
      | Error e => (e, rt)
      | Value (results, rest) =>
          if negb (vsize rest =? 0)
          then (InvalidArgument "controller sampled token count is long", rt)
          else complete_current_plan rt self results now_ns
      end
  end.

(** ** [finalize_draining] and the counters *)

Definition finalize_draining (rt : ControllerRuntime) (self request_generation : Z) :
    Status * ControllerRuntime :=
  if negb (ready (rt_state rt)) || (available_event_credit (rt_ingress rt) =? 0)
  then (ResourceExhausted "controller terminal event credit is unavailable", rt)
  else match first_index (slot_has request_generation) (rt_slots rt) 0 with
  | None => (FailedPrecondition "controller drain target is not active", rt)
  | Some target =>
      let '(cancelled, rt1) := on_sequence rt target finish_cancel in
      let '(finished, kind, rt) :=
        if ok cancelled then (cancelled, EventKind.kCancelled, rt1)
        else let '(drained, rt2) := on_sequence rt1 target finish_drain in
             (drained, EventKind.kCompleted, rt2) in
      if negb (ok finished) then (finished, rt)
      else
        let request := slot_request ((rt_slots rt).[target]) in
        let '(released, rt) := release rt request in
        if negb (ok released)
        then (Internal "controller request release failed after drain", mark_failed rt)
        else
          let '(event, rt) := publish rt self
            (plain_draft kind (rc_epoch (rt_config rt)) request_generation
               (rqv_payload_digest request)) in
          match event with
          | Error _ => (Internal "reserved controller terminal event publish failed",
                        mark_failed rt)
          | Value _ =>
              let slot := (rt_slots rt).[target] in
              (StatusOk,
               rt <| rt_slots := (rt_slots rt).[target <-
                       RuntimeSlot.MkSlot None RuntimeSlot.empty_request None
                         (RuntimeSlot.last_service_plan_sequence slot)
                         (RuntimeSlot.ready_enqueue_sequence slot)
                         (RuntimeSlot.prefill_eligible_since_ns slot)] |>
                  <| rt_active_sequence_count := wrap32 (rt_active_sequence_count rt - 1) |>)
          end
  end.

Definition active_sequence_count (rt : ControllerRuntime) : Z := rt_active_sequence_count rt.
Definition queued_command_count (rt : ControllerRuntime) : Z :=
  Ingress.queued_command_count (rt_ingress rt).
Definition available_output_burst_credits (rt : ControllerRuntime) : Z :=
  available (rt_output_credits rt).

Definition retirable (rt : ControllerRuntime) : bool :=
  if negb (ready (rt_state rt)) || negb (active_sequence_count rt =? 0)
     || negb (queued_command_count rt =? 0)
     || negb (queued_event_count (rt_ingress rt) =? 0)
     || bool_decide (is_Some (cp_plan (rt_current rt)))
     || bool_decide (is_Some (cp_output_burst (rt_current rt)))
     || negb (available (rt_output_credits rt) =? vsize (rt_pending_output_bursts rt))
  then false
  else forallb (fun lease : option OutputBurstLease => bool_decide (lease = None))
         (rt_pending_output_bursts rt).
