(* ===== verification/RuntimeErrors.v ===== *)
(** * Errors carry a failure

    The constructor of [Result] throws when it is given an OK status.  No call of
    the runtime constructs one: every error that a component returns carries a
    failure.  The lemmas follow the calls from the leaves to the runtime. *)

From stdpp Require Import gmap.
From S2P Require Import Prelude Core Sha256 TokenPlan TokenMetadata Sequence BurstCredits.
From S2P Require Import Mailbox RequestArena Ingress Scheduler Runtime.

Create HintDb fails discriminated.
#[export] Hint Constants Opaque : fails.

(** Follow the branches of a body whose result is an error; each leaf is a failure
    that the body wrote, or one that a callee returned. *)
Ltac fails_leaf :=
  lazymatch goal with
  | |- Value _ = _ -> _ => discriminate
  | |- (Value _, _) = _ -> _ => discriminate
  | |- Error _ = _ -> _ => intros [= <-]
  | |- (Error _, _) = _ -> _ => intros [= <- _]
  | |- (_, _) = _ -> _ => intros [= -> _]
  | |- _ => intros ?
  end;
  first [ apply ok_InvalidArgument | apply ok_ResourceExhausted | apply ok_FailedPrecondition
        | apply ok_Internal | apply negb_true_iff; assumption | solve [eauto 3 with fails] ].

Ltac fails_tac := cbn zeta; repeat bcase; fails_leaf.

#[export] Hint Resolve hash_chunks_Error : fails.

Lemma checked_add_fails a b e : checked_add_u64 a b = Error e -> ok e = false.
Proof. unfold checked_add_u64. fails_tac. Qed.
#[export] Hint Resolve checked_add_fails : fails.

Lemma request_digest_fails g p n s e :
  controller_request_payload_digest g p n s = Error e -> ok e = false.
Proof. unfold controller_request_payload_digest. fails_tac. Qed.
#[export] Hint Resolve request_digest_fails : fails.

Lemma arena_publish_fails a g p n s e a' :
  RequestArena.publish a g p n s = (Error e, a') -> ok e = false.
Proof. unfold RequestArena.publish. fails_tac. Qed.

Lemma submit_command_fails m k ep g d e m' : submit_command m k ep g d = (Error e, m') -> ok e = false.
Proof. unfold submit_command. fails_tac. Qed.
#[export] Hint Resolve arena_publish_fails submit_command_fails : fails.

Lemma ingress_admit_fails ig ep g p n s e ig' :
  Ingress.submit_admit ig ep g p n s = (Error e, ig') -> ok e = false.
Proof. unfold Ingress.submit_admit. fails_tac. Qed.

Lemma cancel_digest_fails ep g e : controller_cancel_payload_digest ep g = Error e -> ok e = false.
Proof. unfold controller_cancel_payload_digest. fails_tac. Qed.
#[export] Hint Resolve ingress_admit_fails cancel_digest_fails : fails.

Lemma ingress_cancel_fails ig ep g e ig' :
  Ingress.submit_cancel ig ep g = (Error e, ig') -> ok e = false.
Proof. unfold Ingress.submit_cancel. fails_tac. Qed.
#[export] Hint Resolve ingress_cancel_fails : fails.

Lemma admit_fails rt g p n s e rt' : submit_admit rt g p n s = (Error e, rt') -> ok e = false.
Proof. unfold submit_admit. fails_tac. Qed.

Lemma cancel_fails rt g e rt' : submit_cancel rt g = (Error e, rt') -> ok e = false.
Proof. unfold submit_cancel. fails_tac. Qed.

Lemma mailbox_take_fails m self e m' : Mailbox.try_take_command m self = (Error e, m') -> ok e = false.
Proof. unfold Mailbox.try_take_command. fails_tac. Qed.

Lemma mailbox_publish_fails m self d e m' :
  Mailbox.publish_event m self d = (Error e, m') -> ok e = false.
Proof. unfold Mailbox.publish_event. fails_tac. Qed.
#[export] Hint Resolve mailbox_take_fails mailbox_publish_fails : fails.

Lemma ingress_take_fails ig self e ig' :
  Ingress.try_take_command ig self = (Error e, ig') -> ok e = false.
Proof. unfold Ingress.try_take_command. fails_tac. Qed.

Lemma ingress_publish_fails ig self d e ig' :
  Ingress.publish_event ig self d = (Error e, ig') -> ok e = false.
Proof. unfold Ingress.publish_event. fails_tac. Qed.
#[export] Hint Resolve ingress_take_fails ingress_publish_fails : fails.

Lemma publish_fails rt self d e rt' : publish rt self d = (Error e, rt') -> ok e = false.
Proof. unfold publish. fails_tac. Qed.
#[export] Hint Resolve publish_fails : fails.

Lemma take_event_fails rt e rt' : try_take_event rt = (Error e, rt') -> ok e = false.
Proof.
  unfold try_take_event, Ingress.try_take_event, Mailbox.try_take_event.
  by destruct (ring_pop _).
Qed.

Lemma step_cancel_fails rt self c e rt' : step_cancel rt self c = (Error e, rt') -> ok e = false.
Proof. unfold step_cancel. fails_tac. Qed.

Lemma Admit_fails g p s e : Admit g p s = Error e -> ok e = false.
Proof. unfold Admit. fails_tac. Qed.

Lemma admitted_digest_fails rt a e : admitted_state_digest rt a = Error e -> ok e = false.
Proof. unfold admitted_state_digest. fails_tac. Qed.

Lemma reserve_refused_fails rt self a r e rt' :
  ok r = false -> reserve_refused rt self a r = (Error e, rt') -> ok e = false.
Proof. intros Hr. unfold reserve_refused. fails_tac. Qed.
#[export] Hint Resolve step_cancel_fails Admit_fails admitted_digest_fails reserve_refused_fails : fails.

Section Admission.
Context {PS : Type} (participant : option (ControllerAdmissionParticipant PS)).

Lemma step_admit_fails rt self now ps a e x :
  step_admit participant rt self now ps a = (Error e, x) -> ok e = false.
Proof.
  unfold step_admit. cbn zeta. destruct (first_index _ _ _); [|fails_leaf].
  destruct (p_reserve _ _ _) as [reserved ps1]. destruct (ok reserved) eqn:Er; cbn [negb].
  - destruct (Admit _ _ _) eqn:Ea, (admitted_state_digest _ _) eqn:Ed; cbn [rok rstatus]; fails_tac.
  - destruct (reserve_refused _ _ _ _) as [r rt1] eqn:Ef. intros [= -> _].
    by eapply reserve_refused_fails.
Qed.

Lemma step_fails rt self now ps e x :
  step_impl participant rt self now ps = (Error e, x) -> ok e = false.
Proof. unfold step_impl. pose proof step_admit_fails. fails_tac. Qed.
End Admission.

(** ** Preparing a plan *)

Lemma ready_phase_fails s e : ready_phase s = Error e -> ok e = false.
Proof. unfold ready_phase. fails_tac. Qed.
#[export] Hint Resolve ready_phase_fails : fails.

Lemma next_count_fails s c d e : next_real_token_count s c d = Error e -> ok e = false.
Proof. unfold next_real_token_count. fails_tac. Qed.
#[export] Hint Resolve next_count_fails : fails.

Lemma next_logits_fails s c d e : next_plan_produces_logits s c d = Error e -> ok e = false.
Proof. unfold next_plan_produces_logits. fails_tac. Qed.

Lemma next_tokens_fails rt slot s ph n e : next_tokens rt slot s ph n = Error e -> ok e = false.
Proof. unfold next_tokens. fails_tac. Qed.

Lemma tokens_digest_fails ts e : packed_token_input_digest ts = Error e -> ok e = false.
Proof. unfold packed_token_input_digest. fails_tac. Qed.
#[export] Hint Resolve next_logits_fails next_tokens_fails tokens_digest_fails : fails.

Lemma candidate_row_fails rt i slot e : candidate_row rt i slot = Error e -> ok e = false.
Proof. unfold candidate_row. fails_tac. Qed.
#[export] Hint Resolve candidate_row_fails : fails.

Lemma candidate_rows_fails rt : forall slots i e, candidate_rows rt i slots = Error e -> ok e = false.
Proof. induction slots as [|slot slots IH]; intros i e; cbn [candidate_rows]; fails_tac. Qed.

Lemma validate_candidates_fails p now : forall cs seen flags e,
  validate_candidates p now seen cs flags = Error e -> ok e = false.
Proof. induction cs as [|c cs IH]; intros seen flags e; cbn [validate_candidates]; fails_tac. Qed.
#[export] Hint Resolve candidate_rows_fails validate_candidates_fails : fails.

Lemma select_fails s snapshot e s' : select s snapshot = (Error e, s') -> ok e = false.
Proof.
  unfold select. cbn zeta. destruct (_ || _); [fails_leaf|].
  destruct (validate_candidates _ _ _ _ _) eqn:E; [|fails_leaf].
  by destruct (scan_tiers _ _ _ _ _) as [[[? ?] ?] ?].
Qed.

Lemma plan_loop_fails phase limits : forall seqs acc e,
  plan_loop phase limits seqs acc = Error e -> ok e = false.
Proof. induction seqs as [|s seqs IH]; intros acc e; cbn [plan_loop]; fails_tac. Qed.
#[export] Hint Resolve select_fails plan_loop_fails : fails.

Lemma plan_create_fails ep ps ph rev h seqs b l e :
  PackedTokenPlan_Create ep ps ph rev h seqs b l = Error e -> ok e = false.
Proof. unfold PackedTokenPlan_Create. fails_tac. Qed.
#[export] Hint Resolve plan_create_fails : fails.

Lemma semantic_digest_fails p e : semantic_digest p = Error e -> ok e = false.
Proof. unfold semantic_digest. fails_tac. Qed.

Lemma assemble_rows_fails s states : forall fuel o t inputs e inputs',
  assemble_rows s states fuel o t inputs = (Error e, inputs') -> ok e = false.
Proof. induction fuel as [|fuel IH]; intros o t inputs e inputs'; cbn [assemble_rows]; fails_tac. Qed.
#[export] Hint Resolve semantic_digest_fails assemble_rows_fails : fails.

Lemma assemble_fails s g identity states e s' :
  assemble_current_plan s g identity states = (Error e, s') -> ok e = false.
Proof.
  unfold assemble_current_plan. destruct (_ || _); [fails_leaf|]. cbn zeta.
  destruct (assemble_rows _ _ _ _ _ _) as [r inputs] eqn:Er. destruct r as [t|]; [|fails_leaf].
  destruct (negb _); [fails_leaf|]. destruct (PackedTokenPlan_Create _ _ _ _ _ _ _ _) eqn:E; fails_leaf.
Qed.

Lemma payload_error_fails plan i s e : payload_error plan i s = Some e -> ok e = false.
Proof.
  unfold payload_error. repeat bcase; try done; intros [= <-]; fails_leaf || eauto 3 with fails.
Qed.

Lemma validate_payload_fails plan : forall ss i e, validate_payload plan i ss = Some e -> ok e = false.
Proof.
  induction ss as [|s ss IH]; intros i e; cbn [validate_payload]; [done|].
  destruct (payload_error plan i s) eqn:E; [|apply IH]. intros [= <-]. by eapply payload_error_fails.
Qed.

Lemma materialize_fails a plan ss e a' : materialize a plan ss = (Error e, a') -> ok e = false.
Proof.
  unfold materialize. destruct (_ || _); [fails_leaf|].
  destruct (validate_payload plan 0 ss) eqn:E; [|by destruct (write_sequences _ _ _ _ _)].
  intros [= <- _]. by eapply validate_payload_fails.
Qed.
#[export] Hint Resolve assemble_fails materialize_fails : fails.

Lemma materialize_current_fails s g plan tokens arena e x :
  materialize_current_metadata s g plan tokens arena = (Error e, x) -> ok e = false.
Proof. unfold materialize_current_metadata. fails_tac. Qed.

Lemma acquire_fails p plan kind r s b e p' : acquire p plan kind r s b = (Error e, p') -> ok e = false.
Proof. unfold acquire. fails_tac. Qed.
#[export] Hint Resolve materialize_current_fails acquire_fails : fails.

Lemma prepare_included_fails plan rows burst : forall included rt n e rt',
  prepare_included rt plan rows burst included n = (Error e, rt') -> ok e = false.
Proof.
  induction included as [|ci rest IH]; intros rt n e rt'; cbn [prepare_included]; fails_tac.
Qed.
#[export] Hint Resolve prepare_included_fails : fails.

Lemma prepare_decision_fails rt rows d e rt' :
  prepare_decision rt rows d = (Error e, rt') -> ok e = false.
Proof.
  unfold prepare_decision. cbn zeta.
  destruct (assemble_current_plan _ _ _ _) as [[plan|] s1] eqn:E1; [|fails_leaf].
  destruct (semantic_digest plan) as [digest|] eqn:E2; [|fails_leaf].
  destruct (materialize_current_metadata _ _ _ _ _) as [[md|] [s2 arena]] eqn:E3; [|fails_leaf].
  destruct (acquire _ _ _ _ _ _) as [[burst|] pool] eqn:E4; [|fails_leaf].
  destruct (prepare_included _ _ _ _ _ _) as [[n|] rt1] eqn:E5; fails_leaf.
Qed.

Lemma prepare_fails rt now e rt' : prepare_next_plan rt now = (Error e, rt') -> ok e = false.
Proof.
  unfold prepare_next_plan. destruct (_ || _); [fails_leaf|]. destruct (_ || _); [fails_leaf|]. cbn zeta.
  destruct (candidate_rows _ _ _) as [rows|] eqn:E1; [|fails_leaf]. destruct (_ =? 0); [fails_leaf|].
  destruct (select _ _) as [[d|] s1] eqn:E2; [|fails_leaf]. destruct (tier_eqb _ _); [fails_leaf|].
  apply prepare_decision_fails.
Qed.

Lemma runtime_create_fails l e : ControllerRuntime_Create l = Error e -> ok e = false.
Proof.
  unfold ControllerRuntime_Create, ControllerIngress_Create, ControllerMailbox_Create,
    ControllerRequestArena_Create, PhaseTierScheduler_Create, PackedTokenMetadataArena_Create,
    OutputBurstCreditPool_Create.
  cbn zeta. repeat (case_match; simplify_eq/=); try done; by intros [= <-].
Qed.

Lemma sampled_fails rt plan : forall fuel i samples e,
  sampled_results rt plan fuel i samples = Error e -> ok e = false.
Proof.
  induction fuel as [|fuel IH]; intros i samples e; cbn [sampled_results]; [done|]. cbn zeta.
  repeat (case_match; simplify_eq/=); try done; try (by intros [= <-]);
    intros [= <-]; by eapply IH.
Qed.

(** The invariant of the class [Result]: an error is not OK. *)
Definition result_valid {A} (r : Result A) : bool :=
  match r with Value _ => true | Error e => negb (ok e) end.

Lemma result_valid_intro {A S} (x : Result A * S) :
  (forall e s, x = (Error e, s) -> ok e = false) -> result_valid (fst x) = true.
Proof. destruct x as [[a|e] s]; [done|]. intros H. cbn. by rewrite (H e s). Qed.

(** C40. No call of the runtime builds a [Result] from an OK status, which the
    constructor of [Result] answers with an exception: whatever the state of the
    runtime, the arguments and the answers of the admission participant, an error
    result of [Create], [submit_admit], [submit_cancel], [step],
    [prepare_next_plan] or [try_take_event] carries a failure. *)
Theorem runtime_results_valid {PS} (participant : ControllerAdmissionParticipant PS)
    l rt g prompt n s self now ps :
  result_valid (ControllerRuntime_Create l) = true /\
  result_valid (fst (submit_admit rt g prompt n s)) = true /\
  result_valid (fst (submit_cancel rt g)) = true /\
  result_valid (fst (step rt self now)) = true /\
  result_valid (fst (step_with participant rt self now ps)) = true /\
  result_valid (fst (prepare_next_plan rt now)) = true /\
  result_valid (fst (try_take_event rt)) = true.
Proof.
  split; [destruct (ControllerRuntime_Create l) eqn:E; cbn; [done|by rewrite (runtime_create_fails _ _ E)]|].
  split_and!; try apply result_valid_intro; try apply admit_fails; try apply cancel_fails;
    try apply prepare_fails; try apply take_event_fails; try apply step_fails.
  unfold step. pose proof (step_fails (PS := unit) None rt self now tt) as H.
  destruct (step_impl _ _ _ _ _) as [r [rt' u]]. intros e rt1 [= -> _]. by eapply H.
Qed.
