(* ===== verification/RuntimeInv.v ===== *)
(** * The invariant of the controller runtime

    A ready runtime couples its parts: every occupied slot holds a well-formed
    sequence; the current plan owns a live credit, and the sequences it selected
    hold that plan at the credit's stage; the pending bursts are the transferred
    credits.  The invariant holds of every state the operations reach while the
    runtime is ready. *)

From stdpp Require Import gmap.
From S2P Require Import Prelude Core Sha256 TokenPlan TokenMetadata Sequence BurstCredits.
From S2P Require Import Mailbox RequestArena Ingress Scheduler Runtime.

(** ** The ingress of the runtime *)

(** What the types of a sampling descriptor guarantee: an array of sixteen stop
    tokens and an unsigned count. *)
Definition sampling_typed (s : ControllerRequestSampling) : Prop :=
  vsize (sm_stop_token_ids s) = kMaximumStopTokenIds /\ 0 <= sm_stop_token_count s.

(** A validated descriptor: the count is within the array, whose tail is zero. *)
Definition sampling_ok (s : ControllerRequestSampling) : Prop :=
  sampling_typed s /\ sm_stop_token_count s <= kMaximumStopTokenIds /\
  Forall (fun t => t = 0) (drop (Z.to_nat (sm_stop_token_count s)) (sm_stop_token_ids s)).

Lemma stop_tokens_tail count : forall ids i before,
  0 <= i -> stop_tokens_error count i before ids = None ->
  Forall (fun t => t = 0) (drop (Z.to_nat (count - i)) ids).
Proof.
  induction ids as [|id ids IH]; intros i before Hi E; [by rewrite drop_nil|].
  cbn [stop_tokens_error] in E. destruct (i >=? count) eqn:Ec.
  - destruct (id =? 0) eqn:E0; [|done]. cbn [negb] in E. apply IH in E; [|lia].
    replace (Z.to_nat (count - (i + 1))) with 0%nat in E by lia.
    replace (Z.to_nat (count - i)) with 0%nat by lia. constructor; [lia|done].
  - destruct (id >=? kVocabulary); [done|]. destruct (existsb _ _); [done|].
    apply IH in E; [|lia]. replace (Z.to_nat (count - i)) with (S (Z.to_nat (count - (i + 1)))) by lia.
    done.
Qed.

Lemma validated_sampling s n :
  sampling_typed s -> ok (validate_sampling s n) = true -> sampling_ok s.
Proof.
  intros Ht. unfold validate_sampling. destruct (descriptor_invalid s n) eqn:Ed; [done|].
  destruct (stop_tokens_error _ _ _ _) as [e|] eqn:Et.
  - intros Hok. exfalso. revert Et. generalize 0 (@nil Z). generalize (sm_stop_token_ids s).
    induction l as [|id l IH]; intros i before; cbn [stop_tokens_error]; [done|].
    repeat case_match; try done; try (by intros [= <-]); apply IH.
  - intros _. unfold descriptor_invalid in Ed. split_and!; [apply Ht..|lia|].
    apply stop_tokens_tail in Et; [|done]. by rewrite Z.sub_0_r in Et.
Qed.

(** A slot of the arena, of the types of its fields. *)
Definition slot_typed (s : RequestArena.Slot) : Prop :=
  sampling_typed (sl_sampling s) /\ (slot_free s = false -> 1 <= sl_generation s).

Definition command_typed (c : ControllerCommand) : Prop :=
  is_u64 (cmd_request_generation c) /\ cmd_command_sequence c <> 0 /\ cmd_epoch c <> 0.

Definition requests_wf (a : ControllerRequestArena) : Prop :=
  RequestArena.arena_wf a /\ Forall slot_typed (ra_slots a).

Definition ingress_wf (ig : ControllerIngress) : Prop :=
  mailbox_wf (ig_mailbox ig) /\ requests_wf (ig_requests ig) /\
  Forall command_typed (queue (ig_mailbox ig)).

Lemma Forall_vput {A} (P : A -> Prop) (l : list A) i x : Forall P l -> P x -> Forall P (l.[i <- x]).
Proof. intros. unfold vput. by apply Forall_insert. Qed.

Definition publishes_typed (op : arena_op) : Prop :=
  match op with RqPublish _ _ _ s => sampling_typed s | _ => True end.

Lemma clear_slot_typed a i :
  Forall slot_typed (ra_slots a) -> Forall slot_typed (ra_slots (clear_slot a i)).
Proof. intros Ht. by apply Forall_vput. Qed.

Lemma arena_op_wf a op :
  requests_wf a -> m_typed op -> publishes_typed op -> requests_wf (snd (run_arena a op)).
Proof.
  intros [Ha Hs] Ht Hp. split; [exact (inv_run (Inv := RequestArena.arena_wf) a op Ha Ht)|].
  destruct op as [g prompt maxnew s|g d|rcp|i gen]; cbn [run_arena].
  - destruct (RequestArena.publish _ _ _ _ _) as [[rcp|e] a'] eqn:E; cbn [snd];
      [|by apply publish_Error in E as ->].
    apply publish_Value in E as (i & d & Hi & _ & _ & _ & _ & _ & _ & _ & ->); [|done].
    apply Forall_vput; [done|]. split; [done|]. cbn.
    destruct Ha as (_ & _ & _ & Hg & _). destruct (Hg i Hi) as (Hu & _). unfold is_u64 in Hu. lia.
  - unfold claim. destruct (first_index _ _ _) as [i|] eqn:Ei; [|done]. cbn zeta.
    apply first_index_Some in Ei as (Hi & Hf & _). rewrite Z.sub_0_r in Hf.
    destruct (negb _); [done|]. cbn [snd]. apply Forall_vput; [done|].
    destruct (Forall_at slot_typed _ i Hs ltac:(lia)) as [H1 H2]. split; [done|]. intros _. apply H2.
    unfold slot_published in Hf. unfold slot_free. by destruct (sl_state _).
  - unfold rollback_published. cbn zeta. repeat bcase; cbn [snd]; try done. by apply clear_slot_typed.
  - unfold release_claimed. cbn zeta. repeat bcase; cbn [snd]; try done. by apply clear_slot_typed.
Qed.

Lemma ingress_submit_admit_wf ig epoch g prompt maxnew s :
  ingress_wf ig -> is_u64 g -> sampling_typed s ->
  ingress_wf (snd (Ingress.submit_admit ig epoch g prompt maxnew s)).
Proof.
  intros (Hm & Ha & Hq) Hg Hsm. unfold Ingress.submit_admit. case_match; [done|].
  pose proof (arena_op_wf _ (RqPublish g prompt maxnew s) Ha I Hsm) as Ha'. cbn [run_arena] in Ha'.
  destruct (RequestArena.publish _ _ _ _ _) as [[rcp|e] a'] eqn:Ep; cbn [snd] in Ha'; [|done].
  apply publish_Value in Ep as (i & d & Hi & _ & _ & _ & _ & _ & _ & Hrcp & _); [|apply Ha].
  cbn [ig_mailbox upd]. destruct (submit_command _ _ _ _ _) as [r m'] eqn:Es.
  apply submit_queue in Es as (Hm' & _ & Hs); [|done]. destruct r as [c|e].
  - destruct Hs as (Hqq & _ & Hgc & _ & Hcs). split_and!; [done..|]. cbn. rewrite Hqq.
    apply Forall_app_2; [done|]. apply Forall_singleton. split; [by rewrite Hgc|done].
  - subst m'. cbn [ig_requests upd].
    pose proof (arena_op_wf a' (RqRollback rcp) Ha') as Ha2. cbn [run_arena] in Ha2.
    destruct (rollback_published _ _) as [st a2]. cbn [snd] in Ha2.
    assert (requests_wf a2) by (apply Ha2; [rewrite Hrcp; cbn; lia|done]).
    destruct (ok st); by split_and!.
Qed.

Lemma ingress_submit_cancel_wf ig epoch g :
  ingress_wf ig -> is_u64 g -> ingress_wf (snd (Ingress.submit_cancel ig epoch g)).
Proof.
  intros (Hm & Ha & Hq) Hg. unfold Ingress.submit_cancel. case_match; [|done].
  destruct (submit_command _ _ _ _ _) as [r m'] eqn:Es.
  apply submit_queue in Es as (Hm' & _ & Hs); [|done]. split_and!; [done..|]. cbn.
  destruct r as [c|e]; [|by subst]. destruct Hs as (-> & _ & Hgc & _ & Hcs).
  apply Forall_app_2; [done|]. apply Forall_singleton. split; [by rewrite Hgc|done].
Qed.

(** A request as its slot holds it. *)
Definition request_ok (v : ControllerRequestView) : Prop :=
  0 <= rqv_slot_index v /\ sampling_ok (rqv_sampling v).

(** A claimed request, within the limits of the arena. *)
Definition view_within (limits : ControllerRequestArenaLimits) (v : ControllerRequestView) : Prop :=
  rqv_request_generation v <> 0 /\ 1 <= rqv_slot_generation v /\
  0 <= rqv_slot_index v < rql_maximum_requests limits /\
  1 <= sp_size (rqv_prompt_token_ids v) <= rql_maximum_prompt_tokens_per_request limits.

(** The item the controller takes: a typed command, and for an admission a view
    of its request. *)
Definition item_ok (limits : ControllerRequestArenaLimits) (item : ControllerIngressCommandView) :
    Prop :=
  command_typed (cv_command item) /\
  match cv_request item with
  | Some v => rqv_request_generation v = cmd_request_generation (cv_command item) /\
              rqv_payload_digest v = cmd_payload_digest (cv_command item) /\
              request_ok v /\ is_u32 (sp_size (rqv_prompt_token_ids v)) /\ view_within limits v
  | None => True
  end.

Lemma claimed_view_typed a g d v a' :
  RequestArena.arena_wf a -> Forall slot_typed (ra_slots a) -> claim a g d = (Value v, a') ->
  rqv_request_generation v = g /\ rqv_payload_digest v = d /\ request_ok v /\
  is_u32 (sp_size (rqv_prompt_token_ids v)) /\ view_within (ra_limits a) v.
Proof.
  intros Ha Ht E. apply claim_Value in E as (r & Hr & _ & Hd & ->); [|done].
  apply resident_inv in Hr as (i & Hi & Hf & Hg & ->).
  destruct (Forall_at slot_typed _ i Ht Hi) as [Hst Hsg]. specialize (Hsg Hf).
  destruct Ha as ((L1 & L2 & _) & Hn & _ & Hs & _). destruct (Hs i Hi) as (_ & _ & Hh).
  destruct (Hh Hf) as (Hr & _). unfold request_refused in Hr. rewrite Hg in Hr. breflect. cbn in Hd.
  assert (Hsm : sampling_ok (sl_sampling ((ra_slots a).[i]))) by (by eapply validated_sampling). unfold is_u32 in *.
  pose proof (vsize_nonneg (slot_prompt a i)). unfold request_ok, view_within. cbn.
  split_and!; try done; lia.
Qed.

Lemma ingress_take_wf ig self :
  ingress_wf ig ->
  ingress_wf (snd (Ingress.try_take_command ig self)) /\
  forall item, fst (Ingress.try_take_command ig self) = Value (Some item) ->
    item_ok (ra_limits (ig_requests ig)) item.
Proof.
  intros (Hm & Ha & Hq). unfold Ingress.try_take_command.
  destruct (Mailbox.try_take_command _ _) as [r m'] eqn:Et.
  apply take_queue in Et as (Hm' & _ & Hr); [|done]. cbn [ig_requests upd].
  destruct r as [[c|]|e]; cbn [fst snd].
  - rewrite Hr in Hq. apply Forall_cons in Hq as [Hc Hq].
    destruct (command_kind_eqb _ _).
    + pose proof (arena_op_wf _ (RqClaim (cmd_request_generation c) (cmd_payload_digest c)) Ha I I)
        as Ha'. cbn [run_arena] in Ha'.
      destruct (claim _ _ _) as [[v|e] a'] eqn:Ec; cbn [snd] in Ha'; cbn [fst snd].
      * split; [by split_and!|]. intros item [= <-]. split; [done|].
        exact (claimed_view_typed _ _ _ _ _ (proj1 Ha) (proj2 Ha) Ec).
      * split; [by split_and!|done].
    + split; [by split_and!|]. intros item [= <-]. by split.
  - split; [|done]. split_and!; [done..|]. cbn. by rewrite Hr.
  - split; [|done]. split_and!; [done..|]. cbn. by rewrite Hr.
Qed.

Lemma ingress_release_wf ig v :
  ingress_wf ig -> 0 <= rqv_slot_index v -> ingress_wf (snd (release_request ig v)).
Proof.
  intros (Hm & Ha & Hq) Hv. unfold release_request.
  pose proof (arena_op_wf _ (RqRelease (rqv_slot_index v) (rqv_slot_generation v)) Ha Hv I) as Ha'.
  cbn [run_arena] in Ha'. destruct (release_claimed _ _ _) as [st a']. by split_and!.
Qed.

Lemma ingress_publish_wf ig self draft :
  ingress_wf ig -> ingress_wf (snd (Ingress.publish_event ig self draft)).
Proof.
  intros (Hm & Ha & Hq). unfold Ingress.publish_event.
  destruct (Mailbox.publish_event _ _ _) as [r m'] eqn:E.
  apply publish_event_queue in E as [Hm' Hqq]; [|done]. split_and!; [done..|]. cbn. by rewrite Hqq.
Qed.

Lemma ingress_take_event_wf ig :
  ingress_wf ig -> ingress_wf (snd (Ingress.try_take_event ig)).
Proof.
  intros (Hm & Ha & Hq). unfold Ingress.try_take_event.
  destruct (Mailbox.try_take_event _) as [r m'] eqn:E.
  apply take_event_queue in E as [Hm' Hqq]; [|done]. split_and!; [done..|]. cbn. by rewrite Hqq.
Qed.

(** ** Slots and the current plan *)

Definition slot_wf (slot : Slot) : Prop :=
  is_u64 (RuntimeSlot.last_service_plan_sequence slot) /\
  is_u64 (RuntimeSlot.ready_enqueue_sequence slot) /\
  match slot_sequence slot with
  | Some s => seq_wf s /\ request_ok (slot_request slot) /\
      sp_size (rqv_prompt_token_ids (slot_request slot)) = cs_prompt_token_count s
  | None => True
  end.

(** The state a cancelled sequence was in. *)
Definition effective_state (s : ControllerSequence) : SeqState.ControllerSequenceState :=
  if state_eqb (cs_state s) SeqState.kCancelRequested then cs_state_before_cancel s
  else cs_state s.

(** The sequence holds the plan, at the stage of its credit. *)
Definition seq_holds (plan : PackedTokenPlan) (st : BurstState.OutputBurstState)
    (s : ControllerSequence) : Prop :=
  cs_active_plan_sequence s = pp_plan_sequence plan /\ cs_active_phase s = pp_phase plan /\
  match st with
  | BurstState.kPrepared => is_prepared (effective_state s) = true
  | BurstState.kCommitted => is_committed_or_in_flight (effective_state s) = true
  | _ => False
  end.

(** The slots of the current plan. *)
Definition selected (indices : list Z) (cur : CurrentPlan) : list Z :=
  take (Z.to_nat (cp_selected_count cur)) indices.

Record holds_plan (slots : list Slot) (indices : list Z) (pool : OutputBurstCreditPool)
    (cur : CurrentPlan) (plan : PackedTokenPlan) (lease : OutputBurstLease)
    (st : BurstState.OutputBurstState) : Prop := {
  hp_sequence : pp_plan_sequence plan <> 0;
  hp_count : 0 <= cp_selected_count cur <= vsize indices;
  hp_nodup : NoDup (selected indices cur);
  hp_lease : lease_view pool lease = Some st;
  hp_slots : forall i, i ∈ selected indices cur -> 0 <= i < vsize slots /\
    exists s, slot_sequence (slots.[i]) = Some s /\ seq_holds plan st s }.

Definition current_ok (slots : list Slot) (indices : list Z) (pool : OutputBurstCreditPool)
    (cur : CurrentPlan) : Prop :=
  match cp_plan cur, cp_output_burst cur with
  | None, None => True
  | Some plan, Some lease =>
      exists st, (st = BurstState.kPrepared \/ st = BurstState.kCommitted) /\
        holds_plan slots indices pool cur plan lease st
  | _, _ => False
  end.

(** The pending bursts are distinct transferred credits. *)
Definition pending_ok (pool : OutputBurstCreditPool) (pending : list (option OutputBurstLease)) :
    Prop :=
  vsize pending = vsize (bp_credits pool) /\
  (forall k l, 0 <= k < vsize pending -> pending.[k] = Some l ->
     lease_view pool l = Some BurstState.kTransferred) /\
  (forall j k l l', 0 <= j < vsize pending -> 0 <= k < vsize pending ->
     pending.[j] = Some l -> pending.[k] = Some l' ->
     bl_credit_index l = bl_credit_index l' -> j = k).

Record rt_wf (rt : ControllerRuntime) : Prop := {
  rw_epoch : rc_epoch (rt_config rt) <> 0;
  rw_chunk : 1 <= rc_maximum_prefill_chunk_tokens (rt_config rt) <= u32_max;
  rw_envelope : 0 <= rc_output_maximum_slots_per_credit (rt_config rt) /\
    0 <= rc_output_maximum_bytes_per_credit (rt_config rt);
  rw_ingress : ingress_wf (rt_ingress rt);
  rw_slots : Forall slot_wf (rt_slots rt);
  rw_slots_size :
    vsize (rt_slots rt) = ptp_maximum_candidates (pts_profile (rt_scheduler rt));
  rw_scheduler : sched_wf (rt_scheduler rt);
  rw_metadata : TokenMetadata.arena_wf (rt_metadata rt);
  rw_credits : pool_wf (rt_output_credits rt);
  rw_indices : vsize (rt_selected_slot_indices rt) =
    ptp_maximum_sequences_per_plan (pts_profile (rt_scheduler rt));
  rw_sampling : vsize (rt_selected_sampling rt) =
    ptp_maximum_sequences_per_plan (pts_profile (rt_scheduler rt));
  rw_current : current_ok (rt_slots rt) (rt_selected_slot_indices rt) (rt_output_credits rt)
    (rt_current rt);
  rw_pending : pending_ok (rt_output_credits rt) (rt_pending_output_bursts rt);
  rw_next_ready : is_u64 (rt_next_ready_enqueue_sequence rt);
  rw_next_plan : is_u64 (rt_next_plan_sequence rt);
  rw_rounds : is_u32 (rt_consecutive_decode_rounds rt) }.

(** What the operations keep while the runtime is ready. *)
Definition rt_ok (rt : ControllerRuntime) : Prop :=
  rt_state rt = RuntimeState.kReady -> rt_wf rt.

Lemma failed_ok rt : rt_ok (mark_failed rt).
Proof. intros E. discriminate E. Qed.

Lemma ready_true st : ready st = true <-> st = RuntimeState.kReady.
Proof. by destruct st. Qed.

(** *** Updates that the invariant does not look at, or only locally *)

Ltac keep_wf := intros []; constructor; cbn; done.

Lemma wf_ingress rt ig : ingress_wf ig -> rt_wf rt -> rt_wf (rt <| rt_ingress := ig |>).
Proof. intros ?. keep_wf. Qed.

Lemma wf_now rt now : rt_wf rt -> rt_wf (rt <| rt_last_controller_now_ns := now |>).
Proof. keep_wf. Qed.

Lemma wf_active rt n : rt_wf rt -> rt_wf (rt <| rt_active_sequence_count := n |>).
Proof. keep_wf. Qed.

Lemma wf_next_ready rt n :
  is_u64 n -> rt_wf rt -> rt_wf (rt <| rt_next_ready_enqueue_sequence := n |>).
Proof. intros ?. keep_wf. Qed.

Lemma wf_metadata rt m :
  TokenMetadata.arena_wf m -> rt_wf rt -> rt_wf (rt <| rt_metadata := m |>).
Proof. intros ?. keep_wf. Qed.

Lemma wf_scheduler rt s :
  sched_wf s -> pts_profile s = pts_profile (rt_scheduler rt) ->
  rt_wf rt -> rt_wf (rt <| rt_scheduler := s |>).
Proof. intros ? Hp []. constructor; cbn; rewrite ?Hp; done. Qed.

(** A slot is replaced: a selected one must keep holding the plan. *)
Definition slot_keeps (rt : ControllerRuntime) (i : Z) (slot : Slot) : Prop :=
  forall plan lease st, cp_plan (rt_current rt) = Some plan ->
    cp_output_burst (rt_current rt) = Some lease ->
    holds_plan (rt_slots rt) (rt_selected_slot_indices rt) (rt_output_credits rt)
      (rt_current rt) plan lease st ->
    i ∈ selected (rt_selected_slot_indices rt) (rt_current rt) ->
    exists s, slot_sequence slot = Some s /\ seq_holds plan st s.

Lemma wf_slot rt i slot :
  0 <= i < vsize (rt_slots rt) -> slot_wf slot -> slot_keeps rt i slot ->
  rt_wf rt -> rt_wf (rt <| rt_slots := (rt_slots rt).[i <- slot] |>).
Proof.
  intros Hi Hs Hk Hw. pose proof Hw as []. constructor; cbn; rewrite ?vsize_vput; try done.
  - by apply Forall_vput.
  - unfold current_ok in *. destruct (cp_plan _) as [plan|] eqn:Ep, (cp_output_burst _) as [lease|] eqn:El;
      try done. destruct rw_current0 as (st & Hst & Hh). exists st. split; [done|].
    pose proof Hh as []. constructor; try done. intros j Hj. rewrite vsize_vput.
    destruct (hp_slots0 j Hj) as [Hjr Hjs]. split; [done|]. rewrite vat_vput by lia.
    destruct (Z.eqb_spec j i) as [->|]; [|done]. by eapply Hk.
Qed.

(** ** Calls on a sequence *)

Lemma run_op_identity s op :
  cs_prompt_token_count (snd (run_op s op)) = cs_prompt_token_count s /\
  cs_sequence_generation (snd (run_op s op)) = cs_sequence_generation s.
Proof. destruct op; cbn [run_op]; seq_unfold; repeat (bcase; try done). Qed.

Lemma on_sequence_eq rt i s op :
  slot_sequence ((rt_slots rt).[i]) = Some s ->
  on_sequence rt i op = (fst (op s), set_sequence rt i (Some (snd (op s)))).
Proof. intros E. unfold on_sequence, sequence_at. rewrite E. by destruct (op s). Qed.

Lemma sequence_at_set rt i s :
  0 <= i < vsize (rt_slots rt) -> sequence_at (set_sequence rt i (Some s)) i = s.
Proof. intros Hi. unfold sequence_at, set_sequence. cbn. by rewrite vat_vput_eq. Qed.

Lemma slot_set rt i s :
  0 <= i < vsize (rt_slots rt) ->
  (rt_slots (set_sequence rt i s)).[i] = (rt_slots rt).[i] <| RuntimeSlot.sequence := s |>.
Proof. intros Hi. unfold set_sequence. cbn. by rewrite vat_vput_eq. Qed.

Lemma wf_at rt i :
  rt_wf rt -> 0 <= i < vsize (rt_slots rt) -> slot_wf ((rt_slots rt).[i]).
Proof. intros [] Hi. by apply (Forall_at slot_wf). Qed.

Lemma wf_sequence rt i s op :
  rt_wf rt -> 0 <= i < vsize (rt_slots rt) -> slot_sequence ((rt_slots rt).[i]) = Some s ->
  op_typed op ->
  (i ∈ selected (rt_selected_slot_indices rt) (rt_current rt) ->
   forall plan st, seq_holds plan st s -> pp_plan_sequence plan <> 0 ->
     seq_holds plan st (snd (run_op s op))) ->
  rt_wf (set_sequence rt i (Some (snd (run_op s op)))).
Proof.
  intros Hw Hi Es Ht Hk. pose proof (wf_at _ _ Hw Hi) as (H1 & H2 & H3). rewrite Es in H3.
  destruct H3 as (Hs & H4 & H5). apply wf_slot; [done| | |done].
  - split_and!; cbn; [done..|]. split_and!; [by apply run_op_wf|done|].
    by rewrite H5, (proj1 (run_op_identity s op)).
  - intros plan lease st Hp Hl Hh Hin. cbn. eexists. split; [done|].
    destruct (hp_slots _ _ _ _ _ _ _ Hh i Hin) as (_ & s' & Es' & Hsh).
    rewrite Es in Es'. injection Es' as <-. apply Hk; [done..|]. apply Hh.
Qed.

(** A sequence without an active plan is not selected. *)
Lemma not_selected rt i s :
  rt_wf rt -> slot_sequence ((rt_slots rt).[i]) = Some s -> cs_active_plan_sequence s = 0 ->
  forall plan lease, cp_plan (rt_current rt) = Some plan ->
    cp_output_burst (rt_current rt) = Some lease ->
    i ∉ selected (rt_selected_slot_indices rt) (rt_current rt).
Proof.
  intros [] Es E0 plan lease Hp Hl Hin. unfold current_ok in *. rewrite Hp, Hl in rw_current0.
  destruct rw_current0 as (st & _ & []). destruct (hp_slots0 i Hin) as (_ & s' & Es' & Ha & _).
  rewrite Es in Es'. injection Es' as <-. congruence.
Qed.

Lemma slot_has_Some g slot :
  slot_has g slot = true -> exists s, slot_sequence slot = Some s /\ cs_sequence_generation s = g.
Proof.
  unfold slot_has. destruct (slot_sequence slot) as [s|]; [|done]. intros E. breflect. eauto.
Qed.

Lemma find_slot g slots i :
  first_index (slot_has g) slots 0 = Some i ->
  0 <= i < vsize slots /\ exists s, slot_sequence (slots.[i]) = Some s /\ cs_sequence_generation s = g.
Proof.
  intros E. apply first_index_Some in E as (Hi & Hf & _). rewrite Z.sub_0_r in Hf.
  split; [lia|]. by apply slot_has_Some.
Qed.

Lemma request_cancel_holds plan st s :
  seq_holds plan st s -> seq_holds plan st (snd (request_cancel s)).
Proof.
  intros (Ha & Hp & Hst). unfold request_cancel, seq_holds in *.
  destruct (_ || _); [done|]. destruct (state_eqb (cs_state s) SeqState.kCancelRequested) eqn:Ec; [done|].
  cbn. split_and!; [done..|]. unfold effective_state in *. cbn. rewrite Ec in Hst. done.
Qed.

Lemma publish_ok rt self draft :
  rt_wf rt -> rt_wf (snd (publish rt self draft)).
Proof.
  intros Hw. unfold publish. pose proof (ingress_publish_wf (rt_ingress rt) self draft) as H.
  destruct (Ingress.publish_event _ _ _) as [r ig]. cbn in H |- *. apply wf_ingress; [|done].
  apply H, Hw.
Qed.

Lemma release_ok rt v :
  0 <= rqv_slot_index v -> rt_wf rt -> rt_wf (snd (release rt v)).
Proof.
  intros Hv Hw. unfold release. pose proof (ingress_release_wf (rt_ingress rt) v) as H.
  destruct (release_request _ _) as [r ig]. cbn in H |- *. apply wf_ingress; [|done].
  apply H; [apply Hw|done].
Qed.

(** ** [step] keeps the invariant *)

Lemma step_cancel_ok rt self c : rt_wf rt -> rt_ok (snd (step_cancel rt self c)).
Proof.
  intros Hw. unfold step_cancel.
  destruct (controller_cancel_payload_digest _ _) as [digest|]; [|apply failed_ok].
  case_match; [apply failed_ok|].
  destruct (first_index _ _ _) as [i|] eqn:Ei; [|by intros _].
  apply find_slot in Ei as (Hi & s & Es & _).
  rewrite (on_sequence_eq rt i s) by done.
  assert (Hw1 : rt_wf (set_sequence rt i (Some (snd (request_cancel s))))).
  { apply (wf_sequence rt i s OpRequestCancel Hw Hi Es I). intros _ plan st Hs _.
    by apply request_cancel_holds. }
  destruct (negb (ok _)); [by intros _|]. rewrite sequence_at_set by done.
  set (rt1 := set_sequence rt i _) in *. set (s1 := snd (request_cancel s)) in *.
  destruct (has_active_plan s1) eqn:Ea; cbn [negb]; [by intros _|].
  unfold has_active_plan in Ea. breflect.
  assert (Hi1 : 0 <= i < vsize (rt_slots rt1)) by (unfold rt1; cbn; by rewrite vsize_vput).
  assert (Es1 : slot_sequence ((rt_slots rt1).[i]) = Some s1)
    by (unfold rt1; by rewrite slot_set).
  rewrite (on_sequence_eq rt1 i s1) by done.
  assert (Hw2 : rt_wf (set_sequence rt1 i (Some (snd (begin_draining s1))))).
  { apply (wf_sequence rt1 i s1 OpBeginDraining Hw1 Hi1 Es1 I).
    intros Hin plan st (Ha & _) Hz. congruence. }
  destruct (negb (ok _)); [by intros _|].
  pose proof (publish_ok _ self (plain_draft EventKind.kDraining (rc_epoch (rt_config rt))
    (cs_sequence_generation (sequence_at (set_sequence rt1 i (Some (snd (begin_draining s1)))) i))
    digest) Hw2) as Hw3.
  destruct (publish _ _ _) as [[ev|e] rt3]; [by intros _|apply failed_ok].
Qed.

Lemma reserve_refused_ok rt self a reserved :
  0 <= rqv_slot_index (av_request a) -> rt_wf rt ->
  rt_ok (snd (reserve_refused rt self a reserved)).
Proof.
  intros Hv Hw. unfold reserve_refused. pose proof (release_ok rt (av_request a) Hv Hw) as Hw1.
  destruct (release _ _) as [released rt1]. cbn [snd] in Hw1.
  destruct (ok released); cbn [negb orb]; [|apply failed_ok].
  case_bool_decide; cbn [negb]; [|apply failed_ok].
  match goal with |- context [publish ?r self ?d] => pose proof (publish_ok r self d Hw1) as Hw2 end.
  destruct (publish _ _ _) as [[ev|e] rt3]; [by intros _|apply failed_ok].
Qed.

Lemma occupy_slot_ok rt i now request s :
  rt_wf rt -> 0 <= i < vsize (rt_slots rt) -> slot_vacant ((rt_slots rt).[i]) = true ->
  seq_wf s -> request_ok request ->
  sp_size (rqv_prompt_token_ids request) = cs_prompt_token_count s ->
  rt_wf (occupy_slot rt i now request s).
Proof.
  intros Hw Hi Hv Hs Hr Hp. unfold occupy_slot. apply wf_next_ready; [apply wrap64_range|].
  pose proof (wf_at _ _ Hw Hi) as (H1 & _ & _). apply wf_slot; [done| | |done].
  - split_and!; cbn; [done|apply Hw|by split_and!].
  - intros plan lease st _ _ Hh Hin. destruct (hp_slots _ _ _ _ _ _ _ Hh i Hin) as (_ & s' & Es & _).
    unfold slot_vacant in Hv. by rewrite Es in Hv.
Qed.

Section AdmissionOk.
Context {PS : Type} (participant : option (ControllerAdmissionParticipant PS)).

Lemma step_admit_ok rt self now ps a :
  rt_wf rt -> is_u64 (rqv_request_generation (av_request a)) ->
  request_ok (av_request a) -> is_u32 (sp_size (rqv_prompt_token_ids (av_request a))) ->
  rt_ok (fst (snd (step_admit participant rt self now ps a))).
Proof.
  intros Hw Hg Hv Hsz. unfold step_admit.
  destruct (first_index _ _ _) as [i|] eqn:Ei; [|apply failed_ok].
  apply first_index_Some in Ei as (Hi & Hf & _). rewrite Z.sub_0_r in Hf. rewrite Z.add_0_l in Hi.
  destruct (p_reserve _ _ _) as [reserved ps1]. destruct (negb (ok reserved)).
  { pose proof (reserve_refused_ok rt self a reserved (proj1 Hv) Hw) as H.
    destruct (reserve_refused _ _ _ _). exact H. }
  destruct (Admit _ _ _) as [s|] eqn:Ea, (admitted_state_digest _ _) as [digest|];
    try (destruct (p_rollback _ _ _); destruct (release _ _); case_match; apply failed_ok).
  assert (Hs : seq_wf s).
  { eapply Admit_wf; [..|exact Ea]; [done|unfold is_u64, is_u32 in *; lia|unfold is_u64; lia]. }
  assert (Hp : sp_size (rqv_prompt_token_ids (av_request a)) = cs_prompt_token_count s).
  { apply Admit_Value in Ea. by destruct Ea as (_ & _ & _ & ->). }
  pose proof (occupy_slot_ok rt i now (av_request a) s Hw ltac:(lia) Hf Hs Hv Hp) as Hw1.
  destruct (p_publish _ _ _) as [published ps2]. destruct (negb (ok published)).
  { destruct (release _ _); case_match; apply failed_ok. }
  match goal with |- context [publish ?r self ?d] => pose proof (publish_ok r self d Hw1) as Hw2 end.
  destruct (publish _ _ _) as [[ev|e] rt3].
  - intros _. by apply wf_active.
  - destruct (release _ _); case_match; apply failed_ok.
Qed.

Lemma step_impl_ok rt self now ps :
  rt_ok rt -> rt_ok (fst (snd (step_impl participant rt self now ps))).
Proof.
  intros Hok. unfold step_impl. destruct (ready (rt_state rt)) eqn:Er; [|done]. cbn [negb].
  apply ready_true in Er. pose proof (Hok Er) as Hw. case_match; [done|].
  pose proof (wf_now rt now Hw) as Hw0. set (rt0 := rt <| rt_last_controller_now_ns := now |>) in *.
  case_match; [by intros _|]. case_match; [by intros _|].
  destruct (ingress_take_wf (rt_ingress rt0) self (rw_ingress _ Hw0)) as [Hig Hit].
  destruct (Ingress.try_take_command _ _) as [[[item|]|e] ig]; cbn [fst snd] in Hig, Hit;
    [|by intros _; apply wf_ingress|apply failed_ok].
  pose proof (wf_ingress rt0 ig Hig Hw0) as Hw1. set (rt1 := rt0 <| rt_ingress := ig |>) in *.
  destruct (Hit item eq_refl) as [(Hg & _) Hv].
  destruct (command_kind_eqb _ CommandKind.kCancel).
  { pose proof (step_cancel_ok rt1 self (cv_command item) Hw1) as Hc.
    destruct (step_cancel _ _ _). exact Hc. }
  destruct (command_kind_eqb _ CommandKind.kAdmit), (cv_request item) as [v|]; try apply failed_ok.
  destruct Hv as (Hvg & _ & Hvi & Hvs & _). apply step_admit_ok; cbn; [done|by rewrite Hvg|done..].
Qed.
End AdmissionOk.

(** ** Loops over the selected sequences *)

Lemma selected_eq indices cur :
  0 <= cp_selected_count cur <= vsize indices ->
  selected indices cur = map (fun i => indices.[i]) (seqZ 0 (cp_selected_count cur)).
Proof. intros H. unfold selected. by rewrite map_vat_take. Qed.

(** The slots after [op] ran on the sequences of [sel]. *)
Definition ran_on (op : ControllerSequence -> Status * ControllerSequence)
    (rt : ControllerRuntime) (sel : list Z) (slots : list Slot) : Prop :=
  vsize slots = vsize (rt_slots rt) /\
  forall j, 0 <= j < vsize (rt_slots rt) ->
    slots.[j] = if decide (j ∈ sel)
                then (rt_slots rt).[j] <| RuntimeSlot.sequence := Some (snd (op (sequence_at rt j))) |>
                else (rt_slots rt).[j].

Lemma set_other rt i s j :
  0 <= i < vsize (rt_slots rt) -> 0 <= j -> j <> i ->
  (rt_slots (set_sequence rt i s)).[j] = (rt_slots rt).[j] /\
  sequence_at (set_sequence rt i s) j = sequence_at rt j.
Proof.
  intros Hi Hj Hne. unfold sequence_at, set_sequence. cbn.
  rewrite vat_vput_ne by lia. done.
Qed.

Lemma ran_on_cons op rt i sel slots :
  0 <= i < vsize (rt_slots rt) -> i ∉ sel ->
  ran_on op (set_sequence rt i (Some (snd (op (sequence_at rt i))))) sel slots ->
  ran_on op rt (i :: sel) slots.
Proof.
  intros Hi Hn (Hv & Hs).
  assert (E : vsize (rt_slots (set_sequence rt i (Some (snd (op (sequence_at rt i)))))) =
              vsize (rt_slots rt)) by (unfold set_sequence; cbn; by rewrite vsize_vput).
  rewrite E in *. split; [done|]. intros j Hj. rewrite Hs by done.
  destruct (decide (j = i)) as [->|Hne].
  - rewrite decide_False, decide_True by set_solver. by rewrite slot_set.
  - destruct (set_other rt i (Some (snd (op (sequence_at rt i)))) j Hi) as [-> ->]; [lia|done|].
    destruct (decide (j ∈ sel)); [rewrite decide_True by set_solver|rewrite decide_False by set_solver]; done.
Qed.

(** Every call succeeds and the loop updates exactly the selected slots, or the
    runtime fails. *)
Lemma for_selected_spec op failure : forall fuel rt i sel,
  sel = map (fun k => (rt_selected_slot_indices rt).[k]) (seqZ i (Z.of_nat fuel)) ->
  NoDup sel -> Forall (fun j => 0 <= j < vsize (rt_slots rt)) sel ->
  Forall (fun j => is_Some (slot_sequence ((rt_slots rt).[j]))) sel ->
  if forallb (fun j => ok (fst (op (sequence_at rt j)))) sel
  then exists slots, for_selected op failure rt fuel i = (StatusOk, rt <| rt_slots := slots |>) /\
         ran_on op rt sel slots
  else fst (for_selected op failure rt fuel i) = Internal failure /\
       rt_state (snd (for_selected op failure rt fuel i)) = RuntimeState.kFailed.
Proof.
  induction fuel as [|fuel IH]; intros rt i sel Hsel Hnd Hr Hsome.
  { rewrite seqZ_nil in Hsel by lia. subst sel. cbn. exists (rt_slots rt).
    split; [by destruct rt|]. split; [done|]. intros j _. by rewrite decide_False by set_solver. }
  rewrite seqZ_cons in Hsel by lia. replace (Z.pred (Z.of_nat (S fuel))) with (Z.of_nat fuel) in Hsel by lia.
  cbn [map] in Hsel. set (j0 := (rt_selected_slot_indices rt).[i]) in *.
  set (rest := map _ (seqZ (Z.succ i) _)) in Hsel. subst sel.
  inversion Hnd as [|? ? Hn0 Hnd']; inversion Hr as [|? ? Hr0 Hr']; inversion Hsome as [|? ? [s0 Hs0] Hs']; subst.
  cbn [for_selected forallb]. fold j0. rewrite (on_sequence_eq rt j0 s0) by done.
  assert (Eat : sequence_at rt j0 = s0) by (unfold sequence_at; by rewrite Hs0). rewrite Eat.
  destruct (ok (fst (op s0))) eqn:Eo; cbn [negb andb]; [|done].
  set (rt1 := set_sequence rt j0 (Some (snd (op s0)))).
  assert (Hv1 : vsize (rt_slots rt1) = vsize (rt_slots rt))
    by (unfold rt1, set_sequence; cbn; by rewrite vsize_vput).
  assert (Hrest : forall j, j ∈ rest -> 0 <= j < vsize (rt_slots rt) /\ j <> j0).
  { intros j Hj. rewrite Forall_forall in Hr'. split; [by apply Hr'|]. intros ->. by apply Hn0. }
  assert (Hsame : forall j, j ∈ rest -> (rt_slots rt1).[j] = (rt_slots rt).[j] /\
    sequence_at rt1 j = sequence_at rt j).
  { intros j Hj. destruct (Hrest j Hj). apply set_other; [done|lia|done]. }
  specialize (IH rt1 (i + 1) rest eq_refl Hnd').
  assert (H1 : Forall (fun j => 0 <= j < vsize (rt_slots rt1)) rest) by (by rewrite Hv1).
  assert (H2 : Forall (fun j => is_Some (slot_sequence ((rt_slots rt1).[j]))) rest).
  { rewrite Forall_forall in Hs' |- *. intros j Hj. destruct (Hsame j Hj) as [-> _]. by apply Hs'. }
  specialize (IH H1 H2).
  replace (forallb (fun j => ok (fst (op (sequence_at rt j)))) rest)
    with (forallb (fun j => ok (fst (op (sequence_at rt1 j)))) rest).
  2: { clear -Hsame. induction rest as [|j l IHl]; [done|]. cbn.
       destruct (Hsame j) as [_ ->]; [set_solver|]. f_equal. apply IHl. intros; apply Hsame; set_solver. }
  destruct (forallb _ rest); [|done]. destruct IH as (slots & -> & Hran). exists slots.
  split; [done|]. apply ran_on_cons; [done..|]. by rewrite Eat.
Qed.

(** The same for the current plan. *)
Lemma for_current_spec op failure rt pool plan lease st :
  holds_plan (rt_slots rt) (rt_selected_slot_indices rt) pool (rt_current rt) plan lease st ->
  let sel := selected (rt_selected_slot_indices rt) (rt_current rt) in
  let r := for_selected op failure rt (Z.to_nat (cp_selected_count (rt_current rt))) 0 in
  if forallb (fun j => ok (fst (op (sequence_at rt j)))) sel
  then exists slots, r = (StatusOk, rt <| rt_slots := slots |>) /\ ran_on op rt sel slots
  else fst r = Internal failure /\ rt_state (snd r) = RuntimeState.kFailed.
Proof.
  intros [] sel r. apply for_selected_spec.
  - unfold sel. rewrite selected_eq by done. by rewrite Z2Nat.id by lia.
  - done.
  - apply Forall_forall. intros i Hi. by apply hp_slots0.
  - apply Forall_forall. intros i Hi. destruct (hp_slots0 i Hi) as (_ & s & -> & _). done.
Qed.

(** The invariant after such a loop: each selected sequence still holds the
    plan, at the stage [st'] of the new credits. *)
Lemma ran_on_wf rt plan lease st st' op slots pool :
  rt_wf rt -> cp_plan (rt_current rt) = Some plan -> cp_output_burst (rt_current rt) = Some lease ->
  holds_plan (rt_slots rt) (rt_selected_slot_indices rt) (rt_output_credits rt) (rt_current rt)
    plan lease st ->
  ran_on (fun s => run_op s op) rt (selected (rt_selected_slot_indices rt) (rt_current rt)) slots ->
  op_typed op -> pool_wf pool -> pending_ok pool (rt_pending_output_bursts rt) ->
  lease_view pool lease = Some st' -> (st' = BurstState.kPrepared \/ st' = BurstState.kCommitted) ->
  (forall s, seq_holds plan st s -> ok (fst (run_op s op)) = true ->
     seq_holds plan st' (snd (run_op s op))) ->
  forallb (fun j => ok (fst (run_op (sequence_at rt j) op)))
    (selected (rt_selected_slot_indices rt) (rt_current rt)) = true ->
  rt_wf (rt <| rt_slots := slots |> <| rt_output_credits := pool |>).
Proof.
  intros Hw Hp Hl Hh [Hv Hran] Ht Hpool Hpend Hlv Hst Hkeep Hall. pose proof Hw as [].
  rewrite forallb_forall in Hall.
  constructor; cbn; rewrite ?Hv; try done.
  - apply Forall_forall. intros slot (j & Hj & <-)%list_elem_of_In%In_vat. rewrite Hv in Hj.
    rewrite Hran by done. pose proof (wf_at _ _ Hw Hj) as Hwj. case_decide as Hin; [|done].
    destruct (hp_slots _ _ _ _ _ _ _ Hh j Hin) as (_ & s & Es & _).
    assert (Eat : sequence_at rt j = s) by (unfold sequence_at; by rewrite Es). rewrite Eat.
    destruct Hwj as (H1 & H2 & H3). rewrite Es in H3. destruct H3 as (H3 & H4 & H5).
    split_and!; cbn; [done..|]. split_and!; [by apply run_op_wf|done|].
    by rewrite H5, (proj1 (run_op_identity s op)).
  - unfold current_ok. rewrite Hp, Hl. exists st'. split; [done|]. destruct Hh.
    constructor; try done. intros j Hj. destruct (hp_slots0 j Hj) as (Hjr & s & Es & Hs).
    rewrite Hv. split; [done|]. rewrite Hran by done. rewrite decide_True by done.
    assert (Eat : sequence_at rt j = s) by (unfold sequence_at; by rewrite Es).
    eexists. split; [reflexivity|]. rewrite Eat. apply Hkeep; [done|]. rewrite <- Eat.
    by apply Hall, list_elem_of_In.
Qed.

(** ** Moving the credit of the current plan *)

Lemma run_credit_size p op :
  vsize (bp_credits (snd (run_credit p op))) = vsize (bp_credits p).
Proof.
  destruct op; cbn [run_credit].
  - unfold acquire. cbn zeta. repeat bcase; try done. cbn. apply vsize_vput.
  - unfold BurstCredits.commit. cbn [snd]. case_match; [|done]. apply vsize_vput.
  - unfold abort. cbn [snd]. case_match; [|done]. apply vsize_vput.
  - unfold transfer. cbn [snd]. case_match; [|done]. apply vsize_vput.
  - unfold BurstCredits.release. case_match; [|done]. apply vsize_vput.
Qed.

Lemma pending_move pool pool' pending l to :
  pending_ok pool pending -> vsize (bp_credits pool') = vsize (bp_credits pool) ->
  (forall l', lease_view pool' l' = lease_set (lease_view pool) l to l') ->
  lease_view pool l <> Some BurstState.kTransferred -> pending_ok pool' pending.
Proof.
  intros (H1 & H2 & H3) Hs Hm Hl. split_and!; [congruence| |done].
  intros k l' Hk El. rewrite Hm. unfold lease_set. case_decide as E; [|by eapply H2].
  subst l'. destruct Hl. by eapply H2.
Qed.

(** One call on the credit of the current plan. *)
Lemma credit_call rt lease op from to :
  rt_wf rt -> lease_move op = Some (lease, from, to) -> from <> BurstState.kTransferred ->
  (exists s, lease_view (rt_output_credits rt) lease = Some s) ->
  let r := run_credit (rt_output_credits rt) op in
  pool_wf (snd r) /\ pending_ok (snd r) (rt_pending_output_bursts rt) /\
  if ok (fst r)
  then lease_view (rt_output_credits rt) lease = Some from /\
       forall l', lease_view (snd r) l' = lease_set (lease_view (rt_output_credits rt)) lease to l'
  else snd r = rt_output_credits rt.
Proof.
  intros Hw Hm Hf [s Hs] r. apply lease_view_range in Hs as Hr.
  assert (Ht : credit_op_typed op) by (destruct op; cbn in Hm |- *; simplify_eq; lia).
  destruct (run_credit_move (rt_output_credits rt) op lease from to Ht Hm) as [Hyes Hno].
  destruct (decide (lease_view (rt_output_credits rt) lease = Some from)) as [E|E].
  - destruct (Hyes E) as [Ho Hmv]. fold r in Ho, Hmv. rewrite Ho. split; [|split; [|done]].
    + apply run_credit_wf; [apply Hw|done].
    + eapply pending_move; [apply Hw|apply run_credit_size|exact Hmv|congruence].
  - destruct (Hno E) as [Ho Hsame]. fold r in Ho, Hsame. rewrite Ho, Hsame. split; [apply Hw|split; [apply Hw|done]].
Qed.

Lemma current_cases rt plan lease :
  rt_wf rt -> cp_plan (rt_current rt) = Some plan -> cp_output_burst (rt_current rt) = Some lease ->
  exists st, (st = BurstState.kPrepared \/ st = BurstState.kCommitted) /\
    holds_plan (rt_slots rt) (rt_selected_slot_indices rt) (rt_output_credits rt) (rt_current rt)
      plan lease st.
Proof. intros [] Hp Hl. unfold current_ok in *. by rewrite Hp, Hl in rw_current0. Qed.

Lemma not_drifted rt ps digest :
  plan_identity_drifted rt ps digest = false ->
  exists plan, cp_plan (rt_current rt) = Some plan /\ pp_plan_sequence plan = ps.
Proof.
  unfold plan_identity_drifted. destruct (cp_plan _) as [plan|]; [|done]. intros E. breflect. eauto.
Qed.

Lemma commit_holds plan s ps :
  seq_holds plan BurstState.kPrepared s -> ok (fst (Sequence.commit s ps)) = true ->
  seq_holds plan BurstState.kCommitted (snd (Sequence.commit s ps)).
Proof.
  intros (Ha & Hp & Hst). unfold Sequence.commit. case_match; [done|]. intros _. cbn.
  split_and!; [done..|]. unfold effective_state. cbn. by destruct (cs_active_phase s).
Qed.

Lemma mark_holds plan st s ps :
  seq_holds plan st s -> ok (fst (mark_in_flight s ps)) = true ->
  seq_holds plan st (snd (mark_in_flight s ps)).
Proof.
  intros (Ha & Hp & Hst). unfold mark_in_flight, committed_or_in_flight. bcase; [done|].
  intros _. cbn. breflect. split_and!; [done..|]. unfold effective_state in *. cbn.
  destruct st; try done.
  - destruct (cs_state s); done.
  - by destruct (cs_active_phase s).
Qed.

(** No operation makes a runtime ready again. *)
Definition sticky (rt rt' : ControllerRuntime) : Prop :=
  rt_state rt' = RuntimeState.kReady -> rt_state rt = RuntimeState.kReady.

Lemma sticky_ok rt rt' : sticky rt rt' -> (rt_wf rt -> rt_ok rt') -> rt_ok rt -> rt_ok rt'.
Proof. intros Hs Hw Hok Hr. exact (Hw (Hok (Hs Hr)) Hr). Qed.

Lemma sticky_refl rt : sticky rt rt.
Proof. by intros ?. Qed.

Lemma sticky_failed rt rt' : sticky rt (mark_failed rt').
Proof. intros E. discriminate E. Qed.

#[local] Hint Resolve sticky_refl sticky_failed : pih.

Lemma for_selected_sticky op failure : forall fuel rt i,
  sticky rt (snd (for_selected op failure rt fuel i)).
Proof.
  induction fuel as [|fuel IH]; intros rt i; cbn [for_selected]; [auto with pih|].
  unfold on_sequence. destruct (op _) as [st s]. case_match; [apply sticky_failed|].
  intros Hr. apply IH in Hr. done.
Qed.

Lemma commit_current_ok rt ps digest :
  is_u64 ps -> rt_ok rt -> rt_ok (snd (commit_current_plan rt ps digest)).
Proof.
  intros Hps. unfold commit_current_plan.
  destruct (cp_output_burst _) as [lease|] eqn:El; [|done].
  destruct (plan_identity_drifted _ _ _) eqn:Ed; [done|].
  apply not_drifted in Ed as (plan & Ep & Eps). apply sticky_ok.
  { destruct (BurstCredits.commit _ _) as [cr pool]. case_match; [by intros ?|].
    intros Hr. by apply for_selected_sticky in Hr. }
  intros Hw. destruct (current_cases rt plan lease Hw Ep El) as (st & Hst & Hh).
  pose proof (credit_call rt lease (OpCommitLease lease) _ _ Hw eq_refl ltac:(done)
    ltac:(eexists; apply Hh)) as Hc. cbn [run_credit] in Hc.
  destruct (BurstCredits.commit _ _) as [cr pool]. cbn [fst snd] in Hc.
  destruct Hc as (Hpw & Hpo & Hv). destruct (ok cr) eqn:Eo; cbn [negb].
  2: { subst pool. intros _. by destruct rt. }
  destruct Hv as [Hlv Hmv]. pose proof (hp_lease _ _ _ _ _ _ _ Hh) as Hl2. rewrite Hlv in Hl2.
  injection Hl2 as <-. set (rt1 := rt <| rt_output_credits := pool |>).
  pose proof (for_current_spec (fun s => run_op s (OpCommit ps))
    "controller plan commit became partial" rt1 _ _ _ _ Hh) as Hf. cbn zeta in Hf.
  destruct (forallb _ _) eqn:Ef; [|intros Hr; destruct Hf as [_ Hf]; cbn [run_op] in Hf; congruence].
  destruct Hf as (slots & Hf & Hran). cbn [run_op] in Hf. rewrite Hf. intros _.
  apply (ran_on_wf rt plan lease BurstState.kPrepared BurstState.kCommitted (OpCommit ps) slots pool);
    try done.
  - rewrite Hmv. unfold lease_set. by rewrite decide_True.
  - by right.
  - intros s Hs Ho. by apply commit_holds.
Qed.

Lemma mark_current_ok rt ps digest :
  is_u64 ps -> rt_ok rt -> rt_ok (snd (mark_current_plan_in_flight rt ps digest)).
Proof.
  intros Hps. unfold mark_current_plan_in_flight.
  destruct (plan_identity_drifted _ _ _) eqn:Ed; [done|].
  apply not_drifted in Ed as (plan & Ep & Eps). apply sticky_ok; [apply for_selected_sticky|].
  intros Hw. destruct (cp_output_burst (rt_current rt)) as [lease|] eqn:El.
  2: { destruct Hw. unfold current_ok in *. by rewrite Ep, El in rw_current0. }
  destruct (current_cases rt plan lease Hw Ep El) as (st & Hst & Hh).
  pose proof (for_current_spec (fun s => run_op s (OpMarkInFlight ps))
    "controller in-flight publication became partial" rt _ _ _ _ Hh) as Hf. cbn zeta in Hf.
  destruct (forallb _ _) eqn:Ef; [|intros Hr; destruct Hf as [_ Hf]; cbn [run_op] in Hf; congruence].
  destruct Hf as (slots & Hf & Hran). cbn [run_op] in Hf. rewrite Hf. intros _.
  assert (Hwf : rt_wf (rt <| rt_slots := slots |> <| rt_output_credits := rt_output_credits rt |>)).
  { apply (ran_on_wf rt plan lease st st (OpMarkInFlight ps)); try done; try apply Hw.
    - apply Hh.
    - intros s Hs Ho. by apply mark_holds. }
  exact Hwf.
Qed.

Lemma clear_current_wf rt : rt_wf rt -> rt_wf (clear_current_plan rt).
Proof. intros []. by constructor. Qed.

(** An aborted plan leaves sequences that hold no plan. *)
Lemma abort_current_ok rt ps digest :
  is_u64 ps -> rt_ok rt -> rt_ok (snd (abort_current_plan rt ps digest)).
Proof.
  intros Hps. unfold abort_current_plan.
  destruct (cp_output_burst _) as [lease|] eqn:El; [|done].
  destruct (plan_identity_drifted _ _ _) eqn:Ed; [done|].
  apply not_drifted in Ed as (plan & Ep & Eps).
  pose proof (for_selected_sticky (fun s => abort_prepared s ps) "controller plan abort became partial"
    (Z.to_nat (cp_selected_count (rt_current rt))) rt 0) as Hst0.
  apply sticky_ok.
  { destruct (for_selected _ _ _ _ _) as [st1 rt1]. case_match; [done|].
    destruct (abort _ _) as [cr pool]. case_match; [apply sticky_failed|].
    intros Hr. by apply Hst0. }
  intros Hw. destruct (current_cases rt plan lease Hw Ep El) as (st & Hst & Hh).
  pose proof (for_current_spec (fun s => run_op s (OpAbortPrepared ps))
    "controller plan abort became partial" rt _ _ _ _ Hh) as Hf. cbn zeta in Hf. cbn [run_op] in Hf.
  destruct (forallb _ _) eqn:Ef.
  2: { destruct Hf as [Hf1 Hf2]. destruct (for_selected _ _ _ _ _) as [st1 rt1]. cbn [fst snd] in *.
       subst st1. change (negb (ok (Internal _))) with true. cbn beta iota. intros Hr. cbn in Hr. congruence. }
  destruct Hf as (slots & -> & Hran). change (negb (ok StatusOk)) with false. cbn beta iota.
  pose proof (credit_call rt lease (OpAbortLease lease) _ _ Hw eq_refl ltac:(done)
    ltac:(eexists; apply Hh)) as Hc. cbn [run_credit] in Hc. cbn [rt_output_credits upd].
  destruct (abort _ _) as [cr pool]. cbn [fst snd] in Hc. destruct Hc as (Hpw & Hpo & Hv).
  destruct (ok cr) eqn:Eo; cbn [negb]; [|apply failed_ok]. intros _.
  pose proof Hw as []. destruct Hran as [Hvs Hran]. constructor; cbn; rewrite ?Hvs; try done.
  apply Forall_forall. intros slot (j & Hj & <-)%list_elem_of_In%In_vat. rewrite Hvs in Hj.
  rewrite Hran by done. pose proof (wf_at _ _ Hw Hj) as Hwj. case_decide as Hin; [|done].
  destruct (hp_slots _ _ _ _ _ _ _ Hh j Hin) as (_ & s & Es & _).
  assert (Eat : sequence_at rt j = s) by (unfold sequence_at; by rewrite Es). rewrite Eat.
  destruct Hwj as (H1 & H2 & H3). rewrite Es in H3. destruct H3 as (H3 & H4 & H5).
  split_and!; cbn; [done..|]. split_and!; [by apply (run_op_wf s (OpAbortPrepared ps))|done|].
  by rewrite H5, <- (proj1 (run_op_identity s (OpAbortPrepared ps))).
Qed.

(** ** Acknowledgement and draining *)

Lemma acknowledge_ok rt ps : rt_ok rt -> rt_ok (snd (acknowledge_output_plan rt ps)).
Proof.
  unfold acknowledge_output_plan. case_match; [done|].
  destruct (first_index _ _ _) as [k|] eqn:Ek; [|done].
  apply first_index_Some in Ek as (Hk & _ & _). rewrite Z.add_0_l in Hk.
  destruct ((rt_pending_output_bursts rt).[k]) as [lease|] eqn:El; [|done]. apply sticky_ok.
  { destruct (BurstCredits.release _ _). case_match; [apply sticky_failed|by intros ?]. }
  intros Hw. pose proof Hw as []. pose proof rw_pending0 as (P1 & P2 & P3).
  pose proof (P2 k lease Hk El) as Hlv.
  assert (Ht : credit_op_typed (OpReleaseLease lease)).
  { apply lease_view_range in Hlv. cbn. lia. }
  destruct (run_credit_move (rt_output_credits rt) (OpReleaseLease lease) _ _ _ Ht eq_refl) as [Hyes _].
  destruct (Hyes Hlv) as [Ho Hmv]. clear Hyes. cbn [run_credit] in Ho, Hmv.
  pose proof (run_credit_wf _ (OpReleaseLease lease) rw_credits0 Ht) as Hpw. cbn [run_credit] in Hpw.
  pose proof (run_credit_size (rt_output_credits rt) (OpReleaseLease lease)) as Hsz.
  cbn [run_credit] in Hsz.
  destruct (BurstCredits.release _ _) as [st pool]. cbn [fst snd] in *. rewrite Ho. cbn [negb].
  intros _. constructor; cbn; try done.
  - unfold current_ok in *. destruct (cp_plan _) as [plan|], (cp_output_burst _) as [l|]; try done.
    destruct rw_current0 as (st1 & Hst & []). exists st1. split; [done|]. constructor; try done.
    rewrite Hmv. unfold lease_set. rewrite decide_False; [done|]. intros ->.
    rewrite Hlv in hp_lease0. injection hp_lease0 as <-. by destruct Hst.
  - split_and!; rewrite ?vsize_vput.
    + by rewrite P1.
    + intros j l Hj. rewrite vat_vput by lia. destruct (Z.eqb_spec j k) as [->|Hne]; [done|].
      intros Ej. rewrite Hmv. unfold lease_set. rewrite decide_False; [by eapply P2|]. intros ->.
      apply Hne. by eapply P3.
    + intros i j l l' Hi Hj. rewrite !vat_vput by lia.
      destruct (Z.eqb_spec i k), (Z.eqb_spec j k); try done. by apply P3.
Qed.

Lemma draining_free s :
  seq_wf s -> cs_state s = SeqState.kDraining -> cs_active_plan_sequence s = 0.
Proof. intros (_ & _ & _ & H) E. rewrite E in H. cbn in H. apply H. Qed.

(** The call that ends a drain, in either form. *)
Definition end_drain (s : ControllerSequence) :
    Status * EventKind.ControllerOutputEventKind * ControllerSequence :=
  if ok (fst (finish_cancel s))
  then (fst (finish_cancel s), EventKind.kCancelled, snd (finish_cancel s))
  else (fst (finish_drain s), EventKind.kCompleted, snd (finish_drain s)).

Lemma end_drain_run s :
  (exists op, op_typed op /\ snd (end_drain s) = snd (run_op s op)) /\
  (ok (fst (fst (end_drain s))) = true -> cs_state s = SeqState.kDraining) /\
  (ok (fst (fst (end_drain s))) = false -> snd (end_drain s) = s) /\
  cs_active_plan_sequence (snd (end_drain s)) = cs_active_plan_sequence s.
Proof.
  unfold end_drain. destruct (ok (fst (finish_cancel s))) eqn:Eo; cbn [fst snd]; split_and!.
  - by exists OpFinishCancel.
  - intros _. unfold finish_cancel in Eo. bcase_in Eo; [done|]. breflect. by apply state_eqb_true.
  - congruence.
  - unfold finish_cancel. by case_match.
  - by exists OpFinishDrain.
  - intros Hd. unfold finish_drain in Hd. bcase_in Hd; [done|]. breflect. by apply state_eqb_true.
  - apply (run_op_error s OpFinishDrain).
  - unfold finish_drain. by case_match.
Qed.

Lemma finalize_on_sequence rt i s :
  0 <= i < vsize (rt_slots rt) -> slot_sequence ((rt_slots rt).[i]) = Some s ->
  (let '(cancelled, rt1) := on_sequence rt i finish_cancel in
   if ok cancelled then (cancelled, EventKind.kCancelled, rt1)
   else let '(drained, rt2) := on_sequence rt1 i finish_drain in
        (drained, EventKind.kCompleted, rt2)) =
  (fst (fst (end_drain s)), snd (fst (end_drain s)), set_sequence rt i (Some (snd (end_drain s)))).
Proof.
  intros Hi Es. rewrite (on_sequence_eq rt i s) by done. unfold end_drain.
  destruct (ok (fst (finish_cancel s))) eqn:Eo; [done|].
  pose proof (run_op_error s OpFinishCancel Eo) as Hs. cbn [run_op] in Hs. rewrite Hs.
  rewrite (on_sequence_eq _ i s) by (by rewrite slot_set). cbn [fst snd]. f_equal.
  unfold set_sequence. cbn [rt_slots upd]. rewrite vat_vput_eq by done.
  unfold vput. by rewrite list_insert_insert_eq.
Qed.

Lemma finalize_ok rt self g : rt_ok rt -> rt_ok (snd (finalize_draining rt self g)).
Proof.
  intros Hok. unfold finalize_draining. destruct (ready (rt_state rt)) eqn:Er; cbn [negb orb]; [|done].
  apply ready_true in Er. pose proof (Hok Er) as Hw. case_match; [done|].
  destruct (first_index _ _ _) as [i|] eqn:Ei; [|done].
  apply find_slot in Ei as (Hi & s & Es & _).
  pose proof (finalize_on_sequence rt i s Hi Es) as Hf.
  destruct (on_sequence rt i finish_cancel) as [c rt1]. cbn beta iota in Hf |- *. rewrite Hf.
  cbn beta iota. destruct (end_drain_run s) as ((op & Hop & Hrun) & Hdr & Hsame & Hact).
  destruct (end_drain s) as [[fin kind] s1]. cbn [fst snd] in *.
  pose proof (wf_at _ _ Hw Hi) as Hsw. unfold slot_wf in Hsw. rewrite Es in Hsw.
  destruct Hsw as (Hl1 & Hl2 & Hs & Hv & _).
  assert (Hw1 : rt_wf (set_sequence rt i (Some s1))).
  { rewrite Hrun. apply wf_sequence; [done..|]. intros _ plan st Hh Hz. rewrite <- Hrun.
    destruct (ok fin) eqn:Eo; [|by rewrite Hsame].
    destruct Hh as (Ha & _). rewrite (draining_free s Hs (Hdr eq_refl)) in Ha. congruence. }
  destruct (ok fin) eqn:Eo; cbn [negb]; [|by intros _]. rewrite slot_set by done.
  assert (H0 : cs_active_plan_sequence s1 = 0)
    by (rewrite Hact; by apply draining_free; auto).
  set (rt2 := set_sequence rt i (Some s1)) in *. cbn [slot_request RuntimeSlot.request upd].
  set (request := RuntimeSlot.request _).
  pose proof (release_ok rt2 request (proj1 Hv) Hw1) as Hw2.
  assert (E3 : rt_slots (snd (release rt2 request)) = rt_slots rt2 /\
    rt_current (snd (release rt2 request)) = rt_current rt2 /\
    rt_selected_slot_indices (snd (release rt2 request)) = rt_selected_slot_indices rt2)
    by (unfold release; by destruct (release_request _ _)).
  destruct (release rt2 request) as [rel rt3]. cbn [snd] in *. destruct E3 as (E3 & E4 & E5).
  destruct (ok rel); cbn [negb]; [|apply failed_ok].
  match goal with |- context [publish rt3 self ?d] => set (draft := d) end.
  pose proof (publish_ok rt3 self draft Hw2) as Hw3.
  assert (E6 : rt_slots (snd (publish rt3 self draft)) = rt_slots rt2 /\
    rt_current (snd (publish rt3 self draft)) = rt_current rt2 /\
    rt_selected_slot_indices (snd (publish rt3 self draft)) = rt_selected_slot_indices rt2)
    by (unfold publish; by destruct (Ingress.publish_event _ _ _)).
  destruct (publish rt3 self draft) as [[ev|e] rt4]; [|apply failed_ok]. cbn [snd] in *.
  destruct E6 as (E6 & E7 & E8). intros _. apply wf_active.
  assert (Hi4 : 0 <= i < vsize (rt_slots rt4)) by (rewrite E6; unfold rt2; cbn; by rewrite vsize_vput).
  apply wf_slot; [done| | |done].
  - pose proof (wf_at _ _ Hw3 Hi4) as (? & ? & _). by split_and!.
  - intros plan lease st Hp Hl _ Hin. exfalso.
    eapply (not_selected rt4 i s1 Hw3); [|done..]. rewrite E6. unfold rt2. by rewrite slot_set.
Qed.
