(* ===== verification/RuntimePrepare.v ===== *)
(** * Preparing a plan

    [Runtime.prepare_next_plan] as a transaction: either a plan is prepared, with
    its credit and on every selected sequence, or nothing of the slots, the
    credits and the current plan changes.  Its rollback is never needed: a
    sequence that was scheduled can always be prepared. *)

From stdpp Require Import gmap sorting.
From S2P Require Import Prelude Core Sha256 TokenPlan TokenMetadata Sequence BurstCredits.
From S2P Require Import Mailbox RequestArena Ingress Scheduler SchedulerPolicy Runtime RuntimeInv.

(** ** The candidate rows *)

Lemma scheduled_prepares s chunk phase n ps :
  seq_wf s -> 1 <= chunk <= u32_max -> ready_phase s = Value phase -> phase <> kVerify ->
  next_real_token_count s chunk 0 = Value n -> ps <> 0 ->
  1 <= n <= u32_max /\ ok (fst (prepare s ps phase n)) = true.
Proof.
  intros Hw Hc Hph Hv Hn Hps. unfold next_real_token_count in Hn.
  destruct (chunk =? 0) eqn:E0; [done|]. rewrite Hph in Hn.
  pose proof Hw as ((_ & _ & _ & HP & HK & _ & _ & _ & Hnx) & _ & _ & Hat). unfold is_u64 in *.
  unfold ready_phase in Hph.
  destruct (state_eqb (cs_state s) SeqState.kQueuedPrefill) eqn:Eq.
  - apply Value_inj in Hph as <-. cbn in Hn. destruct (_ >=? _) eqn:Eg; [done|].
    apply Value_inj in Hn. apply state_eqb_true in Eq.
    rewrite (wrap64_id (_ - _)) in Hn by (unfold is_u64; lia).
    rewrite wrap32_id in Hn by (unfold is_u32; lia). split; [lia|].
    rewrite prepare_prefill_ok; [done..|lia|lia].
  - destruct (state_eqb (cs_state s) SeqState.kReadyDecode) eqn:Ed; [|done].
    apply Value_inj in Hph. subst phase. apply state_eqb_true in Ed.
    rewrite Ed in Hat. cbn in Hat. destruct Hat as [[Hfree _] _].
    destruct (cs_next_decode_phase s) eqn:Enx; try done. cbn in Hn. apply Value_inj in Hn as <-.
    split; [lia|]. unfold prepare. rewrite Ed, Enx, Hfree. cbn.
    destruct (ps =? 0) eqn:Ez; [lia|]. done.
Qed.

(** What a row says about the slot it was built from. *)
Record row_of (rt : ControllerRuntime) (slot : Slot) (row : CandidateRow) : Prop := {
  ro_sequence : exists s, slot_sequence slot = Some s /\
    sc_sequence_generation (cr_candidate row) = cs_sequence_generation s /\
    sss_sequence_generation (cr_scheduled_state row) = cs_sequence_generation s /\
    sss_state_generation (cr_scheduled_state row) = cs_state_generation s /\
    sss_committed_start_position (cr_scheduled_state row) = cs_model_processed_length s /\
    ready_phase s = Value (sc_next_phase (cr_candidate row)) /\
    next_real_token_count s (rc_maximum_prefill_chunk_tokens (rt_config rt)) 0 =
      Value (sc_real_token_count (cr_candidate row));
  ro_phase : sc_next_phase (cr_candidate row) <> kVerify;
  ro_typed : slot_wf slot -> 1 <= rc_maximum_prefill_chunk_tokens (rt_config rt) <= u32_max ->
    candidate_typed (cr_candidate row) }.

Lemma candidate_row_of rt k slot row :
  candidate_row rt k slot = Value (Some row) ->
  cr_slot_index row = k /\ row_of rt slot row.
Proof.
  unfold candidate_row. destruct (slot_sequence slot) as [s|] eqn:Es; [|done].
  destruct (ready_phase s) as [phase|] eqn:Eph; [|done].
  destruct (phase_eqb phase kVerify) eqn:Ev; [done|]. apply phase_eqb_false in Ev.
  destruct (next_real_token_count _ _ _) as [n|] eqn:En; [|done].
  destruct (next_plan_produces_logits _ _ _); [|done].
  destruct (next_tokens _ _ _ _ _); [|done]. destruct (packed_token_input_digest _); [|done].
  intros E%Value_inj. injection E as <-. split; [done|]. constructor; cbn; [eauto 10|done|].
  intros (H1 & H2 & H3) Hc. rewrite Es in H3. destruct H3 as (Hs & _).
  pose proof (scheduled_prepares s _ phase n 1 Hs Hc Eph Ev En ltac:(done)) as [Hn _].
  destruct Hs as ((_ & _ & Hg & _) & _). unfold candidate_typed, is_u64, is_u32 in *. cbn. lia.
Qed.

Lemma candidate_rows_spec rt : forall slots i rows,
  candidate_rows rt i slots = Value rows ->
  Forall (fun row => exists k, i <= k < i + vsize slots /\ cr_slot_index row = k /\
    row_of rt (slots.[k - i]) row) rows /\
  StronglySorted (fun a b => cr_slot_index a < cr_slot_index b) rows.
Proof.
  induction slots as [|slot slots IH]; intros i rows E; cbn [candidate_rows] in E.
  { apply Value_inj in E as <-. split; constructor. }
  destruct (candidate_row rt i slot) as [row|] eqn:Er; [|done].
  destruct (candidate_rows rt (i + 1) slots) as [rest|] eqn:Ers; [|done].
  apply Value_inj in E. destruct (IH _ _ Ers) as [IHf IHs]. rewrite vsize_cons.
  pose proof (vsize_nonneg slots).
  assert (Hrest : Forall (fun row => exists k, i < k < i + (1 + vsize slots) /\
    cr_slot_index row = k /\ row_of rt ((slot :: slots).[k - i]) row) rest).
  { eapply Forall_impl; [exact IHf|]. intros r (k & Hk & Hi & Hr). exists k. split_and!; [lia..|done|].
    unfold vat in *. replace (Z.to_nat (k - i)) with (S (Z.to_nat (k - (i + 1)))) by lia. exact Hr. }
  destruct row as [row|]; subst rows.
  - apply candidate_row_of in Er as [Hi Hr]. split.
    + constructor; [|eapply Forall_impl; [exact Hrest|]; intros r (k & Hk & ?); exists k; split; [lia|done]].
      exists i. rewrite Z.sub_diag. split_and!; [lia..|done|exact Hr].
    + constructor; [done|]. eapply Forall_impl; [exact Hrest|]. intros r (k & Hk & Hkr & _). lia.
  - split; [|done]. eapply Forall_impl; [exact Hrest|]. intros r (k & Hk & ?). exists k. split; [lia|done].
Qed.

(** ** Preparing the included sequences *)

Definition with_prepared (rt : ControllerRuntime) (slots : list Slot) (indices : list Z)
    (sampling : list ControllerRequestSampling) : ControllerRuntime :=
  MkRuntime (rt_config rt) (rt_ingress rt) slots (rt_scheduler rt) (rt_metadata rt)
    (rt_output_credits rt) (rt_pending_output_bursts rt) indices sampling (rt_current rt)
    (rt_next_ready_enqueue_sequence rt) (rt_next_plan_sequence rt) (rt_last_controller_now_ns rt)
    (rt_consecutive_decode_rounds rt) (rt_last_successful_plan_was_protected_prefill rt)
    (rt_state rt) (rt_active_sequence_count rt).

(** The runtime with a recorded plan. *)
Definition with_plan (rt : ControllerRuntime) (slots : list Slot) (indices : list Z)
    (sampling : list ControllerRequestSampling) (pool : OutputBurstCreditPool) (cur : CurrentPlan)
    (next : Z) : ControllerRuntime :=
  MkRuntime (rt_config rt) (rt_ingress rt) slots (rt_scheduler rt) (rt_metadata rt)
    pool (rt_pending_output_bursts rt) indices sampling cur
    (rt_next_ready_enqueue_sequence rt) next (rt_last_controller_now_ns rt)
    (rt_consecutive_decode_rounds rt) (rt_last_successful_plan_was_protected_prefill rt)
    (rt_state rt) (rt_active_sequence_count rt).

Ltac rt_cbn :=
  cbn [with_plan with_prepared rt_config rt_ingress rt_slots rt_scheduler rt_metadata
       rt_output_credits rt_pending_output_bursts rt_selected_slot_indices rt_selected_sampling
       rt_current rt_next_ready_enqueue_sequence rt_next_plan_sequence rt_last_controller_now_ns
       rt_consecutive_decode_rounds rt_last_successful_plan_was_protected_prefill rt_state
       rt_active_sequence_count cp_plan cp_output_burst cp_plan_digest cp_tier cp_selected_count
       ppv_plan ppv_plan_digest ppv_selected_slot_indices ppv_selected_sampling ppv_metadata].

(** What [prepare_next_plan] selects for a slot: the sampling of its request, at
    the ordinal of the next token. *)
Definition slot_sampling (slot : Slot) : ControllerRequestSampling :=
  (rqv_sampling (slot_request slot)) <| sm_sample_ordinal :=
    match slot_sequence slot with Some s => cs_accepted_completion_count s | None => 0 end |>.

Section Prepare.
Context (plan : PackedTokenPlan) (rows : list CandidateRow) (burst : OutputBurstLease).

Definition target (ci : Z) : Z := cr_slot_index (rows.[ci]).

Definition prepare_row (ps ci : Z) (s : ControllerSequence) : Status * ControllerSequence :=
  prepare s ps (pp_phase plan) (sc_real_token_count (cr_candidate (rows.[ci]))).

(** The sampling of a selected row, at the ordinal of its next token. *)
Definition row_sampling (slots : list Slot) (ci : Z) : ControllerRequestSampling :=
  slot_sampling (slots.[target ci]).

(** The slots after the included sequences are prepared. *)
Definition prepared_slots (ps : Z) (old : list Slot) (included : list Z) (slots : list Slot) : Prop :=
  vsize slots = vsize old /\
  (forall j, 0 <= j < vsize old -> j ∉ map target included -> slots.[j] = old.[j]) /\
  (forall ci, ci ∈ included -> exists s, slot_sequence (old.[target ci]) = Some s /\
     ok (fst (prepare_row ps ci s)) = true /\
     slots.[target ci] =
       old.[target ci] <| RuntimeSlot.sequence := Some (snd (prepare_row ps ci s)) |>).

Lemma prepare_included_spec : forall included rt n,
  NoDup (map target included) ->
  Forall (fun ci => 0 <= target ci < vsize (rt_slots rt) /\
    exists s, slot_sequence ((rt_slots rt).[target ci]) = Some s /\
      ok (fst (prepare_row (rt_next_plan_sequence rt) ci s)) = true) included ->
  0 <= n -> n + vsize included <= vsize (rt_selected_slot_indices rt) ->
  vsize (rt_selected_slot_indices rt) <= u32_max ->
  vsize (rt_selected_sampling rt) = vsize (rt_selected_slot_indices rt) ->
  exists slots,
    prepare_included rt plan rows burst included n =
      (Value (n + vsize included),
       with_prepared rt slots
         (splice (rt_selected_slot_indices rt) n (map target included))
         (splice (rt_selected_sampling rt) n (map (row_sampling (rt_slots rt)) included))) /\
    prepared_slots (rt_next_plan_sequence rt) (rt_slots rt) included slots.
Proof.
  induction included as [|ci rest IH]; intros rt n Hnd Hall Hn Hsz Hu Hsm;
    cbn [prepare_included map].
  { exists (rt_slots rt). rewrite !splice_nil, Z.add_0_r.
    split; [by destruct rt|]. split_and!; [done|done|]. intros ci Hci. set_solver. }
  cbn [map] in Hnd. apply NoDup_cons in Hnd as [Hni Hnd].
  apply Forall_cons in Hall as [(Hr & s & Es & Hok) Hall]. rewrite vsize_cons in Hsz.
  pose proof (vsize_nonneg rest). fold (target ci).
  rewrite (on_sequence_eq rt (target ci) s) by done.
  unfold prepare_row in Hok. rewrite Hok. cbn [negb].
  rewrite (wrap32_id (n + 1)) by (unfold is_u32; lia).
  set (sampling1 := _.[n <- _]). set (rt1 := _ <| rt_selected_sampling := _ |>).
  assert (Hslots1 : rt_slots rt1 = (rt_slots rt).[target ci <-
    (rt_slots rt).[target ci] <| RuntimeSlot.sequence := Some (snd (prepare_row (rt_next_plan_sequence rt) ci s)) |>])
    by done.
  assert (Hs1 : vsize (rt_slots rt1) = vsize (rt_slots rt)) by (rewrite Hslots1; apply vsize_vput).
  assert (Hoth : forall j, 0 <= j -> j <> target ci -> (rt_slots rt1).[j] = (rt_slots rt).[j]).
  { intros j Hj Hne. rewrite Hslots1. apply vat_vput_ne; lia. }
  assert (Hnr : forall c, c ∈ rest -> target c <> target ci).
  { intros c Hc E. apply Hni. rewrite <- E. apply list_elem_of_In, in_map, list_elem_of_In, Hc. }
  assert (Esm : sampling1 = (rt_selected_sampling rt).[n <- row_sampling (rt_slots rt) ci]).
  { unfold sampling1, row_sampling, slot_sampling. f_equal. rewrite slot_set, sequence_at_set by done.
    rewrite Es. destruct (prepare_ok _ _ _ _ Hok) as (_ & _ & _ & _ & _ & ->). done. }
  assert (Hrest : map (row_sampling (rt_slots rt1)) rest = map (row_sampling (rt_slots rt)) rest).
  { apply map_ext_in. intros c Hc%list_elem_of_In. unfold row_sampling. f_equal.
    rewrite Forall_forall in Hall. destruct (Hall c Hc) as [Hcr _]. apply Hoth; [lia|by apply Hnr]. }
  destruct (IH rt1 (n + 1)) as (slots & E & Hv & Hold & Hnew); [done|..].
  - rewrite Forall_forall in Hall |- *. intros c Hc. destruct (Hall c Hc) as (Hcr & s' & Es' & Ho').
    rewrite Hs1. split; [done|]. rewrite Hoth; [|lia|by apply Hnr]. eauto.
  - lia.
  - change (rt_selected_slot_indices rt1) with ((rt_selected_slot_indices rt).[n <- target ci]).
    rewrite vsize_vput. lia.
  - change (rt_selected_slot_indices rt1) with ((rt_selected_slot_indices rt).[n <- target ci]).
    by rewrite vsize_vput.
  - change (rt_selected_slot_indices rt1) with ((rt_selected_slot_indices rt).[n <- target ci]).
    change (rt_selected_sampling rt1) with sampling1. rewrite Esm. by rewrite !vsize_vput.
  - exists slots. rewrite E. split.
    + rewrite vsize_cons. f_equal; [f_equal; lia|].
      change (rt_selected_slot_indices rt1) with ((rt_selected_slot_indices rt).[n <- target ci]).
      change (rt_selected_sampling rt1) with sampling1. rewrite Esm, Hrest.
      rewrite !splice_cons by lia. reflexivity.
    + split_and!; [by rewrite Hv, Hs1| |].
      * intros j Hj Hn'. cbn [map] in Hn'. apply not_elem_of_cons in Hn' as [Hne Hn'].
        rewrite Hold by (try lia; done). apply Hoth; [lia|done].
      * intros c [->|Hc]%elem_of_cons.
        -- exists s. split_and!; [done..|]. rewrite Hold; [|lia|done].
           rewrite Hslots1. by rewrite vat_vput_eq.
        -- destruct (Hnew c Hc) as (s' & Es' & Ho' & Hs').
           rewrite Forall_forall in Hall. destruct (Hall c Hc) as (Hcr & _).
           rewrite Hoth in Es', Hs' by (try lia; by apply Hnr). exists s'. by split_and!.
Qed.
End Prepare.

(** ** The transaction *)

(** Nothing that a client of the plan can see has changed. *)
Definition plan_untouched (rt rt' : ControllerRuntime) : Prop :=
  rt_slots rt' = rt_slots rt /\ rt_output_credits rt' = rt_output_credits rt /\
  rt_current rt' = rt_current rt /\ rt_state rt' = rt_state rt /\
  rt_next_plan_sequence rt' = rt_next_plan_sequence rt /\
  rt_config rt' = rt_config rt /\ pts_profile (rt_scheduler rt') = pts_profile (rt_scheduler rt).

(** The bounds on the plans of a runtime. *)
Definition runtime_plan_limits (rt : ControllerRuntime) : PackedTokenPlanLimits :=
  let profile := pts_profile (rt_scheduler rt) in
  MkPlanLimits (ptp_maximum_sequences_per_plan profile) (ptp_maximum_real_tokens_per_plan profile)
    (rc_maximum_execution_bucket_tokens (rt_config rt)).

(** A plan that [PackedTokenPlan::Create] returned, for inputs of their types. *)
Definition plan_created (limits : PackedTokenPlanLimits) (p : PackedTokenPlan) : Prop :=
  exists inputs, counts_u32 inputs /\
    Forall (fun s => is_u64 (psi_committed_start_position s)) inputs /\
    PackedTokenPlan_Create (pp_epoch p) (pp_plan_sequence p) (pp_phase p) (pp_profile_revision p)
      (pp_resource_vector_hash p) inputs (pp_execution_bucket_tokens p) limits = Value p.

(** The identity of the runtime, in a plan. *)
Definition plan_identified (rt : ControllerRuntime) (p : PackedTokenPlan) : Prop :=
  pp_epoch p = rc_epoch (rt_config rt) /\
  pp_profile_revision p = rc_profile_revision (rt_config rt) /\
  pp_resource_vector_hash p = rc_resource_vector_hash (rt_config rt).

(** The metadata of a plan, for the tokens the plan was built from. *)
Definition metadata_of (p : PackedTokenPlan) (md : PackedTokenMetadataView) : Prop :=
  exists generation ss, md = metadata_view generation p ss /\
    vsize ss = pp_sequence_count p /\ payload_matches p 0 ss.

Record plan_prepared (rt rt' : ControllerRuntime) (v : ControllerPreparedPlanView) : Prop := {
  pr_plan : cp_plan (rt_current rt') = Some (ppv_plan v);
  pr_digest : cp_plan_digest (rt_current rt') = ppv_plan_digest v /\
    semantic_digest (ppv_plan v) = Value (ppv_plan_digest v);
  pr_sequence : pp_plan_sequence (ppv_plan v) = rt_next_plan_sequence rt;
  pr_created : plan_created (runtime_plan_limits rt) (ppv_plan v);
  pr_identified : plan_identified rt (ppv_plan v);
  pr_metadata : metadata_of (ppv_plan v) (ppv_metadata v);
  pr_sampling : ppv_selected_sampling v =
    map (fun j => slot_sampling ((rt_slots rt).[j])) (ppv_selected_slot_indices v);
  pr_state : rt_state rt' = rt_state rt;
  pr_selected : selected (rt_selected_slot_indices rt') (rt_current rt') =
    ppv_selected_slot_indices v;
  pr_nodup : NoDup (ppv_selected_slot_indices v);
  pr_generations : pp_sequence_generations (ppv_plan v) =
    map (fun j => cs_sequence_generation (sequence_at rt j)) (ppv_selected_slot_indices v);
  pr_credit : exists lease, cp_output_burst (rt_current rt') = Some lease /\
    lease_view (rt_output_credits rt) lease = None /\
    forall l, lease_view (rt_output_credits rt') l =
      lease_set (lease_view (rt_output_credits rt)) lease (Some BurstState.kPrepared) l;
  pr_size : vsize (rt_slots rt') = vsize (rt_slots rt);
  pr_others : forall j, 0 <= j < vsize (rt_slots rt) -> j ∉ ppv_selected_slot_indices v ->
    (rt_slots rt').[j] = (rt_slots rt).[j];
  pr_slots : forall j, j ∈ ppv_selected_slot_indices v ->
    0 <= j < vsize (rt_slots rt) /\
    exists s n, slot_sequence ((rt_slots rt).[j]) = Some s /\
      ok (fst (prepare s (rt_next_plan_sequence rt) (pp_phase (ppv_plan v)) n)) = true /\
      is_u32 n /\
      (rt_slots rt').[j] = (rt_slots rt).[j] <| RuntimeSlot.sequence :=
        Some (snd (prepare s (rt_next_plan_sequence rt) (pp_phase (ppv_plan v)) n)) |> }.

Lemma row_indices_NoDup rows :
  StronglySorted (fun a b => cr_slot_index a < cr_slot_index b) rows ->
  NoDup (map cr_slot_index rows).
Proof.
  induction 1 as [|row rows Hs IH Hr]; cbn; constructor; [|done].
  intros (r & Hi & Hin)%list_elem_of_fmap. rewrite Forall_forall in Hr. specialize (Hr r Hin). lia.
Qed.

Lemma prepared_holds plan s ps n :
  pp_plan_sequence plan = ps -> ok (fst (prepare s ps (pp_phase plan) n)) = true ->
  seq_holds plan BurstState.kPrepared (snd (prepare s ps (pp_phase plan) n)).
Proof.
  intros Hps Ho. destruct (prepare_ok _ _ _ _ Ho) as (_ & _ & _ & _ & _ & ->).
  unfold seq_holds, effective_state. cbn. split_and!; [done..|]. by destruct (pp_phase plan).
Qed.

(** The rows of the slots, as the snapshot and the prepare loop use them. *)
Record rows_ok (rt : ControllerRuntime) (rows : list CandidateRow) : Prop := {
  rk_slots : forall ci, 0 <= ci < vsize rows ->
    0 <= target rows ci < vsize (rt_slots rt) /\
    row_of rt ((rt_slots rt).[target rows ci]) (rows.[ci]);
  rk_inj : forall ci cj, 0 <= ci < vsize rows -> 0 <= cj < vsize rows ->
    target rows ci = target rows cj -> ci = cj }.

Lemma candidate_rows_ok rt rows :
  candidate_rows rt 0 (rt_slots rt) = Value rows -> rows_ok rt rows.
Proof.
  intros E. apply candidate_rows_spec in E as [Hf Hs]. constructor.
  - intros ci Hci. destruct (Forall_at _ _ _ Hf Hci) as (k & Hk & Hi & Hr).
    unfold target. rewrite Hi. rewrite Z.sub_0_r in Hr. split; [lia|done].
  - intros ci cj Hci Hcj.
    exact (NoDup_map_vat cr_slot_index rows ci cj (row_indices_NoDup _ Hs) Hci Hcj).
Qed.

Lemma rows_ok_ext rt rt' rows :
  rt_slots rt' = rt_slots rt -> rt_config rt' = rt_config rt -> rows_ok rt rows -> rows_ok rt' rows.
Proof.
  intros Es Ec []. constructor; [|done]. rewrite Es. intros ci Hci.
  destruct (rk_slots0 ci Hci) as [Hr []]. split; [done|]. constructor; by rewrite ?Ec.
Qed.

Lemma rows_typed rt rows :
  rt_wf rt -> rows_ok rt rows -> Forall candidate_typed (map cr_candidate rows).
Proof.
  intros Hw []. apply Forall_map, Forall_forall.
  intros row (ci & Hci & <-)%list_elem_of_In%In_vat. destruct (rk_slots0 ci Hci) as [Hr []].
  apply ro_typed0; [by apply wf_at|apply Hw].
Qed.

(** The start position of a row is of its type. *)
Lemma row_start rt rows ci :
  rt_wf rt -> rows_ok rt rows -> 0 <= ci < vsize rows ->
  is_u64 (sss_committed_start_position (cr_scheduled_state (rows.[ci]))).
Proof.
  intros Hw [] Hci. destruct (rk_slots0 ci Hci) as [Hr []].
  destruct ro_sequence0 as (s & Es & _ & _ & _ & -> & _).
  pose proof (wf_at _ _ Hw Hr) as (_ & _ & H). rewrite Es in H.
  destruct H as (((_ & _ & _ & _ & HK & _) & _) & _). exact HK.
Qed.

(** A selected row can be prepared. *)
Lemma row_prepares rt rows ci ps :
  rt_wf rt -> rows_ok rt rows -> 0 <= ci < vsize rows -> ps <> 0 ->
  exists s, slot_sequence ((rt_slots rt).[target rows ci]) = Some s /\ seq_wf s /\
    cs_sequence_generation s = sss_sequence_generation (cr_scheduled_state (rows.[ci])) /\
    is_u32 (sc_real_token_count (cr_candidate (rows.[ci]))) /\
    ok (fst (prepare s ps (sc_next_phase (cr_candidate (rows.[ci])))
               (sc_real_token_count (cr_candidate (rows.[ci]))))) = true.
Proof.
  intros Hw [] Hci Hps. destruct (rk_slots0 ci Hci) as [Hr []].
  destruct ro_sequence0 as (s & Es & _ & Hg & _ & _ & Hph & Hn). exists s.
  pose proof (wf_at _ _ Hw Hr) as (_ & _ & H). rewrite Es in H. destruct H as (Hs & _).
  destruct (scheduled_prepares s _ _ _ ps Hs (rw_chunk _ Hw) Hph ro_phase0 Hn Hps) as [Hb Ho].
  unfold is_u32. split_and!; try done; lia.
Qed.

(** The last part: every included sequence is prepared and the plan recorded. *)
Lemma record_plan rt rows plan burst pool digest tier included :
  rt_wf rt -> rows_ok rt rows -> rt_next_plan_sequence rt <> 0 ->
  pp_plan_sequence plan = rt_next_plan_sequence rt ->
  NoDup included -> Forall (fun ci => 0 <= ci < vsize rows) included ->
  (forall ci, ci ∈ included -> sc_next_phase (cr_candidate (rows.[ci])) = pp_phase plan) ->
  vsize included <= vsize (rt_selected_slot_indices rt) ->
  pp_sequence_generations plan =
    map (fun ci => sss_sequence_generation (cr_scheduled_state (rows.[ci]))) included ->
  semantic_digest plan = Value digest ->
  plan_created (runtime_plan_limits rt) plan -> plan_identified rt plan ->
  pool_wf pool -> lease_view (rt_output_credits rt) burst = None ->
  (forall l, lease_view pool l =
     lease_set (lease_view (rt_output_credits rt)) burst (Some BurstState.kPrepared) l) ->
  vsize (bp_credits pool) = vsize (bp_credits (rt_output_credits rt)) ->
  exists rt1, prepare_included (rt <| rt_output_credits := pool |>) plan rows burst included 0 =
      (Value (vsize included), rt1) /\
    let rt' := rt1 <| rt_current := MkCurrentPlan (Some plan) (Some burst) digest tier
                        (vsize included) |>
                   <| rt_next_plan_sequence := wrap64 (rt_next_plan_sequence rt1 + 1) |> in
    rt_wf rt' /\
    forall metadata, metadata_of plan metadata -> plan_prepared rt rt'
      (MkPreparedPlan plan metadata
         (take (Z.to_nat (vsize included)) (rt_selected_slot_indices rt'))
         (take (Z.to_nat (vsize included)) (rt_selected_sampling rt')) digest).
Proof.
  intros Hw Hrows Hn0 Hps Hnd Hrange Hph Hsz Hgen Hdig Hcr Hid Hpw Hnone Hview Hcs.
  set (rt0 := rt <| rt_output_credits := pool |>).
  rewrite Forall_forall in Hrange.
  assert (Hinj : NoDup (map (target rows) included)).
  { apply (NoDup_fmap_2_strong (target rows)); [|done]. intros x y Hx Hy. apply Hrows; auto. }
  assert (Hprep : forall ci, ci ∈ included -> 0 <= target rows ci < vsize (rt_slots rt) /\
    exists s, slot_sequence ((rt_slots rt).[target rows ci]) = Some s /\ seq_wf s /\
      cs_sequence_generation s = sss_sequence_generation (cr_scheduled_state (rows.[ci])) /\
      is_u32 (sc_real_token_count (cr_candidate (rows.[ci]))) /\
      ok (fst (prepare_row plan rows (rt_next_plan_sequence rt) ci s)) = true).
  { intros ci Hci. split; [by apply Hrows, Hrange|]. unfold prepare_row. rewrite <- (Hph ci Hci).
    apply row_prepares; auto. }
  pose proof (rw_indices _ Hw) as Hidx. pose proof (rw_scheduler _ Hw) as [].
  destruct sw_profile as ((_ & Hmc) & Hmcu & _). unfold is_u32 in Hmcu.
  destruct (prepare_included_spec plan rows burst included rt0 0) as
    (slots & E & Hv & Hold & Hnew);
    [done| |lia|cbn; lia|cbn; lia|cbn; rewrite (rw_sampling _ Hw); lia|].
  { apply Forall_forall. intros ci Hci. destruct (Hprep ci Hci) as (Hr & s & Es & _ & _ & _ & Ho). eauto. }
  rewrite Z.add_0_l in E. eexists. split; [exact E|].
  set (sel := map (target rows) included) in *.
  assert (Hsel : take (Z.to_nat (vsize included)) (splice (rt_selected_slot_indices rt0) 0 sel) = sel).
  { apply take_splice_0. unfold sel, vsize. rewrite length_map. lia. }
  assert (Hslot : forall j, j ∈ sel -> 0 <= j < vsize (rt_slots rt) /\
    exists s n, slot_sequence ((rt_slots rt).[j]) = Some s /\ seq_wf s /\ is_u32 n /\
      ok (fst (prepare s (rt_next_plan_sequence rt) (pp_phase plan) n)) = true /\
      slots.[j] = (rt_slots rt).[j] <| RuntimeSlot.sequence :=
        Some (snd (prepare s (rt_next_plan_sequence rt) (pp_phase plan) n)) |>).
  { intros j (ci & -> & Hci)%list_elem_of_fmap.
    destruct (Hprep ci Hci) as (Hr & s & Es & Hs & _ & Hu & Ho). split; [done|].
    destruct (Hnew ci Hci) as (s' & Es' & _ & Hs'). cbn in Es'. rewrite Es in Es'. injection Es' as <-.
    exists s, (sc_real_token_count (cr_candidate (rows.[ci]))). by split_and!. }
  assert (Hsz' : vsize (splice (rt_selected_slot_indices rt) 0 sel) =
    vsize (rt_selected_slot_indices rt)).
  { apply vsize_splice; [lia|]. unfold sel. rewrite vsize_map. lia. }
  set (sampling := splice (rt_selected_sampling rt0) 0 _).
  assert (Hsm : vsize sampling = vsize (rt_selected_sampling rt)).
  { apply vsize_splice; [lia|]. rewrite vsize_map. cbn. rewrite (rw_sampling _ Hw). lia. }
  assert (Hsms : take (Z.to_nat (vsize included)) sampling =
    map (fun j => slot_sampling ((rt_slots rt).[j])) sel).
  { unfold sampling, sel. rewrite take_splice_0 by (unfold vsize; rewrite length_map; lia).
    by rewrite map_map. }
  change (rt_selected_slot_indices rt0) with (rt_selected_slot_indices rt) in *.
  change (rt_slots rt0) with (rt_slots rt) in *.
  match goal with |- let rt' := ?r in _ => change r with (with_plan rt slots
    (splice (rt_selected_slot_indices rt) 0 sel) sampling pool
    (MkCurrentPlan (Some plan) (Some burst) digest tier (vsize included))
    (wrap64 (rt_next_plan_sequence rt + 1))) end.
  cbv zeta. split.
  - pose proof Hw as []. constructor; rt_cbn; rewrite ?Hv, ?Hsz', ?Hsm; try assumption.
    + apply Forall_forall. intros slot (j & Hj & <-)%list_elem_of_In%In_vat. rewrite Hv in Hj.
      pose proof (wf_at _ _ Hw Hj) as Hwj. destruct (decide (j ∈ sel)) as [Hin|Hin].
      * destruct (Hslot j Hin) as (_ & s & n & Es & Hs & Hu & Ho & ->).
        destruct Hwj as (H1 & H2 & H3). rewrite Es in H3. destruct H3 as (_ & H4 & H5).
        split_and!; cbn; [done..|].
        pose proof (run_op_wf s (OpPrepare (rt_next_plan_sequence rt) (pp_phase plan) n) Hs
          (conj rw_next_plan Hu)) as Hs'. cbn [run_op] in Hs'. split_and!; [done..|].
        rewrite H5. symmetry.
        apply (run_op_identity s (OpPrepare (rt_next_plan_sequence rt) (pp_phase plan) n)).
      * by rewrite Hold.
    + unfold current_ok. rt_cbn. exists BurstState.kPrepared. split; [by left|]. constructor; rt_cbn.
      * by rewrite Hps.
      * rewrite Hsz'. pose proof (vsize_nonneg included). lia.
      * unfold selected. rt_cbn. by rewrite Hsel.
      * rewrite Hview. unfold lease_set. by rewrite decide_True.
      * unfold selected. rt_cbn. rewrite Hsel. intros j Hj.
        destruct (Hslot j Hj) as (Hr & s & n & _ & _ & _ & Ho & ->). rewrite Hv. split; [done|].
        eexists. split; [reflexivity|]. by apply prepared_holds.
    + eapply pending_move; [done|done|exact Hview|]. by rewrite Hnone.
    + apply wrap64_range.
  - intros metadata Hmd. constructor; rt_cbn; rewrite ?Hsel; try assumption; try reflexivity.
    + by split.
    + rewrite Hgen. unfold sel. rewrite map_map.
      apply map_ext_in. intros ci Hci%list_elem_of_In.
      destruct (Hprep ci Hci) as (_ & s & Es & _ & Hg & _). unfold sequence_at. by rewrite Es.
    + exists burst. split_and!; done.
    + intros j Hj. destruct (Hslot j Hj) as (Hr & s & n & Es & Hs & Hu & Ho & He). split; [done|].
      exists s, n. by split_and!.
Qed.

(** ** From the decision to the plan *)

(** The outcome of preparing: a recorded plan, or an untouched runtime. *)
Definition prepare_outcome (rt : ControllerRuntime)
    (r : Result (option ControllerPreparedPlanView) * ControllerRuntime) : Prop :=
  rt_wf (snd r) /\
  match fst r with
  | Value (Some v) => plan_prepared rt (snd r) v
  | _ => plan_untouched rt (snd r)
  end.

Lemma untouched_trans rt1 rt2 rt3 :
  plan_untouched rt1 rt2 -> plan_untouched rt2 rt3 -> plan_untouched rt1 rt3.
Proof.
  unfold plan_untouched. intros (? & ? & ? & ? & ? & ? & ?) (? & ? & ? & ? & ? & ? & ?).
  split_and!; congruence.
Qed.

Lemma untouched_prepared rt0 rt rt' v :
  plan_untouched rt0 rt -> plan_prepared rt rt' v -> plan_prepared rt0 rt' v.
Proof.
  intros (H1 & H2 & H3 & H4 & H5 & H6 & H7) [].
  assert (Hat : forall j, sequence_at rt0 j = sequence_at rt j)
    by (intros j; unfold sequence_at; by rewrite H1).
  constructor; try done; rewrite <- ?H1, <- ?H2, <- ?H4, <- ?H5; try done.
  - unfold runtime_plan_limits. rewrite <- H6, <- H7. exact pr_created0.
  - unfold plan_identified. rewrite <- H6. exact pr_identified0.
  - rewrite pr_generations0. apply map_ext. intros j. by rewrite Hat.
Qed.

(** What the assembled plan says about the decision. *)
Lemma assembled_plan s snapshot d s' generation identity states plan :
  sched_wf s -> decided s snapshot d s' -> Forall candidate_typed (sn_candidates snapshot) ->
  (forall i, i ∈ dv_included_candidate_indices d ->
     is_u64 (sss_committed_start_position (states.[i]))) ->
  fst (assemble_current_plan s' generation identity states) = Value plan ->
  pp_phase plan = dv_phase d /\ pp_plan_sequence plan = spi_plan_sequence identity /\
  pp_sequence_generations plan =
    map (fun i => sss_sequence_generation (states.[i])) (dv_included_candidate_indices d) /\
  plan_created (MkPlanLimits (ptp_maximum_sequences_per_plan (pts_profile s))
    (ptp_maximum_real_tokens_per_plan (pts_profile s))
    (spi_maximum_execution_bucket_tokens identity)) plan /\
  (pp_epoch plan = spi_epoch identity /\ pp_profile_revision plan = spi_profile_revision identity /\
   pp_resource_vector_hash plan = spi_resource_vector_hash identity) /\ plan_packed plan.
Proof.
  intros Hw Hde Hty Hst. rewrite (assemble_decided s snapshot d s' generation identity states Hw Hde).
  cbn zeta. case_match; [done|]. case_match; [done|]. intros E.
  set (inputs := map _ _) in E.
  assert (Hu : counts_u32 inputs).
  { unfold counts_u32. apply Forall_map, Forall_forall. intros i Hi. cbn.
    pose proof (de_range _ _ _ _ Hde) as Hr. rewrite Forall_forall in Hr. by apply count_typed, Hr. }
  assert (Hp : Forall (fun s => is_u64 (psi_committed_start_position s)) inputs)
    by (by apply Forall_map, Forall_forall).
  assert (Hl : 0 <= ptp_maximum_real_tokens_per_plan (pts_profile s))
    by (destruct (sw_profile _ Hw) as (_ & _ & ? & _); lia).
  assert (Hpk : plan_packed plan) by (eapply Create_packed; [exact Hu| |exact Hp|exact E]; exact Hl).
  pose proof E as E'. apply PackedTokenPlan_Create_Value in E' as (_ & _ & ->); [|done|done].
  split_and!; try done.
  - cbn. unfold inputs. by rewrite map_map.
  - exists inputs. by split_and!.
Qed.

(** The metadata of a packed plan, and the arena that holds it. *)
Lemma materialized s generation plan tokens arena :
  sched_wf s -> TokenMetadata.arena_wf arena -> plan_packed plan ->
  let '(r, (_, arena')) := materialize_current_metadata s generation plan tokens arena in
  TokenMetadata.arena_wf arena' /\ forall md, r = Value md -> metadata_of plan md.
Proof.
  intros Hs Ha Hp. pose proof (materialize_current_spec s generation plan tokens arena Hs) as Hm.
  cbn zeta in Hm. destruct (materialize_current_metadata _ _ _ _ _) as [r [s' arena']].
  destruct Hm as (_ & _ & E). destruct (negb (metadata_current _ _ _ _)); [by injection E as -> ->|].
  destruct (negb (forallb _ _)); [by injection E as -> ->|]. set (ss := map _ _) in E.
  destruct r as [md|e].
  - destruct (materialize_Value arena plan ss md Hp ltac:(by rewrite <- E)) as [Hf Hpm].
    destruct (materialize_writes arena plan ss Ha Hp Hf Hpm) as (a2 & E2 & Ha2 & _).
    rewrite E2 in E. injection E as -> ->. split; [done|]. intros md' [= <-].
    exists (pma_generation arena + 1), ss. split_and!; [done|apply Hf|done].
  - pose proof (materialize_error arena plan ss e ltac:(by rewrite <- E)) as E3.
    rewrite <- E in E3. cbn in E3. by rewrite E3.
Qed.

Lemma run_acquire_wf pool plan kind records slots bytes l q :
  pool_wf pool -> 0 <= records -> 0 <= slots -> 0 <= bytes ->
  acquire pool plan kind records slots bytes = (Value l, q) ->
  pool_wf q /\ vsize (bp_credits q) = vsize (bp_credits pool).
Proof.
  intros Hw H1 H2 H3 E. split.
  - pose proof (run_credit_wf pool (OpAcquire plan kind records slots bytes) Hw) as H.
    cbn in H. rewrite E in H. by apply H.
  - pose proof (run_credit_size pool (OpAcquire plan kind records slots bytes)) as H.
    cbn in H. by rewrite E in H.
Qed.

Lemma fold_max_nonneg (f : Z -> Z) l m : 0 <= m -> 0 <= foldl (fun m i => Z.max m (f i)) m l.
Proof. revert m. induction l as [|i l IH]; intros m Hm; cbn; [done|]. apply IH. lia. Qed.

Lemma prepare_decision_spec rt rows s0 snapshot d :
  rt_wf rt -> rows_ok rt rows -> rt_next_plan_sequence rt <> 0 ->
  sched_wf s0 -> decided s0 snapshot d (rt_scheduler rt) ->
  sn_candidates snapshot = map cr_candidate rows ->
  prepare_outcome rt (prepare_decision rt rows d).
Proof.
  intros Hw Hrows Hn0 Hsw Hde Hcs. unfold prepare_decision.
  set (identity := MkPlanIdentity _ _ _ _ _ _).
  pose proof (rows_typed rt rows Hw Hrows) as Hty. rewrite <- Hcs in Hty.
  pose proof (assemble_spec (rt_scheduler rt) (dv_generation d) identity
    (map cr_scheduled_state rows) (rw_scheduler _ Hw)) as Ha.
  pose proof (assembled_plan s0 snapshot d (rt_scheduler rt) (dv_generation d) identity
    (map cr_scheduled_state rows)) as Hplan. cbn zeta in Ha.
  destruct (assemble_current_plan _ _ _ _) as [rplan sch1]. cbn [fst] in Hplan.
  destruct Ha as (Hsw1 & (inputs & Hs1) & _).
  assert (Hw1 : rt_wf (rt <| rt_scheduler := sch1 |>)) by (apply wf_scheduler; [done|by subst|done]).
  assert (Hpr1 : pts_profile sch1 = pts_profile (rt_scheduler rt)) by (by subst).
  set (rt1 := rt <| rt_scheduler := sch1 |>) in *.
  assert (Hu1 : plan_untouched rt rt1) by (split_and!; done).
  destruct rplan as [plan|e]; [|by split].
  destruct (decided_members _ _ _ _ Hde) as [Hnd Hmem].
  pose proof (de_range _ _ _ _ Hde) as Hrange. rewrite Hcs, vsize_map in Hrange.
  assert (Hinb : forall ci, ci ∈ dv_included_candidate_indices d -> 0 <= ci < vsize rows).
  { rewrite Forall_forall in Hrange. auto. }
  destruct (Hplan plan Hsw Hde Hty) as (Hph & Hps & Hgen & Hcr & Hid & Hpk); [|done|].
  { intros i Hi. rewrite vat_map by auto. apply (row_start rt); [done|done|by apply Hinb]. }
  cbn in Hps. rewrite <- (de_profile _ _ _ _ Hde) in Hcr. cbn in Hcr, Hid.
  destruct (semantic_digest plan) as [digest|e] eqn:Edig; [|clear Edig; by split].
  revert Edig.
  pose proof (materialize_current_spec (rt_scheduler rt1) (dv_generation d) plan
    (map cr_scheduled_tokens rows) (rt_metadata rt1) Hsw1) as Hm. cbn zeta in Hm.
  pose proof (materialized (rt_scheduler rt1) (dv_generation d) plan
    (map cr_scheduled_tokens rows) (rt_metadata rt1) Hsw1 (rw_metadata _ Hw1) Hpk) as Hmd.
  destruct (materialize_current_metadata _ _ _ _ _) as [rmeta [sch2 arena]].
  destruct Hm as (Hsw2 & (minputs & Hs2) & _). destruct Hmd as [Har Hmd].
  assert (Hw2 : rt_wf (rt1 <| rt_scheduler := sch2 |> <| rt_metadata := arena |>)).
  { apply wf_metadata; [done|]. apply wf_scheduler; [done|by subst|done]. }
  set (rt2 := rt1 <| rt_scheduler := sch2 |> <| rt_metadata := arena |>) in *.
  assert (Hpr2 : pts_profile sch2 = pts_profile (rt_scheduler rt)) by (by rewrite Hs2).
  assert (Hu2 : plan_untouched rt rt2) by (split_and!; done).
  destruct rmeta as [metadata|e]; [|intros _; by split].
  match goal with |- context [acquire _ _ _ ?m _ _] => set (records := m) end.
  assert (Hrec : 0 <= records) by (unfold records; by apply fold_max_nonneg).
  destruct (acquire _ _ _ _ _ _) as [rburst pool] eqn:Eacq.
  destruct rburst as [burst|e].
  2: { intros _. apply acquire_Error in Eacq as [-> _]. split; [|done]. by destruct rt2. }
  destruct (rw_envelope _ Hw2) as [He1 He2].
  destruct (run_acquire_wf _ _ _ _ _ _ _ _ (rw_credits _ Hw2) Hrec He1 He2 Eacq) as [Hpw Hpsz].
  destruct (acquire_view _ _ _ _ _ _ _ _ (rw_credits _ Hw2) Eacq) as [Hnone Hview].
  intros Edig. destruct (record_plan rt2 rows plan burst pool digest (dv_tier d)
    (dv_included_candidate_indices d)) as (rt3 & E3 & Hw3 & Hp3); try assumption.
  - by apply (rows_ok_ext rt).
  - intros ci Hci. rewrite Hph, <- (Hmem ci Hci), Hcs. by rewrite vat_map by auto.
  - pose proof (rw_indices _ Hw2) as ->.
    pose proof (de_size _ _ _ _ Hde) as Hsz. pose proof (de_profile _ _ _ _ Hde) as Hpr.
    change (pts_profile (rt_scheduler rt2)) with (pts_profile sch2). rewrite Hs2. cbn.
    change (pts_profile (rt_scheduler rt1)) with (pts_profile sch1). rewrite Hs1. cbn.
    by rewrite Hpr.
  - rewrite Hgen. apply map_ext_in. intros ci Hci%list_elem_of_In. by rewrite vat_map by auto.
  - unfold runtime_plan_limits. cbn. by rewrite Hpr2.
  - rewrite E3. split; [exact Hw3|]. cbn [fst snd]. apply (untouched_prepared rt rt2); [done|].
    apply Hp3. by apply Hmd.
Qed.

Lemma prepare_next_plan_spec rt now :
  rt_wf rt -> rt_state rt = RuntimeState.kReady -> prepare_outcome rt (prepare_next_plan rt now).
Proof.
  intros Hw Hr. unfold prepare_next_plan. rewrite Hr. cbn [ready negb orb].
  case_bool_decide; [by split|]. destruct (_ || _) eqn:Eg; [by split|]. breflect.
  pose proof (wf_now rt now Hw) as Hw0. set (rt0 := rt <| rt_last_controller_now_ns := now |>) in *.
  assert (Hu0 : plan_untouched rt rt0) by done.
  destruct (candidate_rows rt0 0 (rt_slots rt0)) as [rows|e] eqn:Er; [|by split].
  apply candidate_rows_ok in Er as Hrows. destruct (vsize rows =? 0); [by split|].
  set (snapshot := MkSnapshot _ _ _ _).
  assert (Hst : snapshot_typed snapshot).
  { split; [apply Hw0|]. cbn. by eapply rows_typed. }
  pose proof (select_spec (rt_scheduler rt0) snapshot (rw_scheduler _ Hw0) Hst) as Hs.
  destruct (select (rt_scheduler rt0) snapshot) as [rd sch]. destruct rd as [d|e].
  2: { destruct Hs as [-> _]. split; [|done]. by destruct rt0. }
  destruct Hs as [_ Hde].
  assert (Hw1 : rt_wf (rt0 <| rt_scheduler := sch |>)).
  { apply wf_scheduler; [apply Hde|apply Hde|done]. }
  assert (Hu1 : plan_untouched rt (rt0 <| rt_scheduler := sch |>))
    by (split_and!; try done; cbn; apply (de_profile _ _ _ _ Hde)).
  destruct (tier_eqb _ _); [by split|].
  destruct (prepare_decision_spec (rt0 <| rt_scheduler := sch |>) rows (rt_scheduler rt0) snapshot d)
    as [Hwf Hout]; [done| |done|apply Hw0|done|done|].
  { by apply (rows_ok_ext rt0). }
  split; [done|]. destruct (fst (prepare_decision _ _ _)) as [[v|]|e].
  - apply (untouched_prepared rt (rt0 <| rt_scheduler := sch |>)); [exact Hu1|exact Hout].
  - apply (untouched_trans rt (rt0 <| rt_scheduler := sch |>)); [exact Hu1|exact Hout].
  - apply (untouched_trans rt (rt0 <| rt_scheduler := sch |>)); [exact Hu1|exact Hout].
Qed.

Lemma prepare_next_plan_ok rt now : rt_ok rt -> rt_ok (snd (prepare_next_plan rt now)).
Proof.
  intros Hok. destruct (decide (rt_state rt = RuntimeState.kReady)) as [Hr|Hr].
  - intros _. by apply prepare_next_plan_spec; [apply Hok|].
  - unfold prepare_next_plan. destruct (rt_state rt); done.
Qed.
