(* ===== verification/RuntimeBatch.v ===== *)
(** * The results of a batch

    What the results of a plan publish, which slots they leave, and how the
    loops of [ControllerRuntime::complete_current_plan] compute both: the
    validation of a batch, the publication of its events and the settlement of
    the credit of its plan. *)

From stdpp Require Import gmap.
From S2P Require Import Prelude Core Sha256 TokenPlan TokenMetadata Sequence BurstCredits.
From S2P Require Import Mailbox RequestArena Ingress Scheduler Runtime RuntimeInv.

(** ** Sending a list of drafts *)

(** The events of the drafts, numbered from [next]. *)
Fixpoint number_events (next : Z) (drafts : list ControllerOutputEventDraft) :
    list ControllerOutputEvent :=
  match drafts with
  | [] => []
  | d :: rest => event_of d next :: number_events (wrap64 (next + 1)) rest
  end.

(** Every draft is accepted by the queue, in order. *)
Fixpoint send_all (f : FifoMailbox) (self : Z) (drafts : list ControllerOutputEventDraft) :
    option FifoMailbox :=
  match drafts with
  | [] => Some f
  | d :: rest => match fifo_publish f self d with
                 | (Value _, f) => send_all f self rest
                 | (Error _, _) => None
                 end
  end.

Lemma send_all_app self d1 : forall f d2,
  send_all f self (d1 ++ d2) =
  match send_all f self d1 with Some f => send_all f self d2 | None => None end.
Proof.
  induction d1 as [|d d1 IH]; intros f d2; [done|]. cbn.
  by destruct (fifo_publish f self d) as [[e|e] f'].
Qed.

(** What an accepted list leaves in the queue. *)
Definition fifo_sent (f : FifoMailbox) (drafts : list ControllerOutputEventDraft)
    (f' : FifoMailbox) : Prop :=
  fm_events f' = fm_events f ++ number_events (fm_next_event f) drafts /\
  fm_commands f' = fm_commands f /\ fm_event_capacity f' = fm_event_capacity f /\
  fm_next_command f' = fm_next_command f.

Lemma fifo_publish_Value f self d e f' :
  fifo_publish f self d = (Value e, f') ->
  fm_events f' = fm_events f ++ [event_of d (fm_next_event f)] /\
  fm_next_event f' = wrap64 (fm_next_event f + 1) /\
  fm_commands f' = fm_commands f /\ fm_event_capacity f' = fm_event_capacity f /\
  fm_next_command f' = fm_next_command f.
Proof.
  unfold fifo_publish. destruct (fifo_claim f self) as [f0|] eqn:Ec; [|done].
  assert (E : exists o, f0 = f <| fm_owner := o |>).
  { unfold fifo_claim in Ec. destruct (fm_owner f) eqn:Eo; [bcase_in Ec; [|done]|];
      injection Ec as <-; [exists (fm_owner f); by destruct f|by eexists]. }
  destruct E as [o ->]. repeat bcase; try done. by intros [= _ <-].
Qed.

Lemma send_all_sent self drafts : forall f f',
  send_all f self drafts = Some f' -> fifo_sent f drafts f'.
Proof.
  induction drafts as [|d drafts IH]; intros f f'; cbn.
  - intros [= <-]. unfold fifo_sent. cbn. by rewrite app_nil_r.
  - destruct (fifo_publish f self d) as [[e|e] f1] eqn:Ep; [|done].
    apply fifo_publish_Value in Ep as (E1 & E2 & E3 & E4 & E5). intros (H1 & H2 & H3 & H4)%IH.
    split_and!; [|congruence..]. by rewrite H1, E1, E2, <- app_assoc.
Qed.

(** The queue accepts valid drafts it has room and numbers for. *)
Definition fifo_accepts (f : FifoMailbox) (self : Z) (n : Z) : Prop :=
  (fm_owner f = None \/ fm_owner f = Some self) /\
  vsize (fm_events f) + n <= fm_event_capacity f /\
  1 <= fm_next_event f /\ fm_next_event f + n - 1 <= u64_max.

Lemma send_all_accepts self drafts : forall f,
  fifo_accepts f self (vsize drafts) -> Forall (fun d => draft_invalid d = false) drafts ->
  exists f', send_all f self drafts = Some f'.
Proof.
  induction drafts as [|d drafts IH]; intros f (Ho & Hc & Hn & Hm) Hv; [by eexists|].
  apply Forall_cons in Hv as [Hd Hv]. rewrite vsize_cons in *. pose proof (vsize_nonneg drafts).
  assert (Ecl : fifo_claim f self = Some (f <| fm_owner := Some self |>)).
  { unfold fifo_claim. destruct Ho as [Ho|Ho]; rewrite Ho; [done|]. rewrite Z.eqb_refl.
    f_equal. destruct f. cbn in Ho. by subst. }
  cbn [send_all]. unfold fifo_publish. rewrite Ecl, Hd. cbn [fm_events fm_event_capacity fm_next_event upd].
  destruct (Z.eqb_spec (vsize (fm_events f)) (fm_event_capacity f)); [lia|].
  destruct (Z.eqb_spec (fm_next_event f) 0); [lia|]. cbn zeta. destruct (decide (drafts = [])) as [->|Hne].
  { by eexists. }
  assert (1 <= vsize drafts) by (destruct drafts; [done|rewrite vsize_cons; pose proof (vsize_nonneg drafts); lia]).
  apply IH; [|done]. unfold fifo_accepts. cbn. rewrite vsize_app, wrap64_id by (unfold is_u64; lia).
  change (vsize [event_of d (fm_next_event f)]) with 1. split_and!; [by right|lia..].
Qed.

(** ** What a batch publishes *)

Fixpoint token_drafts (epoch g : Z) (digest : Sha256Digest) (plan_sequence count ordinal ix : Z)
    (tokens : list Z) : list ControllerOutputEventDraft :=
  match tokens with
  | [] => []
  | t :: rest =>
      MkDraft EventKind.kTokenCommitted epoch g ordinal t digest plan_sequence ix count
        FinishReason.kNone
      :: token_drafts epoch g digest plan_sequence count (ordinal + 1) (ix + 1) rest
  end.

(** The tokens the sequence accepted, numbered after those it had, and the end
    of its generation when it drains. *)
Definition result_drafts (epoch plan_sequence count ix : Z) (slot : Slot)
    (s : ControllerSequence) (r : ControllerBackendSequenceResult) (digest : Sha256Digest) :
    list ControllerOutputEventDraft :=
  let c := br_completion r in
  let g := cs_sequence_generation s in
  token_drafts epoch g digest plan_sequence count (cs_accepted_completion_count s + 1) ix
    (br_accepted_token_ids r) ++
  if will_drain s c
  then [MkDraft EventKind.kDraining epoch g 0 0 digest plan_sequence
          (ix + vsize (br_accepted_token_ids r)) count
          (finish_reason c (rqv_maximum_new_tokens (slot_request slot)))]
  else [].

(** The slot of a completed result. *)
Definition completed_slot (slot : Slot) (s : ControllerSequence)
    (r : ControllerBackendSequenceResult) (plan_sequence ready now_ns : Z) : Slot :=
  let c := br_completion r in
  let s' := snd (complete s c) in
  if will_drain s c
  then RuntimeSlot.MkSlot (Some s') (slot_request slot) None plan_sequence
         (RuntimeSlot.ready_enqueue_sequence slot) (RuntimeSlot.prefill_eligible_since_ns slot)
  else RuntimeSlot.MkSlot (Some s') (slot_request slot)
         (if cc_committed_model_processed_length c <? cs_prompt_token_count s
          then slot_pending_token slot else last (br_accepted_token_ids r))
         plan_sequence ready now_ns.

(** The drafts of a batch, slot by slot. *)
Fixpoint batch_drafts (rt : ControllerRuntime) (plan_sequence count ix : Z) (sel : list Z)
    (results : list ControllerBackendSequenceResult) (digests : list Sha256Digest) :
    list ControllerOutputEventDraft :=
  match sel, results, digests with
  | i :: sel, r :: results, d :: digests =>
      let drafts := result_drafts (rc_epoch (rt_config rt)) plan_sequence count ix
        ((rt_slots rt).[i]) (sequence_at rt i) r d in
      drafts ++ batch_drafts rt plan_sequence count (ix + vsize drafts) sel results digests
  | _, _, _ => []
  end.

(** The slots after a batch: requeued sequences take consecutive numbers. *)
Fixpoint batch_slots (rt : ControllerRuntime) (plan_sequence ready now_ns : Z)
    (sel : list Z) (results : list ControllerBackendSequenceResult) (slots : list Slot) :
    list Slot :=
  match sel, results with
  | i :: sel, r :: results =>
      let s := sequence_at rt i in
      batch_slots rt plan_sequence
        (if will_drain s (br_completion r) then ready else wrap64 (ready + 1)) now_ns sel results
        (slots.[i <- completed_slot ((rt_slots rt).[i]) s r plan_sequence ready now_ns])
  | _, _ => slots
  end.

Fixpoint batch_ready (rt : ControllerRuntime) (ready : Z) (sel : list Z)
    (results : list ControllerBackendSequenceResult) : Z :=
  match sel, results with
  | i :: sel, r :: results =>
      batch_ready rt (if will_drain (sequence_at rt i) (br_completion r) then ready
                      else wrap64 (ready + 1)) sel results
  | _, _ => ready
  end.

(** What the batch needs of the queue. *)
Fixpoint batch_events (rt : ControllerRuntime) (sel : list Z)
    (results : list ControllerBackendSequenceResult) : Z :=
  match sel, results with
  | i :: sel, r :: results =>
      vsize (br_accepted_token_ids r) + Z.b2z (will_drain (sequence_at rt i) (br_completion r))
      + batch_events rt sel results
  | _, _ => 0
  end.

(** ** Validation *)

Record validated (rt : ControllerRuntime) (i : Z) (r : ControllerBackendSequenceResult)
    (digest : Sha256Digest) : Prop := {
  va_ok : ok (validate_completion (sequence_at rt i) (br_completion r)) = true;
  va_count : wrap64 (cc_accepted_completion_count (br_completion r) -
    cs_accepted_completion_count (sequence_at rt i)) = vsize (br_accepted_token_ids r);
  va_tokens : Forall (fun token => token < 151936) (br_accepted_token_ids r);
  va_limit : cc_accepted_completion_count (br_completion r) <=
    rqv_maximum_new_tokens (slot_request ((rt_slots rt).[i]));
  va_terminal : cc_accepted_completion_count (br_completion r) =
    rqv_maximum_new_tokens (slot_request ((rt_slots rt).[i])) -> cc_terminal (br_completion r) = true;
  va_pending : will_drain (sequence_at rt i) (br_completion r) = false ->
    cs_prompt_token_count (sequence_at rt i) <=
      cc_committed_model_processed_length (br_completion r) -> br_accepted_token_ids r <> [];
  va_digest : completion_state_digest rt (br_completion r) = Value digest }.

(** A refusal is an error. *)
Lemma validate_results_Error rt e : forall results i need,
  validate_results rt i results need = Error e -> ok e = false.
Proof.
  induction results as [|r results IH]; intros i need; cbn [validate_results]; [done|].
  destruct (validate_result _ _ _ _ _) as [n1|e1] eqn:E1; cbn; [apply IH|]. intros [= <-].
  revert E1. unfold validate_result. cbn zeta.
  destruct (ok (validate_completion _ _)) eqn:Ev; cbn [negb]; [|by intros [= <-]].
  repeat (match goal with |- (if ?b then _ else _) = _ -> _ => destruct b end;
          [intros H; injection H as <-; reflexivity|]).
  destruct (completion_state_digest _ _) as [d|e2] eqn:Ed; cbn; [done|]. intros [= <-].
  by eapply hash_chunks_Error.
Qed.

(** The requeues of the batch. *)
Fixpoint batch_requeues (rt : ControllerRuntime) (sel : list Z)
    (results : list ControllerBackendSequenceResult) : Z :=
  match sel, results with
  | i :: sel, r :: results =>
      Z.b2z (negb (will_drain (sequence_at rt i) (br_completion r))) + batch_requeues rt sel results
  | _, _ => 0
  end.

Lemma existsb_false_Forall {A} (f : A -> bool) l :
  existsb f l = false -> Forall (fun x => f x = false) l.
Proof. induction l as [|x l IH]; cbn; [done|]. intros [H1 H2]%orb_false_iff. constructor; auto. Qed.

Lemma validate_result_Value rt i r need need' :
  is_u64 (cn_events need) ->
  validate_result rt ((rt_slots rt).[i]) (sequence_at rt i) r need = Value need' ->
  exists digest, validated rt i r digest /\
    need' = MkNeed (cn_events need + vsize (br_accepted_token_ids r) +
                    Z.b2z (will_drain (sequence_at rt i) (br_completion r)))
              (wrap64 (cn_requeues need +
                 Z.b2z (negb (will_drain (sequence_at rt i) (br_completion r)))))
              (cn_digests need ++ [digest]) /\ is_u64 (cn_events need').
Proof.
  intros Hu. unfold validate_result. cbn zeta.
  destruct (ok (validate_completion _ _)) eqn:Ev; cbn [negb]; [|done].
  destruct (Z.eqb_spec (wrap64 (cc_accepted_completion_count (br_completion r) -
    cs_accepted_completion_count (sequence_at rt i))) (vsize (br_accepted_token_ids r))) as [Hc|];
    cbn [negb]; [|done].
  destruct (existsb _ _) eqn:Ee; [done|]. apply existsb_false_Forall in Ee.
  destruct (_ || _) eqn:El; [done|]. destruct (_ && (vsize _ =? 0)) eqn:Ep; [done|].
  destruct (vsize _ >? _) eqn:Eo; [done|]. breflect. pose proof (vsize_nonneg (br_accepted_token_ids r)).
  rewrite (wrap64_id (cn_events need + vsize _)) by (unfold is_u64 in *; lia).
  destruct (will_drain (sequence_at rt i) (br_completion r)) eqn:Ew; cbn [andb negb] in *;
    [destruct (_ =? u64_max) eqn:Em; [done|]|]; breflect.
  all: destruct (completion_state_digest _ _) as [digest|] eqn:Ed; cbn; [|done].
  all: intros [= <-]; exists digest; cbn [cn_events Z.b2z].
  all: rewrite wrap64_id by (unfold is_u64 in *; lia).
  all: split; [|split; [done|unfold is_u64 in *; lia]].
  all: constructor; try done.
  all: try (eapply Forall_impl; [exact Ee|]; cbn; intros; lia).
  all: try lia.
  all: destruct (cc_terminal (br_completion r)) eqn:Et; try done.
  all: try (intros He; rewrite He in *; lia).
  all: intros _ Hp; try congruence; intros Hn; rewrite Hn in *; change (vsize []) with 0 in *; lia.
Qed.

Lemma batch_requeues_bounds rt sel : forall results,
  0 <= batch_requeues rt sel results <= vsize sel.
Proof.
  induction sel as [|i sel IH]; intros [|r results]; cbn [batch_requeues]; rewrite ?vsize_cons;
    try (pose proof (vsize_nonneg sel)); try (change (vsize []) with 0; lia); try lia.
  specialize (IH results). destruct (will_drain _ _); cbn; lia.
Qed.

Lemma validate_results_Value rt : forall results i sel need need',
  sel = map (fun k => (rt_selected_slot_indices rt).[k]) (seqZ i (vsize results)) ->
  is_u64 (cn_events need) -> 0 <= cn_requeues need -> cn_requeues need + vsize sel <= u64_max ->
  validate_results rt i results need = Value need' ->
  exists digests, Forall3 (validated rt) sel results digests /\
    need' = MkNeed (cn_events need + batch_events rt sel results)
              (cn_requeues need + batch_requeues rt sel results) (cn_digests need ++ digests).
Proof.
  induction results as [|r results IH]; intros i sel need need' Hsel Hu Hr0 Hr.
  - cbn in Hsel. subst sel. intros [= <-]. exists []. split; [constructor|].
    rewrite app_nil_r. cbn. rewrite !Z.add_0_r. by destruct need.
  - rewrite vsize_cons in Hsel. pose proof (vsize_nonneg results).
    rewrite seqZ_cons in Hsel by lia. cbn [map] in Hsel.
    replace (Z.pred (1 + vsize results)) with (vsize results) in Hsel by lia.
    rewrite Hsel, vsize_cons in Hr. cbn [validate_results].
    set (j := (rt_selected_slot_indices rt).[i]) in *.
    destruct (validate_result _ _ _ _ _) as [n1|] eqn:E1; cbn; [|done].
    apply validate_result_Value in E1 as (digest & Hv & -> & Hu1); [|done]. intros E2.
    set (drain := will_drain _ _) in *.
    pose proof (vsize_nonneg (map (fun k => (rt_selected_slot_indices rt).[k])
      (seqZ (Z.succ i) (vsize results)))).
    replace (i + 1) with (Z.succ i) in E2 by lia.
    eapply (IH (Z.succ i) _ _ need' eq_refl Hu1) in E2 as (digests & Hd & ->); cbn [cn_requeues];
      rewrite ?wrap64_id by (unfold is_u64; destruct drain; cbn; lia).
    + exists (digest :: digests). subst sel. split; [by constructor|]. cbn. fold drain. rewrite <- app_assoc.
      f_equal; cbn; lia.
    + destruct drain; cbn; lia.
    + destruct drain; cbn; lia.
Qed.

(** ** Publishing *)

(** An error, with a status that is not [Ok]. *)
Definition refused {A} (r : Result A) : bool :=
  match r with Value _ => false | Error e => negb (ok e) end.

Definition rt_fifo (rt : ControllerRuntime) : FifoMailbox := mailbox_abs (ig_mailbox (rt_ingress rt)).

Definition rt_mailbox (rt : ControllerRuntime) (m : ControllerMailbox) : ControllerRuntime :=
  rt <| rt_ingress := MkIngress m (ig_requests (rt_ingress rt)) |>.

Lemma publish_eq rt self d :
  mailbox_wf (ig_mailbox (rt_ingress rt)) ->
  exists m, publish rt self d = (fst (fifo_publish (rt_fifo rt) self d), rt_mailbox rt m) /\
    mailbox_wf m /\ mailbox_abs m = snd (fifo_publish (rt_fifo rt) self d).
Proof.
  intros Hm. destruct (mailbox_sim _ (OpPublish self d) Hm) as (Hw & Ho & Ha).
  unfold publish, Ingress.publish_event. cbn [run_mailbox run_fifo] in *. fold (rt_fifo rt) in *.
  destruct (Mailbox.publish_event _ _ _) as [r m], (fifo_publish _ _ _) as [r' f].
  cbn [fst snd] in *. injection Ho as ->. by exists m.
Qed.

Lemma rt_mailbox_twice rt m m' : rt_mailbox (rt_mailbox rt m) m' = rt_mailbox rt m'.
Proof. done. Qed.

Lemma publish_tokens_spec self g previous digest plan count : forall tokens rt k ix,
  mailbox_wf (ig_mailbox (rt_ingress rt)) ->
  0 <= previous -> 0 <= k -> previous + k + vsize tokens <= u64_max ->
  0 <= ix -> ix + vsize tokens <= u32_max ->
  let r := publish_tokens rt self g previous k tokens digest plan ix count in
  match send_all (rt_fifo rt) self (token_drafts (rc_epoch (rt_config rt)) g digest plan count
          (previous + k + 1) ix tokens) with
  | Some f => exists m, r = (Value (ix + vsize tokens), rt_mailbox rt m) /\
                mailbox_wf m /\ mailbox_abs m = f
  | None => refused (fst r) = true /\ rt_state (snd r) = RuntimeState.kFailed
  end.
Proof.
  induction tokens as [|t tokens IH]; intros rt k ix Hm Hp Hk Hu Hi Hi2 r.
  - cbn. exists (ig_mailbox (rt_ingress rt)). unfold r. cbn. rewrite Z.add_0_r.
    split; [|done]. unfold rt_mailbox. by destruct rt, rt_ingress.
  - unfold r. clear r. cbn [publish_tokens token_drafts send_all]. rewrite vsize_cons in *.
    pose proof (vsize_nonneg tokens). rewrite (wrap64_id (previous + k + 1)) by (unfold is_u64; lia).
    match goal with |- context [publish rt self ?d] =>
      destruct (publish_eq rt self d Hm) as (m & -> & Hmw & Hma) end.
    destruct (fifo_publish _ _ _) as [[e|e] f]; cbn [fst snd] in *; [|done].
    rewrite (wrap32_id (ix + 1)) by (unfold is_u32; lia).
    specialize (IH (rt_mailbox rt m) (k + 1) (ix + 1) Hmw Hp ltac:(lia) ltac:(lia) ltac:(lia) ltac:(lia)).
    cbn zeta in IH. change (rt_fifo (rt_mailbox rt m)) with (mailbox_abs m) in IH. rewrite Hma in IH.
    cbn [rt_config rt_mailbox upd] in IH. replace (previous + (k + 1) + 1) with (previous + k + 1 + 1) in IH by lia.
    destruct (send_all _ _ _) as [f'|]; [|done]. destruct IH as (m' & -> & Hw' & Ha').
    exists m'. rewrite rt_mailbox_twice. split; [|done]. do 2 f_equal. lia.
Qed.

(** ** Applying the results *)

(** The members that applying results changes. *)
Definition with_apply (rt : ControllerRuntime) (m : ControllerMailbox) (slots : list Slot)
    (ready : Z) : ControllerRuntime :=
  MkRuntime (rt_config rt) (MkIngress m (ig_requests (rt_ingress rt))) slots (rt_scheduler rt)
    (rt_metadata rt) (rt_output_credits rt) (rt_pending_output_bursts rt)
    (rt_selected_slot_indices rt) (rt_selected_sampling rt) (rt_current rt) ready
    (rt_next_plan_sequence rt) (rt_last_controller_now_ns rt) (rt_consecutive_decode_rounds rt)
    (rt_last_successful_plan_was_protected_prefill rt) (rt_state rt) (rt_active_sequence_count rt).

Lemma complete_state s c :
  ok (validate_completion s c) = true ->
  ok (fst (complete s c)) = true /\
  cs_sequence_generation (snd (complete s c)) = cs_sequence_generation s /\
  cs_state (snd (complete s c)) =
    if will_drain s c then SeqState.kDraining
    else if cc_committed_model_processed_length c <? cs_prompt_token_count s
         then SeqState.kQueuedPrefill else SeqState.kReadyDecode.
Proof.
  intros E. unfold complete, will_drain. rewrite E. cbn. split_and!; [done..|].
  destruct (state_eqb _ _); [by rewrite orb_true_r|]. by rewrite orb_false_r.
Qed.

Lemma vsize_token_drafts epoch g digest plan count tokens : forall ordinal ix,
  vsize (token_drafts epoch g digest plan count ordinal ix tokens) = vsize tokens.
Proof. induction tokens; intros; cbn; rewrite ?vsize_cons; [done|]. by rewrite IHtokens. Qed.

Lemma vsize_result_drafts epoch plan count ix slot s r digest :
  vsize (result_drafts epoch plan count ix slot s r digest) =
  vsize (br_accepted_token_ids r) + Z.b2z (will_drain s (br_completion r)).
Proof.
  unfold result_drafts. rewrite vsize_app, vsize_token_drafts. by destruct (will_drain _ _).
Qed.

Lemma accepted_count s c n :
  seq_wf s -> completion_typed c -> ok (validate_completion s c) = true ->
  wrap64 (cc_accepted_completion_count c - cs_accepted_completion_count s) = n ->
  cc_accepted_completion_count c = cs_accepted_completion_count s + n /\
  0 <= cs_accepted_completion_count s /\ cc_accepted_completion_count c <= u64_max.
Proof.
  intros Hs Hc Hv E. pose proof (validate_completion_ok s c Hs Hc Hv) as [].
  destruct Hs as ((_ & _ & _ & _ & _ & Ha & _) & _). destruct Hc as (_ & _ & _ & Hc & _).
  unfold is_u64 in *. rewrite wrap64_id in E by (unfold is_u64; lia). lia.
Qed.

Lemma vput_twice {A} (l : list A) i x y : (l.[i <- x]).[i <- y] = l.[i <- y].
Proof. unfold vput. apply list_insert_insert_eq. Qed.

Section ApplyResult.
Context (rt : ControllerRuntime) (self now_ns j : Z) (r : ControllerBackendSequenceResult)
  (digest : Sha256Digest) (plan_sequence ix count : Z).
Let slot := (rt_slots rt).[j].
Let s := sequence_at rt j.
Let drafts := result_drafts (rc_epoch (rt_config rt)) plan_sequence count ix slot s r digest.
Context (Hmw : mailbox_wf (ig_mailbox (rt_ingress rt))) (Hj : 0 <= j < vsize (rt_slots rt))
  (Hsome : is_Some (slot_sequence slot)) (Hs : seq_wf s) (Hc : completion_typed (br_completion r))
  (Hv : ok (validate_completion s (br_completion r)) = true)
  (Hn : wrap64 (cc_accepted_completion_count (br_completion r) - cs_accepted_completion_count s) =
        vsize (br_accepted_token_ids r))
  (Hix : 0 <= ix) (Hix2 : ix + vsize drafts <= u32_max).

Lemma apply_result_spec :
  let res := apply_result rt self now_ns j r digest plan_sequence ix count in
  match send_all (rt_fifo rt) self drafts with
  | Some f => exists m, res = (Value (ix + vsize drafts),
      with_apply rt m ((rt_slots rt).[j <- completed_slot slot s r plan_sequence
                          (rt_next_ready_enqueue_sequence rt) now_ns])
        (if will_drain s (br_completion r) then rt_next_ready_enqueue_sequence rt
         else wrap64 (rt_next_ready_enqueue_sequence rt + 1))) /\
      mailbox_wf m /\ mailbox_abs m = f
  | None => refused (fst res) = true /\ rt_state (snd res) = RuntimeState.kFailed
  end.
Proof.
  intros res. unfold res, apply_result. clear res.
  assert (Es : slot_sequence ((rt_slots rt).[j]) = Some s)
    by (unfold s, sequence_at; destruct Hsome as [s0 E]; unfold slot in E; by rewrite E).
  destruct (accepted_count s _ _ Hs Hc Hv Hn) as (Ha1 & Ha2 & Ha3).
  destruct (complete_state s _ Hv) as (Ho & Hg & Hst).
  unfold drafts in *. rewrite vsize_result_drafts in *.
  rewrite (on_sequence_eq rt j s) by done. fold s. rewrite Ho. cbn [negb].
  rewrite !sequence_at_set by done. rewrite Hg.
  set (s' := snd (complete s (br_completion r))) in *.
  set (rt1 := set_sequence rt j (Some s')).
  pose proof (vsize_nonneg (br_accepted_token_ids r)) as Hnn.
  unfold result_drafts. rewrite send_all_app.
  pose proof (publish_tokens_spec self (cs_sequence_generation s) (cs_accepted_completion_count s)
    digest plan_sequence count (br_accepted_token_ids r) rt1 0 ix Hmw Ha2 ltac:(lia) ltac:(lia) Hix
    ltac:(destruct (will_drain s (br_completion r)); cbn in *; lia)) as Hp. cbn zeta in Hp.
  change (rt_fifo rt1) with (rt_fifo rt) in Hp. change (rt_config rt1) with (rt_config rt) in Hp.
  rewrite Z.add_0_r in Hp.
  destruct (send_all (rt_fifo rt) self _) as [f|].
  2: { destruct (publish_tokens _ _ _ _ _ _ _ _ _ _) as [[v|e] rt2]; [by destruct Hp|]. exact Hp. }
  destruct Hp as (m & -> & Hmw' & Hma).
  assert (Eat : sequence_at (rt_mailbox rt1 m) j = s')
    by (change (sequence_at (rt_mailbox rt1 m) j) with (sequence_at rt1 j); by apply sequence_at_set).
  assert (Eslot : (rt_slots (rt_mailbox rt1 m)).[j] = slot <| RuntimeSlot.sequence := Some s' |>)
    by (change (rt_slots (rt_mailbox rt1 m)) with (rt_slots rt1); by apply slot_set).
  rewrite Eat, Eslot, Hst. unfold completed_slot. fold s'.
  destruct (will_drain s (br_completion r)) eqn:Ew; cbn [state_eqb state_value Z.eqb Z.b2z send_all] in *.
  - match goal with |- context [publish ?rt2 self ?d] =>
      destruct (publish_eq rt2 self d Hmw') as (m2 & -> & Hmw2 & Hma2) end.
    change (rt_fifo (_ <| rt_slots := _ |>)) with (mailbox_abs m) in Hma2 |- *. rewrite Hma in Hma2 |- *.
    cbn [rt_config rt1 set_sequence rt_mailbox upd RuntimeSlot.request slot_request] in *.
    destruct (fifo_publish f self _) as [[ev|e] f2]; cbn [fst snd] in *; [|done].
    exists m2. split; [|done]. rewrite wrap32_id by (unfold is_u32; lia). apply (f_equal2 pair); [f_equal; lia|].
    unfold with_apply, rt_mailbox, rt1, set_sequence, upd. cbn. rewrite !vput_twice. done.
  - exists m. split; [|done].
    destruct (cc_committed_model_processed_length _ <? _); cbn [state_eqb state_value Z.eqb Pos.eqb].
    all: apply (f_equal2 pair); [f_equal; lia|].
    all: unfold with_apply, rt_mailbox, rt1, set_sequence, upd; cbn; by rewrite !vput_twice.
Qed.
End ApplyResult.

Lemma vsize_batch_drafts rt plan count sel : forall results digests ix,
  length sel = length results -> length results = length digests ->
  vsize (batch_drafts rt plan count ix sel results digests) = batch_events rt sel results.
Proof.
  induction sel as [|i sel IH]; intros [|r results] [|d digests] ix; try done.
  intros [= H1] [= H2]. cbn [batch_drafts batch_events]. rewrite vsize_app, vsize_result_drafts.
  rewrite IH by done. lia.
Qed.

Lemma batch_events_nonneg rt sel : forall results, 0 <= batch_events rt sel results.
Proof.
  induction sel as [|i sel IH]; intros [|r results]; cbn; try lia.
  specialize (IH results). pose proof (vsize_nonneg (br_accepted_token_ids r)).
  destruct (will_drain _ _); cbn; lia.
Qed.

(** The slots a batch works on. *)
Definition applicable (rt : ControllerRuntime) (j : Z) : Prop :=
  0 <= j < vsize (rt_slots rt) /\ is_Some (slot_sequence ((rt_slots rt).[j])) /\
  seq_wf (sequence_at rt j).

Lemma apply_results_spec rt0 self now plan count : forall sel results digests rt i ix,
  sel = map (fun k => (rt_selected_slot_indices rt).[k]) (seqZ i (vsize results)) ->
  NoDup sel -> Forall3 (validated rt0) sel results digests ->
  Forall (fun r => completion_typed (br_completion r)) results ->
  Forall (applicable rt0) sel ->
  rt_config rt = rt_config rt0 -> vsize (rt_slots rt) = vsize (rt_slots rt0) ->
  (forall j, j ∈ sel -> (rt_slots rt).[j] = (rt_slots rt0).[j]) ->
  mailbox_wf (ig_mailbox (rt_ingress rt)) ->
  0 <= ix -> ix + batch_events rt0 sel results <= u32_max ->
  let res := apply_results rt self now i results digests plan ix count in
  match send_all (rt_fifo rt) self (batch_drafts rt0 plan count ix sel results digests) with
  | Some f => exists v m, res = (Value v,
      with_apply rt m (batch_slots rt0 plan (rt_next_ready_enqueue_sequence rt) now sel results
                         (rt_slots rt))
        (batch_ready rt0 (rt_next_ready_enqueue_sequence rt) sel results)) /\
      mailbox_wf m /\ mailbox_abs m = f
  | None => refused (fst res) = true /\ rt_state (snd res) = RuntimeState.kFailed
  end.
Proof.
  induction sel as [|j sel IH]; intros results digests rt i ix Hsel Hnd Hva Hty Hap Hcfg Hsz Hsame Hm Hix Hb res;
    unfold res; clear res.
  { inversion Hva; subst. cbn. exists ix, (ig_mailbox (rt_ingress rt)). split; [|done].
    f_equal. unfold with_apply. by destruct rt, rt_ingress. }
  inversion Hva as [|? r digest ? results' digests' Hv Hva']; subst.
  apply NoDup_cons in Hnd as [Hn Hnd]. apply Forall_cons in Hty as [Hc Hty].
  apply Forall_cons in Hap as [(Hr & Hso & Hwf) Hap].
  rewrite vsize_cons in Hsel. pose proof (vsize_nonneg results') as Hnn.
  rewrite seqZ_cons in Hsel by lia. replace (Z.pred (1 + vsize results')) with (vsize results') in Hsel by lia.
  cbn [map] in Hsel. injection Hsel as Ej Esel.
  pose proof (Hsame j ltac:(set_solver)) as Ejs.
  assert (Ejq : sequence_at rt j = sequence_at rt0 j) by (unfold sequence_at; by rewrite Ejs).
  cbn [apply_results batch_drafts batch_slots batch_ready batch_events] in *. rewrite <- Ej.
  pose proof (batch_events_nonneg rt0 sel results') as Hbn.
  pose proof (apply_result_spec rt self now j r digest plan ix count Hm ltac:(lia)
    ltac:(by rewrite Ejs) ltac:(by rewrite Ejq) Hc ltac:(rewrite Ejq; apply Hv)
    ltac:(rewrite Ejq; apply Hv) Hix
    ltac:(rewrite vsize_result_drafts, Ejq; lia)) as Ha. cbn zeta in Ha.
  rewrite vsize_result_drafts in Ha |- *. rewrite Ejs, Ejq, Hcfg in Ha. rewrite send_all_app.
  destruct (send_all (rt_fifo rt) self _) as [f|].
  2: { destruct (apply_result _ _ _ _ _ _ _ _ _) as [[v|e] rt1]; [by destruct Ha|exact Ha]. }
  destruct Ha as (m & -> & Hmw & Hma).
  set (n := vsize (br_accepted_token_ids r) + _) in *.
  match goal with |- context [with_apply rt m ?sl ?rd] => set (slots1 := sl); set (ready1 := rd) end.
  assert (Hnb : 0 <= n).
  { unfold n. pose proof (vsize_nonneg (br_accepted_token_ids r)). destruct (will_drain _ _); cbn; lia. }
  specialize (IH results' digests' (with_apply rt m slots1 ready1) (i + 1) (ix + n)).
  cbn [with_apply rt_selected_slot_indices rt_config rt_slots rt_ingress ig_mailbox
    rt_next_ready_enqueue_sequence] in IH.
  assert (Hrest : forall k, k ∈ sel -> 0 <= k /\ k <> j).
  { intros k Hk. rewrite Forall_forall in Hap. destruct (Hap k Hk) as [? _].
    split; [lia|]. intros ->. done. }
  assert (Hsl : vsize slots1 = vsize (rt_slots rt0)) by (unfold slots1; by rewrite vsize_vput).
  replace (Z.succ i) with (i + 1) in Esel by lia.
  specialize (IH Esel Hnd Hva' Hty Hap Hcfg Hsl).
  assert (Hs1 : forall k, k ∈ sel -> slots1.[k] = (rt_slots rt0).[k]).
  { intros k Hk. destruct (Hrest k Hk). unfold slots1. rewrite vat_vput_ne by lia.
    apply Hsame. set_solver. }
  specialize (IH Hs1 Hmw ltac:(lia) ltac:(lia)). cbn zeta in IH.
  change (rt_fifo (with_apply rt m slots1 ready1)) with (mailbox_abs m) in IH. rewrite Hma in IH.
  destruct (send_all f self _) as [f2|]; [|exact IH].
  destruct IH as (v & m2 & -> & Hm2 & Ha2). by exists v, m2.
Qed.

(** ** The slots of a batch *)

Lemma vsize_batch_slots rt plan now sel : forall results ready slots,
  vsize (batch_slots rt plan ready now sel results slots) = vsize slots.
Proof.
  induction sel as [|j sel IH]; intros [|r results] ready slots; try done.
  cbn [batch_slots]. by rewrite IH, vsize_vput.
Qed.

Lemma batch_slots_other rt plan now j sel : forall results ready slots,
  j ∉ sel -> 0 <= j -> Forall (fun i => 0 <= i < vsize slots) sel ->
  (batch_slots rt plan ready now sel results slots).[j] = slots.[j].
Proof.
  induction sel as [|i sel IH]; intros [|r results] ready slots Hj Hj0 Hr; try done.
  apply Forall_cons in Hr as [Hi Hr]. apply not_elem_of_cons in Hj as [Hne Hj].
  cbn [batch_slots]. rewrite IH; [|done|done|by rewrite vsize_vput]. by rewrite vat_vput_ne by lia.
Qed.

(** The [k]-th result of the batch decides the slot it was selected from. *)
Lemma batch_slots_at rt plan now : forall sel results ready slots k,
  length sel = length results -> NoDup sel -> 0 <= k < vsize sel ->
  Forall (fun i => 0 <= i < vsize slots) sel ->
  exists n, (batch_slots rt plan ready now sel results slots).[sel.[k]] =
    completed_slot ((rt_slots rt).[sel.[k]]) (sequence_at rt (sel.[k])) (results.[k]) plan n now.
Proof.
  induction sel as [|i sel IH]; intros [|r results] ready slots k Hl Hnd Hk Hr; try done.
  { unfold vsize in Hk. cbn in Hk. lia. }
  injection Hl as Hl. apply NoDup_cons in Hnd as [Hn Hnd]. apply Forall_cons in Hr as [Hi Hr].
  cbn [batch_slots]. rewrite vsize_cons in Hk. destruct (decide (k = 0)) as [->|Hne].
  - change ((i :: sel).[0]) with i. change ((r :: results).[0]) with r. exists ready.
    rewrite batch_slots_other; [|done|lia|by rewrite vsize_vput]. by rewrite vat_vput_eq.
  - assert (E : forall {A} `{Inhabited A} (x : A) l, (x :: l).[k] = l.[k - 1]).
    { intros A HA x l. unfold vat. by replace (Z.to_nat k) with (S (Z.to_nat (k - 1))) by lia. }
    rewrite !E. apply IH; [done..|lia|by rewrite vsize_vput].
Qed.

Lemma completed_slot_wf slot s r plan ready now :
  slot_wf slot -> slot_sequence slot = Some s -> completion_typed (br_completion r) ->
  is_u64 plan -> is_u64 ready -> slot_wf (completed_slot slot s r plan ready now).
Proof.
  intros (H1 & H2 & H3) Es Hc Hp Hr. rewrite Es in H3. destruct H3 as (Hs & H4 & H5).
  pose proof (run_op_wf s (OpComplete (br_completion r)) Hs Hc) as Hs'. cbn [run_op] in Hs'.
  pose proof (proj1 (run_op_identity s (OpComplete (br_completion r)))) as Hp'. cbn [run_op] in Hp'.
  unfold completed_slot. destruct (will_drain _ _); (split; [done|]; split; [done|]); cbn;
    (split; [done|]); (split; [done|]); congruence.
Qed.

Lemma batch_slots_wf rt plan now sel : forall results ready slots,
  Forall slot_wf slots -> is_u64 plan -> is_u64 ready ->
  Forall (fun r => completion_typed (br_completion r)) results ->
  Forall (fun j => slot_wf ((rt_slots rt).[j]) /\ is_Some (slot_sequence ((rt_slots rt).[j]))) sel ->
  Forall slot_wf (batch_slots rt plan ready now sel results slots) /\
  is_u64 (batch_ready rt ready sel results).
Proof.
  induction sel as [|j sel IH]; intros [|r results] ready slots Hs Hp Hr Hty Hsel; try done.
  apply Forall_cons in Hty as [Hc Hty]. apply Forall_cons in Hsel as [[Hw [s Es]] Hsel].
  cbn [batch_slots batch_ready]. apply IH; [|done| |done|done].
  - apply Forall_vput; [done|]. apply completed_slot_wf; try done.
    by unfold sequence_at; rewrite Es.
  - destruct (will_drain _ _); [done|]. apply wrap64_range.
Qed.

(** ** A place for the transferred credit *)

Lemma pending_vacancy pool pending lease st :
  pending_ok pool pending -> lease_view pool lease = Some st -> st <> BurstState.kTransferred ->
  exists k, first_index (fun l : option OutputBurstLease => bool_decide (l = None)) pending 0 = Some k.
Proof.
  intros (Hsz & Htr & Hinj) Hl Hst.
  destruct (first_index _ _ _) as [k|] eqn:E; [by exists k|]. exfalso.
  apply first_index_None in E. rewrite Forall_forall in E.
  apply lease_view_range in Hl as (Hr & Hs & _).
  set (index := fun l : option OutputBurstLease =>
    match l with Some l => bl_credit_index l | None => 0 end).
  assert (Hall : forall k, 0 <= k < vsize pending -> exists l, pending.[k] = Some l /\
    0 <= bl_credit_index l < vsize (bp_credits pool) /\ bl_credit_index l <> bl_credit_index lease).
  { intros k Hk. pose proof (E _ (proj2 (list_elem_of_In _ _) (vat_In pending k Hk))) as Ek.
    destruct (pending.[k]) as [l|] eqn:El; [|by rewrite bool_decide_true in Ek].
    exists l. pose proof (Htr k l Hk El) as Hv. apply lease_view_range in Hv as (Hr' & Hs' & _).
    split; [done|]. split; [lia|]. intros He. rewrite He, Hs in Hs'. congruence. }
  assert (Hnd : NoDup (bl_credit_index lease :: map index pending)).
  { apply NoDup_cons. split.
    - intros Hin. apply list_elem_of_fmap in Hin as (o & He & Ho).
      apply list_elem_of_In, In_vat in Ho as (k & Hk & <-). destruct (Hall k Hk) as (l & El & _ & Hne).
      rewrite El in He. cbn in He. congruence.
    - apply NoDup_alt. intros a b x Ha Hb.
      rewrite list_lookup_fmap in Ha, Hb.
      destruct (pending !! a) as [oa|] eqn:Ea, (pending !! b) as [ob|] eqn:Eb; try done.
      cbn in Ha, Hb. injection Ha as <-. injection Hb as Hb.
      pose proof (lookup_lt_Some _ _ _ Ea). pose proof (lookup_lt_Some _ _ _ Eb).
      assert (Hka : 0 <= Z.of_nat a < vsize pending) by (unfold vsize; lia).
      assert (Hkb : 0 <= Z.of_nat b < vsize pending) by (unfold vsize; lia).
      assert (Va : pending.[Z.of_nat a] = oa) by (unfold vat; rewrite Nat2Z.id; by apply list_lookup_total_correct).
      assert (Vb : pending.[Z.of_nat b] = ob) by (unfold vat; rewrite Nat2Z.id; by apply list_lookup_total_correct).
      destruct (Hall _ Hka) as (la & La & _), (Hall _ Hkb) as (lb & Lb & _).
      rewrite La in Va. rewrite Lb in Vb. subst oa ob. cbn in Hb.
      pose proof (Hinj _ _ _ _ Hka Hkb La Lb (eq_sym Hb)). lia. }
  assert (Hincl : bl_credit_index lease :: map index pending ⊆ seqZ 0 (vsize (bp_credits pool))).
  { intros x Hx. apply elem_of_seqZ. apply elem_of_cons in Hx as [->|Hx]; [lia|].
    apply list_elem_of_fmap in Hx as (o & -> & Ho). apply list_elem_of_In, In_vat in Ho as (k & Hk & <-).
    destruct (Hall k Hk) as (l & -> & ? & _). cbn. lia. }
  pose proof (submseteq_length _ _ (NoDup_submseteq _ _ Hnd Hincl)) as Hlen.
  cbn in Hlen. rewrite length_map, length_seqZ in Hlen. unfold vsize in *. lia.
Qed.

(** ** [finish_plan] *)

(** The members that the end of a plan changes. *)
Definition with_finish (rt : ControllerRuntime) (pool : OutputBurstCreditPool)
    (pending : list (option OutputBurstLease)) (rounds : Z) (protected : bool) : ControllerRuntime :=
  MkRuntime (rt_config rt) (rt_ingress rt) (rt_slots rt) (rt_scheduler rt) (rt_metadata rt)
    pool pending (rt_selected_slot_indices rt) (rt_selected_sampling rt) no_current_plan
    (rt_next_ready_enqueue_sequence rt) (rt_next_plan_sequence rt) (rt_last_controller_now_ns rt)
    rounds protected (rt_state rt) (rt_active_sequence_count rt).

Definition next_rounds (rt : ControllerRuntime) (phase : PackedTokenPhase) : Z :=
  if phase_eqb phase kPrefill then 0 else wrap32 (rt_consecutive_decode_rounds rt + 1).

Definition next_protected (phase : PackedTokenPhase) (tier : SchedulerTier) : bool :=
  phase_eqb phase kPrefill && tier_eqb tier Tier.kProtectedPrefill.

(** What happened to the credit of the completed plan. *)
Definition credit_settled (pool : OutputBurstCreditPool) (pending : list (option OutputBurstLease))
    (lease : OutputBurstLease) (events : Z) (pool' : OutputBurstCreditPool)
    (pending' : list (option OutputBurstLease)) : Prop :=
  (forall l, lease_view pool' l =
     lease_set (lease_view pool) lease
       (if events =? 0 then None else Some BurstState.kTransferred) l) /\
  if events =? 0 then pending' = pending
  else exists k, 0 <= k < vsize pending /\ pending.[k] = None /\
                 pending' = pending.[k <- Some lease].

Lemma release_transferred pool lease :
  pool_wf pool -> lease_view pool lease = Some BurstState.kTransferred ->
  ok (fst (BurstCredits.release pool lease)) = true /\
  pool_wf (snd (BurstCredits.release pool lease)) /\
  vsize (bp_credits (snd (BurstCredits.release pool lease))) = vsize (bp_credits pool) /\
  forall l, lease_view (snd (BurstCredits.release pool lease)) l =
            lease_set (lease_view pool) lease None l.
Proof.
  intros Hp Hl. apply lease_view_range in Hl as Hr.
  assert (Ht : credit_op_typed (OpReleaseLease lease)) by (cbn; lia).
  destruct (run_credit_move pool (OpReleaseLease lease) _ _ _ Ht eq_refl) as [Hyes _].
  destruct (Hyes Hl) as [Ho Hmv]. split_and!; [exact Ho| | |exact Hmv].
  - exact (run_credit_wf _ (OpReleaseLease lease) Hp Ht).
  - exact (run_credit_size pool (OpReleaseLease lease)).
Qed.

Lemma pending_ok_other pool pool' pending lease to :
  pending_ok pool pending -> vsize (bp_credits pool') = vsize (bp_credits pool) ->
  (forall l, lease_view pool' l = lease_set (lease_view pool) lease to l) ->
  (forall k, 0 <= k < vsize pending -> pending.[k] <> Some lease) -> pending_ok pool' pending.
Proof.
  intros (H1 & H2 & H3) Hs Hm Hl. split_and!; [congruence| |done].
  intros k l Hk El. rewrite Hm. unfold lease_set. case_decide as E; [|by eapply H2].
  subst l. by destruct (Hl k Hk).
Qed.

(** Before: the plan's credit is committed.  After the transfer, [finish_plan]
    cannot fail. *)
Lemma finish_plan_spec rt pool0 lease phase tier events :
  pool_wf (rt_output_credits rt) -> pending_ok pool0 (rt_pending_output_bursts rt) ->
  vsize (bp_credits (rt_output_credits rt)) = vsize (bp_credits pool0) ->
  lease_view pool0 lease = Some BurstState.kCommitted ->
  (forall l, lease_view (rt_output_credits rt) l =
     lease_set (lease_view pool0) lease (Some BurstState.kTransferred) l) ->
  exists pool pending,
    finish_plan rt lease phase tier events =
      (StatusOk, with_finish rt pool pending (next_rounds rt phase) (next_protected phase tier)) /\
    pool_wf pool /\ pending_ok pool pending /\
    credit_settled pool0 (rt_pending_output_bursts rt) lease events pool pending.
Proof.
  intros Hpw Hpo Hsz Hl Hmv. unfold finish_plan, credit_settled.
  assert (Hl1 : lease_view (rt_output_credits rt) lease = Some BurstState.kTransferred)
    by (rewrite Hmv; unfold lease_set; by rewrite decide_True).
  assert (Hnot : forall k, 0 <= k < vsize (rt_pending_output_bursts rt) ->
    (rt_pending_output_bursts rt).[k] <> Some lease).
  { intros k Hk E. destruct Hpo as (_ & H2 & _). rewrite (H2 k lease Hk E) in Hl. done. }
  assert (Hpo1 : pending_ok (rt_output_credits rt) (rt_pending_output_bursts rt)).
  { by eapply pending_ok_other. }
  match goal with |- context [if phase_eqb phase kPrefill then ?a else ?b] =>
    set (rt1 := if phase_eqb phase kPrefill then a else b) end.
  assert (E1 : rt_output_credits rt1 = rt_output_credits rt /\
    rt_pending_output_bursts rt1 = rt_pending_output_bursts rt /\
    forall pool pending, with_finish rt1 pool pending (rt_consecutive_decode_rounds rt1)
      (rt_last_successful_plan_was_protected_prefill rt1) =
      with_finish rt pool pending (next_rounds rt phase) (next_protected phase tier)).
  { unfold rt1, next_rounds, next_protected. by destruct (phase_eqb phase kPrefill). }
  clearbody rt1. destruct E1 as (E1 & E2 & E3). rewrite E1, E2.
  destruct (events =? 0).
  - destruct (release_transferred _ _ Hpw Hl1) as (Ho & Hw & Hs & Hm).
    destruct (BurstCredits.release _ _) as [st pool]. cbn [fst snd] in *. rewrite Ho. cbn [negb].
    exists pool, (rt_pending_output_bursts rt). rewrite <- E3. split; [|split_and!; try done].
    + f_equal. rewrite <- E2. by destruct rt1.
    + by eapply pending_ok_other.
    + intros l. rewrite Hm. unfold lease_set. case_decide; [done|]. rewrite Hmv. unfold lease_set.
      by rewrite decide_False.
  - destruct (pending_vacancy pool0 _ _ _ Hpo Hl ltac:(done)) as [k Ek]. rewrite Ek.
    apply first_index_Some in Ek as (Hk & Hf & _). rewrite Z.add_0_l in Hk. rewrite Z.sub_0_r in Hf.
    apply bool_decide_eq_true in Hf.
    exists (rt_output_credits rt), ((rt_pending_output_bursts rt).[k <- Some lease]).
    rewrite <- E3. split; [f_equal; rewrite <- E1, <- E2; by destruct rt1|].
    split; [done|]. split; [|split; [done|by exists k]].
    destruct Hpo1 as (P1 & P2 & P3). split_and!; rewrite ?vsize_vput; [done| |].
    + intros j l Hj. rewrite vat_vput by lia. destruct (Z.eqb_spec j k); [by intros [= <-]|by apply P2].
    + apply lease_view_range in Hl as (Hr & Hs & _).
      assert (Hdiff : forall j l, 0 <= j < vsize (rt_pending_output_bursts rt) ->
        (rt_pending_output_bursts rt).[j] = Some l -> bl_credit_index l <> bl_credit_index lease).
      { intros j l Hj El He. destruct Hpo as (_ & H2 & _).
        pose proof (H2 j l Hj El) as Hv. apply lease_view_range in Hv as (_ & Hv & _).
        rewrite He in Hv. congruence. }
      intros i j l l' Hi Hj. rewrite !vat_vput by lia.
      destruct (Z.eqb_spec i k), (Z.eqb_spec j k).
      * congruence.
      * intros [= <-] El He. by destruct (Hdiff j l' Hj El).
      * intros El [= <-] He. by destruct (Hdiff i l Hi El).
      * by apply P3.
Qed.
