(* ===== verification/RuntimeComplete.v ===== *)
(** * Outcome of a completion

    [ControllerRuntime::complete_current_plan] refuses a batch and leaves the
    runtime as it was, or applies all of it, or stops the runtime; the third
    case is characterised. *)

From stdpp Require Import gmap.
From S2P Require Import Prelude Core Sha256 TokenPlan TokenMetadata Sequence BurstCredits.
From S2P Require Import Mailbox RequestArena Ingress Scheduler Runtime RuntimeInv RuntimeBatch.

(** ** [complete_current_plan] *)

Record completed (rt : ControllerRuntime) (self now_ns : Z)
    (results : list ControllerBackendSequenceResult) (plan : PackedTokenPlan)
    (lease : OutputBurstLease) (rt' : ControllerRuntime) : Prop := {
  co_state : rt_state rt' = rt_state rt;
  co_current : rt_current rt' = no_current_plan;
  co_slots : rt_slots rt' = batch_slots rt (pp_plan_sequence plan)
    (rt_next_ready_enqueue_sequence rt) now_ns
    (selected (rt_selected_slot_indices rt) (rt_current rt)) results (rt_slots rt);
  co_events : exists digests,
    Forall3 (validated rt) (selected (rt_selected_slot_indices rt) (rt_current rt)) results digests /\
    send_all (rt_fifo rt) self
      (batch_drafts rt (pp_plan_sequence plan)
         (batch_events rt (selected (rt_selected_slot_indices rt) (rt_current rt)) results) 0
         (selected (rt_selected_slot_indices rt) (rt_current rt)) results digests) =
    Some (rt_fifo rt');
  co_committed : lease_view (rt_output_credits rt) lease = Some BurstState.kCommitted;
  co_credit : credit_settled (rt_output_credits rt) (rt_pending_output_bursts rt) lease
    (batch_events rt (selected (rt_selected_slot_indices rt) (rt_current rt)) results)
    (rt_output_credits rt') (rt_pending_output_bursts rt');
  co_rounds : rt_consecutive_decode_rounds rt' = next_rounds rt (pp_phase plan) }.

(** How a completion can stop the runtime. *)
Definition completion_breaks (rt : ControllerRuntime) (self : Z)
    (results : list ControllerBackendSequenceResult) (plan : PackedTokenPlan) : Prop :=
  (pp_phase plan <> kPrefill /\ rt_consecutive_decode_rounds rt = u32_max) \/
  exists digests,
    Forall3 (validated rt) (selected (rt_selected_slot_indices rt) (rt_current rt)) results digests /\
    batch_events rt (selected (rt_selected_slot_indices rt) (rt_current rt)) results <=
      fm_event_capacity (rt_fifo rt) - vsize (fm_events (rt_fifo rt)) /\
    send_all (rt_fifo rt) self
      (batch_drafts rt (pp_plan_sequence plan)
         (batch_events rt (selected (rt_selected_slot_indices rt) (rt_current rt)) results) 0
         (selected (rt_selected_slot_indices rt) (rt_current rt)) results digests) = None.

Lemma available_credit m :
  mailbox_wf m ->
  event_available_capacity m = fm_event_capacity (mailbox_abs m) - vsize (fm_events (mailbox_abs m)) /\
  fm_event_capacity (mailbox_abs m) <= 2147483648.
Proof.
  intros [_ He]. unfold event_available_capacity. cbn. rewrite vsize_ring_list by done.
  unfold ring_wf, ring_capacity in *. split; [|lia]. rewrite (wrap32_id (vsize _)) by (unfold is_u32; lia).
  rewrite wrap32_id by (unfold is_u32; lia). done.
Qed.

Lemma selected_applicable rt plan lease st :
  rt_wf rt ->
  holds_plan (rt_slots rt) (rt_selected_slot_indices rt) (rt_output_credits rt) (rt_current rt)
    plan lease st ->
  Forall (applicable rt) (selected (rt_selected_slot_indices rt) (rt_current rt)).
Proof.
  intros Hw [_ _ _ _ Hs]. apply Forall_forall. intros j Hj. destruct (Hs j Hj) as (Hr & s & Es & _).
  pose proof (wf_at _ _ Hw Hr) as (_ & _ & Hq). unfold applicable, sequence_at. rewrite Es in Hq |- *.
  split_and!; [lia|lia|done|apply Hq].
Qed.

Lemma vsize_selected indices cur :
  0 <= cp_selected_count cur <= vsize indices -> vsize (selected indices cur) = cp_selected_count cur.
Proof. intros H. unfold selected, vsize in *. rewrite length_take. lia. Qed.

Lemma plan_sequence_typed rt plan lease st :
  rt_wf rt ->
  holds_plan (rt_slots rt) (rt_selected_slot_indices rt) (rt_output_credits rt) (rt_current rt)
    plan lease st ->
  selected (rt_selected_slot_indices rt) (rt_current rt) <> [] -> is_u64 (pp_plan_sequence plan).
Proof.
  intros Hw [_ _ _ _ Hs] Hne. destruct (selected _ _) as [|j sel]; [done|].
  destruct (Hs j ltac:(set_solver)) as (Hr & s & Es & <- & _).
  pose proof (wf_at _ _ Hw Hr) as (_ & _ & Hq). rewrite Es in Hq. destruct Hq as ((_ & _ & _ & Hq) & _).
  unfold plan_free, plan_held, is_u64 in *.
  destruct (state_eqb _ _); [destruct Hq as [_ Hq]; destruct (cs_state_before_cancel s)|
    destruct (cs_state s)]; cbn in Hq; unfold plan_free, plan_held, is_u64 in *; try done; lia.
Qed.

Lemma profile_bounds rt :
  rt_wf rt -> ptp_maximum_sequences_per_plan (pts_profile (rt_scheduler rt)) <= u32_max.
Proof. intros Hw. pose proof (sw_profile _ (rw_scheduler _ Hw)) as Hp. unfold profile_ok, is_u32 in Hp. lia. Qed.

Section Complete.
Context (rt : ControllerRuntime) (self now_ns : Z) (results : list ControllerBackendSequenceResult)
  (plan : PackedTokenPlan) (lease : OutputBurstLease).
Context (Hw : rt_wf rt) (Hplan : cp_plan (rt_current rt) = Some plan)
  (Hlease : cp_output_burst (rt_current rt) = Some lease)
  (Hty : Forall (fun r => completion_typed (br_completion r)) results).

Let sel := selected (rt_selected_slot_indices rt) (rt_current rt).

(** From the runtime after the loop to the end of the call. *)
Lemma completed_wf digests pool m st f :
  holds_plan (rt_slots rt) (rt_selected_slot_indices rt) (rt_output_credits rt) (rt_current rt)
    plan lease st ->
  length sel = length results ->
  Forall3 (validated rt) sel results digests ->
  send_all (rt_fifo rt) self (batch_drafts rt (pp_plan_sequence plan) (batch_events rt sel results) 0
    sel results digests) = Some f ->
  mailbox_wf m -> mailbox_abs m = f ->
  pool_wf pool -> vsize (bp_credits pool) = vsize (bp_credits (rt_output_credits rt)) ->
  lease_view (rt_output_credits rt) lease = Some BurstState.kCommitted ->
  (forall l, lease_view pool l = lease_set (lease_view (rt_output_credits rt)) lease
     (Some BurstState.kTransferred) l) ->
  let rt1 := rt <| rt_output_credits := pool |> <| rt_last_controller_now_ns := now_ns |> in
  let rt2 := with_apply rt1 m
    (batch_slots rt (pp_plan_sequence plan) (rt_next_ready_enqueue_sequence rt) now_ns sel results
       (rt_slots rt))
    (batch_ready rt (rt_next_ready_enqueue_sequence rt) sel results) in
  let res := finish_plan rt2 lease (pp_phase plan) (cp_tier (rt_current rt))
    (batch_events rt sel results) in
  fst res = StatusOk /\ completed rt self now_ns results plan lease (snd res) /\ rt_wf (snd res).
Proof.
  intros Hh Hlen Hva Hsend Hmw Hma Hpw Hsz Hlv Hmv rt1 rt2 res.
  destruct (finish_plan_spec rt2 (rt_output_credits rt) lease (pp_phase plan) (cp_tier (rt_current rt))
    (batch_events rt sel results) Hpw (rw_pending _ Hw) Hsz Hlv Hmv)
    as (pool2 & pending2 & E & Hpw2 & Hpo2 & Hcs).
  unfold res. rewrite E. cbn [fst snd]. split; [done|].
  pose proof (selected_applicable rt plan lease st Hw Hh) as Hap. fold sel in Hap.
  assert (Hslots : Forall slot_wf (rt_slots rt2) /\ is_u64 (rt_next_ready_enqueue_sequence rt2)).
  { unfold rt2. cbn [with_apply rt_slots rt_next_ready_enqueue_sequence].
    destruct sel as [|j sel'] eqn:Es; [split; apply Hw|].
    apply batch_slots_wf; [apply Hw| |apply Hw|done|].
    - eapply plan_sequence_typed; [done|exact Hh|]. fold sel. by rewrite Es.
    - eapply Forall_impl; [exact Hap|]. intros k (Hk & Hs & _). split; [by apply wf_at|done]. }
  apply send_all_sent in Hsend as Hsent. destruct Hsent as (_ & Hcmd & _).
  split.
  - constructor; try reflexivity; [|done|exact Hcs].
    exists digests. split; [done|]. fold sel. rewrite Hsend. f_equal. by rewrite <- Hma.
  - pose proof Hw as []. constructor; cbn; try done; try apply Hslots.
    + destruct rw_ingress as (Hm0 & Ha0 & Hq0). split_and!; [done..|]. cbn.
      replace (queue m) with (fm_commands (mailbox_abs m)) by done. by rewrite Hma, Hcmd.
    + by rewrite vsize_batch_slots.
    + unfold next_rounds. destruct (phase_eqb _ _); [unfold is_u32; lia|apply wrap32_range].
Qed.

Lemma complete_current_plan_spec :
  let res := complete_current_plan rt self results now_ns in
  (ok (fst res) = false /\ snd res = rt) \/
  (ok (fst res) = false /\ rt_state (snd res) = RuntimeState.kFailed /\
   completion_breaks rt self results plan) \/
  (fst res = StatusOk /\ completed rt self now_ns results plan lease (snd res) /\ rt_wf (snd res)).
Proof.
  intros res. unfold res, complete_current_plan. clear res. rewrite Hplan, Hlease.
  destruct (current_cases rt plan lease Hw Hplan Hlease) as (st & Hst & Hh).
  destruct (_ || _) eqn:Eg; [by left|]. breflect.
  destruct (validate_results rt 0 results (MkNeed 0 0 [])) as [need|e] eqn:Ev.
  2: { left. split; [|done]. by eapply validate_results_Error. }
  pose proof (hp_count _ _ _ _ _ _ _ Hh) as Hcnt.
  assert (Hsel : sel = map (fun k => (rt_selected_slot_indices rt).[k]) (seqZ 0 (vsize results)))
    by (unfold sel; rewrite selected_eq by done; by rewrite <- H).
  assert (Hlen : length sel = length results) by (rewrite Hsel, length_map, length_seqZ; unfold vsize; lia).
  assert (Hvs : vsize sel = vsize results) by (unfold vsize; by rewrite Hlen).
  apply (validate_results_Value rt results 0 sel) in Ev as (digests & Hva & ->);
    [|done|unfold is_u64; cbn; lia|cbn; lia|].
  2: { cbn [cn_requeues]. unfold sel in *. rewrite vsize_selected by done.
       pose proof (rw_indices _ Hw). pose proof (profile_bounds rt Hw). lia. }
  cbn [cn_events cn_requeues cn_digests app]. rewrite !Z.add_0_l.
  destruct (available_credit _ (proj1 (rw_ingress _ Hw))) as [Hav Hcap]. fold (rt_fifo rt) in Hav, Hcap.
  unfold available_event_credit. rewrite Hav.
  destruct (_ >? _) eqn:Egt; [by left|]. destruct (_ && _) eqn:Eq; [by left|]. breflect.
  pose proof (credit_call rt lease (OpTransferLease lease) _ _ Hw eq_refl ltac:(done)
    ltac:(eexists; apply Hh)) as Hc. cbn [run_credit] in Hc.
  pose proof (run_credit_size (rt_output_credits rt) (OpTransferLease lease)) as Hsz.
  cbn [run_credit] in Hsz.
  destruct (transfer _ _) as [tr pool]. cbn [fst snd] in Hc, Hsz. destruct Hc as (Hpw & _ & Htr).
  destruct (ok tr) eqn:Etr; cbn [negb].
  2: { left. subst pool. split; [done|]. by destruct rt. }
  destruct Htr as [Hlv Hmv]. cbn [rt_consecutive_decode_rounds upd].
  destruct (negb (phase_eqb _ _) && _) eqn:Erd.
  { right. left. split; [done|]. split; [done|]. left. breflect. split; [|done].
    intros E. by rewrite E in *. }
  set (rt1 := rt <| rt_output_credits := pool |> <| rt_last_controller_now_ns := now_ns |>).
  pose proof (batch_events_nonneg rt sel results) as Hbn.
  pose proof (vsize_nonneg (fm_events (rt_fifo rt))) as Hfn.
  rewrite (wrap32_id (batch_events rt sel results)) by (unfold is_u32; lia).
  pose proof (apply_results_spec rt self now_ns (pp_plan_sequence plan) (batch_events rt sel results)
    sel results digests rt1 0 0 Hsel (hp_nodup _ _ _ _ _ _ _ Hh) Hva Hty
    (selected_applicable rt plan lease st Hw Hh) eq_refl eq_refl ltac:(done)
    (proj1 (rw_ingress _ Hw)) ltac:(lia) ltac:(lia)) as Hap. cbn zeta in Hap.
  change (rt_fifo rt1) with (rt_fifo rt) in Hap.
  destruct (send_all (rt_fifo rt) self _) as [f|] eqn:Esend.
  - destruct Hap as (v & m & -> & Hmw & Hma). right. right.
    exact (completed_wf digests pool m st f Hh Hlen Hva Esend Hmw Hma Hpw Hsz Hlv Hmv).
  - right. left. destruct Hap as [Ha1 Ha2]. destruct (apply_results _ _ _ _ _ _ _ _ _) as [[v|e] rt2];
      [done|]. cbn [fst snd] in *. split; [|split; [done|]].
    + by apply negb_true_iff.
    + right. exists digests. fold sel. split_and!; [done|lia|done].
Qed.
End Complete.

(** ** The drafts of a validated batch are valid *)

Lemma token_drafts_valid epoch g digest plan count tokens : forall ordinal ix,
  epoch <> 0 -> g <> 0 -> digest_nonzero digest = true -> plan <> 0 -> 1 <= ordinal -> 0 <= ix ->
  ix + vsize tokens <= count -> Forall (fun t => t < 151936) tokens ->
  Forall (fun d => draft_invalid d = false)
    (token_drafts epoch g digest plan count ordinal ix tokens).
Proof.
  induction tokens as [|t tokens IH]; intros ordinal ix He Hg Hd Hp Ho Hi Hc Ht; [constructor|].
  apply Forall_cons in Ht as [Ht0 Ht]. rewrite vsize_cons in Hc. pose proof (vsize_nonneg tokens).
  constructor; [|apply IH; try done; lia].
  unfold draft_invalid. cbn. rewrite Hd.
  repeat match goal with |- context [?a =? 0] => destruct (Z.eqb_spec a 0); [lia|] end. cbn.
  destruct (t >=? 151936) eqn:E1; [lia|]. destruct (ix >=? count) eqn:E2; [lia|].
  by destruct (ix =? 0).
Qed.

Lemma result_drafts_valid epoch plan count ix slot s r digest :
  epoch <> 0 -> cs_sequence_generation s <> 0 -> digest_nonzero digest = true -> plan <> 0 ->
  0 <= cs_accepted_completion_count s -> 0 <= ix ->
  ix + vsize (br_accepted_token_ids r) + Z.b2z (will_drain s (br_completion r)) <= count ->
  Forall (fun t => t < 151936) (br_accepted_token_ids r) ->
  Forall (fun d => draft_invalid d = false)
    (result_drafts epoch plan count ix slot s r digest).
Proof.
  intros He Hg Hd Hp Ha Hi Hc Ht. unfold result_drafts. apply Forall_app_2.
  - apply token_drafts_valid; try done; [lia|]. destruct (will_drain _ _); cbn in Hc; lia.
  - destruct (will_drain _ _); [|constructor]. cbn in Hc. constructor; [|constructor].
    pose proof (vsize_nonneg (br_accepted_token_ids r)).
    unfold draft_invalid. cbn. rewrite Hd.
    repeat match goal with |- context [?a =? 0] => destruct (Z.eqb_spec a 0); [lia|] end. cbn.
    destruct (_ >=? count) eqn:E2; [lia|]. unfold finish_reason. by repeat case_match.
Qed.

Lemma batch_drafts_valid rt plan count : forall sel results digests ix,
  rc_epoch (rt_config rt) <> 0 -> plan <> 0 -> 0 <= ix ->
  ix + batch_events rt sel results <= count ->
  Forall (applicable rt) sel -> Forall3 (validated rt) sel results digests ->
  Forall (fun d => digest_nonzero d = true) digests ->
  Forall (fun d => draft_invalid d = false)
    (batch_drafts rt plan count ix sel results digests).
Proof.
  induction sel as [|j sel IH]; intros results digests ix He Hp Hi Hc Hap Hva Hd;
    inversion Hva as [|? r digest ? results' digests' Hv Hva']; subst; [constructor|].
  apply Forall_cons in Hap as [(_ & _ & Hs) Hap]. apply Forall_cons in Hd as [Hd0 Hd].
  cbn [batch_events batch_drafts] in *. pose proof (batch_events_nonneg rt sel results').
  pose proof (vsize_nonneg (br_accepted_token_ids r)).
  destruct Hs as ((Hg & _ & _ & _ & _ & Ha & _) & _). unfold is_u64 in Ha.
  apply Forall_app_2.
  - apply result_drafts_valid; try done; [lia..|apply Hv].
  - rewrite vsize_result_drafts. apply IH; try done; destruct (will_drain _ _); cbn in *; lia.
Qed.

(** The conditions under which a validated batch cannot stop the runtime. *)
Record completion_safe (rt : ControllerRuntime) (self : Z)
    (results : list ControllerBackendSequenceResult) (plan : PackedTokenPlan) : Prop := {
  cs_thread : fm_owner (rt_fifo rt) = None \/ fm_owner (rt_fifo rt) = Some self;
  cs_numbers : 1 <= fm_next_event (rt_fifo rt) /\
    fm_next_event (rt_fifo rt) + (fm_event_capacity (rt_fifo rt) - vsize (fm_events (rt_fifo rt)))
      - 1 <= u64_max;
  cs_rounds : pp_phase plan = kPrefill \/ rt_consecutive_decode_rounds rt <> u32_max;
  cs_digests : Forall (fun r => forall d, completion_state_digest rt (br_completion r) = Value d ->
    digest_nonzero d = true) results }.

Lemma validated_digests rt sel results digests :
  Forall3 (validated rt) sel results digests ->
  Forall (fun r => forall d, completion_state_digest rt (br_completion r) = Value d ->
    digest_nonzero d = true) results ->
  Forall (fun d => digest_nonzero d = true) digests.
Proof.
  intros H Hd. induction H as [|j r d sel results digests Hv _ IH]; [constructor|].
  apply Forall_cons in Hd as [Hd0 Hd]. constructor; [|by apply IH]. eapply Hd0, va_digest, Hv.
Qed.

Lemma safe_not_broken rt self results plan lease :
  rt_wf rt -> cp_plan (rt_current rt) = Some plan -> cp_output_burst (rt_current rt) = Some lease ->
  completion_safe rt self results plan -> completion_breaks rt self results plan -> False.
Proof.
  intros Hw Hp Hl [Hth Hnum Hrd Hdg] [[Hph Hr]|(digests & Hva & Hcap & Hsend)].
  { by destruct Hrd. }
  destruct (current_cases rt plan lease Hw Hp Hl) as (st & Hst & Hh).
  pose proof (selected_applicable rt plan lease st Hw Hh) as Hap.
  assert (Hlen : vsize (batch_drafts rt (pp_plan_sequence plan)
    (batch_events rt (selected (rt_selected_slot_indices rt) (rt_current rt)) results) 0
    (selected (rt_selected_slot_indices rt) (rt_current rt)) results digests) =
    batch_events rt (selected (rt_selected_slot_indices rt) (rt_current rt)) results).
  { pose proof (Forall3_length_lm _ _ _ _ Hva) as H1. pose proof (Forall3_length_lr _ _ _ _ Hva) as H2.
    apply vsize_batch_drafts; congruence. }
  pose proof (batch_drafts_valid rt (pp_plan_sequence plan)
    (batch_events rt (selected (rt_selected_slot_indices rt) (rt_current rt)) results)
    (selected (rt_selected_slot_indices rt) (rt_current rt)) results digests 0 (rw_epoch _ Hw)
    (hp_sequence _ _ _ _ _ _ _ Hh) ltac:(lia) ltac:(lia) Hap Hva
    (validated_digests _ _ _ _ Hva Hdg)) as Hval.
  eapply send_all_accepts in Hval as [f Hf]; [by rewrite Hf in Hsend|].
  unfold fifo_accepts. rewrite Hlen. split_and!; [done|lia..].
Qed.

(** ** The invariant *)

Lemma publish_tokens_sticky self g previous digest plan count : forall tokens rt k ix,
  sticky rt (snd (publish_tokens rt self g previous k tokens digest plan ix count)).
Proof.
  induction tokens as [|t tokens IH]; intros rt k ix; cbn [publish_tokens]; [apply sticky_refl|].
  unfold publish. destruct (Ingress.publish_event _ _ _) as [[e|e] ig]; [|apply sticky_failed].
  intros Hr. by apply IH in Hr.
Qed.

Lemma apply_result_sticky rt self now j r digest plan ix count :
  sticky rt (snd (apply_result rt self now j r digest plan ix count)).
Proof.
  unfold apply_result, on_sequence. destruct (complete _ _) as [st s]. case_match; [apply sticky_failed|].
  pose proof (publish_tokens_sticky self
    (cs_sequence_generation (sequence_at (set_sequence rt j (Some s)) j))
    (cs_accepted_completion_count (sequence_at rt j)) digest plan count (br_accepted_token_ids r)
    (set_sequence rt j (Some s)) 0 ix) as Hp.
  destruct (publish_tokens _ _ _ _ _ _ _ _ _ _) as [[v|e] rt1]; [|exact Hp]. cbn [snd] in Hp.
  destruct (state_eqb _ _); [|exact Hp].
  unfold publish. destruct (Ingress.publish_event _ _ _) as [[ev|e] ig]; [|apply sticky_failed].
  exact Hp.
Qed.

Lemma apply_results_sticky self now plan count : forall results digests rt i ix,
  sticky rt (snd (apply_results rt self now i results digests plan ix count)).
Proof.
  induction results as [|r results IH]; intros [|d digests] rt i ix; cbn [apply_results];
    try apply sticky_refl.
  pose proof (apply_result_sticky rt self now ((rt_selected_slot_indices rt).[i]) r d plan ix count) as Ha.
  destruct (apply_result _ _ _ _ _ _ _ _ _) as [[v|e] rt1]; [|exact Ha].
  intros Hr. by apply IH, Ha in Hr.
Qed.

Lemma complete_current_sticky rt self results now :
  sticky rt (snd (complete_current_plan rt self results now)).
Proof.
  unfold complete_current_plan.
  destruct (cp_plan (rt_current rt)), (cp_output_burst (rt_current rt)); try apply sticky_refl.
  case_match; [apply sticky_refl|]. case_match; [|apply sticky_refl]. case_match; [apply sticky_refl|].
  case_match; [apply sticky_refl|]. destruct (transfer _ _) as [tr pool].
  case_match; [by intros ?|]. case_match; [apply sticky_failed|].
  match goal with |- context [apply_results ?a ?b ?c ?d ?e ?f ?g ?h ?i] =>
    pose proof (apply_results_sticky b c g i e f a d h) as Hs;
    destruct (apply_results a b c d e f g h i) as [[v|err] rt1] end; [|exact Hs].
  cbn [snd] in Hs. unfold finish_plan.
  destruct (phase_eqb _ _), (cn_events _ =? 0); cbn [rt_output_credits rt_pending_output_bursts upd];
    try destruct (BurstCredits.release _ _) as [rel pool2]; repeat case_match;
    try apply sticky_failed; exact Hs.
Qed.

Lemma complete_current_ok rt self results now :
  Forall (fun r => completion_typed (br_completion r)) results ->
  rt_ok rt -> rt_ok (snd (complete_current_plan rt self results now)).
Proof.
  intros Hty. apply sticky_ok; [apply complete_current_sticky|]. intros Hw.
  destruct (cp_plan (rt_current rt)) as [plan|] eqn:Ep, (cp_output_burst (rt_current rt)) as [lease|] eqn:El.
  - destruct (complete_current_plan_spec rt self now results plan lease Hw Ep El Hty)
      as [[_ ->]|[(_ & Hf & _)|(_ & _ & Hw')]]; [by intros _| |by intros _].
    intros Hr. congruence.
  - unfold complete_current_plan. rewrite Ep, El. by intros _.
  - unfold complete_current_plan. rewrite Ep. by intros _.
  - unfold complete_current_plan. rewrite Ep. by intros _.
Qed.

Lemma sampled_results_typed rt plan : forall fuel i samples out,
  is_u64 (pp_plan_sequence plan) ->
  (forall k, i <= k < i + Z.of_nat fuel ->
     is_u64 (cs_sequence_generation (sequence_at rt ((rt_selected_slot_indices rt).[k])))) ->
  sampled_results rt plan fuel i samples = Value out ->
  Forall (fun r => completion_typed (br_completion r)) (fst out).
Proof.
  induction fuel as [|fuel IH]; intros i samples out Hp Hg; cbn [sampled_results].
  { intros [= <-]. constructor. }
  destruct (checked_add_u64 _ _) as [committed|] eqn:Ec; [|done].
  assert (Hc : is_u64 committed).
  { revert Ec. unfold checked_add_u64. case_match; [done|]. intros [= <-]. apply wrap64_range. }
  destruct (_ =? u64_max); [done|].
  set (produces := negb _ || _). set (s := sequence_at rt _) in *.
  set (accepted := wrap64 _). intros E.
  assert (E' : exists samples' rest token terminal,
    sampled_results rt plan fuel (i + 1) samples' = Value rest /\
    fst out = MkBackendResult (MkCompletion (pp_plan_sequence plan) (cs_sequence_generation s)
      committed accepted (wrap64 (cs_state_generation s + 1)) kDecode terminal) token :: fst rest).
  { destruct produces, samples as [|t samples]; try done; (destruct (accepted <? _); [done|]);
      cbn [tl hd] in E;
      match type of E with context [sampled_results rt plan fuel (i + 1) ?l] =>
        destruct (sampled_results rt plan fuel (i + 1) l) as [rest|] eqn:Er; cbn in E; [|done] end;
      injection E as <-; cbn [fst]; eauto 10. }
  destruct E' as (samples' & rest & token & tm & Er & ->). constructor.
  - cbn. split_and!; try done; [apply Hg; lia|apply wrap64_range|apply wrap64_range].
  - apply (IH (i + 1) samples' rest Hp); [|done]. intros k Hk. apply Hg. lia.
Qed.

Lemma sampled_sticky rt self samples now :
  sticky rt (snd (complete_current_sampled_tokens rt self samples now)).
Proof.
  unfold complete_current_sampled_tokens. destruct (cp_plan (rt_current rt)); [|apply sticky_refl].
  case_match; [apply sticky_refl|]. destruct (sampled_results _ _ _ _ _) as [[results rest]|];
    [|apply sticky_refl]. case_match; [apply sticky_refl|]. apply complete_current_sticky.
Qed.

(** The results that the runtime builds from samples are typed. *)
Lemma sampled_typed rt plan lease samples out :
  rt_wf rt -> cp_plan (rt_current rt) = Some plan -> cp_output_burst (rt_current rt) = Some lease ->
  sampled_results rt plan (Z.to_nat (cp_selected_count (rt_current rt))) 0 samples = Value out ->
  Forall (fun r => completion_typed (br_completion r)) (fst out).
Proof.
  intros Hw Hp Hl E. destruct (current_cases rt plan lease Hw Hp Hl) as (st & Hst & Hh).
  pose proof (selected_applicable rt plan lease st Hw Hh) as Hap.
  pose proof (hp_count _ _ _ _ _ _ _ Hh) as Hc.
  destruct (decide (cp_selected_count (rt_current rt) = 0)) as [E0|Hne].
  { rewrite E0 in E. injection E as <-. constructor. }
  eapply sampled_results_typed; [| |exact E].
  - eapply plan_sequence_typed; [done|exact Hh|]. intros En.
    apply (f_equal vsize) in En. rewrite vsize_selected in En by done. done.
  - intros k Hk. rewrite selected_eq in Hap by done. rewrite Forall_forall in Hap.
    destruct (Hap ((rt_selected_slot_indices rt).[k])) as (_ & _ & Hs).
    + apply list_elem_of_fmap. exists k. split; [done|]. apply elem_of_seqZ. lia.
    + apply Hs.
Qed.

Lemma complete_sampled_ok rt self samples now :
  rt_ok rt -> rt_ok (snd (complete_current_sampled_tokens rt self samples now)).
Proof.
  apply sticky_ok; [apply sampled_sticky|]. intros Hw. unfold complete_current_sampled_tokens.
  destruct (cp_plan (rt_current rt)) as [plan|] eqn:Ep; [|by intros _].
  case_match; [by intros _|].
  destruct (sampled_results _ _ _ _ _) as [[results rest]|] eqn:Es; [|by intros _].
  case_match; [by intros _|].
  destruct (cp_output_burst (rt_current rt)) as [lease|] eqn:El.
  - apply complete_current_ok; [|by intros _].
    exact (sampled_typed rt plan lease _ _ Hw Ep El Es).
  - unfold complete_current_plan. rewrite Ep, El. by intros _.
Qed.
