(* ===== verification/RuntimeMachine.v ===== *)
(** * The runtime as a machine

    The operations of [ControllerRuntime] as steps, and the invariant of every
    ready runtime they reach.  A step with a participant takes what the
    participant answers as its arguments: a call of [step] asks it each question
    at most once. *)

From stdpp Require Import gmap.
From S2P Require Import Prelude Core Sha256 TokenPlan TokenMetadata Sequence BurstCredits.
From S2P Require Import Mailbox RequestArena Ingress Scheduler Runtime RuntimeInv RuntimePrepare.
From S2P Require Import RuntimeBatch RuntimeComplete.

(** The participant that gives fixed answers. *)
Definition answering (reserve publish rollback : Status) : ControllerAdmissionParticipant unit :=
  MkParticipant unit (fun ps _ => (reserve, ps)) (fun ps _ => (publish, ps))
    (fun ps _ => (rollback, ps)).

Inductive rt_op :=
  | RtSubmitAdmit (request_generation : Z) (prompt : list Z) (maximum_new_tokens : Z)
                  (sampling : ControllerRequestSampling)
  | RtSubmitCancel (request_generation : Z)
  | RtStep (self now_ns : Z)
  | RtStepWith (self now_ns : Z) (reserve publish rollback : Status)
  | RtPrepare (now_ns : Z)
  | RtCommit (plan_sequence : Z) (plan_digest : Sha256Digest)
  | RtMarkInFlight (plan_sequence : Z) (plan_digest : Sha256Digest)
  | RtAbort (plan_sequence : Z) (plan_digest : Sha256Digest)
  | RtComplete (self : Z) (results : list ControllerBackendSequenceResult) (now_ns : Z)
  | RtSampled (self : Z) (sampled_token_ids : list Z) (now_ns : Z)
  | RtAcknowledge (plan_sequence : Z)
  | RtFinalize (self request_generation : Z)
  | RtTakeEvent.

Definition run_rt (rt : ControllerRuntime) (op : rt_op) : Status * ControllerRuntime :=
  match op with
  | RtSubmitAdmit g prompt n s =>
      let '(r, rt) := submit_admit rt g prompt n s in (rstatus r, rt)
  | RtSubmitCancel g => let '(r, rt) := submit_cancel rt g in (rstatus r, rt)
  | RtStep self now => let '(r, rt) := step rt self now in (rstatus r, rt)
  | RtStepWith self now a b c =>
      let '(r, (rt, _)) := step_with (answering a b c) rt self now tt in (rstatus r, rt)
  | RtPrepare now => let '(r, rt) := prepare_next_plan rt now in (rstatus r, rt)
  | RtCommit p d => commit_current_plan rt p d
  | RtMarkInFlight p d => mark_current_plan_in_flight rt p d
  | RtAbort p d => abort_current_plan rt p d
  | RtComplete self results now => complete_current_plan rt self results now
  | RtSampled self tokens now => complete_current_sampled_tokens rt self tokens now
  | RtAcknowledge p => acknowledge_output_plan rt p
  | RtFinalize self g => finalize_draining rt self g
  | RtTakeEvent => let '(r, rt) := try_take_event rt in (rstatus r, rt)
  end.

#[export] Instance rt_op_Typed : Typed rt_op := fun op =>
  match op with
  | RtSubmitAdmit g _ _ s => is_u64 g /\ sampling_typed s
  | RtSubmitCancel g => is_u64 g
  | RtCommit p _ | RtMarkInFlight p _ | RtAbort p _ => is_u64 p
  | RtComplete _ results _ => Forall (fun r => completion_typed (br_completion r)) results
  | _ => True
  end.

Definition runtime_limits_ok (l : ControllerRuntimeLimits) : Prop :=
  ingress_limits_ok (rl_ingress l) /\ profile_typed (rl_scheduler l) /\
  is_u32 (rl_output_burst_credit_count l) /\ is_u32 (rl_maximum_prefill_chunk_tokens l) /\
  0 <= rl_output_maximum_slots_per_credit l /\ 0 <= rl_output_maximum_bytes_per_credit l /\
  is_u32 (pml_maximum_sequences (rl_metadata l)) /\
  is_u32 (pml_maximum_execution_bucket_tokens (rl_metadata l)).

#[export] Instance rt_Machine : Machine ControllerRuntime rt_op Status := {|
  m_run := run_rt;
  m_init rt := exists l, runtime_limits_ok l /\ ControllerRuntime_Create l = Value rt |}.

Lemma Create_metadata_wf l md :
  is_u32 (pml_maximum_sequences l) -> is_u32 (pml_maximum_execution_bucket_tokens l) ->
  PackedTokenMetadataArena_Create l = Value md -> TokenMetadata.arena_wf md.
Proof.
  unfold PackedTokenMetadataArena_Create, TokenMetadata.arena_wf, is_u32. intros H1 H2.
  case_match; [done|]. intros [= <-]. cbn. rewrite !vsize_replicate. unfold is_u64. split_and!; lia.
Qed.

Lemma Create_slots_typed l a :
  ControllerRequestArena_Create l = Value a -> Forall slot_typed (ra_slots a).
Proof.
  unfold ControllerRequestArena_Create. case_match; [done|]. case_match; [|done]. case_match; [done|].
  intros [= <-]. cbn. apply Forall_forall. by intros s [-> _]%elem_of_replicate.
Qed.

Lemma Create_rt_wf l rt :
  runtime_limits_ok l -> ControllerRuntime_Create l = Value rt ->
  rt_wf rt /\ rt_state rt = RuntimeState.kReady.
Proof.
  intros ((Hm & Hq) & Hp & Hc & Hch & Hs & Hb & Hms & Hmt). unfold ControllerRuntime_Create.
  destruct (runtime_limits_invalid l) eqn:El; [done|].
  unfold ControllerIngress_Create.
  destruct (ControllerMailbox_Create _) as [m|] eqn:Em; cbn; [|done].
  destruct (ControllerRequestArena_Create _) as [a|] eqn:Ea; cbn; [|done].
  destruct (PhaseTierScheduler_Create _) as [s|] eqn:Es; cbn; [|done].
  destruct (PackedTokenMetadataArena_Create _) as [md|] eqn:Emd; cbn; [|done].
  destruct (OutputBurstCreditPool_Create _) as [pool|] eqn:Epool; cbn; [|done].
  intros [= <-]. split; [|done].
  assert (Hmw0 : TokenMetadata.arena_wf md) by (by eapply Create_metadata_wf).
  apply Create_mailbox in Em as [Hmw Hma]; [|done]. pose proof (Create_slots_typed _ _ Ea) as Hst.
  apply Create_arena in Ea as (Haw & _); [|done].
  pose proof (Create_sched_wf _ _ Hp Es) as Hsw.
  assert (Eprof : pts_profile s = rl_scheduler l).
  { revert Es. unfold PhaseTierScheduler_Create. case_match; [done|]. by intros [= <-]. }
  assert (Hpw : pool_wf pool) by (eapply Create_pool_wf; [|exact Epool]; exact Hc).
  assert (Ecred : vsize (bp_credits pool) = rl_output_burst_credit_count l).
  { destruct Hpw as (_ & _ & _ & -> & _). revert Epool. unfold OutputBurstCreditPool_Create.
    case_match; [done|]. by intros [= <-]. }
  unfold runtime_limits_invalid in El. rewrite !orb_false_iff in El.
  destruct El as ((((((((((L1 & L2) & L3) & L4) & L5) & L6) & L7) & L8) & _) & _) & _). breflect.
  destruct Hp as (Hp1 & Hp2 & Hp3 & _). unfold is_u32 in *.
  constructor; cbn; rewrite ?Eprof, ?vsize_replicate, ?Z2Nat.id by lia; try done; try lia.
  - split_and!; [done..|]. cbn. change (queue m) with (fm_commands (mailbox_abs m)). rewrite Hma. constructor.
  - apply Forall_forall. intros slot [-> _]%elem_of_replicate. cbn. unfold slot_wf, is_u64. cbn. split_and!; try lia; done.
  - split_and!; rewrite ?vsize_replicate, ?Z2Nat.id by lia; [lia| |].
    all: assert (Hnone : forall k, 0 <= k < rl_output_burst_credit_count l ->
      (replicate (Z.to_nat (rl_output_burst_credit_count l)) (@None OutputBurstLease)).[k] = None)
      by (intros k Hk; unfold vat; apply list_lookup_total_correct, lookup_replicate; split; [done|lia]).
    + intros k l0 Hk. by rewrite Hnone.
    + intros j k l0 l1 Hj Hk. by rewrite Hnone.
Qed.

Lemma ingress_op_ok rt ig :
  (rt_state rt = RuntimeState.kReady -> ingress_wf ig) -> rt_ok rt ->
  rt_ok (rt <| rt_ingress := ig |>).
Proof. intros Hig Hok Hr. apply wf_ingress; [by apply Hig|by apply Hok]. Qed.

#[export] Instance rt_ok_inv : MachineInv rt_ok.
Proof.
  split; [intros rt (l & Hl & Hc) _; by eapply Create_rt_wf|].
  intros rt op Hok Ht. cbn [m_run rt_Machine]. destruct op; cbn [run_rt].
  - unfold submit_admit. destruct (ready _) eqn:Er; cbn [negb]; [|done].
    pose proof (ingress_submit_admit_wf (rt_ingress rt) (rc_epoch (rt_config rt)) request_generation
      prompt maximum_new_tokens sampling) as Hs.
    destruct (Ingress.submit_admit _ _ _ _ _ _) as [r ig]. apply ingress_op_ok; [|done].
    intros Hr. apply Hs; [apply (Hok Hr)|apply Ht..].
  - unfold submit_cancel. destruct (ready _) eqn:Er; cbn [negb]; [|done].
    pose proof (ingress_submit_cancel_wf (rt_ingress rt) (rc_epoch (rt_config rt)) request_generation) as Hs.
    destruct (Ingress.submit_cancel _ _ _) as [r ig]. apply ingress_op_ok; [|done].
    intros Hr. apply Hs; [apply (Hok Hr)|done].
  - unfold step. pose proof (step_impl_ok (PS := unit) None rt self now_ns tt Hok) as Hs.
    destruct (step_impl _ _ _ _ _) as [r [rt' ps]]. exact Hs.
  - unfold step_with. pose proof (step_impl_ok (Some (answering reserve publish rollback)) rt self now_ns tt Hok) as Hs.
    destruct (step_impl _ _ _ _ _) as [r [rt' ps]]. exact Hs.
  - pose proof (prepare_next_plan_ok rt now_ns Hok) as Hs. by destruct (prepare_next_plan _ _).
  - by apply commit_current_ok.
  - by apply mark_current_ok.
  - by apply abort_current_ok.
  - by apply complete_current_ok.
  - by apply complete_sampled_ok.
  - by apply acknowledge_ok.
  - by apply finalize_ok.
  - unfold try_take_event. pose proof (ingress_take_event_wf (rt_ingress rt)) as Hs.
    destruct (Ingress.try_take_event _) as [r ig]. apply ingress_op_ok; [|done].
    intros Hr. apply Hs, (Hok Hr).
Qed.

Lemma reachable_wf rt : m_reachable rt -> rt_state rt = RuntimeState.kReady -> rt_wf rt.
Proof. intros Hr. exact (reachable_inv rt_ok rt Hr). Qed.
