(* ===== verification/RuntimeCount.v ===== *)
(** * The count of active sequences

    [ControllerRuntime] keeps the number of its admitted requests beside the slots that
    hold them.  In every ready runtime the number is the count of the occupied slots: an
    admission occupies a vacant slot and adds one, the end of a drain empties a slot and
    subtracts one, and no other operation fills or empties a slot. *)

From stdpp Require Import gmap.
From S2P Require Import Prelude Core Sha256 TokenPlan TokenMetadata Sequence BurstCredits.
From S2P Require Import Mailbox RequestArena Ingress Scheduler Runtime RuntimeInv RuntimePrepare.
From S2P Require Import RuntimeBatch RuntimeComplete RuntimeMachine.

Definition occupied (slot : Slot) : bool := negb (slot_vacant slot).

Definition counted (rt : ControllerRuntime) : Prop :=
  rt_active_sequence_count rt = count_if occupied (rt_slots rt).

(** What the count depends on, and the slots of the current plan. *)
Definition census (rt : ControllerRuntime) : Z * list Z * list bool :=
  (rt_active_sequence_count rt, rt_selected_slot_indices rt, map occupied (rt_slots rt)).

Definition seated (rt : ControllerRuntime) (i : Z) : Prop := occupied ((rt_slots rt).[i]) = true.

Lemma count_if_map {A} (f : A -> bool) l : count_if f l = count_if (fun b => b) (map f l).
Proof. induction l as [|x l IH]; [done|]. cbn. by rewrite IH. Qed.

Lemma map_vput_same {A B} `{Inhabited A} (f : A -> B) l i x :
  f x = f (l.[i]) -> map f (l.[i <- x]) = map f l.
Proof.
  unfold vput, vat. intros E. rewrite list_fmap_insert. apply list_insert_id'. intros Hn.
  rewrite length_map in Hn. rewrite list_lookup_fmap, E.
  destruct (lookup_lt_is_Some_2 l (Z.to_nat i)) as [y Hy]; [done|].
  by rewrite Hy, (list_lookup_total_correct _ _ _ Hy).
Qed.

Lemma seated_some rt i s : slot_sequence ((rt_slots rt).[i]) = Some s -> seated rt i.
Proof. intros E. unfold seated, occupied, slot_vacant. by rewrite E. Qed.

Lemma seated_range rt i : 0 <= i -> seated rt i -> i < vsize (rt_slots rt).
Proof.
  intros Hi. unfold seated, vat, vsize. intros H. destruct (decide (Z.to_nat i < length (rt_slots rt))%nat); [lia|].
  rewrite list_lookup_total_alt, lookup_ge_None_2 in H by lia. by vm_compute in H.
Qed.

Lemma census_counted rt rt' : census rt' = census rt -> counted rt -> counted rt'.
Proof. intros [= E1 _ E3]. unfold counted. by rewrite E1, !(count_if_map occupied), E3. Qed.

Lemma census_seated rt rt' i : census rt' = census rt -> 0 <= i -> seated rt i -> seated rt' i.
Proof.
  intros [= _ _ E] Hi Hs. pose proof (seated_range rt i Hi Hs) as Hr.
  assert (Hl : vsize (rt_slots rt') = vsize (rt_slots rt))
    by (unfold vsize; apply (f_equal length) in E; by rewrite !length_map in E; lia).
  unfold seated in *. rewrite <- (vat_map occupied) by lia. by rewrite E, vat_map.
Qed.

(** ** Calls that fill and empty no slot *)

Lemma census_sequence rt i op : seated rt i -> census (snd (on_sequence rt i op)) = census rt.
Proof.
  intros Hs. unfold on_sequence. destruct (op _) as [st s]. unfold census. cbn. by rewrite map_vput_same.
Qed.

Lemma census_publish rt self d : census (snd (publish rt self d)) = census rt.
Proof. unfold publish. by destruct (Ingress.publish_event _ _ _). Qed.

Lemma census_release rt v : census (snd (release rt v)) = census rt.
Proof. unfold release. by destruct (release_request _ _). Qed.

Lemma census_for_selected op failure : forall fuel rt i,
  (forall k, i <= k < i + Z.of_nat fuel -> 0 <= (rt_selected_slot_indices rt).[k] /\
     seated rt ((rt_selected_slot_indices rt).[k])) ->
  census (snd (for_selected op failure rt fuel i)) = census rt.
Proof.
  induction fuel as [|fuel IH]; intros rt i Hs; cbn [for_selected]; [done|].
  pose proof (census_sequence rt ((rt_selected_slot_indices rt).[i]) op (proj2 (Hs i ltac:(lia)))) as E.
  destruct (on_sequence _ _ _) as [st rt1]. cbn [snd] in E. destruct (negb (ok st)); [done|].
  rewrite <- E. apply IH. intros k Hk. pose proof E as [= _ Ei _]. rewrite Ei.
  destruct (Hs k ltac:(lia)). split; [done|]. by apply (census_seated rt).
Qed.

Lemma census_publish_tokens self g prev digest ps count : forall tokens rt i index,
  census (snd (publish_tokens rt self g prev i tokens digest ps index count)) = census rt.
Proof.
  induction tokens as [|t tokens IH]; intros rt i index; cbn [publish_tokens]; [done|].
  match goal with |- context [publish rt self ?d] => pose proof (census_publish rt self d) as E end.
  destruct (publish _ _ _) as [[ev|e] rt1]; cbn [snd] in E |- *; [by rewrite IH|done].
Qed.

(** A slot that keeps its sequence keeps its occupancy. *)
Lemma census_rewrite rt i slot ready :
  slot_sequence slot = slot_sequence ((rt_slots rt).[i]) ->
  census (rt <| rt_slots := (rt_slots rt).[i <- slot] |> <| rt_next_ready_enqueue_sequence := ready |>) = census rt.
Proof. intros E. unfold census. cbn. rewrite map_vput_same; [done|]. unfold occupied, slot_vacant. by rewrite E. Qed.

Lemma census_slot rt i slot :
  slot_sequence slot = slot_sequence ((rt_slots rt).[i]) ->
  census (rt <| rt_slots := (rt_slots rt).[i <- slot] |>) = census rt.
Proof. intros E. unfold census. cbn. rewrite map_vput_same; [done|]. unfold occupied, slot_vacant. by rewrite E. Qed.

Lemma census_apply_result rt self now i r digest ps index count :
  0 <= i -> seated rt i -> census (snd (apply_result rt self now i r digest ps index count)) = census rt.
Proof.
  intros Hi Hs. unfold apply_result. cbn zeta.
  match goal with |- context [on_sequence rt i ?op] => pose proof (census_sequence rt i op Hs) as E1 end.
  destruct (on_sequence _ _ _) as [st rt1]. cbn [snd] in E1. destruct (negb (ok st)); [done|].
  match goal with |- context [publish_tokens rt1 ?s ?g ?p ?t ?ts ?d ?q ?x ?c] =>
    pose proof (census_publish_tokens s g p d q c ts rt1 t x) as E2 end.
  destruct (publish_tokens _ _ _ _ _ _ _ _ _ _) as [[idx|e] rt2]; cbn [snd] in E2 |- *; [|congruence].
  assert (E : census rt2 = census rt) by congruence. assert (Hs2 : seated rt2 i) by (by apply (census_seated rt)).
  pose proof (seated_range _ _ Hi Hs2) as Hr.
  destruct (state_eqb _ SeqState.kDraining); [|cbn [snd]; rewrite census_rewrite; done].
  match goal with |- context [publish ?a self ?d] => pose proof (census_publish a self d) as E3;
    assert (E4 : census a = census rt2) by (by apply census_slot);
    assert (E5 : rt_slots (snd (publish a self d)) = rt_slots a)
      by (unfold publish; by destruct (Ingress.publish_event _ _ _)) end.
  destruct (publish _ _ _) as [[ev|e] rt3]; cbn [snd] in E3, E5 |- *; [|cbv [census] in *; cbn in *; congruence].
  rewrite census_slot; [congruence|]. rewrite E5. cbn. by rewrite vat_vput_eq.
Qed.

Lemma census_apply_results self now ps count : forall results digests rt i index,
  (forall k, i <= k < i + vsize results -> 0 <= (rt_selected_slot_indices rt).[k] /\
     seated rt ((rt_selected_slot_indices rt).[k])) ->
  census (snd (apply_results rt self now i results digests ps index count)) = census rt.
Proof.
  induction results as [|r results IH]; intros [|d digests] rt i index Hs; cbn [apply_results]; try done.
  rewrite vsize_cons in Hs. pose proof (vsize_nonneg results). destruct (Hs i ltac:(lia)) as [H0 H1].
  pose proof (census_apply_result rt self now _ r d ps index count H0 H1) as E.
  destruct (apply_result _ _ _ _ _ _ _ _ _) as [[idx|e] rt1]; cbn [snd] in E |- *; [|done].
  rewrite <- E. apply IH. intros k Hk. pose proof E as [= _ Ei _]. rewrite Ei.
  destruct (Hs k ltac:(lia)). split; [done|]. by apply (census_seated rt).
Qed.

Lemma census_finish_plan rt burst phase tier events :
  census (snd (finish_plan rt burst phase tier events)) = census rt.
Proof.
  unfold finish_plan. cbn zeta. destruct (phase_eqb phase kPrefill), (events =? 0);
    cbn [rt_output_credits rt_pending_output_bursts upd]; try destruct (BurstCredits.release _ _) as [rel pool];
    repeat case_match; done.
Qed.

(** ** The operations *)

Definition rt_counted (rt : ControllerRuntime) : Prop :=
  rt_state rt = RuntimeState.kReady -> counted rt.

Lemma failed_counted rt : rt_counted (mark_failed rt).
Proof. intros E. discriminate E. Qed.

Lemma counted_step rt rt' :
  sticky rt rt' -> (rt_wf rt -> census rt' = census rt) -> rt_ok rt -> rt_counted rt -> rt_counted rt'.
Proof. intros Hs Hc Hok Hn Hr. eapply census_counted; [by apply Hc, Hok, Hs|]. by apply Hn, Hs. Qed.

(** The slots of the current plan are occupied. *)
Lemma plan_seated rt plan lease :
  rt_wf rt -> cp_plan (rt_current rt) = Some plan -> cp_output_burst (rt_current rt) = Some lease ->
  forall k, 0 <= k < cp_selected_count (rt_current rt) ->
    0 <= (rt_selected_slot_indices rt).[k] /\ seated rt ((rt_selected_slot_indices rt).[k]).
Proof.
  intros Hw Hp Hl k Hk. destruct (current_cases rt plan lease Hw Hp Hl) as (st & _ & Hh).
  destruct (hp_slots _ _ _ _ _ _ _ Hh ((rt_selected_slot_indices rt).[k])) as (Hr & s & Es & _).
  - rewrite selected_eq by apply Hh. apply list_elem_of_fmap. exists k. split; [done|]. apply elem_of_seqZ. lia.
  - split; [lia|]. by eapply seated_some.
Qed.

Lemma commit_census rt ps d : rt_wf rt -> census (snd (commit_current_plan rt ps d)) = census rt.
Proof.
  intros Hw. unfold commit_current_plan. destruct (cp_output_burst _) as [l|] eqn:El; [|done].
  destruct (plan_identity_drifted _ _ _) eqn:Ed; [done|]. apply not_drifted in Ed as (plan & Ep & _).
  destruct (BurstCredits.commit _ _) as [cr pool]. destruct (negb (ok cr)); [done|].
  rewrite census_for_selected; [done|]. cbn. intros k Hk.
  apply (plan_seated rt plan l); [done..|lia].
Qed.

Lemma mark_census rt ps d : rt_wf rt -> census (snd (mark_current_plan_in_flight rt ps d)) = census rt.
Proof.
  intros Hw. unfold mark_current_plan_in_flight. destruct (plan_identity_drifted _ _ _) eqn:Ed; [done|].
  apply not_drifted in Ed as (plan & Ep & _). destruct (cp_output_burst (rt_current rt)) as [l|] eqn:El.
  - apply census_for_selected. intros k Hk. eapply plan_seated; [done..|]. lia.
  - pose proof (rw_current _ Hw) as H. unfold current_ok in H. by rewrite Ep, El in H.
Qed.

Lemma abort_census rt ps d : rt_wf rt -> census (snd (abort_current_plan rt ps d)) = census rt.
Proof.
  intros Hw. unfold abort_current_plan. destruct (cp_output_burst _) as [l|] eqn:El; [|done].
  destruct (plan_identity_drifted _ _ _) eqn:Ed; [done|]. apply not_drifted in Ed as (plan & Ep & _).
  match goal with |- context [for_selected ?op ?f rt ?n 0] =>
    assert (E : census (snd (for_selected op f rt n 0)) = census rt)
      by (apply census_for_selected; intros k Hk; eapply plan_seated; [done..|lia]) end.
  destruct (for_selected _ _ _ _ _) as [st rt1]. cbn [snd] in E. destruct (negb (ok st)); [done|].
  destruct (abort _ _) as [cr pool]. by destruct (negb (ok cr)).
Qed.

Lemma acknowledge_census rt ps : census (snd (acknowledge_output_plan rt ps)) = census rt.
Proof.
  unfold acknowledge_output_plan. destruct (ps =? 0); [done|]. destruct (first_index _ _ _); [|done].
  destruct (_.[_]); [|done]. destruct (BurstCredits.release _ _) as [rel pool]. by destruct (negb (ok rel)).
Qed.

Lemma complete_census rt self results now :
  rt_wf rt -> census (snd (complete_current_plan rt self results now)) = census rt.
Proof.
  intros Hw. unfold complete_current_plan. destruct (cp_plan _) as [plan|] eqn:Ep; [|done].
  destruct (cp_output_burst _) as [l|] eqn:El; [|done]. destruct (_ || _) eqn:Eg; [done|]. breflect.
  destruct (validate_results _ _ _ _) as [need|]; [|done]. do 2 (destruct (_ : bool); [done|]).
  destruct (transfer _ _) as [tr pool]. cbn zeta. destruct (negb (ok tr)); [done|].
  destruct (negb (phase_eqb _ _) && _); [done|].
  match goal with |- context [apply_results ?r self now 0 ?x ?y ?p 0 ?c] =>
    assert (E : census (snd (apply_results r self now 0 x y p 0 c)) = census r)
      by (apply census_apply_results; intros k Hk; eapply (plan_seated rt); [done..|lia]) end.
  destruct (apply_results _ _ _ _ _ _ _ _ _) as [[idx|e] rt1]; cbn [snd] in E; [|exact E].
  rewrite census_finish_plan. exact E.
Qed.

Lemma sampled_census rt self samples now :
  rt_wf rt -> census (snd (complete_current_sampled_tokens rt self samples now)) = census rt.
Proof.
  intros Hw. unfold complete_current_sampled_tokens. destruct (cp_plan _) as [plan|]; [|done].
  destruct (negb _); [done|]. destruct (sampled_results _ _ _ _ _) as [[results rest]|]; [|done].
  destruct (negb _); [done|]. by apply complete_census.
Qed.

Lemma cancel_census rt self c : census (snd (step_cancel rt self c)) = census rt.
Proof.
  unfold step_cancel. cbn zeta. destruct (controller_cancel_payload_digest _ _) as [digest|]; [|done].
  destruct (negb (bool_decide _)); [done|]. destruct (first_index _ _ _) as [i|] eqn:Ei; [|done].
  apply find_slot in Ei as (Hi & s & Es & _). apply seated_some in Es as Hs.
  pose proof (census_sequence rt i request_cancel Hs) as E1. destruct (on_sequence rt i _) as [st1 rt1].
  cbn [snd] in E1. destruct (negb (ok st1)); [done|]. destruct (negb (has_active_plan _)); [|done].
  pose proof (census_sequence rt1 i begin_draining (census_seated _ _ i E1 ltac:(lia) Hs)) as E2.
  destruct (on_sequence rt1 i _) as [st2 rt2]. cbn [snd] in E2. destruct (negb (ok st2)); [cbn; congruence|].
  match goal with |- context [publish rt2 self ?d] => pose proof (census_publish rt2 self d) as E3 end.
  destruct (publish _ _ _) as [[ev|e] rt3]; cbn [snd] in E3 |- *; [congruence|].
  change (census (mark_failed rt3)) with (census rt3). congruence.
Qed.

Section AdmissionCount.
Context {PS : Type} (participant : option (ControllerAdmissionParticipant PS)).

Lemma refused_census rt self a reserved : census (snd (reserve_refused rt self a reserved)) = census rt.
Proof.
  unfold reserve_refused. pose proof (census_release rt (av_request a)) as E1.
  destruct (release _ _) as [rel rt1]. cbn [snd] in E1. cbn zeta.
  set (rt2 := if _ || _ then mark_failed rt1 else rt1).
  assert (E2 : census rt2 = census rt) by (unfold rt2; by destruct (_ || _)).
  destruct (negb (ok rel)); [done|]. destruct (bool_decide _); [|done].
  match goal with |- context [publish rt2 self ?d] => pose proof (census_publish rt2 self d) as E3 end.
  destruct (publish _ _ _) as [[ev|e] rt3]; cbn [snd] in E3 |- *; [congruence|].
  change (census (mark_failed rt3)) with (census rt3). congruence.
Qed.

Lemma admit_counted rt self now ps a :
  vsize (rt_slots rt) <= u32_max -> counted rt ->
  rt_counted (fst (snd (step_admit participant rt self now ps a))).
Proof.
  intros Hv Hc. unfold step_admit. cbn zeta.
  destruct (first_index _ _ _) as [i|] eqn:Ei; [|apply failed_counted].
  apply first_index_Some in Ei as (Hi & Hf & _). rewrite Z.sub_0_r in Hf.
  destruct (p_reserve _ _ _) as [reserved ps1]. destruct (negb (ok reserved)).
  { pose proof (refused_census rt self a reserved) as E. destruct (reserve_refused _ _ _ _) as [r rt1].
    intros _. by apply (census_counted rt). }
  destruct (Admit _ _ _) as [s|], (admitted_state_digest _ _) as [digest|].
  2-4: destruct (p_rollback _ _ _) as [rb ps3], (release _ _) as [rel rt1]; destruct (_ || _); apply failed_counted.
  destruct (p_publish _ _ _) as [published ps2]. destruct (negb (ok published)).
  { destruct (release _ _) as [rel rt1]. destruct (negb (ok rel)); apply failed_counted. }
  set (rt1 := occupy_slot rt i now (av_request a) s).
  match goal with |- context [publish rt1 self ?d] =>
    assert (E : rt_slots (snd (publish rt1 self d)) = rt_slots rt1 /\
      rt_active_sequence_count (snd (publish rt1 self d)) = rt_active_sequence_count rt)
      by (unfold publish; by destruct (Ingress.publish_event _ _ _)) end.
  destruct (publish _ _ _) as [[ev|e] rt2]; cbn [snd] in E.
  2: { destruct (release _ _) as [rel rt3]. destruct (negb (ok rel)); apply failed_counted. }
  destruct E as [E1 E2]. intros _. unfold counted. cbn [rt_active_sequence_count rt_slots upd fst snd].
  rewrite E1, E2, Hc. unfold rt1, occupy_slot. cbn [rt_slots upd].
  pose proof (count_if_bounds occupied (rt_slots rt)) as Hb0.
  pose proof (fun x => count_if_bounds occupied ((rt_slots rt).[i <- x])) as Hb.
  assert (Ev : occupied ((rt_slots rt).[i]) = false) by (unfold occupied; by rewrite Hf).
  match goal with |- context [count_if occupied (_.[i <- ?x])] => specialize (Hb x); assert (Ex : occupied x = true) by done end.
  rewrite vsize_vput in Hb. rewrite count_if_vput in * by lia. rewrite Ev, Ex in *. cbn [Z.b2z] in *.
  rewrite wrap32_id by (unfold is_u32; lia). lia.
Qed.

Lemma step_counted rt self now ps :
  rt_ok rt -> rt_counted rt -> rt_counted (fst (snd (step_impl participant rt self now ps))).
Proof.
  intros Hok Hn. unfold step_impl. destruct (ready _) eqn:Er; cbn [negb]; [|done].
  apply ready_true in Er. specialize (Hok Er). specialize (Hn Er).
  pose proof (rw_slots_size _ Hok) as Hsz. pose proof (sw_profile _ (rw_scheduler _ Hok)) as Hp.
  assert (Hv : vsize (rt_slots rt) <= u32_max) by (unfold profile_ok, is_u32 in Hp; lia).
  destruct (_ || _); [by intros _|]. cbn zeta.
  set (rt0 := rt <| rt_last_controller_now_ns := now |>).
  destruct (_ =? 0); [by intros _|]. destruct (_ =? 0); [by intros _|].
  destruct (Ingress.try_take_command _ _) as [item ig]. set (rt1 := rt0 <| rt_ingress := ig |>).
  assert (Hc : counted rt1) by exact Hn.
  destruct item as [[item|]|e]; [|by intros _|apply failed_counted].
  destruct (command_kind_eqb _ CommandKind.kCancel).
  { pose proof (cancel_census rt1 self (cv_command item)) as E. destruct (step_cancel _ _ _) as [r rt2].
    intros _. by apply (census_counted rt1). }
  destruct (command_kind_eqb _ CommandKind.kAdmit), (cv_request item); try apply failed_counted.
  by apply admit_counted.
Qed.
End AdmissionCount.

(** ** Preparing a plan *)

Abbreviation active := rt_active_sequence_count.

Lemma rollback_active ps : forall fuel rt i, active (snd (rollback_prepared rt ps fuel i)) = active rt.
Proof.
  induction fuel as [|fuel IH]; intros rt i; cbn [rollback_prepared]; [done|].
  unfold on_sequence. destruct (abort_prepared _ _) as [st s]. destruct (negb (ok st)); [done|]. by rewrite IH.
Qed.

Lemma included_active plan rows burst : forall included rt n,
  active (snd (prepare_included rt plan rows burst included n)) = active rt.
Proof.
  induction included as [|ci rest IH]; intros rt n; cbn [prepare_included]; [done|].
  unfold on_sequence. destruct (prepare _ _ _ _) as [st s]. destruct (negb (ok st)); [|by rewrite IH].
  match goal with |- context [rollback_prepared ?r ?p ?f 0] => pose proof (rollback_active p f r 0) as E end.
  destruct (rollback_prepared _ _ _ _) as [rb rt2]. cbn [snd] in E. destruct (negb (ok rb)); [done|].
  destruct (abort _ _) as [cr pool]. by destruct (negb (ok cr)).
Qed.

Lemma decision_active rt rows d : active (snd (prepare_decision rt rows d)) = active rt.
Proof.
  unfold prepare_decision. cbn zeta. destruct (assemble_current_plan _ _ _ _) as [[plan|] s1]; [|done].
  destruct (semantic_digest plan); [|done].
  destruct (materialize_current_metadata _ _ _ _ _) as [[md|] [s2 arena]]; [|done].
  destruct (acquire _ _ _ _ _ _) as [[burst|] pool]; [|done].
  match goal with |- context [prepare_included ?r ?p ?w ?b ?l ?n] => pose proof (included_active p w b l r n) as E end.
  by destruct (prepare_included _ _ _ _ _ _) as [[n|] rt1].
Qed.

Lemma prepare_active rt now : active (snd (prepare_next_plan rt now)) = active rt.
Proof.
  unfold prepare_next_plan. destruct (_ || _); [done|]. destruct (_ || _); [done|]. cbn zeta.
  destruct (candidate_rows _ _ _) as [rows|]; [|done]. destruct (_ =? 0); [done|].
  destruct (select _ _) as [[d|] sch]; [|done]. destruct (tier_eqb _ _); [done|]. by rewrite decision_active.
Qed.

Lemma prepare_counted rt now : rt_ok rt -> rt_counted rt -> rt_counted (snd (prepare_next_plan rt now)).
Proof.
  intros Hok Hn. destruct (decide (rt_state rt = RuntimeState.kReady)) as [Hr|Hr].
  2: { unfold prepare_next_plan. by destruct (rt_state rt). }
  intros _. specialize (Hn Hr). pose proof (prepare_next_plan_spec rt now (Hok Hr) Hr) as [_ H].
  unfold counted in *. rewrite prepare_active, Hn. destruct (fst (prepare_next_plan rt now)) as [[v|]|e];
    [|by destruct H as (-> & _)..].
  apply count_if_vat; [by rewrite (pr_size _ _ _ H)|]. intros i Hi.
  destruct (decide (i ∈ ppv_selected_slot_indices v)) as [Hin|Hin]; [|by rewrite (pr_others _ _ _ H)].
  destruct (pr_slots _ _ _ H i Hin) as (_ & s & n & Es & _ & _ & ->). unfold occupied, slot_vacant. by rewrite Es.
Qed.

(** ** The end of a drain *)

Lemma finalize_counted rt self g : rt_ok rt -> rt_counted rt -> rt_counted (snd (finalize_draining rt self g)).
Proof.
  intros Hok Hn. unfold finalize_draining. destruct (ready (rt_state rt)) eqn:Er; cbn [negb orb]; [|done].
  apply ready_true in Er. specialize (Hok Er). specialize (Hn Er). destruct (_ =? 0); [by intros _|].
  destruct (first_index _ _ _) as [i|] eqn:Ei; [|by intros _]. apply find_slot in Ei as (Hi & s & Es & _).
  pose proof (finalize_on_sequence rt i s Hi Es) as Hf.
  destruct (on_sequence rt i finish_cancel) as [c rt1]. cbn beta iota in Hf |- *. rewrite Hf. cbn beta iota.
  destruct (end_drain s) as [[fin kind] s1]. cbn [fst snd].
  set (rt2 := set_sequence rt i (Some s1)).
  assert (E2 : census rt2 = census rt).
  { unfold rt2, census. cbn. rewrite map_vput_same; [done|]. symmetry. by eapply seated_some. }
  destruct (negb (ok fin)); [intros _; by apply (census_counted rt)|].
  match goal with |- context [release rt2 ?v] => pose proof (census_release rt2 v) as E3 end.
  destruct (release _ _) as [rel rt3]. cbn [snd] in E3. destruct (negb (ok rel)); [apply failed_counted|].
  match goal with |- context [publish rt3 self ?d] => pose proof (census_publish rt3 self d) as E4 end.
  destruct (publish _ _ _) as [[ev|e] rt4]; [|apply failed_counted]. cbn [snd] in E4. intros _.
  assert (E : census rt4 = census rt) by congruence.
  pose proof (census_seated _ _ i E ltac:(lia) (seated_some _ _ _ Es)) as Hs4.
  pose proof (seated_range rt4 i ltac:(lia) Hs4) as Hr4. pose proof (census_counted _ _ E Hn) as H4.
  unfold counted in *. cbn [rt_active_sequence_count rt_slots upd snd]. rewrite H4.
  pose proof (count_if_bounds occupied (rt_slots rt4)) as Hb.
  match goal with |- context [count_if occupied (_.[i <- ?x])] =>
    assert (Hb2 := count_if_bounds occupied ((rt_slots rt4).[i <- x])); assert (Ex : occupied x = false) by done end.
  rewrite count_if_vput in * by lia. unfold seated in Hs4. rewrite Hs4, Ex in *. cbn [Z.b2z] in *.
  assert (vsize (rt_slots rt4) <= u32_max).
  { injection E as _ _ E. apply (f_equal length) in E. rewrite !length_map in E.
    pose proof (rw_slots_size _ Hok) as Hsz. pose proof (sw_profile _ (rw_scheduler _ Hok)) as Hp.
    unfold profile_ok, is_u32, vsize in *. lia. }
  rewrite wrap32_id by (unfold is_u32; lia). lia.
Qed.

(** ** Every operation *)

Lemma counted_run rt op : rt_ok rt -> rt_counted rt -> rt_counted (snd (run_rt rt op)).
Proof.
  intros Hok Hn. destruct op; cbn [run_rt].
  - unfold submit_admit. destruct (negb _); [done|]. destruct (Ingress.submit_admit _ _ _ _ _ _). exact Hn.
  - unfold submit_cancel. destruct (negb _); [done|]. destruct (Ingress.submit_cancel _ _ _). exact Hn.
  - unfold step. pose proof (step_counted (PS := unit) None rt self now_ns tt Hok Hn) as H.
    by destruct (step_impl _ _ _ _ _) as [? [? ?]].
  - unfold step_with. pose proof (step_counted (Some (answering reserve publish rollback)) rt self now_ns tt Hok Hn) as H.
    by destruct (step_impl _ _ _ _ _) as [? [? ?]].
  - pose proof (prepare_counted rt now_ns Hok Hn) as H. by destruct (prepare_next_plan _ _).
  - apply (counted_step rt); [|by apply commit_census|done..]. unfold commit_current_plan.
    destruct (cp_output_burst _); [|by intros ?]. destruct (plan_identity_drifted _ _ _); [by intros ?|].
    destruct (BurstCredits.commit _ _) as [cr pool]. destruct (negb (ok cr)); [by intros ?|].
    intros Hr. by apply for_selected_sticky in Hr.
  - apply (counted_step rt); [|by apply mark_census|done..]. unfold mark_current_plan_in_flight.
    destruct (plan_identity_drifted _ _ _); [by intros ?|]. apply for_selected_sticky.
  - apply (counted_step rt); [|by apply abort_census|done..]. unfold abort_current_plan.
    destruct (cp_output_burst _); [|by intros ?]. destruct (plan_identity_drifted _ _ _); [by intros ?|].
    match goal with |- context [for_selected ?op ?f rt ?n 0] => pose proof (for_selected_sticky op f n rt 0) as Hs end.
    destruct (for_selected _ _ _ _ _) as [st rt1]. cbn [snd] in Hs. destruct (negb (ok st)); [done|].
    destruct (abort _ _) as [cr pool]. destruct (negb (ok cr)); [apply sticky_failed|exact Hs].
  - apply (counted_step rt); [apply complete_current_sticky|by apply complete_census|done..].
  - apply (counted_step rt); [apply sampled_sticky|by apply sampled_census|done..].
  - intros Hr. apply (census_counted rt); [apply acknowledge_census|]. apply Hn. revert Hr.
    unfold acknowledge_output_plan. destruct (_ =? 0); [done|]. destruct (first_index _ _ _); [|done].
    destruct (_.[_]); [|done]. destruct (BurstCredits.release _ _) as [rel pool]. by destruct (negb (ok rel)).
  - by apply finalize_counted.
  - unfold try_take_event. destruct (Ingress.try_take_event _). exact Hn.
Qed.

Lemma created_counted l rt : ControllerRuntime_Create l = Value rt -> counted rt.
Proof.
  unfold ControllerRuntime_Create. destruct (runtime_limits_invalid l); [done|].
  destruct (ControllerIngress_Create _); cbn; [|done]. destruct (PhaseTierScheduler_Create _); cbn; [|done].
  destruct (PackedTokenMetadataArena_Create _); cbn; [|done].
  destruct (OutputBurstCreditPool_Create _); cbn; [|done]. intros [= <-]. unfold counted. cbn. symmetry.
  apply count_if_0, Forall_forall. by intros x [-> _]%elem_of_replicate.
Qed.

(** ** Retirement *)

(** A runtime without work: no request is admitted, nothing is queued in either
    direction, no plan is under way and no output credit is leased. *)
Record retired (rt : ControllerRuntime) : Prop := {
  rd_ready : rt_state rt = RuntimeState.kReady;
  rd_sequences : Forall (fun slot => slot_sequence slot = None) (rt_slots rt);
  rd_commands : fm_commands (rt_fifo rt) = [];
  rd_events : fm_events (rt_fifo rt) = [];
  rd_plan : cp_plan (rt_current rt) = None;
  rd_credits : forall lease, lease_view (rt_output_credits rt) lease = None }.

Lemma all_available pool :
  pool_wf pool ->
  available pool = vsize (bp_credits pool) <-> forall lease, lease_view pool lease = None.
Proof.
  intros (Hu & _ & _ & Hn & _). pose proof (count_if_bounds credit_free (bp_credits pool)) as Hb.
  unfold available. rewrite wrap32_id by (unfold is_u32 in *; lia).
  assert (Hall : count_if credit_free (bp_credits pool) = vsize (bp_credits pool) <->
    Forall (fun c => credit_free c = true) (bp_credits pool)).
  { clear. induction (bp_credits pool) as [|c l IH]; [done|]. rewrite vsize_cons, Forall_cons, <- IH. cbn.
    pose proof (count_if_bounds credit_free l). destruct (credit_free c); cbn; intuition (congruence || lia). }
  rewrite Hall. split.
  - intros Hf lease. destruct (lease_view pool lease) as [s|] eqn:E; [|done].
    apply lease_view_range in E as (Hr & Hs & Hnf & _). apply (Forall_at _ _ _ Hf) in Hr.
    unfold credit_free in Hr. rewrite Hs in Hr. by apply burst_eqb_true in Hr.
  - intros Hl. apply Forall_forall. intros c (i & Hi & <-)%list_elem_of_In%In_vat.
    destruct (credit_free ((bp_credits pool).[i])) eqn:E; [done|]. set (c := (bp_credits pool).[i]) in *.
    specialize (Hl (MkLease i (cr_generation c) (cr_plan_sequence c) (cr_records c) (cr_slots c) (cr_bytes c))).
    unfold lease_view in Hl. cbn [bl_credit_index] in Hl. fold c in Hl.
    replace ((0 <=? i) && (i <? vsize (bp_credits pool))) with true in Hl by lia. rewrite E in Hl.
    by rewrite (proj2 (lease_drifted_false c _)) in Hl.
Qed.

(** The test that [ControllerRuntime] makes before it is destroyed decides this. *)
Lemma retirable_spec rt : rt_ok rt -> rt_counted rt -> retirable rt = true <-> retired rt.
Proof.
  intros Hok Hn. unfold retirable. destruct (ready (rt_state rt)) eqn:Er; cbn [negb orb].
  2: { split; [done|]. intros []. by rewrite rd_ready0 in Er. }
  apply ready_true in Er. specialize (Hok Er). specialize (Hn Er). unfold counted in Hn.
  pose proof (rw_ingress _ Hok) as ([Hcw Hew] & _). pose proof (rw_pending _ Hok) as (Hps & Hpl & _).
  pose proof (rw_current _ Hok) as Hcur. unfold current_ok in Hcur.
  unfold active_sequence_count, queued_command_count, Ingress.queued_command_count, queued_event_count,
    command_size, event_size.
  rewrite <- (vsize_ring_list _ Hcw), <- (vsize_ring_list _ Hew), Hn, Hps.
  change (ring_list (mb_commands (ig_mailbox (rt_ingress rt)))) with (fm_commands (rt_fifo rt)).
  change (ring_list (mb_events (ig_mailbox (rt_ingress rt)))) with (fm_events (rt_fifo rt)).
  split.
  - destruct (_ || _) eqn:E; [done|]. intros _. breflect. apply count_if_0 in H. split; try done.
    + eapply Forall_impl; [exact H|]. unfold occupied, slot_vacant. intros slot. by destruct (slot_sequence slot).
    + by destruct (fm_commands (rt_fifo rt)).
    + by destruct (fm_events (rt_fifo rt)).
    + by apply eq_None_not_Some.
    + by apply all_available; [apply Hok|].
  - intros []. rewrite rd_plan0 in *. destruct (cp_output_burst (rt_current rt)); [done|].
    assert (Ec : count_if occupied (rt_slots rt) = 0).
    { apply count_if_0. eapply Forall_impl; [exact rd_sequences0|]. unfold occupied, slot_vacant. by intros slot ->. }
    rewrite Ec, rd_commands0, rd_events0, (proj2 (all_available _ (rw_credits _ Hok)) rd_credits0), !Z.eqb_refl.
    change (vsize (@nil ControllerCommand)) with 0. change (vsize (@nil ControllerOutputEvent)) with 0. cbn.
    apply forallb_forall. intros o (k & Hk & <-)%In_vat. apply bool_decide_eq_true.
    destruct (_.[k]) as [l|] eqn:El; [|done]. apply Hpl in El; [|done]. by rewrite rd_credits0 in El.
Qed.
