(* ===== verification/RuntimeKeeps.v ===== *)
(** * What no operation of the runtime changes

    The configuration, the scheduler profile and the limits of the request arena
    are those of [Create] for ever, and every queued event carries the runtime's
    epoch, a sequence number and a request.  Both are needed by a client that
    checks what it receives against the limits it asked for. *)

From stdpp Require Import gmap.
From S2P Require Import Prelude Core Sha256 TokenPlan TokenMetadata Sequence BurstCredits.
From S2P Require Import Mailbox RequestArena Ingress Scheduler SchedulerPolicy Runtime RuntimeInv.
From S2P Require Import RuntimePrepare RuntimeMachine RuntimeCount.

Definition event_ok (epoch : Z) (e : ControllerOutputEvent) : Prop :=
  ev_epoch e = epoch /\ ev_event_sequence e <> 0 /\ ev_request_generation e <> 0.

Definition mailbox_ok (epoch : Z) (m : ControllerMailbox) : Prop :=
  mailbox_wf m /\ Forall (event_ok epoch) (ring_list (mb_events m)).

(** The parts of a runtime that are fixed at creation. *)
Definition rt_static (rt : ControllerRuntime) :=
  (rt_config rt, pts_profile (rt_scheduler rt), ra_limits (ig_requests (rt_ingress rt))).

Definition rt_mailbox_ok (rt : ControllerRuntime) : Prop :=
  mailbox_ok (rc_epoch (rt_config rt)) (ig_mailbox (rt_ingress rt)).

Record keeps (rt rt' : ControllerRuntime) : Prop := {
  keeps_static : rt_static rt' = rt_static rt;
  keeps_mailbox : rt_mailbox_ok rt -> rt_mailbox_ok rt' }.

#[export] Instance keeps_preorder : PreOrder keeps.
Proof.
  split; [by constructor|]. intros a b c [H1 H2] [H3 H4]. constructor; [congruence|auto].
Qed.

Lemma keeps_same rt rt' :
  rt_config rt' = rt_config rt ->
  pts_profile (rt_scheduler rt') = pts_profile (rt_scheduler rt) ->
  rt_ingress rt' = rt_ingress rt -> keeps rt rt'.
Proof. unfold rt_static, rt_mailbox_ok. intros H1 H2 H3. split; unfold rt_static, rt_mailbox_ok; by rewrite ?H1, ?H2, ?H3. Qed.

Lemma keeps_config rt rt' : keeps rt rt' -> rt_config rt' = rt_config rt.
Proof. intros [H _]. by injection H. Qed.

(** ** The ingress *)

(** The ingress operations keep the limits and the queued events. *)
Definition ig_keeps (epoch : Z) (ig ig' : ControllerIngress) : Prop :=
  ra_limits (ig_requests ig') = ra_limits (ig_requests ig) /\
  (mailbox_ok epoch (ig_mailbox ig) -> mailbox_ok epoch (ig_mailbox ig')).

Lemma keeps_ingress rt ig :
  ig_keeps (rc_epoch (rt_config rt)) (rt_ingress rt) ig -> keeps rt (rt <| rt_ingress := ig |>).
Proof. intros [H1 H2]. constructor; [unfold rt_static; cbn; by rewrite H1|exact H2]. Qed.

Lemma arena_limits a op : ra_limits (snd (run_arena a op)) = ra_limits a.
Proof.
  destruct op as [g prompt maxnew s|g d|rcp|i gen]; cbn [run_arena].
  - unfold RequestArena.publish. cbn zeta. by repeat case_match; simplify_eq.
  - unfold claim. cbn zeta. by repeat case_match; simplify_eq.
  - unfold rollback_published. cbn zeta. by repeat case_match; simplify_eq.
  - unfold release_claimed. cbn zeta. by repeat case_match; simplify_eq.
Qed.

Lemma claim_events f self f' :
  fifo_claim f self = Some f' -> fm_events f' = fm_events f /\ fm_next_event f' = fm_next_event f.
Proof. unfold fifo_claim. repeat case_match; intros [= <-]; done. Qed.

(** Every mailbox operation keeps the events, if it publishes for the epoch. *)
Lemma mailbox_op_ok epoch m op :
  match op with OpPublish _ d => dr_epoch d = epoch | _ => True end ->
  mailbox_ok epoch m -> mailbox_ok epoch (snd (run_mailbox m op)).
Proof.
  intros Hop [Hw He]. destruct (mailbox_sim m op Hw) as (Hw' & _ & Ha). split; [done|].
  change (Forall (event_ok epoch) (fm_events (mailbox_abs (snd (run_mailbox m op))))).
  rewrite Ha. change (ring_list (mb_events m)) with (fm_events (mailbox_abs m)) in He.
  clear Ha. revert He. generalize (mailbox_abs m). intros f He.
  destruct op as [kind e g d|self|self d|]; cbn [run_fifo].
  - unfold fifo_submit. destruct (command_invalid _ _ _ _); [done|]. do 2 (destruct (_ =? _); [done|]). done.
  - unfold fifo_take. destruct (fifo_claim f self) as [f'|] eqn:Ef; [|done].
    apply claim_events in Ef as [Ef _]. rewrite <- Ef in He. by destruct (fm_commands f').
  - unfold fifo_publish. destruct (fifo_claim f self) as [f'|] eqn:Ef; [|done].
    apply claim_events in Ef as [Ef _]. rewrite <- Ef in He.
    destruct (draft_invalid d) eqn:Ed; [done|]. destruct (_ =? fm_event_capacity f'); [done|].
    destruct (fm_next_event f' =? 0) eqn:En; [done|]. cbn. apply Forall_app_2; [done|].
    apply Forall_singleton. unfold draft_invalid in Ed. cbn zeta in Ed. rewrite !orb_false_iff in Ed.
    destruct Ed as ((((((((_ & Hg) & Hr) & _) & _) & _) & _) & _) & _). breflect.
    unfold event_ok. cbn. by split_and!.
  - unfold fifo_take_event. destruct (fm_events f) as [|e rest] eqn:E; [cbn; by rewrite E|].
    cbn. by apply Forall_cons in He as [_ He].
Qed.

Section IngressKeeps.
Context (epoch : Z) (ig : ControllerIngress).

Lemma ig_keeps_mailbox m :
  (mailbox_ok epoch (ig_mailbox ig) -> mailbox_ok epoch m) ->
  ig_keeps epoch ig (ig <| ig_mailbox := m |>).
Proof. by split. Qed.

Lemma ig_keeps_requests a :
  ra_limits a = ra_limits (ig_requests ig) -> ig_keeps epoch ig (ig <| ig_requests := a |>).
Proof. by split. Qed.

Lemma submit_cancel_keeps e g : ig_keeps epoch ig (snd (Ingress.submit_cancel ig e g)).
Proof.
  unfold Ingress.submit_cancel. destruct (controller_cancel_payload_digest e g) as [d|]; [|by split].
  pose proof (mailbox_op_ok epoch (ig_mailbox ig) (OpSubmit CommandKind.kCancel e g d) I) as H'.
  cbn [run_mailbox] in H'. destruct (submit_command _ _ _ _ _). by apply ig_keeps_mailbox.
Qed.

Lemma take_event_keeps : ig_keeps epoch ig (snd (Ingress.try_take_event ig)).
Proof.
  unfold Ingress.try_take_event. pose proof (mailbox_op_ok epoch (ig_mailbox ig) OpTakeEvent I) as H'.
  cbn [run_mailbox] in H'. destruct (Mailbox.try_take_event _). by apply ig_keeps_mailbox.
Qed.

Lemma publish_event_keeps self d :
  dr_epoch d = epoch -> ig_keeps epoch ig (snd (Ingress.publish_event ig self d)).
Proof.
  intros Hd. unfold Ingress.publish_event.
  pose proof (mailbox_op_ok epoch (ig_mailbox ig) (OpPublish self d) Hd) as H'.
  cbn [run_mailbox] in H'. destruct (Mailbox.publish_event _ _ _). by apply ig_keeps_mailbox.
Qed.

Lemma release_request_keeps v : ig_keeps epoch ig (snd (release_request ig v)).
Proof.
  unfold release_request.
  pose proof (arena_limits (ig_requests ig) (RqRelease (rqv_slot_index v) (rqv_slot_generation v))) as H'.
  cbn [run_arena] in H'. destruct (release_claimed _ _ _). by apply ig_keeps_requests.
Qed.

Lemma take_command_keeps self : ig_keeps epoch ig (snd (Ingress.try_take_command ig self)).
Proof.
  unfold Ingress.try_take_command.
  pose proof (mailbox_op_ok epoch (ig_mailbox ig) (OpTakeCommand self) I) as H'.
  cbn [run_mailbox] in H'. destruct (Mailbox.try_take_command _ _) as [[[c|]|e] m]; [|by split..].
  destruct (command_kind_eqb _ _); [|by split]. cbn [ig_requests upd].
  pose proof (arena_limits (ig_requests ig)
    (RqClaim (cmd_request_generation c) (cmd_payload_digest c))) as Ha. cbn [run_arena] in Ha.
  destruct (claim _ _ _) as [[v|e] a]; by split.
Qed.

Lemma submit_admit_keeps e g prompt n s :
  ig_keeps epoch ig (snd (Ingress.submit_admit ig e g prompt n s)).
Proof.
  unfold Ingress.submit_admit. case_match; [by split|].
  pose proof (arena_limits (ig_requests ig) (RqPublish g prompt n s)) as Ha. cbn [run_arena] in Ha.
  destruct (RequestArena.publish _ _ _ _ _) as [[rcp|err] a]; cbn [snd] in Ha; [|by split].
  cbn [ig_mailbox upd].
  pose proof (mailbox_op_ok epoch (ig_mailbox ig)
    (OpSubmit CommandKind.kAdmit e g (rcp_payload_digest rcp)) I) as H'. cbn [run_mailbox] in H'.
  destruct (submit_command _ _ _ _ _) as [[c|err] m]; [by split|]. cbn [ig_requests upd].
  pose proof (arena_limits a (RqRollback rcp)) as Hr. cbn [run_arena] in Hr.
  destruct (rollback_published _ _) as [st a2]. cbn [snd] in Hr.
  destruct (ok st); (split; [cbn; congruence|done]).
Qed.
End IngressKeeps.

(** ** The runtime *)

Lemma keeps_on_sequence rt i op : keeps rt (snd (on_sequence rt i op)).
Proof. unfold on_sequence. destruct (op _). by apply keeps_same. Qed.

Lemma keeps_publish rt self d :
  dr_epoch d = rc_epoch (rt_config rt) -> keeps rt (snd (publish rt self d)).
Proof.
  intros Hd. unfold publish. pose proof (publish_event_keeps _ (rt_ingress rt) self d Hd) as H'.
  destruct (Ingress.publish_event _ _ _). by apply keeps_ingress.
Qed.

Lemma keeps_release rt v : keeps rt (snd (release rt v)).
Proof.
  unfold release.
  pose proof (release_request_keeps (rc_epoch (rt_config rt)) (rt_ingress rt) v) as H'.
  destruct (release_request _ _). by apply keeps_ingress.
Qed.

(** Follow the calls of a body, recording that each keeps its runtime, and join
    the records at the end. *)
Ltac keeps_call K t :=
  pose proof K; destruct t as [? ?]; cbn [fst snd] in *; cbn beta iota zeta.

(** The epoch read before some calls is still the one of the runtime. *)
Ltac keeps_epoch :=
  first
    [ reflexivity
    | repeat match goal with K : keeps ?a ?b |- _ => generalize (keeps_config a b K); clear K end;
      cbn; congruence ].

Ltac keeps_case :=
  match goal with
  | |- context [publish ?r ?s ?d] =>
      let E := fresh in
      assert (E : dr_epoch d = rc_epoch (rt_config r)) by keeps_epoch;
      keeps_call (keeps_publish r s d E) (publish r s d); clear E
  | |- context [release ?r ?v] => keeps_call (keeps_release r v) (release r v)
  | |- context [on_sequence ?r ?i ?op] => keeps_call (keeps_on_sequence r i op) (on_sequence r i op)
  | |- context [match ?x with _ => _ end] =>
      lazymatch x with
      | context [match _ with _ => _ end] => fail
      | context [on_sequence] => fail
      | context [publish] => fail
      | context [release] => fail
      | _ => destruct x
      end
  end.

Ltac keeps_close :=
  first
    [ apply keeps_same; reflexivity
    | match goal with
      | K : keeps ?a ?b |- keeps ?rt ?c =>
          transitivity b;
            [transitivity a; [clear K; keeps_close|exact K]|apply keeps_same; reflexivity]
      end ].

Ltac keeps_tac := repeat keeps_case; cbn [fst snd]; keeps_close.

Lemma keeps_step_cancel rt self c : keeps rt (snd (step_cancel rt self c)).
Proof. unfold step_cancel. cbn zeta. keeps_tac. Qed.

Section AdmissionKeeps.
Context {PS : Type} (participant : option (ControllerAdmissionParticipant PS)).

Lemma keeps_reserve_refused rt self a reserved : keeps rt (snd (reserve_refused rt self a reserved)).
Proof. unfold reserve_refused. cbn zeta. keeps_tac. Qed.

Lemma keeps_step_admit rt self now ps a :
  keeps rt (fst (snd (step_admit participant rt self now ps a))).
Proof.
  unfold step_admit. cbn zeta. destruct (first_index _ _ _); [|by apply keeps_same].
  destruct (p_reserve _ _ _) as [reserved ps1]. destruct (negb (ok reserved)).
  { pose proof (keeps_reserve_refused rt self a reserved). by destruct (reserve_refused _ _ _ _). }
  destruct (Admit _ _ _), (admitted_state_digest _ _).
  1: destruct (p_publish _ _ _) as [published ps2].
  all: try destruct (p_rollback _ _ _) as [rollback ps3].
  all: keeps_tac.
Qed.

Lemma keeps_step_impl rt self now ps :
  keeps rt (fst (snd (step_impl participant rt self now ps))).
Proof.
  unfold step_impl. case_match; [done|]. case_match; [done|]. cbn zeta.
  case_match; [by apply keeps_same|]. case_match; [by apply keeps_same|].
  set (rt0 := rt <| rt_last_controller_now_ns := now |>).
  pose proof (take_command_keeps (rc_epoch (rt_config rt0)) (rt_ingress rt0) self) as K%keeps_ingress.
  destruct (Ingress.try_take_command _ _) as [item ig]. cbn [snd] in K.
  assert (K0 : keeps rt rt0) by (by apply keeps_same).
  set (rt1 := rt0 <| rt_ingress := ig |>) in *.
  assert (K1 : keeps rt rt1) by (by transitivity rt0).
  destruct item as [[item|]|e]; [|done|by transitivity rt1; [|apply keeps_same]].
  destruct (command_kind_eqb _ CommandKind.kCancel).
  { pose proof (keeps_step_cancel rt1 self (cv_command item)). destruct (step_cancel _ _ _).
    by transitivity rt1. }
  destruct (command_kind_eqb _ CommandKind.kAdmit), (cv_request item);
    try (by transitivity rt1; [|apply keeps_same]).
  transitivity rt1; [done|]. apply keeps_step_admit.
Qed.
End AdmissionKeeps.

Lemma keeps_for_selected op failure : forall fuel rt i,
  keeps rt (snd (for_selected op failure rt fuel i)).
Proof.
  induction fuel as [|fuel IH]; intros rt i; cbn [for_selected]; [done|].
  pose proof (keeps_on_sequence rt ((rt_selected_slot_indices rt).[i]) op).
  destruct (on_sequence _ _ _) as [st rt1]. case_match; [by transitivity rt1; [|apply keeps_same]|].
  by transitivity rt1.
Qed.

Lemma keeps_rollback_prepared ps : forall fuel rt i,
  keeps rt (snd (rollback_prepared rt ps fuel i)).
Proof.
  induction fuel as [|fuel IH]; intros rt i; cbn [rollback_prepared]; [done|].
  match goal with |- context [on_sequence rt ?j ?op] => pose proof (keeps_on_sequence rt j op) end.
  destruct (on_sequence _ _ _) as [st rt1]. case_match; [by transitivity rt1; [|apply keeps_same]|].
  by transitivity rt1.
Qed.

Lemma keeps_prepare_included plan rows burst : forall included rt n,
  keeps rt (snd (prepare_included rt plan rows burst included n)).
Proof.
  induction included as [|ci rest IH]; intros rt n; cbn [prepare_included]; [done|]. cbn zeta.
  match goal with |- context [on_sequence rt ?j ?op] => pose proof (keeps_on_sequence rt j op) end.
  destruct (on_sequence _ _ _) as [st rt1]. cbn [snd] in *. destruct (negb (ok st)).
  - pose proof (keeps_rollback_prepared (rt_next_plan_sequence rt) (Z.to_nat n) rt1 0).
    destruct (rollback_prepared _ _ _ _) as [rb rt2]. cbn [snd] in *.
    destruct (negb (ok rb)); [by transitivity rt1|]. destruct (abort _ _) as [cr pool].
    assert (keeps rt (rt2 <| rt_output_credits := pool |>))
      by (transitivity rt1; [done|]; transitivity rt2; [done|by apply keeps_same]).
    destruct (negb (ok cr)); [|done]. etransitivity; [done|]. by apply keeps_same.
  - etransitivity; [exact H|]. etransitivity; [|apply IH]. by apply keeps_same.
Qed.

Lemma keeps_commit rt ps d : keeps rt (snd (commit_current_plan rt ps d)).
Proof.
  unfold commit_current_plan. destruct (cp_output_burst _) as [l|]; [|done]. case_match; [done|].
  destruct (BurstCredits.commit _ _) as [cr pool]. cbn zeta. case_match; [by apply keeps_same|].
  etransitivity; [|apply keeps_for_selected]. by apply keeps_same.
Qed.

Lemma keeps_mark rt ps d : keeps rt (snd (mark_current_plan_in_flight rt ps d)).
Proof. unfold mark_current_plan_in_flight. case_match; [done|]. apply keeps_for_selected. Qed.

Lemma keeps_abort rt ps d : keeps rt (snd (abort_current_plan rt ps d)).
Proof.
  unfold abort_current_plan. destruct (cp_output_burst _) as [l|]; [|done]. case_match; [done|].
  match goal with |- context [for_selected ?op ?f rt ?n 0] =>
    pose proof (keeps_for_selected op f n rt 0) end.
  destruct (for_selected _ _ _ _ _) as [st rt1]. cbn [snd] in *. case_match; [done|].
  destruct (abort _ _) as [cr pool]. etransitivity; [exact H0|]. case_match; by apply keeps_same.
Qed.

Lemma keeps_acknowledge rt ps : keeps rt (snd (acknowledge_output_plan rt ps)).
Proof. unfold acknowledge_output_plan. cbn zeta. keeps_tac. Qed.

Lemma keeps_publish_tokens self g prev digest ps count : forall tokens rt i index,
  keeps rt (snd (publish_tokens rt self g prev i tokens digest ps index count)).
Proof.
  induction tokens as [|t tokens IH]; intros rt i index; cbn [publish_tokens]; [done|].
  match goal with |- context [publish rt self ?d] => pose proof (keeps_publish rt self d eq_refl) end.
  destruct (publish _ _ _) as [[ev|e] rt1]; cbn [snd] in *;
    [by transitivity rt1|by transitivity rt1; [|apply keeps_same]].
Qed.

Lemma keeps_apply_result rt self now i r digest ps index count :
  keeps rt (snd (apply_result rt self now i r digest ps index count)).
Proof.
  unfold apply_result. cbn zeta.
  match goal with |- context [on_sequence rt ?j ?op] => pose proof (keeps_on_sequence rt j op) end.
  destruct (on_sequence _ _ _) as [st rt1]. cbn [snd] in *.
  case_match; [by transitivity rt1; [|apply keeps_same]|].
  match goal with |- context [publish_tokens rt1 ?s ?g ?p ?t ?ts ?d ?q ?x ?c] =>
    pose proof (keeps_publish_tokens s g p d q c ts rt1 t x) end.
  destruct (publish_tokens _ _ _ _ _ _ _ _ _ _) as [[idx|e] rt2]; cbn [snd] in *;
    [|by transitivity rt1].
  assert (keeps rt rt2) by (by transitivity rt1). clear H H1.
  destruct (state_eqb _ SeqState.kDraining); [|by transitivity rt2; [|apply keeps_same]].
  keeps_tac.
Qed.

Lemma keeps_apply_results self now ps count : forall results digests rt i index,
  keeps rt (snd (apply_results rt self now i results digests ps index count)).
Proof.
  induction results as [|r results IH]; intros [|d digests] rt i index; cbn [apply_results]; try done.
  match goal with |- context [apply_result rt self now ?j r d ps ?x count] =>
    pose proof (keeps_apply_result rt self now j r d ps x count) end.
  destruct (apply_result _ _ _ _ _ _ _ _ _) as [[idx|e] rt1]; cbn [snd] in *; [|done].
  by transitivity rt1.
Qed.

Lemma keeps_finish_plan rt burst phase tier events :
  keeps rt (snd (finish_plan rt burst phase tier events)).
Proof.
  unfold finish_plan. cbn zeta. destruct (phase_eqb phase kPrefill); keeps_tac.
Qed.

Lemma keeps_complete rt self results now : keeps rt (snd (complete_current_plan rt self results now)).
Proof.
  unfold complete_current_plan. destruct (cp_plan _) as [plan|]; [|done].
  destruct (cp_output_burst _) as [burst|]; [|done]. case_match; [done|].
  destruct (validate_results _ _ _ _) as [need|]; [|done]. do 2 (case_match; [done|]).
  destruct (transfer _ _) as [tr pool]. cbn zeta. case_match; [by apply keeps_same|].
  case_match; [by apply keeps_same|].
  match goal with |- context [apply_results ?r self now 0 ?x ?y ?p 0 ?c] =>
    pose proof (keeps_apply_results self now p c x y r 0 0) end.
  destruct (apply_results _ _ _ _ _ _ _ _ _) as [[idx|e] rt1]; cbn [snd] in *.
  - transitivity rt1; [|apply keeps_finish_plan]. etransitivity; [|exact H4]. by apply keeps_same.
  - etransitivity; [|exact H4]. by apply keeps_same.
Qed.

Lemma keeps_sampled rt self tokens now :
  keeps rt (snd (complete_current_sampled_tokens rt self tokens now)).
Proof.
  unfold complete_current_sampled_tokens. destruct (cp_plan _) as [plan|]; [|done].
  case_match; [done|]. destruct (sampled_results _ _ _ _ _) as [[results rest]|]; [|done].
  case_match; [done|]. apply keeps_complete.
Qed.

Lemma keeps_finalize rt self g : keeps rt (snd (finalize_draining rt self g)).
Proof.
  unfold finalize_draining. case_match; [done|]. destruct (first_index _ _ _) as [i|]; [|done].
  pose proof (keeps_on_sequence rt i finish_cancel). destruct (on_sequence rt i _) as [c rt1].
  cbn [snd] in *. cbn zeta.
  assert (exists fin kind rt2, keeps rt rt2 /\
    (if ok c then (c, EventKind.kCancelled, rt1)
     else let '(drained, rt2) := on_sequence rt1 i finish_drain in
          (drained, EventKind.kCompleted, rt2)) = (fin, kind, rt2)) as (fin & kind & rt2 & K & ->).
  { destruct (ok c); [by eauto|]. pose proof (keeps_on_sequence rt1 i finish_drain).
    destruct (on_sequence rt1 i _). do 3 eexists. split; [|done]. by transitivity rt1. }
  clear H0. case_match; [done|]. keeps_tac.
Qed.

Lemma assemble_profile s g identity states :
  pts_profile (snd (assemble_current_plan s g identity states)) = pts_profile s.
Proof.
  unfold assemble_current_plan. case_match; [done|]. cbn zeta.
  destruct (assemble_rows _ _ _ _ _ _) as [[total|e] inputs]; [|done]. by case_match.
Qed.

Lemma materialize_profile s g plan tokens arena :
  pts_profile (fst (snd (materialize_current_metadata s g plan tokens arena))) = pts_profile s.
Proof.
  unfold materialize_current_metadata. case_match; [done|]. cbn zeta.
  destruct (metadata_rows _ _ _ _ _ _) as [st inputs]. case_match; [done|].
  by destruct (materialize _ _ _).
Qed.

Lemma keeps_prepare_decision rt rows d : keeps rt (snd (prepare_decision rt rows d)).
Proof.
  unfold prepare_decision. cbn zeta.
  match goal with |- context [assemble_current_plan ?s ?g ?i ?t] =>
    pose proof (assemble_profile s g i t) as K1; destruct (assemble_current_plan s g i t) as [plan s1] end.
  cbn [snd] in K1. destruct plan as [plan|]; [|by apply keeps_same].
  destruct (semantic_digest plan) as [digest|]; [|by apply keeps_same].
  match goal with |- context [materialize_current_metadata ?s ?g ?p ?t ?a] =>
    pose proof (materialize_profile s g p t a) as K2;
    destruct (materialize_current_metadata s g p t a) as [md [s2 arena]] end. cbn [fst snd] in K2.
  assert (K3 : pts_profile s2 = pts_profile (rt_scheduler rt)) by (rewrite K2; exact K1).
  destruct md as [md|]; [|by apply keeps_same].
  destruct (acquire _ _ _ _ _ _) as [burst pool]. destruct burst as [burst|]; [|by apply keeps_same].
  match goal with |- context [prepare_included ?r plan rows burst ?l 0] =>
    pose proof (keeps_prepare_included plan rows burst l r 0) as K4;
    destruct (prepare_included r plan rows burst l 0) as [n rt1] end. cbn [snd] in K4.
  assert (K5 : keeps rt rt1) by (etransitivity; [|exact K4]; by apply keeps_same).
  destruct n as [n|]; [|done]. etransitivity; [exact K5|]. by apply keeps_same.
Qed.

Lemma keeps_prepare rt now : rt_ok rt -> keeps rt (snd (prepare_next_plan rt now)).
Proof.
  intros Hok. unfold prepare_next_plan. destruct (ready _) eqn:Er; cbn [negb orb]; [|done].
  apply ready_true in Er. pose proof (Hok Er) as Hw. destruct (bool_decide _); [done|].
  destruct (_ || _); [done|]. cbn zeta.
  pose proof (wf_now rt now Hw) as Hw0. set (rt0 := rt <| rt_last_controller_now_ns := now |>) in *.
  destruct (candidate_rows rt0 0 (rt_slots rt0)) as [rows|e] eqn:Ec; [|by apply keeps_same].
  apply candidate_rows_ok in Ec as Hrows. destruct (vsize rows =? 0); [by apply keeps_same|].
  set (snapshot := MkSnapshot _ _ _ _).
  assert (Hst : snapshot_typed snapshot) by (split; [apply Hw0|cbn; by eapply rows_typed]).
  pose proof (select_spec (rt_scheduler rt0) snapshot (rw_scheduler _ Hw0) Hst) as Hs.
  destruct (select (rt_scheduler rt0) snapshot) as [rd sch].
  assert (K : keeps rt (rt0 <| rt_scheduler := sch |>)).
  { apply keeps_same; [done| |done]. destruct rd as [d|e]; destruct Hs as [Hs Hd];
      [apply (de_profile _ _ _ _ Hd)|by rewrite Hs]. }
  destruct rd as [d|e]; [|done]. destruct (tier_eqb _ _); [done|]. etransitivity; [exact K|].
  apply keeps_prepare_decision.
Qed.

(** Every operation of the machine. *)
Lemma keeps_run rt op : rt_ok rt -> keeps rt (snd (run_rt rt op)).
Proof.
  intros Hok. destruct op; cbn [run_rt].
  - unfold submit_admit. destruct (negb _); [done|].
    match goal with |- context [Ingress.submit_admit ?i ?e ?g ?p ?n ?s] =>
      pose proof (submit_admit_keeps e i e g p n s) as K; destruct (Ingress.submit_admit i e g p n s) end.
    by apply keeps_ingress.
  - unfold submit_cancel. destruct (negb _); [done|].
    match goal with |- context [Ingress.submit_cancel ?i ?e ?g] =>
      pose proof (submit_cancel_keeps e i e g) as K; destruct (Ingress.submit_cancel i e g) end.
    by apply keeps_ingress.
  - unfold step. pose proof (keeps_step_impl (PS := unit) None rt self now_ns tt).
    by destruct (step_impl _ _ _ _ _) as [? [? ?]].
  - unfold step_with.
    pose proof (keeps_step_impl (Some (answering reserve publish rollback)) rt self now_ns tt).
    by destruct (step_impl _ _ _ _ _) as [? [? ?]].
  - pose proof (keeps_prepare rt now_ns Hok). by destruct (prepare_next_plan _ _).
  - apply keeps_commit.
  - apply keeps_mark.
  - apply keeps_abort.
  - apply keeps_complete.
  - apply keeps_sampled.
  - apply keeps_acknowledge.
  - apply keeps_finalize.
  - unfold try_take_event.
    pose proof (take_event_keeps (rc_epoch (rt_config rt)) (rt_ingress rt)) as K.
    destruct (Ingress.try_take_event _). by apply keeps_ingress.
Qed.

(** A runtime that serves the limits it was created with. *)
Record rt_serves (l : ControllerRuntimeLimits) (rt : ControllerRuntime) : Prop := {
  sv_limits : runtime_limits_ok l;
  sv_ok : rt_ok rt;
  sv_config : rt_config rt = MkRuntimeConfig (rl_epoch l) (rl_output_maximum_slots_per_credit l)
    (rl_output_maximum_bytes_per_credit l) (rl_output_plan_kind l)
    (rl_maximum_prefill_chunk_tokens l) (pml_maximum_execution_bucket_tokens (rl_metadata l))
    (rl_pad_to_maximum_execution_bucket l) (rl_profile_revision l) (rl_resource_vector_hash l)
    (rl_eos_token_id l);
  sv_profile : pts_profile (rt_scheduler rt) = rl_scheduler l;
  sv_requests : ra_limits (ig_requests (rt_ingress rt)) = igl_requests (rl_ingress l);
  sv_mailbox : rt_mailbox_ok rt;
  sv_counted : rt_counted rt }.

Lemma serves_created l rt :
  runtime_limits_ok l -> ControllerRuntime_Create l = Value rt -> rt_serves l rt.
Proof.
  intros Hl E. pose proof (Create_rt_wf l rt Hl E) as [Hw Hr]. pose proof (created_counted l rt E) as Hcn. pose proof Hl as Hl'. revert E.
  unfold ControllerRuntime_Create. case_match; [done|]. unfold ControllerIngress_Create.
  destruct (ControllerMailbox_Create _) as [m|] eqn:Em; cbn; [|done].
  destruct (ControllerRequestArena_Create _) as [a|] eqn:Ea; cbn; [|done].
  destruct (PhaseTierScheduler_Create _) as [s|] eqn:Es; cbn; [|done].
  destruct (PackedTokenMetadataArena_Create _) as [md|]; cbn; [|done].
  destruct (OutputBurstCreditPool_Create _) as [pool|]; cbn; [|done]. intros [= <-].
  destruct Hl as ((Hm & Hq) & _).
  apply Create_mailbox in Em as [Hmw Hma]; [|done]. apply Create_arena in Ea as (_ & Hal & _); [|done].
  split; [done|by intros _|done| |done| |by intros _].
  - revert Es. unfold PhaseTierScheduler_Create. case_match; [done|]. by intros [= <-].
  - split; [done|]. cbn. change (ring_list (mb_events m)) with (fm_events (mailbox_abs m)).
    rewrite Hma. constructor.
Qed.

Lemma serves_keeps l rt rt' :
  rt_serves l rt -> rt_ok rt' -> rt_counted rt' -> keeps rt rt' -> rt_serves l rt'.
Proof.
  intros [] Hok Hn [Hs Hm]. injection Hs as H1 H2 H3. split; [done|done|congruence..|by apply Hm|done].
Qed.
