(* ===== verification/RuntimeProps.v ===== *)
(** * What the controller runtime guarantees

    The invariant of every ready runtime, and the life of a plan: preparing is a
    transaction, a prepared plan can be run or taken back, a completion is
    applied as a whole, an acknowledgement returns its credit once. *)

From stdpp Require Import gmap.
From S2P Require Import Prelude Core Sha256 TokenPlan TokenMetadata Sequence BurstCredits.
From S2P Require Import Mailbox RequestArena Ingress Scheduler Runtime RuntimeInv RuntimePrepare.
From S2P Require Import RuntimeBatch RuntimeComplete RuntimeMachine.

(** ** The sequences of a plan *)

Definition cancel_requested (rt : ControllerRuntime) (j : Z) : bool :=
  state_eqb (cs_state (sequence_at rt j)) SeqState.kCancelRequested.

Lemma holds_not_cancelled plan st s :
  seq_holds plan st s -> cs_state s <> SeqState.kCancelRequested ->
  match st with
  | BurstState.kPrepared => is_prepared (cs_state s) = true
  | BurstState.kCommitted => is_committed_or_in_flight (cs_state s) = true
  | _ => False
  end.
Proof.
  intros (_ & _ & H) Hc. unfold effective_state in H. apply state_eqb_false in Hc. by rewrite Hc in H.
Qed.

Lemma commit_accepts plan s :
  seq_holds plan BurstState.kPrepared s ->
  ok (fst (Sequence.commit s (pp_plan_sequence plan))) =
  negb (state_eqb (cs_state s) SeqState.kCancelRequested).
Proof.
  intros Hh. unfold Sequence.commit, prepared. pose proof Hh as (-> & _ & _).
  rewrite Z.eqb_refl, orb_false_r. destruct (state_eqb (cs_state s) _) eqn:E.
  - apply state_eqb_true in E. by rewrite E.
  - apply state_eqb_false in E. by rewrite (holds_not_cancelled _ _ _ Hh E).
Qed.

Lemma sequence_at_Some rt j s :
  slot_sequence ((rt_slots rt).[j]) = Some s -> sequence_at rt j = s.
Proof. intros E. unfold sequence_at. by rewrite E. Qed.

Lemma forallb_ext_in {A} (f g : A -> bool) l : (forall x, x ∈ l -> f x = g x) -> forallb f l = forallb g l.
Proof.
  induction l as [|x l IH]; intros H; [done|]. cbn. rewrite (H x) by set_solver. f_equal.
  apply IH. intros y Hy. apply H. set_solver.
Qed.

Lemma Forall3_at {A B C} `{Inhabited A, Inhabited B} (P : A -> B -> C -> Prop) l1 l2 l3 :
  Forall3 P l1 l2 l3 -> forall k, 0 <= k < vsize l1 -> exists c, P (l1.[k]) (l2.[k]) c.
Proof.
  induction 1 as [|a b c l1 l2 l3 Hp _ IH]; intros k Hk; [unfold vsize in Hk; cbn in Hk; lia|].
  rewrite vsize_cons in Hk. destruct (decide (k = 0)) as [->|]; [by exists c|].
  unfold vat in *. replace (Z.to_nat k) with (S (Z.to_nat (k - 1))) by lia. apply IH. lia.
Qed.

(** What [commit_current_plan] does to a plan whose credit is prepared. *)
Lemma commit_current_eq rt plan lease digest :
  rt_wf rt -> cp_plan (rt_current rt) = Some plan -> cp_output_burst (rt_current rt) = Some lease ->
  cp_plan_digest (rt_current rt) = digest ->
  lease_view (rt_output_credits rt) lease = Some BurstState.kPrepared ->
  let sel := selected (rt_selected_slot_indices rt) (rt_current rt) in
  let res := commit_current_plan rt (pp_plan_sequence plan) digest in
  if forallb (fun j => negb (cancel_requested rt j)) sel
  then exists slots pool, res = (StatusOk, rt <| rt_output_credits := pool |> <| rt_slots := slots |>) /\
         ran_on (fun s => Sequence.commit s (pp_plan_sequence plan)) rt sel slots /\
         forall l, lease_view pool l =
           lease_set (lease_view (rt_output_credits rt)) lease (Some BurstState.kCommitted) l
  else fst res = Internal "controller plan commit became partial" /\
       rt_state (snd res) = RuntimeState.kFailed.
Proof.
  intros Hw Ep El Ed Hlv sel res. unfold res, commit_current_plan.
  assert (Hid : plan_identity_drifted rt (pp_plan_sequence plan) digest = false).
  { unfold plan_identity_drifted. rewrite Ep, Z.eqb_refl, Ed, bool_decide_true by done. done. }
  rewrite El, Hid. destruct (current_cases rt plan lease Hw Ep El) as (st & Hst & Hh).
  pose proof (hp_lease _ _ _ _ _ _ _ Hh) as Hl2. rewrite Hlv in Hl2. injection Hl2 as <-.
  pose proof (lease_view_range _ _ _ Hlv) as Hr.
  destruct (run_credit_move (rt_output_credits rt) (OpCommitLease lease) _ _ _ ltac:(cbn; lia) eq_refl)
    as [Hyes _]. destruct (Hyes Hlv) as [Ho Hmv]. cbn [run_credit] in Ho, Hmv.
  destruct (BurstCredits.commit _ _) as [cr pool]. cbn [fst snd] in Ho, Hmv. rewrite Ho. cbn [negb].
  set (rt1 := rt <| rt_output_credits := pool |>).
  pose proof (for_current_spec (fun s => Sequence.commit s (pp_plan_sequence plan))
    "controller plan commit became partial" rt1 _ _ _ _ Hh) as Hf.
  cbn zeta in Hf. change (rt_selected_slot_indices rt1) with (rt_selected_slot_indices rt) in Hf.
  change (rt_current rt1) with (rt_current rt) in Hf |- *.
  fold sel in Hf. rewrite (forallb_ext_in _ (fun j => negb (cancel_requested rt j))) in Hf.
  2: { intros j Hj. destruct (hp_slots _ _ _ _ _ _ _ Hh j Hj) as (_ & s & Es & Hs).
       unfold cancel_requested. change (sequence_at rt1 j) with (sequence_at rt j).
       rewrite (sequence_at_Some rt j s Es). by apply commit_accepts. }
  destruct (forallb _ sel); [|exact Hf].
  destruct Hf as (slots & Hf & Hran). exists slots, pool. split; [exact Hf|]. by split.
Qed.

(** One sequence through the stages of a plan, and back. *)
Lemma prepared_stages s p phase n :
  ok (fst (prepare s p phase n)) = true ->
  let s1 := snd (prepare s p phase n) in
  cs_state s1 = prepared_state phase /\
  Sequence.commit s1 p = (StatusOk, s1 <| cs_state := committed_state phase |>) /\
  mark_in_flight (s1 <| cs_state := committed_state phase |>) p =
    (StatusOk, s1 <| cs_state := inflight_state phase |>) /\
  (seq_wf s -> abort_prepared s1 p = (StatusOk, s <| cs_active_phase := phase |>)).
Proof.
  intros Ho s1. destruct (prepare_ok _ _ _ _ Ho) as (Hp & Hn & Ha & _ & Hst & E).
  unfold s1. rewrite E. clear s1 E. split_and!.
  - done.
  - unfold Sequence.commit, prepared. cbn. rewrite Z.eqb_refl. by destruct phase.
  - unfold mark_in_flight, committed_or_in_flight. cbn. rewrite Z.eqb_refl. by destruct phase.
  - intros ((_ & _ & _ & _ & _ & _ & _ & _ & Hnd) & _ & _ & Hat).
    unfold abort_prepared, prepared. cbn. rewrite Z.eqb_refl.
    assert (Hf : plan_free s).
    { destruct Hst as [[Es _]|[Es _]]; rewrite Es in Hat; cbn in Hat; apply Hat. }
    destruct Hf as [Hf1 Hf2].
    destruct Hst as [[Es ->]|[Es Eph]]; cbn.
    + f_equal. destruct s. cbn in *. by subst.
    + destruct phase; cbn; [congruence| |]; f_equal; destruct s; cbn in *; by subst.
Qed.

(** *** What a prepared plan looks like from the next state *)

Section Prepared.
Context (rt rt1 : ControllerRuntime) (now : Z) (v : ControllerPreparedPlanView).
Context (Hw : rt_wf rt) (Hrd : rt_state rt = RuntimeState.kReady)
  (Hprep : prepare_next_plan rt now = (Value (Some v), rt1)).
Let plan := ppv_plan v.
Let sel := ppv_selected_slot_indices v.

Lemma prepared_next : rt_wf rt1 /\ plan_prepared rt rt1 v.
Proof.
  destruct (prepare_next_plan_spec rt now Hw Hrd) as [Hw1 Ho]. rewrite Hprep in Hw1, Ho. by split.
Qed.

Lemma prepared_sequence j : j ∈ sel ->
  0 <= j < vsize (rt_slots rt) /\
  exists s n, slot_sequence ((rt_slots rt).[j]) = Some s /\ seq_wf s /\
    ok (fst (prepare s (pp_plan_sequence plan) (pp_phase plan) n)) = true /\
    (rt_slots rt1).[j] = (rt_slots rt).[j] <| RuntimeSlot.sequence :=
      Some (snd (prepare s (pp_plan_sequence plan) (pp_phase plan) n)) |> /\
    sequence_at rt1 j = snd (prepare s (pp_plan_sequence plan) (pp_phase plan) n).
Proof.
  intros Hj. destruct prepared_next as [_ Hp]. pose proof (pr_sequence _ _ _ Hp) as Eps.
  destruct (pr_slots _ _ _ Hp j Hj) as (Hr & s & n & Es & Ho & _ & E1). split; [done|].
  rewrite <- Eps in Ho, E1. exists s, n. split; [done|].
  pose proof (wf_at _ _ Hw Hr) as (_ & _ & Hq). rewrite Es in Hq.
  split; [apply Hq|]. split; [done|]. split; [done|]. apply sequence_at_Some. by rewrite E1.
Qed.

Lemma prepared_commit :
  exists slots pool, commit_current_plan rt1 (pp_plan_sequence plan) (ppv_plan_digest v) =
      (StatusOk, rt1 <| rt_output_credits := pool |> <| rt_slots := slots |>) /\
    ran_on (fun s => Sequence.commit s (pp_plan_sequence plan)) rt1 sel slots /\
    rt_wf (rt1 <| rt_output_credits := pool |> <| rt_slots := slots |>).
Proof.
  destruct prepared_next as [Hw1 Hp]. destruct (pr_credit _ _ _ Hp) as (lease & El & _ & Hlv).
  pose proof (commit_current_eq rt1 plan lease (ppv_plan_digest v) Hw1 (pr_plan _ _ _ Hp) El
    (proj1 (pr_digest _ _ _ Hp)) ltac:(rewrite Hlv; unfold lease_set; by rewrite decide_True)) as Hc.
  cbn zeta in Hc. rewrite (pr_selected _ _ _ Hp) in Hc. fold sel in Hc.
  rewrite (forallb_ext_in _ (fun _ => true)) in Hc.
  2: { intros j Hj. destruct (prepared_sequence j Hj) as (_ & s & n & _ & _ & Ho & _ & Eq).
       unfold cancel_requested. rewrite Eq.
       destruct (prepared_stages _ _ _ _ Ho) as (-> & _). by destruct (pp_phase plan). }
  assert (E : forallb (fun _ : Z => true) sel = true) by (clear; by induction sel). rewrite E in Hc.
  destruct Hc as (slots & pool & Hc & Hran & _). exists slots, pool. split; [done|]. split; [done|].
  assert (Hok : rt_ok (snd (commit_current_plan rt1 (pp_plan_sequence plan) (ppv_plan_digest v)))).
  { apply commit_current_ok; [|by intros _]. unfold plan. rewrite (pr_sequence _ _ _ Hp). apply Hw. }
  rewrite Hc in Hok. cbn [snd] in Hok. apply Hok. cbn. by rewrite (pr_state _ _ _ Hp).
Qed.

End Prepared.

(** C10. A prepared plan runs: right after [prepare_next_plan] returned a plan,
    [commit_current_plan] and then [mark_current_plan_in_flight] with its
    identity succeed, the runtime stays ready, and every selected sequence is in
    flight for the plan. *)
Theorem prepared_plan_runs rt now v rt1
    (Hr : m_reachable rt) (Hrd : rt_state rt = RuntimeState.kReady)
    (Hprep : prepare_next_plan rt now = (Value (Some v), rt1)) :
  let plan := ppv_plan v in
  exists rt2 rt3,
    commit_current_plan rt1 (pp_plan_sequence plan) (ppv_plan_digest v) = (StatusOk, rt2) /\
    mark_current_plan_in_flight rt2 (pp_plan_sequence plan) (ppv_plan_digest v) = (StatusOk, rt3) /\
    rt_state rt3 = RuntimeState.kReady /\
    forall j, j ∈ ppv_selected_slot_indices v ->
      cs_state (sequence_at rt3 j) = inflight_state (pp_phase plan) /\
      cs_active_plan_sequence (sequence_at rt3 j) = pp_plan_sequence plan.
Proof.
  intros plan. pose proof (reachable_wf rt Hr Hrd) as Hw.
  destruct (prepared_next rt rt1 now v Hw Hrd Hprep) as [Hw1 Hp].
  destruct (prepared_commit rt rt1 now v Hw Hrd Hprep) as (slots & pool & Hc & [Hvs Hran] & Hw2).
  set (rt2 := rt1 <| rt_output_credits := pool |> <| rt_slots := slots |>) in *.
  destruct (pr_credit _ _ _ Hp) as (lease & El & _ & Hlv).
  destruct (current_cases rt2 plan lease Hw2 (pr_plan _ _ _ Hp) El) as (st & Hst & Hh).
  pose proof (for_current_spec (fun s => mark_in_flight s (pp_plan_sequence plan))
    "controller in-flight publication became partial" rt2 _ _ _ _ Hh) as Hf. cbn zeta in Hf.
  change (selected (rt_selected_slot_indices rt2) (rt_current rt2))
    with (selected (rt_selected_slot_indices rt1) (rt_current rt1)) in Hf.
  rewrite (pr_selected _ _ _ Hp) in Hf.
  assert (Hseq : forall j, j ∈ ppv_selected_slot_indices v -> 0 <= j < vsize (rt_slots rt2) /\
    exists s1, sequence_at rt2 j = s1 <| cs_state := committed_state (pp_phase plan) |> /\
      cs_active_plan_sequence s1 = pp_plan_sequence plan /\
      mark_in_flight (sequence_at rt2 j) (pp_plan_sequence plan) =
        (StatusOk, s1 <| cs_state := inflight_state (pp_phase plan) |>)).
  { intros j Hj. destruct (prepared_sequence rt rt1 now v Hw Hrd Hprep j Hj) as (Hjr & s & n & Es & _ & Ho & E1 & Eq).
    destruct (prepared_stages _ _ _ _ Ho) as (_ & Ec & Em & _).
    assert (Hjr1 : 0 <= j < vsize (rt_slots rt1)) by (by rewrite (pr_size _ _ _ Hp)).
    split; [unfold rt2; cbn; lia|].
    assert (E2 : sequence_at rt2 j = snd (Sequence.commit (sequence_at rt1 j) (pp_plan_sequence plan))).
    { apply sequence_at_Some. unfold rt2. cbn [rt_slots upd]. rewrite Hran by done. by rewrite decide_True. }
    rewrite Eq in E2. unfold plan in *. rewrite Ec in E2. eexists. rewrite E2. cbn [snd].
    split; [reflexivity|]. split; [|exact Em].
    destruct (prepare_ok _ _ _ _ Ho) as (_ & _ & _ & _ & _ & ->). done. }
  rewrite (forallb_ext_in _ (fun _ => true)) in Hf.
  2: { intros j Hj. destruct (Hseq j Hj) as (_ & s1 & _ & _ & ->). done. }
  assert (E : forallb (fun _ : Z => true) (ppv_selected_slot_indices v) = true)
    by (clear; by induction (ppv_selected_slot_indices v)). rewrite E in Hf.
  destruct Hf as (slots3 & Hf & Hv3 & Hran3). exists rt2, (rt2 <| rt_slots := slots3 |>).
  split; [exact Hc|]. split; [|split].
  - unfold mark_current_plan_in_flight, plan_identity_drifted.
    change (rt_current rt2) with (rt_current rt1). rewrite (pr_plan _ _ _ Hp), Z.eqb_refl.
    rewrite (proj1 (pr_digest _ _ _ Hp)), bool_decide_true by done. exact Hf.
  - cbn. by rewrite (pr_state _ _ _ Hp).
  - intros j Hj. destruct (Hseq j Hj) as (Hjr & s1 & _ & Ha & Em).
    assert (E3 : sequence_at (rt2 <| rt_slots := slots3 |>) j = s1 <| cs_state := inflight_state (pp_phase plan) |>).
    { apply sequence_at_Some. cbn [rt_slots upd]. rewrite Hran3 by done. rewrite decide_True by done.
      by rewrite Em. }
    by rewrite E3.
Qed.

(** C38. Taking a prepared plan back restores what preparing it changed:
    [abort_current_plan] succeeds, every selected sequence is what it was before
    (but for the phase it last prepared), the other slots and the leases of the
    credit pool are as before, and the runtime has no current plan. *)
Theorem prepare_abort_roundtrip rt now v rt1
    (Hr : m_reachable rt) (Hrd : rt_state rt = RuntimeState.kReady)
    (Hprep : prepare_next_plan rt now = (Value (Some v), rt1)) :
  exists rt2,
    abort_current_plan rt1 (pp_plan_sequence (ppv_plan v)) (ppv_plan_digest v) = (StatusOk, rt2) /\
    rt_state rt2 = RuntimeState.kReady /\ rt_current rt2 = no_current_plan /\
    (forall l, lease_view (rt_output_credits rt2) l = lease_view (rt_output_credits rt) l) /\
    vsize (rt_slots rt2) = vsize (rt_slots rt) /\
    forall j, 0 <= j < vsize (rt_slots rt) ->
      (rt_slots rt2).[j] =
        if decide (j ∈ ppv_selected_slot_indices v)
        then (rt_slots rt).[j] <| RuntimeSlot.sequence :=
               Some ((sequence_at rt j) <| cs_active_phase := pp_phase (ppv_plan v) |>) |>
        else (rt_slots rt).[j].
Proof.
  pose proof (reachable_wf rt Hr Hrd) as Hw.
  destruct (prepared_next rt rt1 now v Hw Hrd Hprep) as [Hw1 Hp].
  destruct (pr_credit _ _ _ Hp) as (lease & El & Hnone & Hlv).
  destruct (current_cases rt1 (ppv_plan v) lease Hw1 (pr_plan _ _ _ Hp) El) as (st & Hst & Hh).
  set (plan := ppv_plan v) in *. set (sel := ppv_selected_slot_indices v) in *.
  pose proof (for_current_spec (fun s => abort_prepared s (pp_plan_sequence plan))
    "controller plan abort became partial" rt1 _ _ _ _ Hh) as Hf. cbn zeta in Hf.
  rewrite (pr_selected _ _ _ Hp) in Hf. fold sel in Hf.
  assert (Hseq : forall j, j ∈ sel -> abort_prepared (sequence_at rt1 j) (pp_plan_sequence plan) =
    (StatusOk, (sequence_at rt j) <| cs_active_phase := pp_phase plan |>) /\
    (rt_slots rt1).[j] <| RuntimeSlot.sequence :=
      Some ((sequence_at rt j) <| cs_active_phase := pp_phase plan |>) |> =
    (rt_slots rt).[j] <| RuntimeSlot.sequence :=
      Some ((sequence_at rt j) <| cs_active_phase := pp_phase plan |>) |>).
  { intros j Hj. destruct (prepared_sequence rt rt1 now v Hw Hrd Hprep j Hj) as (_ & s & n & Es & Hs & Ho & E1 & Eq).
    rewrite Eq, E1, (sequence_at_Some rt j s Es). split; [|done].
    destruct (prepared_stages _ _ _ _ Ho) as (_ & _ & _ & Hab). by apply Hab. }
  rewrite (forallb_ext_in _ (fun _ => true)) in Hf by (intros j Hj; by destruct (Hseq j Hj) as [-> _]).
  assert (E : forallb (fun _ : Z => true) sel = true) by (clear; by induction sel). rewrite E in Hf.
  destruct Hf as (slots & Hf & Hvs & Hran).
  assert (Hl1 : lease_view (rt_output_credits rt1) lease = Some BurstState.kPrepared)
    by (rewrite Hlv; unfold lease_set; by rewrite decide_True).
  pose proof (lease_view_range _ _ _ Hl1) as Hrg.
  destruct (run_credit_move (rt_output_credits rt1) (OpAbortLease lease) _ _ _ ltac:(cbn; lia) eq_refl)
    as [Hyes _]. destruct (Hyes Hl1) as [Ho Hmv]. cbn [run_credit] in Ho, Hmv.
  unfold abort_current_plan, plan_identity_drifted. rewrite El, (pr_plan _ _ _ Hp), Z.eqb_refl.
  rewrite (proj1 (pr_digest _ _ _ Hp)), bool_decide_true by done. cbn [negb orb]. rewrite Hf.
  change (negb (ok StatusOk)) with false. cbn beta iota. cbn [rt_output_credits upd].
  destruct (abort _ _) as [cr pool]. cbn [fst snd] in Ho, Hmv. rewrite Ho. cbn [negb].
  eexists. split; [reflexivity|]. split; [cbn; by rewrite (pr_state _ _ _ Hp)|]. split; [done|].
  split; [|split; [cbn; by rewrite Hvs, (pr_size _ _ _ Hp)|]].
  - intros l. cbn. rewrite Hmv. unfold lease_set. case_decide as E1; [by rewrite E1|].
    rewrite Hlv. unfold lease_set. by rewrite decide_False.
  - intros j Hj. cbn. rewrite Hran by (by rewrite (pr_size _ _ _ Hp)). case_decide as Hin.
    + destruct (Hseq j Hin) as [-> Es]. exact Es.
    + by apply (pr_others _ _ _ Hp).
Qed.

(** C25. Committing depends on cancellations: while the credit of the current
    plan is prepared, [commit_current_plan] with its identity succeeds and
    commits every selected sequence and the credit if no selected sequence has
    been asked to cancel since it was prepared; otherwise the call stops the
    runtime. *)
Theorem commit_current_plan_outcome rt plan lease
    (Hr : m_reachable rt) (Hrd : rt_state rt = RuntimeState.kReady)
    (Hp : cp_plan (rt_current rt) = Some plan)
    (Hl : cp_output_burst (rt_current rt) = Some lease)
    (Hst : lease_view (rt_output_credits rt) lease = Some BurstState.kPrepared) :
  let sel := selected (rt_selected_slot_indices rt) (rt_current rt) in
  let res := commit_current_plan rt (pp_plan_sequence plan) (cp_plan_digest (rt_current rt)) in
  if existsb (cancel_requested rt) sel
  then fst res = Internal "controller plan commit became partial" /\
       rt_state (snd res) = RuntimeState.kFailed
  else fst res = StatusOk /\ rt_state (snd res) = RuntimeState.kReady /\
       lease_view (rt_output_credits (snd res)) lease = Some BurstState.kCommitted /\
       (forall j, j ∈ sel -> cs_state (sequence_at (snd res) j) = committed_state (pp_phase plan)) /\
       forall j, 0 <= j < vsize (rt_slots rt) -> j ∉ sel ->
         (rt_slots (snd res)).[j] = (rt_slots rt).[j].
Proof.
  intros sel res. pose proof (reachable_wf rt Hr Hrd) as Hw.
  pose proof (commit_current_eq rt plan lease _ Hw Hp Hl eq_refl Hst) as Hc. cbn zeta in Hc.
  fold sel res in Hc.
  assert (E : forallb (fun j => negb (cancel_requested rt j)) sel = negb (existsb (cancel_requested rt) sel)).
  { clear. induction sel as [|j l IH]; [done|]. cbn. by rewrite IH, negb_orb. }
  rewrite E in Hc. destruct (existsb _ sel) eqn:Ex; [exact Hc|]. cbn [negb] in Hc.
  destruct Hc as (slots & pool & -> & [Hvs Hran] & Hmv). cbn [fst snd].
  destruct (current_cases rt plan lease Hw Hp Hl) as (st & _ & Hh).
  pose proof (hp_lease _ _ _ _ _ _ _ Hh) as Hl2. rewrite Hst in Hl2. injection Hl2 as <-.
  split_and!; [done|done| | |].
  - cbn. rewrite Hmv. unfold lease_set. by rewrite decide_True.
  - intros j Hj. destruct (hp_slots _ _ _ _ _ _ _ Hh j Hj) as (Hjr & s & Es & Hs).
    assert (Ej : sequence_at (rt <| rt_output_credits := pool |> <| rt_slots := slots |>) j =
      snd (Sequence.commit s (pp_plan_sequence plan))).
    { apply sequence_at_Some. cbn [rt_slots upd]. rewrite Hran, decide_True by done. cbn.
      by rewrite (sequence_at_Some rt j s Es). }
    rewrite Ej. pose proof (commit_accepts plan s Hs) as Hok.
    replace (state_eqb (cs_state s) SeqState.kCancelRequested) with false in Hok.
    + unfold Sequence.commit in *. destruct (_ || _); [done|]. cbn. destruct Hs as (_ & -> & _). done.
    + symmetry. apply (existsb_false_Forall _ _) in Ex. rewrite Forall_forall in Ex.
      specialize (Ex j Hj). unfold cancel_requested in Ex. by rewrite (sequence_at_Some rt j s Es) in Ex.
  - intros j Hj Hn. cbn. rewrite Hran by done. by rewrite decide_False.
Qed.

(** C5. The parts of a ready runtime agree: every occupied slot holds a
    well-formed sequence; the current plan has a live credit, prepared or
    committed, and each slot it selected, once, holds a sequence at that stage
    of that plan; a runtime without a current plan holds no credit for one; the
    pending bursts are distinct transferred credits. *)
Theorem runtime_invariant rt
    (Hr : m_reachable rt) (Hrd : rt_state rt = RuntimeState.kReady) :
  (forall j s, 0 <= j < vsize (rt_slots rt) -> slot_sequence ((rt_slots rt).[j]) = Some s ->
     seq_wf s) /\
  match cp_plan (rt_current rt), cp_output_burst (rt_current rt) with
  | None, None => True
  | Some plan, Some lease =>
      let sel := selected (rt_selected_slot_indices rt) (rt_current rt) in
      NoDup sel /\ exists st, (st = BurstState.kPrepared \/ st = BurstState.kCommitted) /\
        lease_view (rt_output_credits rt) lease = Some st /\
        forall j, j ∈ sel -> 0 <= j < vsize (rt_slots rt) /\
          exists s, slot_sequence ((rt_slots rt).[j]) = Some s /\ seq_holds plan st s
  | _, _ => False
  end /\
  (forall k l, 0 <= k < vsize (rt_pending_output_bursts rt) ->
     (rt_pending_output_bursts rt).[k] = Some l ->
     lease_view (rt_output_credits rt) l = Some BurstState.kTransferred /\
     forall k', 0 <= k' < vsize (rt_pending_output_bursts rt) ->
       (rt_pending_output_bursts rt).[k'] = Some l -> k' = k).
Proof.
  pose proof (reachable_wf rt Hr Hrd) as Hw. split; [|split].
  - intros j s Hj Es. pose proof (wf_at _ _ Hw Hj) as (_ & _ & Hq). rewrite Es in Hq. apply Hq.
  - pose proof (rw_current _ Hw) as Hc. unfold current_ok in Hc.
    destruct (cp_plan _), (cp_output_burst _); try done. destruct Hc as (st & Hst & []).
    split; [done|]. by exists st.
  - pose proof (rw_pending _ Hw) as (_ & H2 & H3). intros k l Hk El. split; [by eapply H2|].
    intros k' Hk' El'. by eapply H3.
Qed.

(** C6. [prepare_next_plan] is a transaction: it returns a plan that it has
    recorded with its semantic digest and the next plan sequence, with a new
    prepared credit, and with every selected sequence prepared for it and no
    other slot touched; in every other case slots, credits, current plan and
    plan sequence are unchanged and the runtime is still ready. *)
Theorem prepare_plan_transaction rt now
    (Hr : m_reachable rt) (Hrd : rt_state rt = RuntimeState.kReady) :
  let res := prepare_next_plan rt now in
  rt_state (snd res) = RuntimeState.kReady /\
  match fst res with
  | Value (Some v) => cp_plan (rt_current rt) = None /\ plan_prepared rt (snd res) v
  | _ => plan_untouched rt (snd res)
  end.
Proof.
  intros res. destruct (prepare_next_plan_spec rt now (reachable_wf rt Hr Hrd) Hrd) as [_ Ho].
  fold res in Ho. destruct (fst res) as [[v|]|e] eqn:E.
  - split; [by rewrite (pr_state _ _ _ Ho)|]. split; [|done].
    destruct (cp_plan (rt_current rt)) eqn:Ep; [|done]. exfalso. revert E. unfold res, prepare_next_plan.
    rewrite Ep, bool_decide_true by (by eexists). by rewrite orb_true_r.
  - split; [|done]. destruct Ho as (_ & _ & _ & -> & _). done.
  - split; [|done]. destruct Ho as (_ & _ & _ & -> & _). done.
Qed.

(** C2. A completion has one of three outcomes.  It is refused, and the runtime is
    exactly as it was.  Or it ends the plan: every result is applied to its
    sequence and no other slot changes, the events of the whole batch are
    appended in order, and the credit is freed if there are none and kept for
    an acknowledgement otherwise.  Or it stops the runtime for good with part of
    the batch applied, and this only if a condition of [completion_safe] does not
    hold: the calling thread does not own the mailbox, the 64-bit event numbers
    would run out, the 32-bit counter of decode rounds is at its maximum, or a
    state digest is zero. *)
Theorem complete_plan_atomic rt self results now plan lease
    (Hr : m_reachable rt) (Hrd : rt_state rt = RuntimeState.kReady)
    (Hp : cp_plan (rt_current rt) = Some plan)
    (Hl : cp_output_burst (rt_current rt) = Some lease)
    (Hty : Forall (fun r => completion_typed (br_completion r)) results) :
  let sel := selected (rt_selected_slot_indices rt) (rt_current rt) in
  let res := complete_current_plan rt self results now in
  if ok (fst res)
  then
    rt_state (snd res) = RuntimeState.kReady /\ rt_current (snd res) = no_current_plan /\
    vsize results = vsize sel /\
    (forall k, 0 <= k < vsize sel ->
       complete (sequence_at rt (sel.[k])) (br_completion (results.[k])) =
         (StatusOk, sequence_at (snd res) (sel.[k]))) /\
    (forall j, 0 <= j < vsize (rt_slots rt) -> j ∉ sel ->
       (rt_slots (snd res)).[j] = (rt_slots rt).[j]) /\
    (exists digests, Forall3 (validated rt) sel results digests /\
       fm_events (rt_fifo (snd res)) = fm_events (rt_fifo rt) ++
         number_events (fm_next_event (rt_fifo rt))
           (batch_drafts rt (pp_plan_sequence plan) (batch_events rt sel results) 0 sel results
              digests)) /\
    credit_settled (rt_output_credits rt) (rt_pending_output_bursts rt) lease
      (batch_events rt sel results) (rt_output_credits (snd res))
      (rt_pending_output_bursts (snd res))
  else
    snd res = rt \/
    (rt_state (snd res) = RuntimeState.kFailed /\ ~ completion_safe rt self results plan).
Proof.
  intros sel res. pose proof (reachable_wf rt Hr Hrd) as Hw.
  destruct (current_cases rt plan lease Hw Hp Hl) as (st & _ & Hh).
  pose proof (selected_applicable rt plan lease st Hw Hh) as Hap. fold sel in Hap.
  destruct (complete_current_plan_spec rt self now results plan lease Hw Hp Hl Hty)
    as [[Ho Hsame]|[(Ho & Hst & Hb)|(Ho & [] & _)]].
  - fold res in Ho, Hsame. rewrite Ho. by left.
  - fold res in Ho, Hst. rewrite Ho. right. split; [done|]. intros Hs. by eapply safe_not_broken.
  - fold res in Ho, co_state, co_current, co_slots, co_events, co_credit. fold sel in co_slots, co_events, co_credit.
    rewrite Ho. cbn [ok StatusOk Status_new code bool_decide]. destruct co_events as (digests & Hva & Hsend).
    pose proof (Forall3_length_lm _ _ _ _ Hva) as Hlen.
    assert (Hrng : Forall (fun i => 0 <= i < vsize (rt_slots rt)) sel)
      by (eapply Forall_impl; [exact Hap|]; by intros j [? _]).
    assert (Hnd : NoDup sel) by apply Hh.
    apply send_all_sent in Hsend as (He & _).
    split; [by rewrite co_state|]. split; [done|]. split; [unfold vsize; by rewrite Hlen|].
    split; [|split; [|split; [by exists digests|done]]].
    + intros k Hk. destruct (batch_slots_at rt (pp_plan_sequence plan) now sel results
        (rt_next_ready_enqueue_sequence rt) (rt_slots rt) k Hlen Hnd Hk Hrng) as [n E].
      rewrite <- co_slots in E.
      assert (Hv : exists d, validated rt (sel.[k]) (results.[k]) d).
      { apply (Forall3_at _ _ _ _ Hva). unfold vsize in *. lia. }
      destruct Hv as [d Hv]. pose proof (complete_state _ _ (va_ok _ _ _ _ Hv)) as (Hok & _).
      assert (Es : sequence_at (snd res) (sel.[k]) =
        snd (complete (sequence_at rt (sel.[k])) (br_completion (results.[k])))).
      { apply sequence_at_Some. rewrite E. unfold completed_slot. by destruct (will_drain _ _). }
      rewrite Es. unfold complete. by rewrite (va_ok _ _ _ _ Hv).
    + intros j Hj Hn. rewrite co_slots. apply batch_slots_other; [done|lia|done].
Qed.

Lemma first_index_existsb {A} (f : A -> bool) l i :
  existsb f l = false <-> first_index f l i = None.
Proof.
  rewrite first_index_None. split.
  - intros H. by apply existsb_false_Forall.
  - induction 1 as [|x l Hx _ IH]; [done|]. cbn. by rewrite Hx, IH.
Qed.

Lemma release_available pool lease :
  pool_wf pool -> lease_view pool lease = Some BurstState.kTransferred ->
  available (snd (BurstCredits.release pool lease)) = available pool + 1.
Proof.
  intros (Hc & _ & _ & Hsz & _) Hl. apply lease_view_range in Hl as Hr. destruct Hr as (Hr & Hs & _).
  assert (Hv : ok (validate pool lease BurstState.kTransferred) = true)
    by (apply validate_view; [lia|done|done]).
  unfold BurstCredits.release. rewrite Hv. cbn [snd]. unfold available. cbn [bp_credits upd].
  pose proof (count_if_bounds credit_free
    ((bp_credits pool).[bl_credit_index lease <-
       empty_credit <| cr_generation := cr_generation ((bp_credits pool).[bl_credit_index lease]) |>])) as Hb.
  rewrite vsize_vput in Hb. rewrite count_if_vput in Hb |- * by done.
  assert (E1 : credit_free ((bp_credits pool).[bl_credit_index lease]) = false)
    by (unfold credit_free; by rewrite Hs).
  rewrite E1 in Hb |- *. cbn [Z.b2z credit_free empty_credit cr_state upd burst_eqb burst_value Z.eqb] in Hb |- *.
  pose proof (count_if_bounds credit_free (bp_credits pool)). unfold is_u32 in Hc.
  rewrite !wrap32_id by (unfold is_u32; lia). lia.
Qed.

(** An acknowledgement returns its credit exactly once:
    [acknowledge_output_plan] of a plan with a pending burst succeeds, makes one
    more credit available, and a second acknowledgement of the same plan is
    refused; for any other plan sequence the call is refused and changes
    nothing. *)
Theorem acknowledge_once rt plan_sequence
    (Hr : m_reachable rt) (Hrd : rt_state rt = RuntimeState.kReady) :
  let res := acknowledge_output_plan rt plan_sequence in
  if negb (plan_sequence =? 0) &&
     existsb (burst_of_plan plan_sequence) (rt_pending_output_bursts rt)
  then
    fst res = StatusOk /\ rt_state (snd res) = RuntimeState.kReady /\
    available_output_burst_credits (snd res) = available_output_burst_credits rt + 1 /\
    acknowledge_output_plan (snd res) plan_sequence =
      (FailedPrecondition "controller output ACK is stale or forged", snd res)
  else ok (fst res) = false /\ snd res = rt.
Proof.
  intros res. pose proof (reachable_wf rt Hr Hrd) as Hw. unfold res, acknowledge_output_plan.
  destruct (plan_sequence =? 0) eqn:E0; cbn [negb andb]; [done|].
  destruct (existsb _ _) eqn:Ex.
  2: { by rewrite (proj1 (first_index_existsb _ _ 0) Ex). }
  destruct (first_index _ _ 0) as [k|] eqn:Ek.
  2: { apply first_index_existsb in Ek. congruence. }
  apply first_index_Some in Ek as (Hk & Hf & _). rewrite Z.add_0_l in Hk. rewrite Z.sub_0_r in Hf.
  destruct ((rt_pending_output_bursts rt).[k]) as [lease|] eqn:El; [|done].
  pose proof (rw_pending _ Hw) as (P1 & P2 & P3). pose proof (P2 k lease Hk El) as Hlv.
  destruct (release_transferred _ _ (rw_credits _ Hw) Hlv) as (Ho & _ & _ & _).
  pose proof (release_available _ _ (rw_credits _ Hw) Hlv) as Hav.
  destruct (BurstCredits.release _ _) as [st pool]. cbn [fst snd] in Ho, Hav. rewrite Ho. cbn [negb].
  cbn [fst snd]. split_and!; [done|done|exact Hav|]. cbn [rt_pending_output_bursts upd].
  replace (first_index _ _ 0) with (@None Z); [done|]. symmetry. apply first_index_None.
  apply Forall_forall. intros o Ho'. apply list_elem_of_In, In_vat in Ho' as (j & Hj & <-).
  rewrite vsize_vput in Hj. rewrite vat_vput by lia. destruct (Z.eqb_spec j k) as [->|Hne]; [done|].
  destruct ((rt_pending_output_bursts rt).[j]) as [l|] eqn:Ej; [|done]. cbn in Hf |- *.
  apply Z.eqb_eq in Hf. apply Z.eqb_neq. intros Epl. apply Hne.
  apply (P3 j k l lease Hj Hk Ej El).
  pose proof (P2 j l Hj Ej) as Hv. apply lease_view_range in Hv as (Hr1 & Hs1 & _ & Hd1).
  apply lease_view_range in Hlv as (Hr2 & Hs2 & _ & Hd2). apply lease_drifted_false in Hd1, Hd2.
  destruct (rw_credits _ Hw) as (_ & _ & _ & _ & _ & Hu). apply Hu; try done.
  - unfold credit_free. by rewrite Hs1.
  - unfold credit_free. by rewrite Hs2.
  - rewrite Hd1 in Epl at 1. rewrite Hd2 in Hf at 1. cbn in Epl, Hf. congruence.
Qed.

(** ** A run

    Two slots, prefill chunks of two tokens, a prompt of three tokens: the first
    plan is a prefill chunk that samples nothing, the second one samples. *)

Definition sample_runtime_limits : ControllerRuntimeLimits :=
  MkRuntimeLimits 1 2 (MkIngressLimits (MkMailboxLimits 4 8) (MkRequestLimits 2 8 16))
    (MkProfile 2 2 4 4 2 1000) (MkMetadataLimits 2 4) 2 false "r" one_digest 99 2 4 4096 kQwen.

(** The value of a call that succeeds. *)
Definition of_value {A} (r : Result A) : if rok r then A else unit :=
  match r return if rok r then A else unit with Value a => a | Error _ => tt end.

Definition sample_runtime : ControllerRuntime :=
  of_value (ControllerRuntime_Create sample_runtime_limits).

Definition after (ops : list rt_op) : ControllerRuntime := snd (m_trace sample_runtime ops).

Lemma sample_runtime_reachable : m_reachable sample_runtime.
Proof.
  exists sample_runtime. split; [|apply rtc_refl]. exists sample_runtime_limits. split.
  - unfold runtime_limits_ok, ingress_limits_ok, mailbox_limits_ok, limits_ok, profile_typed, is_u32.
    cbn. lia.
  - vm_compute. reflexivity.
Qed.

Lemma after_reachable ops : Forall m_typed ops -> m_reachable (after ops).
Proof. intros Ht. apply trace_reachable; [exact sample_runtime_reachable|done]. Qed.

Definition admit_ops : list rt_op := [RtSubmitAdmit 7 [5; 6; 8] 3 default_sampling; RtStep 1 10].
Definition prepare_ops : list rt_op := admit_ops ++ [RtPrepare 20].

Definition admitted_runtime : ControllerRuntime := Eval vm_compute in after admit_ops.
Definition prepared_runtime : ControllerRuntime := Eval vm_compute in after prepare_ops.
Definition chunk_digest : Sha256Digest := Eval vm_compute in cp_plan_digest (rt_current prepared_runtime).

Definition flight_ops : list rt_op :=
  prepare_ops ++ [RtCommit 1 chunk_digest; RtMarkInFlight 1 chunk_digest].
Definition flight_runtime : ControllerRuntime := Eval vm_compute in after flight_ops.

(** A cancel of the prepared sequence, taken by the controller before the
    commit. *)
Definition cancel_ops : list rt_op := prepare_ops ++ [RtSubmitCancel 7; RtStep 1 25].
Definition cancelled_runtime : ControllerRuntime := Eval vm_compute in after cancel_ops.

Lemma admitted_reachable : m_reachable admitted_runtime.
Proof.
  replace admitted_runtime with (after admit_ops) by (vm_compute; reflexivity).
  apply after_reachable. repeat constructor; cbn; unfold is_u64; lia.
Qed.

Lemma prepared_reachable : m_reachable prepared_runtime.
Proof.
  replace prepared_runtime with (after prepare_ops) by (vm_compute; reflexivity).
  apply after_reachable. repeat constructor; cbn; unfold is_u64; lia.
Qed.

Lemma flight_reachable : m_reachable flight_runtime.
Proof.
  replace flight_runtime with (after flight_ops) by (vm_compute; reflexivity).
  apply after_reachable. repeat constructor; cbn; unfold is_u64; lia.
Qed.

Lemma cancelled_reachable : m_reachable cancelled_runtime.
Proof.
  replace cancelled_runtime with (after cancel_ops) by (vm_compute; reflexivity).
  apply after_reachable. repeat constructor; cbn; unfold is_u64; lia.
Qed.

Lemma prepared_plan_runs_witness :
  exists v rt1 rt2 rt3, prepare_next_plan admitted_runtime 20 = (Value (Some v), rt1) /\
    commit_current_plan rt1 (pp_plan_sequence (ppv_plan v)) (ppv_plan_digest v) = (StatusOk, rt2) /\
    mark_current_plan_in_flight rt2 (pp_plan_sequence (ppv_plan v)) (ppv_plan_digest v) =
      (StatusOk, rt3) /\
    ppv_selected_slot_indices v = [0] /\
    cs_state (sequence_at rt3 0) = SeqState.kPrefillInFlight.
Proof.
  assert (Hx : match prepare_next_plan admitted_runtime 20 with
    | (Value (Some v), _) => bool_decide (ppv_selected_slot_indices v = [0] /\
        pp_phase (ppv_plan v) = kPrefill)
    | _ => false end = true) by (vm_compute; reflexivity).
  destruct (prepare_next_plan admitted_runtime 20) as [[[v|]|e] rt1] eqn:E; try discriminate Hx.
  apply bool_decide_eq_true in Hx as [Hsel Hph].
  destruct (prepared_plan_runs admitted_runtime 20 v rt1
    admitted_reachable eq_refl E) as (rt2 & rt3 & H2 & H3 & _ & Hj).
  exists v, rt1, rt2, rt3. split; [reflexivity|]. split; [exact H2|]. split; [exact H3|].
  split; [exact Hsel|]. destruct (Hj 0) as [Hst _].
  - rewrite Hsel. apply list_elem_of_here.
  - rewrite Hst, Hph. reflexivity.
Defined.

Lemma prepare_abort_roundtrip_witness :
  exists v rt1 rt2, prepare_next_plan admitted_runtime 20 = (Value (Some v), rt1) /\
    abort_current_plan rt1 (pp_plan_sequence (ppv_plan v)) (ppv_plan_digest v) = (StatusOk, rt2) /\
    rt_current rt2 = no_current_plan.
Proof.
  assert (Hx : match prepare_next_plan admitted_runtime 20 with
    | (Value (Some _), _) => true | _ => false end = true) by (vm_compute; reflexivity).
  destruct (prepare_next_plan admitted_runtime 20) as [[[v|]|e] rt1] eqn:E; try discriminate Hx.
  destruct (prepare_abort_roundtrip admitted_runtime 20 v rt1
    admitted_reachable eq_refl E) as (rt2 & H2 & _ & Hc & _).
  exists v, rt1, rt2. split; [reflexivity|]. split; [exact H2|exact Hc].
Defined.

Lemma runtime_invariant_witness :
  exists plan lease s, cp_plan (rt_current prepared_runtime) = Some plan /\
    cp_output_burst (rt_current prepared_runtime) = Some lease /\
    slot_sequence ((rt_slots prepared_runtime).[0]) = Some s /\
    seq_holds plan BurstState.kPrepared s.
Proof.
  assert (Hx : match cp_plan (rt_current prepared_runtime), cp_output_burst (rt_current prepared_runtime) with
    | Some plan, Some lease => bool_decide (
        lease_view (rt_output_credits prepared_runtime) lease = Some BurstState.kPrepared /\
        selected (rt_selected_slot_indices prepared_runtime) (rt_current prepared_runtime) = [0])
    | _, _ => false end = true) by (vm_compute; reflexivity).
  destruct (runtime_invariant prepared_runtime prepared_reachable
    eq_refl) as (_ & Hc & _).
  destruct (cp_plan (rt_current prepared_runtime)) as [plan|]; [|discriminate Hx].
  destruct (cp_output_burst (rt_current prepared_runtime)) as [lease|]; [|discriminate Hx].
  apply bool_decide_eq_true in Hx as [Hlv Hsel]. cbn zeta in Hc. rewrite Hsel, Hlv in Hc.
  destruct Hc as (_ & st & _ & [= <-] & Hj).
  destruct (Hj 0) as (_ & s & Es & Hs); [apply list_elem_of_here|].
  exists plan, lease, s. split; [reflexivity|]. split; [reflexivity|]. split; [exact Es|exact Hs].
Defined.

Lemma prepare_plan_transaction_witness :
  exists v rt1, prepare_next_plan admitted_runtime 20 = (Value (Some v), rt1) /\
    plan_prepared admitted_runtime rt1 v /\ pp_sequence_generations (ppv_plan v) = [7].
Proof.
  assert (Hx : match prepare_next_plan admitted_runtime 20 with
    | (Value (Some v), _) => bool_decide (pp_sequence_generations (ppv_plan v) = [7])
    | _ => false end = true) by (vm_compute; reflexivity).
  pose proof (prepare_plan_transaction admitted_runtime 20
    admitted_reachable eq_refl) as [_ Hp].
  destruct (prepare_next_plan admitted_runtime 20) as [[[v|]|e] rt1]; try discriminate Hx.
  exists v, rt1. split; [reflexivity|]. split; [exact (proj2 Hp)|].
  apply bool_decide_eq_true in Hx. exact Hx.
Defined.

Lemma commit_current_plan_outcome_witness :
  exists plan, cp_plan (rt_current cancelled_runtime) = Some plan /\
    rt_state cancelled_runtime = RuntimeState.kReady /\
    rt_state (snd (commit_current_plan cancelled_runtime (pp_plan_sequence plan)
      (cp_plan_digest (rt_current cancelled_runtime)))) = RuntimeState.kFailed.
Proof.
  assert (Hx : match cp_plan (rt_current cancelled_runtime), cp_output_burst (rt_current cancelled_runtime) with
    | Some plan, Some lease => bool_decide (
        lease_view (rt_output_credits cancelled_runtime) lease = Some BurstState.kPrepared) &&
        existsb (cancel_requested cancelled_runtime)
          (selected (rt_selected_slot_indices cancelled_runtime) (rt_current cancelled_runtime))
    | _, _ => false end = true) by (vm_compute; reflexivity).
  assert (Hrd : rt_state cancelled_runtime = RuntimeState.kReady) by (vm_compute; reflexivity).
  destruct (cp_plan (rt_current cancelled_runtime)) as [plan|] eqn:Ep; [|discriminate Hx].
  destruct (cp_output_burst (rt_current cancelled_runtime)) as [lease|] eqn:El; [|discriminate Hx].
  apply andb_true_iff in Hx as [Hlv Hc]. apply bool_decide_eq_true in Hlv.
  pose proof (commit_current_plan_outcome cancelled_runtime plan lease
    cancelled_reachable Hrd Ep El Hlv) as Ho. cbn zeta in Ho. rewrite Hc in Ho.
  exists plan. split; [reflexivity|]. split; [exact Hrd|exact (proj2 Ho)].
Defined.

(** The second plan processes the last prompt token and samples one. *)
Definition second_ops : list rt_op := [RtSampled 1 [] 30; RtPrepare 40].
Definition second_digest : Sha256Digest :=
  Eval vm_compute in cp_plan_digest (rt_current (snd (m_trace flight_runtime second_ops))).
Definition second_flight_ops : list rt_op :=
  second_ops ++ [RtCommit 2 second_digest; RtMarkInFlight 2 second_digest].
Definition second_flight : ControllerRuntime :=
  Eval vm_compute in snd (m_trace flight_runtime second_flight_ops).
Definition token_result : ControllerBackendSequenceResult :=
  MkBackendResult (MkCompletion 2 7 3 1 3 kDecode false) [42].
Definition sampled_ops : list rt_op := second_flight_ops ++ [RtSampled 1 [42] 50].
Definition sampled_runtime : ControllerRuntime :=
  Eval vm_compute in snd (m_trace flight_runtime sampled_ops).

Lemma second_flight_reachable : m_reachable second_flight.
Proof.
  replace second_flight with (snd (m_trace flight_runtime second_flight_ops)) by (vm_compute; reflexivity).
  apply trace_reachable; [exact flight_reachable|]. repeat constructor; cbn; unfold is_u64; lia.
Qed.

Lemma complete_plan_atomic_witness :
  let res self := complete_current_plan second_flight self [token_result] 50 in
  (exists digests, map ev_token_id (fm_events (rt_fifo (snd (res 1)))) = [0; 42] /\
     fm_events (rt_fifo (snd (res 1))) = fm_events (rt_fifo second_flight) ++
       number_events (fm_next_event (rt_fifo second_flight))
         (batch_drafts second_flight 2 1 0 [0] [token_result] digests)) /\
  exists plan, cp_plan (rt_current second_flight) = Some plan /\
    rt_state (snd (res 2)) = RuntimeState.kFailed /\ ~ completion_safe second_flight 2 [token_result] plan.
Proof.
  intros res.
  assert (Hx : match cp_plan (rt_current second_flight), cp_output_burst (rt_current second_flight) with
    | Some plan, Some _ => pp_plan_sequence plan =? 2 | _, _ => false end = true) by (vm_compute; reflexivity).
  assert (Hrd : rt_state second_flight = RuntimeState.kReady) by (vm_compute; reflexivity).
  assert (Hsel : selected (rt_selected_slot_indices second_flight) (rt_current second_flight) = [0])
    by (vm_compute; reflexivity).
  assert (Hev : batch_events second_flight [0] [token_result] = 1) by (vm_compute; reflexivity).
  assert (Ho1 : ok (fst (res 1)) = true) by (vm_compute; reflexivity).
  assert (Ho2 : ok (fst (res 2)) = false) by (vm_compute; reflexivity).
  assert (Hst : rt_state (snd (res 2)) = RuntimeState.kFailed) by (vm_compute; reflexivity).
  assert (Htk : map ev_token_id (fm_events (rt_fifo (snd (res 1)))) = [0; 42]) by (vm_compute; reflexivity).
  destruct (cp_plan (rt_current second_flight)) as [plan|] eqn:Ep; [|discriminate Hx].
  destruct (cp_output_burst (rt_current second_flight)) as [lease|] eqn:El; [|discriminate Hx].
  apply Z.eqb_eq in Hx.
  assert (Hc : forall self, _) by exact (fun self => complete_plan_atomic second_flight self [token_result] 50 plan lease
    second_flight_reachable Hrd Ep El ltac:(repeat constructor; unfold is_u64; cbn; lia)).
  cbn zeta in Hc. rewrite Hsel, Hev, Hx in Hc. pose proof (Hc 1) as H1. pose proof (Hc 2) as H2. clear Hc.
  change (complete_current_plan second_flight 1 [token_result] 50) with (res 1) in H1.
  change (complete_current_plan second_flight 2 [token_result] 50) with (res 2) in H2.
  rewrite Ho1 in H1. rewrite Ho2 in H2. destruct H1 as (_ & _ & _ & _ & _ & (digests & _ & He) & _). split.
  - exists digests. split; [exact Htk|exact He].
  - exists plan. split; [reflexivity|]. destruct H2 as [H2|H2]; [|exact H2].
    rewrite H2, Hrd in Hst. discriminate Hst.
Defined.

Lemma sampled_reachable : m_reachable sampled_runtime.
Proof.
  replace sampled_runtime with (snd (m_trace flight_runtime sampled_ops)) by (vm_compute; reflexivity).
  apply trace_reachable; [exact flight_reachable|]. repeat constructor; cbn; unfold is_u64; lia.
Qed.

Lemma acknowledge_once_witness :
  available_output_burst_credits sampled_runtime = 1 /\
  available_output_burst_credits (snd (acknowledge_output_plan sampled_runtime 2)) = 2 /\
  map ev_token_id (fm_events (rt_fifo sampled_runtime)) = [0; 42].
Proof.
  pose proof (acknowledge_once sampled_runtime 2 sampled_reachable eq_refl) as Ha.
  cbn zeta in Ha. destruct Ha as (_ & _ & Hav & _).
  split; [vm_compute; reflexivity|]. split; [|vm_compute; reflexivity].
  rewrite Hav. vm_compute. reflexivity.
Defined.
