(* ===== verification/ControllerAbi.v ===== *)
(** * The wire contract of the execution controller

    Models [include/pih/plugin_sdk/status.h] and
    [include/pih/contracts/execution_controller_v1.h]: the C structures that
    cross the boundary between the execution plugin and a model plugin, and the
    table of functions of the controller capability.

    A pointer is an [option] of what it points to, [None] being null; a pointer
    that is only compared is an address.  A C array with a separate count is a
    list and its count.  The character array of a status holds the message and
    zero bytes after it.  Sizes are those of the LP64 layout. *)

From stdpp Require Import gmap.
From S2P Require Import Prelude Core Sha256 TokenPlan TokenMetadata Mailbox RequestArena Ingress.
From S2P Require Import Scheduler Runtime.

(** ** Status *)

Definition PIH_STATUS_ABI_VERSION_V1 : Z := 1.

Definition PIH_STATUS_OK_V1 : Z := 0.
Definition PIH_STATUS_INVALID_ARGUMENT_V1 : Z := 1.
Definition PIH_STATUS_FAILED_PRECONDITION_V1 : Z := 2.
Definition PIH_STATUS_INTERNAL_V1 : Z := 3.
Definition PIH_STATUS_UNAVAILABLE_V1 : Z := 4.
Definition PIH_STATUS_RESOURCE_EXHAUSTED_V1 : Z := 5.
Definition PIH_STATUS_DEADLINE_EXCEEDED_V1 : Z := 6.

Record pih_status_v1 := MkWireStatus {
  ws_struct_size : Z;
  ws_abi_version : Z;
  ws_code : Z;
  ws_message : string }.

Definition sizeof_status : Z := 268.
Definition sizeof_message : nat := 256.

Definition pih_status_is_valid_v1 (w : pih_status_v1) : bool :=
  (ws_struct_size w =? sizeof_status) && (ws_abi_version w =? PIH_STATUS_ABI_VERSION_V1)
  && (ws_code w <=? PIH_STATUS_DEADLINE_EXCEEDED_V1).

Definition pih_status_is_ok_v1 (w : pih_status_v1) : bool :=
  pih_status_is_valid_v1 w && (ws_code w =? PIH_STATUS_OK_V1).

(** The text before the first zero byte, which [strnlen] measures. *)
Fixpoint c_string (s : string) : string :=
  match s with
  | EmptyString => EmptyString
  | String c s => if Ascii.eqb c Ascii.zero then EmptyString else String c (c_string s)
  end.

(** ** Structures *)

Definition PIH_EXECUTION_CONTROLLER_ABI_V1 : Z := 1.
Definition PIH_EXECUTION_CONTROLLER_MAX_STOP_TOKENS_V1 : Z := 16.

Definition PIH_EXECUTION_STEP_IDLE_V1 : Z := 1.
Definition PIH_EXECUTION_STEP_ADMISSION_REJECTED_V1 : Z := 5.
Definition PIH_EXECUTION_EVENT_ADMITTED_V1 : Z := 1.
Definition PIH_EXECUTION_EVENT_FAILED_V1 : Z := 6.
Definition PIH_EXECUTION_FINISH_LENGTH_V1 : Z := 2.

Record pih_execution_controller_limits_v1 := MkWireLimits {
  wl_struct_size : Z;
  wl_abi_version : Z;
  wl_epoch : Z;
  wl_maximum_sequences : Z;
  wl_command_capacity : Z;
  wl_event_capacity : Z;
  wl_maximum_requests : Z;
  wl_maximum_prompt_tokens_per_request : Z;
  wl_maximum_context_tokens : Z;
  wl_maximum_candidates : Z;
  wl_maximum_sequences_per_plan : Z;
  wl_maximum_real_tokens_per_plan : Z;
  wl_scheduler_scan_limit : Z;
  wl_max_consecutive_decode_rounds : Z;
  wl_prefill_starvation_threshold_ns : Z;
  wl_metadata_maximum_sequences : Z;
  wl_metadata_maximum_execution_bucket_tokens : Z;
  wl_maximum_prefill_chunk_tokens : Z;
  wl_pad_to_maximum_execution_bucket : Z;
  wl_profile_revision : option string;
  wl_profile_revision_bytes : Z;
  wl_resource_vector_hash : Sha256Digest;
  wl_eos_token_id : Z;
  wl_output_burst_credit_count : Z;
  wl_output_maximum_slots_per_credit : Z;
  wl_output_maximum_bytes_per_credit : Z;
  wl_output_plan_kind : Z }.

Definition sizeof_limits : Z := 160.

Record pih_execution_sampling_v1 := MkWireSampling {
  wsm_struct_size : Z;
  wsm_abi_version : Z;
  wsm_mode : Z;
  wsm_temperature : Z;
  wsm_top_p : Z;
  wsm_has_top_k : Z;
  wsm_top_k : Z;
  wsm_effective_seed : Z;
  wsm_sample_ordinal : Z;
  wsm_minimum_new_tokens : Z;
  wsm_logprobs_enabled : Z;
  wsm_top_logprobs_count : Z;
  wsm_stop_token_count : Z;
  wsm_stop_token_ids : list Z }.

Definition sizeof_sampling : Z := 128.

Definition zero_sampling : pih_execution_sampling_v1 :=
  MkWireSampling 0 0 0 0 0 0 0 0 0 0 0 0 0 (replicate 16 0).

#[export] Instance pih_execution_sampling_v1_inhabited : Inhabited pih_execution_sampling_v1 :=
  populate zero_sampling.

(** [prompt_token_ids] points into the request arena, at an offset. *)
Record pih_execution_admission_v1 := MkWireAdmission {
  wa_struct_size : Z;
  wa_abi_version : Z;
  wa_command_sequence : Z;
  wa_epoch : Z;
  wa_request_generation : Z;
  wa_slot_index : Z;
  wa_slot_generation : Z;
  wa_payload_digest : Sha256Digest;
  wa_prompt_token_ids : option Z;
  wa_prompt_token_count : Z;
  wa_maximum_new_tokens : Z;
  wa_sampling : pih_execution_sampling_v1 }.

Definition sizeof_admission : Z := 224.

(** The callbacks of the consumer, over the consumer's state [CS]. *)
Record pih_execution_admission_callbacks_v1 (CS : Type) := MkCallbacks {
  cb_struct_size : Z;
  cb_abi_version : Z;
  cb_context : bool;
  cb_reserve : option (CS -> option pih_execution_admission_v1 -> pih_status_v1 * CS);
  cb_publish : option (CS -> Z -> pih_status_v1 * CS);
  cb_rollback : option (CS -> Z -> pih_status_v1 * CS) }.
Arguments cb_struct_size {CS} _.
Arguments cb_abi_version {CS} _.
Arguments cb_context {CS} _.
Arguments cb_reserve {CS} _.
Arguments cb_publish {CS} _.
Arguments cb_rollback {CS} _.

Definition sizeof_callbacks : Z := 40.

Record pih_execution_event_v1 := MkWireEvent {
  we_struct_size : Z;
  we_abi_version : Z;
  we_kind : Z;
  we_finish_reason : Z;
  we_event_sequence : Z;
  we_epoch : Z;
  we_request_generation : Z;
  we_token_ordinal : Z;
  we_token_id : Z;
  we_state_digest : Sha256Digest;
  we_plan_sequence : Z;
  we_plan_event_index : Z;
  we_plan_event_count : Z }.

Definition sizeof_event : Z := 104.

(** The array members are pointers; null before the provider fills the view. *)
Record pih_execution_plan_view_v1 := MkWirePlan {
  wp_struct_size : Z;
  wp_abi_version : Z;
  wp_epoch : Z;
  wp_plan_sequence : Z;
  wp_phase : Z;
  wp_sequence_count : Z;
  wp_real_token_count : Z;
  wp_execution_bucket_tokens : Z;
  wp_profile_revision : option string;
  wp_profile_revision_bytes : Z;
  wp_resource_vector_hash : Sha256Digest;
  wp_plan_digest : Sha256Digest;
  wp_sequence_generations : option (list Z);
  wp_committed_start_positions : option (list Z);
  wp_sequence_real_token_counts : option (list Z);
  wp_packed_offsets : option (list Z);
  wp_state_generations : option (list Z);
  wp_input_digests : option (list Sha256Digest);
  wp_selected_slot_indices : option (list Z);
  wp_selected_sampling : option (list pih_execution_sampling_v1);
  wp_metadata_generation : Z;
  wp_input_token_ids : option (list Z);
  wp_positions : option (list Z);
  wp_request_index : option (list Z);
  wp_query_start_offsets : option (list Z);
  wp_sample_row_count : Z;
  wp_sample_row_index : option (list Z) }.

Definition sizeof_plan_view : Z := 240.

(** A view with the given header and zeros. *)
Definition empty_plan_view (struct_size abi_version : Z) : pih_execution_plan_view_v1 :=
  MkWirePlan struct_size abi_version 0 0 0 0 0 0 None 0 zero_digest zero_digest None None None None
    None None None None 0 None None None None 0 None.

Definition empty_event (struct_size abi_version : Z) : pih_execution_event_v1 :=
  MkWireEvent struct_size abi_version 0 0 0 0 0 0 0 zero_digest 0 0 0.

(** ** The function table

    Over the state [S] of the provider.  [api_functions] says that no function
    pointer of the table is null.  [create] is also given the address that the
    allocator returns; the calls that the controller thread makes are given that
    thread.  A call returns its status, what it wrote through its output
    pointers, and the provider. *)
Record pih_execution_controller_api_v1 (S : Type) := MkApi {
  api_struct_size : Z;
  api_contract_version : Z;
  api_context : Z;
  api_functions : bool;
  api_create : S -> Z -> Z -> option pih_execution_controller_limits_v1 -> bool ->
    pih_status_v1 * Z * S;
  api_destroy : S -> Z -> option Z -> pih_status_v1 * option Z * S;
  api_submit_admit : S -> Z -> Z -> Z -> option (list Z) -> Z -> Z ->
    option pih_execution_sampling_v1 -> pih_status_v1 * S;
  api_submit_cancel : S -> Z -> Z -> Z -> pih_status_v1 * S;
  api_step : forall CS, S -> Z -> Z -> Z -> Z ->
    option (pih_execution_admission_callbacks_v1 CS) -> CS -> bool -> pih_status_v1 * Z * CS * S;
  api_prepare : S -> Z -> Z -> Z -> bool -> option pih_execution_plan_view_v1 ->
    pih_status_v1 * Z * option pih_execution_plan_view_v1 * S;
  api_commit : S -> Z -> Z -> Z -> option Sha256Digest -> pih_status_v1 * S;
  api_mark_in_flight : S -> Z -> Z -> Z -> option Sha256Digest -> pih_status_v1 * S;
  api_abort : S -> Z -> Z -> Z -> option Sha256Digest -> pih_status_v1 * S;
  api_complete_sampled_tokens : S -> Z -> Z -> Z -> option (list Z) -> Z -> Z ->
    pih_status_v1 * S;
  api_acknowledge_output : S -> Z -> Z -> Z -> pih_status_v1 * S;
  api_finalize_draining : S -> Z -> Z -> Z -> Z -> pih_status_v1 * S;
  api_take_event : S -> Z -> Z -> bool -> option pih_execution_event_v1 ->
    pih_status_v1 * Z * option pih_execution_event_v1 * S;
  api_counts : S -> Z -> Z -> option Z -> option Z ->
    pih_status_v1 * option Z * option Z * S }.
Arguments api_struct_size {S} _.
Arguments api_contract_version {S} _.
Arguments api_context {S} _.
Arguments api_functions {S} _.
Arguments api_create {S} _.
Arguments api_destroy {S} _.
Arguments api_submit_admit {S} _.
Arguments api_submit_cancel {S} _.
Arguments api_step {S} _ {CS}.
Arguments api_prepare {S} _.
Arguments api_commit {S} _.
Arguments api_mark_in_flight {S} _.
Arguments api_abort {S} _.
Arguments api_complete_sampled_tokens {S} _.
Arguments api_acknowledge_output {S} _.
Arguments api_finalize_draining {S} _.
Arguments api_take_event {S} _.
Arguments api_counts {S} _.

Definition sizeof_api : Z := 128.
