(* ===== verification/Provider.v ===== *)
(** * The controller capability of the execution plugin

    Models [plugins/execution-default/controller_provider.cpp]: the provider that
    owns up to four controller runtimes behind opaque handles, validates the wire
    structures of each call and projects runtime values onto the wire.

    Every function holds the provider's mutex from its first access of shared
    state to its return, so a call is one step of the provider.  [Guard] turns
    exceptions into statuses; the modelled calls raise none (a failed allocation
    is not modelled). *)

From stdpp Require Import gmap.
From S2P Require Import Prelude Core Sha256 TokenPlan TokenMetadata Sequence BurstCredits.
From S2P Require Import Mailbox RequestArena Ingress Scheduler Runtime ControllerAbi.

(** [pih_execution_controller_v1]. *)
Record ExecutionController := MkController {
  ec_runtime : ControllerRuntime;
  ec_sampling : list pih_execution_sampling_v1 }.

#[export] Instance eta_ExecutionController : Eta ExecutionController := fun c =>
  MkController (ec_runtime c) (ec_sampling c).

(** A handle is the address of its controller. *)
Record Provider := MkProvider {
  pv_ready : bool;
  pv_handles : list (Z * ExecutionController) }.

#[export] Instance eta_Provider : Eta Provider := fun p => MkProvider (pv_ready p) (pv_handles p).

(** The address of the one provider object. *)
Definition provider_address : Z := 1.

(** ** Statuses *)

Definition wire_status (code : Z) (message : string) : pih_status_v1 :=
  MkWireStatus sizeof_status PIH_STATUS_ABI_VERSION_V1 code
    (String.substring 0 (Nat.min (String.length message) (sizeof_message - 1)) message).

Definition wire_code (c : StatusCode) : Z :=
  match c with
  | kOk => PIH_STATUS_OK_V1
  | kInvalidArgument => PIH_STATUS_INVALID_ARGUMENT_V1
  | kFailedPrecondition => PIH_STATUS_FAILED_PRECONDITION_V1
  | kInternal => PIH_STATUS_INTERNAL_V1
  | kUnavailable => PIH_STATUS_UNAVAILABLE_V1
  | kResourceExhausted => PIH_STATUS_RESOURCE_EXHAUSTED_V1
  | kDeadlineExceeded => PIH_STATUS_DEADLINE_EXCEEDED_V1
  end.

Definition WireStatus (s : Status) : pih_status_v1 := wire_status (wire_code (code s)) (message s).

(** The switch over the codes, shared by [CoreStatus] and the client's
    [FromWire]; [otherwise] is returned for no code. *)
Definition status_of_code (wire : pih_status_v1) (otherwise : string) : Status :=
  let message := c_string (ws_message wire) in
  if ws_code wire =? PIH_STATUS_OK_V1 then StatusOk
  else if ws_code wire =? PIH_STATUS_INVALID_ARGUMENT_V1 then InvalidArgument message
  else if ws_code wire =? PIH_STATUS_FAILED_PRECONDITION_V1 then FailedPrecondition message
  else if ws_code wire =? PIH_STATUS_INTERNAL_V1 then Internal message
  else if ws_code wire =? PIH_STATUS_UNAVAILABLE_V1 then Unavailable message
  else if ws_code wire =? PIH_STATUS_RESOURCE_EXHAUSTED_V1 then ResourceExhausted message
  else if ws_code wire =? PIH_STATUS_DEADLINE_EXCEEDED_V1 then DeadlineExceeded message
  else Internal otherwise.

Definition CoreStatus (wire : pih_status_v1) : Status :=
  if negb (pih_status_is_valid_v1 wire) then Internal "admission callback status invalid"
  else status_of_code wire "admission callback code invalid".

Definition Find (p : Provider) (handle : Z) : option ExecutionController :=
  snd <$> find (fun h : Z * ExecutionController => fst h =? handle) (pv_handles p).

(** The call on the controller of a handle. *)
Definition set_handle (p : Provider) (handle : Z) (c : ExecutionController) : Provider :=
  p <| pv_handles := map (fun h : Z * ExecutionController =>
         if fst h =? handle then (fst h, c) else h) (pv_handles p) |>.

(** ** Validation and projection *)

Definition u32_nonzero_at_most (value bound : Z) : bool := negb (value =? 0) && (value <=? bound).

Definition ValidLimits (limits : option pih_execution_controller_limits_v1) : bool :=
  match limits with
  | None => false
  | Some l =>
      (wl_struct_size l =? sizeof_limits) && (wl_abi_version l =? PIH_EXECUTION_CONTROLLER_ABI_V1)
      && negb (wl_epoch l =? 0)
      && u32_nonzero_at_most (wl_maximum_sequences l) 256
      && u32_nonzero_at_most (wl_command_capacity l) 4096
      && u32_nonzero_at_most (wl_event_capacity l) 4096
      && u32_nonzero_at_most (wl_maximum_requests l) 256
      && u32_nonzero_at_most (wl_maximum_prompt_tokens_per_request l) 65536
      && u32_nonzero_at_most (wl_maximum_context_tokens l) 65536
      && u32_nonzero_at_most (wl_maximum_candidates l) 256
      && u32_nonzero_at_most (wl_maximum_sequences_per_plan l) (wl_maximum_sequences l)
      && u32_nonzero_at_most (wl_maximum_real_tokens_per_plan l) 65536
      && u32_nonzero_at_most (wl_scheduler_scan_limit l) 4096
      && negb (wl_max_consecutive_decode_rounds l =? 0)
      && (wl_prefill_starvation_threshold_ns l >=? 0)
      && u32_nonzero_at_most (wl_metadata_maximum_sequences l) (wl_maximum_sequences l)
      && u32_nonzero_at_most (wl_metadata_maximum_execution_bucket_tokens l) 65536
      && u32_nonzero_at_most (wl_maximum_prefill_chunk_tokens l) 65536
      && (wl_pad_to_maximum_execution_bucket l <=? 1)
      && bool_decide (is_Some (wl_profile_revision l))
      && u32_nonzero_at_most (wl_profile_revision_bytes l) 128
      && u32_nonzero_at_most (wl_output_burst_credit_count l) 4096
      && u32_nonzero_at_most (wl_output_maximum_slots_per_credit l) 256
      && negb (wl_output_maximum_bytes_per_credit l =? 0)
      && ((wl_output_plan_kind l =? 1) || (wl_output_plan_kind l =? 2))
  end.

Definition ValidSampling (sampling : option pih_execution_sampling_v1) : bool :=
  match sampling with
  | None => false
  | Some s =>
      (wsm_struct_size s =? sizeof_sampling)
      && (wsm_abi_version s =? PIH_EXECUTION_CONTROLLER_ABI_V1)
      && (wsm_mode s <=? 1) && (wsm_has_top_k s <=? 1) && (wsm_logprobs_enabled s <=? 1)
      && (wsm_stop_token_count s <=? PIH_EXECUTION_CONTROLLER_MAX_STOP_TOKENS_V1)
  end.

(** [std::copy_n] into an array of sixteen zeros. *)
Definition copy_stop_tokens (count : Z) (ids : list Z) : list Z :=
  splice (replicate 16 0) 0 (take (Z.to_nat count) ids).

Definition CoreSampling (input : pih_execution_sampling_v1) : ControllerRequestSampling :=
  MkSampling
    (if wsm_mode input =? 0 then SamplingMode.kGreedy else SamplingMode.kStochastic)
    (wsm_temperature input) (wsm_top_p input)
    (if negb (wsm_has_top_k input =? 0) then Some (wsm_top_k input) else None)
    (wsm_effective_seed input) (wsm_sample_ordinal input) (wsm_minimum_new_tokens input)
    (negb (wsm_logprobs_enabled input =? 0)) (wsm_top_logprobs_count input)
    (copy_stop_tokens (wsm_stop_token_count input) (wsm_stop_token_ids input))
    (wsm_stop_token_count input).

Definition WireSampling (input : ControllerRequestSampling) : pih_execution_sampling_v1 :=
  MkWireSampling sizeof_sampling PIH_EXECUTION_CONTROLLER_ABI_V1
    (sampling_mode_value (sm_mode input)) (sm_temperature input) (sm_top_p input)
    (Z.b2z (bool_decide (is_Some (sm_top_k input)))) (default 0 (sm_top_k input))
    (sm_effective_seed input) (sm_sample_ordinal input) (sm_minimum_new_tokens input)
    (Z.b2z (sm_logprobs_enabled input)) (sm_top_logprobs_count input) (sm_stop_token_count input)
    (copy_stop_tokens (sm_stop_token_count input) (sm_stop_token_ids input)).

Definition wire_admission (view : ControllerAdmissionView) : pih_execution_admission_v1 :=
  let command := av_command view in
  let request := av_request view in
  MkWireAdmission sizeof_admission PIH_EXECUTION_CONTROLLER_ABI_V1
    (cmd_command_sequence command) (cmd_epoch command) (rqv_request_generation request)
    (rqv_slot_index request) (rqv_slot_generation request) (rqv_payload_digest request)
    (Some (sp_offset (rqv_prompt_token_ids request)))
    (wrap32 (sp_size (rqv_prompt_token_ids request))) (rqv_maximum_new_tokens request)
    (WireSampling (rqv_sampling request)).

Definition ValidCallbacks {CS} (callbacks : pih_execution_admission_callbacks_v1 CS) : bool :=
  (cb_struct_size callbacks =? sizeof_callbacks)
  && (cb_abi_version callbacks =? PIH_EXECUTION_CONTROLLER_ABI_V1)
  && cb_context callbacks && bool_decide (is_Some (cb_reserve callbacks))
  && bool_decide (is_Some (cb_publish callbacks)) && bool_decide (is_Some (cb_rollback callbacks)).

(** The participant that forwards to the callbacks; [ValidCallbacks] has checked
    that none is null. *)
Definition Admission {CS} (callbacks : pih_execution_admission_callbacks_v1 CS) :
    ControllerAdmissionParticipant CS :=
  MkParticipant CS
    (fun cs view => match cb_reserve callbacks with
                    | Some f => let '(w, cs) := f cs (Some (wire_admission view)) in (CoreStatus w, cs)
                    | None => (StatusOk, cs)
                    end)
    (fun cs g => match cb_publish callbacks with
                 | Some f => let '(w, cs) := f cs g in (CoreStatus w, cs)
                 | None => (StatusOk, cs)
                 end)
    (fun cs g => match cb_rollback callbacks with
                 | Some f => let '(w, cs) := f cs g in (CoreStatus w, cs)
                 | None => (StatusOk, cs)
                 end).

(** ** The functions of the capability *)

Definition ok_status : pih_status_v1 := wire_status PIH_STATUS_OK_V1 "".
Definition foreign_handle : pih_status_v1 :=
  wire_status PIH_STATUS_INVALID_ARGUMENT_V1 "controller handle foreign".

Definition core_limits (l : pih_execution_controller_limits_v1) : ControllerRuntimeLimits :=
  MkRuntimeLimits (wl_epoch l) (wl_maximum_sequences l)
    (MkIngressLimits (MkMailboxLimits (wl_command_capacity l) (wl_event_capacity l))
       (MkRequestLimits (wl_maximum_requests l) (wl_maximum_prompt_tokens_per_request l)
          (wl_maximum_context_tokens l)))
    (MkProfile (wl_maximum_candidates l) (wl_maximum_sequences_per_plan l)
       (wl_maximum_real_tokens_per_plan l) (wl_scheduler_scan_limit l)
       (wl_max_consecutive_decode_rounds l) (wl_prefill_starvation_threshold_ns l))
    (MkMetadataLimits (wl_metadata_maximum_sequences l)
       (wl_metadata_maximum_execution_bucket_tokens l))
    (wl_maximum_prefill_chunk_tokens l) (negb (wl_pad_to_maximum_execution_bucket l =? 0))
    (String.substring 0 (Z.to_nat (wl_profile_revision_bytes l))
       (default "" (wl_profile_revision l)))
    (wl_resource_vector_hash l) (wl_eos_token_id l) (wl_output_burst_credit_count l)
    (wl_output_maximum_slots_per_credit l) (wl_output_maximum_bytes_per_credit l)
    (if wl_output_plan_kind l =? 1 then kQwen else kDeepSeek).

Definition Create (p : Provider) (address context : Z)
    (limits : option pih_execution_controller_limits_v1) (output : bool) :
    pih_status_v1 * Z * Provider :=
  match limits with
  | Some l =>
      if negb (context =? provider_address) || negb (ValidLimits limits) || negb output
      then (wire_status PIH_STATUS_INVALID_ARGUMENT_V1 "controller limits invalid", 0, p)
      else if negb (pv_ready p)
      then (wire_status PIH_STATUS_FAILED_PRECONDITION_V1 "provider not ready", 0, p)
      else if vsize (pv_handles p) >=? 4
      then (wire_status PIH_STATUS_RESOURCE_EXHAUSTED_V1 "controller handle limit", 0, p)
      else match ControllerRuntime_Create (core_limits l) with
      | Error e => (WireStatus e, 0, p)
      | Value runtime =>
          let controller := MkController runtime
            (replicate (Z.to_nat (wl_maximum_sequences l)) zero_sampling) in
          (ok_status, address, p <| pv_handles := pv_handles p ++ [(address, controller)] |>)
      end
  | None => (wire_status PIH_STATUS_INVALID_ARGUMENT_V1 "controller limits invalid", 0, p)
  end.

(** [handle] points to the caller's handle variable. *)
Definition Destroy (p : Provider) (context : Z) (handle : option Z) :
    pih_status_v1 * option Z * Provider :=
  match handle with
  | None => (wire_status PIH_STATUS_INVALID_ARGUMENT_V1 "controller handle invalid", handle, p)
  | Some h =>
      if negb (context =? provider_address) || (h =? 0)
      then (wire_status PIH_STATUS_INVALID_ARGUMENT_V1 "controller handle invalid", handle, p)
      else match Find p h with
      | None => (foreign_handle, handle, p)
      | Some controller =>
          if negb (retirable (ec_runtime controller))
          then (wire_status PIH_STATUS_FAILED_PRECONDITION_V1 "controller has unretired work",
                handle, p)
          else (ok_status, Some 0,
                p <| pv_handles := filter (fun h' : Z * ExecutionController => fst h' <> h)
                       (pv_handles p) |>)
      end
  end.

(** A call on the runtime of a handle. *)
Definition on_runtime {A} (p : Provider) (handle : Z) (foreign : A)
    (call : ControllerRuntime -> A * ControllerRuntime) : A * Provider :=
  match Find p handle with
  | None => (foreign, p)
  | Some owner =>
      let '(result, runtime) := call (ec_runtime owner) in
      (result, set_handle p handle (owner <| ec_runtime := runtime |>))
  end.

Definition SubmitAdmit (p : Provider) (context handle generation : Z) (tokens : option (list Z))
    (count maximum_new_tokens : Z) (sampling : option pih_execution_sampling_v1) :
    pih_status_v1 * Provider :=
  match tokens, sampling with
  | Some tokens, Some wire =>
      if negb (context =? provider_address) || (generation =? 0) || (count =? 0)
         || (count >? 65536) || negb (ValidSampling sampling)
      then (wire_status PIH_STATUS_INVALID_ARGUMENT_V1 "controller admission invalid", p)
      else on_runtime p handle foreign_handle (fun runtime =>
        let '(submitted, runtime) := Runtime.submit_admit runtime generation
          (take (Z.to_nat count) tokens) maximum_new_tokens (CoreSampling wire) in
        (match submitted with Value _ => ok_status | Error e => WireStatus e end, runtime))
  | _, _ => (wire_status PIH_STATUS_INVALID_ARGUMENT_V1 "controller admission invalid", p)
  end.

Definition SubmitCancel (p : Provider) (context handle generation : Z) :
    pih_status_v1 * Provider :=
  if negb (context =? provider_address) || (generation =? 0)
  then (wire_status PIH_STATUS_INVALID_ARGUMENT_V1 "cancel generation invalid", p)
  else on_runtime p handle foreign_handle (fun runtime =>
    let '(submitted, runtime) := Runtime.submit_cancel runtime generation in
    (match submitted with Value _ => ok_status | Error e => WireStatus e end, runtime)).

Definition step_value (s : ControllerRuntimeStep) : Z :=
  match s with
  | RuntimeStep.kIdle => 1
  | RuntimeStep.kOutputBackpressured => 2
  | RuntimeStep.kAdmitted => 3
  | RuntimeStep.kCancelRequested => 4
  | RuntimeStep.kAdmissionRejected => 5
  end.

Definition step_result (r : Result ControllerRuntimeStep) : pih_status_v1 * Z :=
  match r with Value s => (ok_status, step_value s) | Error e => (WireStatus e, 0) end.

(** [output] says that [step] is not null; the value written is [0] on error. *)
Definition Step {CS} (p : Provider) (self context handle now_ns : Z)
    (callbacks : option (pih_execution_admission_callbacks_v1 CS)) (cs : CS) (output : bool) :
    pih_status_v1 * Z * CS * Provider :=
  let invalid := match callbacks with Some c => negb (ValidCallbacks c) | None => false end in
  if negb (context =? provider_address) || negb output || invalid
  then (wire_status PIH_STATUS_INVALID_ARGUMENT_V1 "controller step invalid", 0, cs, p)
  else
    let '(r, p) := on_runtime p handle (foreign_handle, 0, cs) (fun runtime =>
      match callbacks with
      | Some c =>
          let '(r, (runtime, cs)) := step_with (Admission c) runtime self now_ns cs in
          (step_result r, cs, runtime)
      | None => let '(r, runtime) := step runtime self now_ns in (step_result r, cs, runtime)
      end) in
    (r, p).

(** The consistency of a prepared plan that the projection relies on. *)
Definition projection_invalid (maximum_sequences : Z) (view : ControllerPreparedPlanView) : bool :=
  let plan := ppv_plan view in
  let n := pp_sequence_count plan in
  let bucket := pp_execution_bucket_tokens plan in
  let md := ppv_metadata view in
  (n >? maximum_sequences)
  || negb (vsize (ppv_selected_sampling view) =? n)
  || negb (vsize (ppv_selected_slot_indices view) =? n)
  || negb (vsize (pmv_query_start_offsets md) =? n + 1)
  || negb (vsize (pmv_input_token_ids md) =? bucket)
  || negb (vsize (pmv_positions md) =? bucket)
  || negb (vsize (pmv_request_index md) =? bucket)
  || (vsize (pmv_sample_row_index md) >? n).

Definition wire_plan (view : ControllerPreparedPlanView)
    (sampling : list pih_execution_sampling_v1) : pih_execution_plan_view_v1 :=
  let plan := ppv_plan view in
  let md := ppv_metadata view in
  MkWirePlan sizeof_plan_view PIH_EXECUTION_CONTROLLER_ABI_V1 (pp_epoch plan)
    (pp_plan_sequence plan) (phase_value (pp_phase plan)) (wrap32 (pp_sequence_count plan))
    (pp_total_real_tokens plan) (pp_execution_bucket_tokens plan)
    (Some (pp_profile_revision plan)) (wrap32 (Z.of_nat (String.length (pp_profile_revision plan))))
    (pp_resource_vector_hash plan) (ppv_plan_digest view)
    (Some (pp_sequence_generations plan)) (Some (pp_committed_start_positions plan))
    (Some (pp_real_token_counts plan)) (Some (pp_packed_offsets plan))
    (Some (pp_state_generations plan)) (Some (pp_input_digests plan))
    (Some (ppv_selected_slot_indices view)) (Some sampling) (pmv_generation md)
    (Some (pmv_input_token_ids md)) (Some (pmv_positions md)) (Some (pmv_request_index md))
    (Some (pmv_query_start_offsets md)) (wrap32 (vsize (pmv_sample_row_index md)))
    (Some (pmv_sample_row_index md)).

(** [has_plan] says that the pointer is not null; the results are the status,
    [*has_plan], [*output] and the provider. *)
Definition Prepare (p : Provider) (context handle now_ns : Z) (has_plan : bool)
    (output : option pih_execution_plan_view_v1) :
    pih_status_v1 * Z * option pih_execution_plan_view_v1 * Provider :=
  let header_ok := match output with
    | Some o => (wp_struct_size o =? sizeof_plan_view)
                && (wp_abi_version o =? PIH_EXECUTION_CONTROLLER_ABI_V1)
    | None => false
    end in
  let output := if header_ok
    then Some (empty_plan_view sizeof_plan_view PIH_EXECUTION_CONTROLLER_ABI_V1) else output in
  if negb (context =? provider_address) || negb has_plan || negb header_ok
  then (wire_status PIH_STATUS_INVALID_ARGUMENT_V1 "controller plan output invalid", 0, output, p)
  else match Find p handle with
  | None => (foreign_handle, 0, output, p)
  | Some owner =>
      let '(prepared, runtime) := prepare_next_plan (ec_runtime owner) now_ns in
      let owner := owner <| ec_runtime := runtime |> in
      match prepared with
      | Error e => (WireStatus e, 0, output, set_handle p handle owner)
      | Value None => (ok_status, 0, output, set_handle p handle owner)
      | Value (Some view) =>
          if projection_invalid (vsize (ec_sampling owner)) view
          then (wire_status PIH_STATUS_INTERNAL_V1 "controller plan projection invalid", 0, output,
                set_handle p handle owner)
          else
            let sampling := splice (ec_sampling owner) 0
              (map WireSampling (ppv_selected_sampling view)) in
            (ok_status, 1, Some (wire_plan view sampling),
             set_handle p handle (owner <| ec_sampling := sampling |>))
      end
  end.

Definition PlanIdentity (p : Provider) (context handle sequence : Z) (digest : option Sha256Digest)
    (operation : ControllerRuntime -> Z -> Sha256Digest -> Status * ControllerRuntime) :
    pih_status_v1 * Provider :=
  match digest with
  | Some digest =>
      if negb (context =? provider_address) || (sequence =? 0)
      then (wire_status PIH_STATUS_INVALID_ARGUMENT_V1 "plan identity invalid", p)
      else on_runtime p handle foreign_handle (fun runtime =>
        let '(status, runtime) := operation runtime sequence digest in
        (WireStatus status, runtime))
  | None => (wire_status PIH_STATUS_INVALID_ARGUMENT_V1 "plan identity invalid", p)
  end.

Definition Commit (p : Provider) (context handle sequence : Z) (digest : option Sha256Digest) :
    pih_status_v1 * Provider :=
  PlanIdentity p context handle sequence digest commit_current_plan.

Definition MarkInFlight (p : Provider) (context handle sequence : Z)
    (digest : option Sha256Digest) : pih_status_v1 * Provider :=
  PlanIdentity p context handle sequence digest mark_current_plan_in_flight.

Definition Abort (p : Provider) (context handle sequence : Z) (digest : option Sha256Digest) :
    pih_status_v1 * Provider :=
  PlanIdentity p context handle sequence digest abort_current_plan.

Definition CompleteSampledTokens (p : Provider) (self context handle : Z)
    (tokens : option (list Z)) (count now_ns : Z) : pih_status_v1 * Provider :=
  match tokens with
  | Some tokens =>
      if negb (context =? provider_address) || (count =? 0) || (count >? 256)
      then (wire_status PIH_STATUS_INVALID_ARGUMENT_V1 "sampled tokens invalid", p)
      else on_runtime p handle foreign_handle (fun runtime =>
        let '(status, runtime) := complete_current_sampled_tokens runtime self
          (take (Z.to_nat count) tokens) now_ns in
        (WireStatus status, runtime))
  | None => (wire_status PIH_STATUS_INVALID_ARGUMENT_V1 "sampled tokens invalid", p)
  end.

Definition AcknowledgeOutput (p : Provider) (context handle sequence : Z) :
    pih_status_v1 * Provider :=
  if negb (context =? provider_address) || (sequence =? 0)
  then (wire_status PIH_STATUS_INVALID_ARGUMENT_V1 "output plan invalid", p)
  else on_runtime p handle foreign_handle (fun runtime =>
    let '(status, runtime) := acknowledge_output_plan runtime sequence in
    (WireStatus status, runtime)).

Definition FinalizeDraining (p : Provider) (self context handle generation : Z) :
    pih_status_v1 * Provider :=
  if negb (context =? provider_address) || (generation =? 0)
  then (wire_status PIH_STATUS_INVALID_ARGUMENT_V1 "drain generation invalid", p)
  else on_runtime p handle foreign_handle (fun runtime =>
    let '(status, runtime) := finalize_draining runtime self generation in
    (WireStatus status, runtime)).

Definition wire_event (e : ControllerOutputEvent) : pih_execution_event_v1 :=
  MkWireEvent sizeof_event PIH_EXECUTION_CONTROLLER_ABI_V1 (event_kind_value (ev_kind e))
    (finish_reason_value (ev_finish_reason e)) (ev_event_sequence e) (ev_epoch e)
    (ev_request_generation e) (ev_token_ordinal e) (ev_token_id e) (ev_state_digest e)
    (ev_plan_sequence e) (ev_plan_event_index e) (ev_plan_event_count e).

Definition TakeEvent (p : Provider) (context handle : Z) (has_event : bool)
    (output : option pih_execution_event_v1) :
    pih_status_v1 * Z * option pih_execution_event_v1 * Provider :=
  let header_ok := match output with
    | Some o => (we_struct_size o =? sizeof_event)
                && (we_abi_version o =? PIH_EXECUTION_CONTROLLER_ABI_V1)
    | None => false
    end in
  let output := if header_ok
    then Some (empty_event sizeof_event PIH_EXECUTION_CONTROLLER_ABI_V1) else output in
  if negb (context =? provider_address) || negb has_event || negb header_ok
  then (wire_status PIH_STATUS_INVALID_ARGUMENT_V1 "event output invalid", 0, output, p)
  else on_runtime p handle (foreign_handle, 0, output) (fun runtime =>
    let '(event, runtime) := Runtime.try_take_event runtime in
    (match event with
     | Error e => (WireStatus e, 0, output)
     | Value None => (ok_status, 0, output)
     | Value (Some value) => (ok_status, 1, Some (wire_event value))
     end, runtime)).

(** [active] and [queued] point to the caller's variables; nothing is written on
    error. *)
Definition Counts (p : Provider) (context handle : Z) (active queued : option Z) :
    pih_status_v1 * option Z * option Z * Provider :=
  match active, queued with
  | Some _, Some _ =>
      if negb (context =? provider_address)
      then (wire_status PIH_STATUS_INVALID_ARGUMENT_V1 "controller counts output invalid",
            active, queued, p)
      else match Find p handle with
      | None => (foreign_handle, active, queued, p)
      | Some owner =>
          (ok_status, Some (active_sequence_count (ec_runtime owner)),
           Some (Runtime.queued_command_count (ec_runtime owner)), p)
      end
  | _, _ => (wire_status PIH_STATUS_INVALID_ARGUMENT_V1 "controller counts output invalid",
             active, queued, p)
  end.

Definition SetControllerReady (p : Provider) (ready : bool) : Provider := p <| pv_ready := ready |>.

Definition ControllerHandlesEmpty (p : Provider) : bool := vsize (pv_handles p) =? 0.

Definition ControllerApi : pih_execution_controller_api_v1 Provider :=
  MkApi Provider sizeof_api PIH_EXECUTION_CONTROLLER_ABI_V1 provider_address true
    Create Destroy SubmitAdmit SubmitCancel (@Step) Prepare Commit MarkInFlight Abort
    CompleteSampledTokens AcknowledgeOutput FinalizeDraining TakeEvent Counts.
