(* ===== verification/Client.v ===== *)
(** * The controller client of a model plugin

    Models [plugins/model-qwen3/controller_client.cpp]: the adapter through which
    the model plugin drives a controller of the execution plugin.  It projects
    each call onto the wire, rebuilds and checks the packed plan that the provider
    returns, and never interprets provider memory beyond the wire structures.

    The client is written against the function table of [ControllerAbi], over any
    provider state [PS].  A [catch] of the callbacks is not modelled: a participant
    is a function.  Reads through a wire pointer are list reads; the header of the
    contract bounds them by the limits given at creation. *)

From stdpp Require Import gmap list_numbers.
From S2P Require Import Prelude Core Sha256 TokenPlan TokenMetadata Sequence BurstCredits.
From S2P Require Import Mailbox RequestArena Ingress Scheduler Runtime ControllerAbi Provider.

(** ** Projections *)

Definition FromWire (wire : pih_status_v1) : Status :=
  if negb (pih_status_is_valid_v1 wire)
  then Internal "execution controller returned an invalid status"
  else status_of_code wire "execution controller status code invalid".

(** The same fields as the provider's [WireStatus]. *)
Definition ToWire (s : Status) : pih_status_v1 := wire_status (wire_code (code s)) (message s).

(** [ToWire] of sampling: the stop tokens are copied only when the count fits. *)
Definition ToWireSampling (input : ControllerRequestSampling) : pih_execution_sampling_v1 :=
  MkWireSampling sizeof_sampling PIH_EXECUTION_CONTROLLER_ABI_V1
    (sampling_mode_value (sm_mode input)) (sm_temperature input) (sm_top_p input)
    (Z.b2z (bool_decide (is_Some (sm_top_k input)))) (default 0 (sm_top_k input))
    (sm_effective_seed input) (sm_sample_ordinal input) (sm_minimum_new_tokens input)
    (Z.b2z (sm_logprobs_enabled input)) (sm_top_logprobs_count input) (sm_stop_token_count input)
    (if sm_stop_token_count input <=? kMaximumStopTokenIds
     then copy_stop_tokens (sm_stop_token_count input) (sm_stop_token_ids input)
     else replicate 16 0).

Definition FromWireSampling (wire : pih_execution_sampling_v1) : Result ControllerRequestSampling :=
  if negb (wsm_struct_size wire =? sizeof_sampling)
     || negb (wsm_abi_version wire =? PIH_EXECUTION_CONTROLLER_ABI_V1)
     || (wsm_mode wire >? 1) || (wsm_has_top_k wire >? 1) || (wsm_logprobs_enabled wire >? 1)
     || (wsm_stop_token_count wire >? kMaximumStopTokenIds)
  then Error (Internal "execution sampling projection invalid")
  else Value (MkSampling
    (if wsm_mode wire =? 0 then SamplingMode.kGreedy else SamplingMode.kStochastic)
    (wsm_temperature wire) (wsm_top_p wire)
    (if negb (wsm_has_top_k wire =? 0) then Some (wsm_top_k wire) else None)
    (wsm_effective_seed wire) (wsm_sample_ordinal wire) (wsm_minimum_new_tokens wire)
    (negb (wsm_logprobs_enabled wire =? 0)) (wsm_top_logprobs_count wire)
    (copy_stop_tokens (wsm_stop_token_count wire) (wsm_stop_token_ids wire))
    (wsm_stop_token_count wire)).

Definition ValidApi {PS} (api : pih_execution_controller_api_v1 PS) : bool :=
  (api_struct_size api =? sizeof_api)
  && (api_contract_version api =? PIH_EXECUTION_CONTROLLER_ABI_V1)
  && negb (api_context api =? 0) && api_functions api.

(** ** The client *)

(** [cl_admission] says that a participant is installed, during [step] only. *)
Record ControllerClient := MkClient {
  cl_handle : Z;
  cl_limits : ControllerRuntimeLimits;
  cl_admission : bool;
  cl_plan : option PackedTokenPlan;
  cl_plan_inputs : list PackedSequenceInput;
  cl_input_tokens : list Z;
  cl_request_index : list Z;
  cl_query_offsets : list Z;
  cl_sample_rows : list Z;
  cl_selected_slots : list Z;
  cl_positions : list Z;
  cl_selected_sampling : list ControllerRequestSampling }.

#[export] Instance eta_ControllerClient : Eta ControllerClient := fun c =>
  MkClient (cl_handle c) (cl_limits c) (cl_admission c) (cl_plan c) (cl_plan_inputs c)
    (cl_input_tokens c) (cl_request_index c) (cl_query_offsets c) (cl_sample_rows c)
    (cl_selected_slots c) (cl_positions c) (cl_selected_sampling c).

Definition closed : Status := FailedPrecondition "execution controller closed".

Definition output_plan_kind_value (k : OutputPlanKind) : Z :=
  match k with kQwen => 1 | kDeepSeek => 2 end.

Definition wire_limits (limits : ControllerRuntimeLimits) : pih_execution_controller_limits_v1 :=
  let mailbox := igl_mailbox (rl_ingress limits) in
  let requests := igl_requests (rl_ingress limits) in
  let scheduler := rl_scheduler limits in
  MkWireLimits sizeof_limits PIH_EXECUTION_CONTROLLER_ABI_V1
    (rl_epoch limits) (rl_maximum_sequences limits)
    (mbl_command_capacity mailbox) (mbl_event_capacity mailbox)
    (rql_maximum_requests requests) (rql_maximum_prompt_tokens_per_request requests)
    (rql_maximum_context_tokens requests)
    (ptp_maximum_candidates scheduler) (ptp_maximum_sequences_per_plan scheduler)
    (ptp_maximum_real_tokens_per_plan scheduler) (ptp_scheduler_scan_limit scheduler)
    (ptp_max_consecutive_decode_rounds scheduler) (ptp_prefill_starvation_threshold_ns scheduler)
    (pml_maximum_sequences (rl_metadata limits))
    (pml_maximum_execution_bucket_tokens (rl_metadata limits))
    (rl_maximum_prefill_chunk_tokens limits)
    (Z.b2z (rl_pad_to_maximum_execution_bucket limits))
    (Some (rl_profile_revision limits))
    (wrap32 (Z.of_nat (String.length (rl_profile_revision limits))))
    (rl_resource_vector_hash limits) (rl_eos_token_id limits)
    (rl_output_burst_credit_count limits) (rl_output_maximum_slots_per_credit limits)
    (rl_output_maximum_bytes_per_credit limits)
    (output_plan_kind_value (rl_output_plan_kind limits)).

Section Client.
Context {PS : Type} (api : pih_execution_controller_api_v1 PS).

Definition Bind (bound : option (pih_execution_controller_api_v1 PS))
    (api : option (pih_execution_controller_api_v1 PS)) :
    Status * option (pih_execution_controller_api_v1 PS) :=
  match api with
  | Some a =>
      if negb (ValidApi a)
      then (FailedPrecondition "execution controller capability invalid", bound)
      else match bound with
      | None => (StatusOk, api)
      | Some _ => (FailedPrecondition "execution controller already bound", bound)
      end
  | None => (FailedPrecondition "execution controller capability invalid", bound)
  end.

(** [address] is what the provider's allocation returns. *)
Definition Create (ps : PS) (address : Z) (limits : ControllerRuntimeLimits) :
    Result ControllerClient * PS :=
  if negb (ValidApi api) || (Z.of_nat (String.length (rl_profile_revision limits)) =? 0)
     || (Z.of_nat (String.length (rl_profile_revision limits)) >? 128)
     || (rl_maximum_sequences limits =? 0)
  then (Error (InvalidArgument "execution controller capability or limits invalid"), ps)
  else
    let '(wire, handle, ps) :=
      api_create api ps address (api_context api) (Some (wire_limits limits)) true in
    let status := FromWire wire in
    if negb (ok status) then (Error status, ps)
    else if handle =? 0
    then (Error (Internal "execution provider returned no controller handle"), ps)
    else (Value (MkClient handle limits false None [] [] [] [] [] [] [] []), ps).

(** [CreateBound] with this table bound. *)
Definition CreateBound (bound : bool) (ps : PS) (address : Z) (limits : ControllerRuntimeLimits) :
    Result ControllerClient * PS :=
  if negb bound then (Error (FailedPrecondition "execution controller not bound"), ps)
  else Create ps address limits.

Definition close (cl : ControllerClient) (ps : PS) : Status * ControllerClient * PS :=
  if cl_handle cl =? 0 then (StatusOk, cl, ps)
  else
    let '(wire, handle, ps) := api_destroy api ps (api_context api) (Some (cl_handle cl)) in
    (FromWire wire, cl <| cl_handle := default (cl_handle cl) handle |>, ps).

Definition submit_admit (cl : ControllerClient) (ps : PS) (generation : Z) (prompt : list Z)
    (maximum_new_tokens : Z) (sampling : ControllerRequestSampling) : Status * PS :=
  if (cl_handle cl =? 0) || (vsize prompt =? 0) || (vsize prompt >? u32_max)
     || (sm_stop_token_count sampling >? kMaximumStopTokenIds)
  then (InvalidArgument "execution admission arguments invalid", ps)
  else
    let '(wire, ps) := api_submit_admit api ps (api_context api) (cl_handle cl) generation
      (Some prompt) (wrap32 (vsize prompt)) maximum_new_tokens (Some (ToWireSampling sampling)) in
    (FromWire wire, ps).

(** A call that only needs the handle. *)
Definition with_handle (cl : ControllerClient) (ps : PS) (call : PS -> pih_status_v1 * PS) :
    Status * PS :=
  if cl_handle cl =? 0 then (closed, ps)
  else let '(wire, ps) := call ps in (FromWire wire, ps).

Definition submit_cancel (cl : ControllerClient) (ps : PS) (generation : Z) : Status * PS :=
  with_handle cl ps (fun ps => api_submit_cancel api ps (api_context api) (cl_handle cl) generation).

(** ** The admission callbacks *)

Definition Reserve {CS} (cl : ControllerClient) (admission : option (ControllerAdmissionParticipant CS))
    (cs : CS) (wire : option pih_execution_admission_v1) : pih_status_v1 * CS :=
  let invalid := ToWire (Internal "execution admission callback view invalid") in
  match admission, wire with
  | Some participant, Some w =>
      match wa_prompt_token_ids w with
      | None => (invalid, cs)
      | Some tokens =>
          let requests := igl_requests (rl_ingress (cl_limits cl)) in
          if negb (wa_struct_size w =? sizeof_admission)
             || negb (wa_abi_version w =? PIH_EXECUTION_CONTROLLER_ABI_V1)
             || (wa_command_sequence w =? 0) || (wa_epoch w =? 0)
             || (wa_request_generation w =? 0) || (wa_slot_generation w =? 0)
             || (wa_prompt_token_count w =? 0)
             || (wa_slot_index w >=? rql_maximum_requests requests)
             || (wa_prompt_token_count w >? rql_maximum_prompt_tokens_per_request requests)
          then (invalid, cs)
          else match FromWireSampling (wa_sampling w) with
          | Error e => (ToWire e, cs)
          | Value sampling =>
              let digest := wa_payload_digest w in
              let '(status, cs) := pa_reserve participant cs (MkAdmissionView
                (MkCommand CommandKind.kAdmit (wa_command_sequence w) (wa_epoch w)
                   (wa_request_generation w) digest)
                (MkRequestView (wa_slot_index w) (wa_slot_generation w) (wa_request_generation w)
                   (MkSpan tokens (wa_prompt_token_count w)) (wa_maximum_new_tokens w) sampling
                   digest)) in
              (ToWire status, cs)
          end
      end
  | _, _ => (invalid, cs)
  end.

Definition callback_absent : pih_status_v1 :=
  ToWire (Internal "execution admission callback absent").

Definition Publish {CS} (admission : option (ControllerAdmissionParticipant CS)) (cs : CS)
    (generation : Z) : pih_status_v1 * CS :=
  match admission with
  | Some participant =>
      let '(status, cs) := pa_publish participant cs generation in (ToWire status, cs)
  | None => (callback_absent, cs)
  end.

Definition Rollback {CS} (admission : option (ControllerAdmissionParticipant CS)) (cs : CS)
    (generation : Z) : pih_status_v1 * CS :=
  match admission with
  | Some participant =>
      let '(status, cs) := pa_rollback participant cs generation in (ToWire status, cs)
  | None => (callback_absent, cs)
  end.

(** The enumerator of a value that the range check let through. *)
Definition step_of_value (v : Z) : ControllerRuntimeStep :=
  if v =? 1 then RuntimeStep.kIdle
  else if v =? 2 then RuntimeStep.kOutputBackpressured
  else if v =? 3 then RuntimeStep.kAdmitted
  else if v =? 4 then RuntimeStep.kCancelRequested
  else RuntimeStep.kAdmissionRejected.

(** [admission_] is set for the call and cleared after it, so that the client
    between two calls has no participant. *)
Definition step {CS} (cl : ControllerClient) (ps : PS) (self now_ns : Z)
    (admission : ControllerAdmissionParticipant CS) (cs : CS) :
    Result ControllerRuntimeStep * CS * PS :=
  if (cl_handle cl =? 0) || cl_admission cl
  then (Error (FailedPrecondition "execution step unavailable"), cs, ps)
  else
    let callbacks := MkCallbacks CS sizeof_callbacks PIH_EXECUTION_CONTROLLER_ABI_V1 true
      (Some (Reserve cl (Some admission))) (Some (Publish (Some admission)))
      (Some (Rollback (Some admission))) in
    let '(wire, value, cs, ps) :=
      api_step api ps self (api_context api) (cl_handle cl) now_ns (Some callbacks) cs true in
    let status := FromWire wire in
    if negb (ok status) then (Error status, cs, ps)
    else if (value <? PIH_EXECUTION_STEP_IDLE_V1)
            || (value >? PIH_EXECUTION_STEP_ADMISSION_REJECTED_V1)
    then (Error (Internal "execution step value invalid"), cs, ps)
    else (Value (step_of_value value), cs, ps).

(** ** [prepare_next_plan] *)

(** The arrays of a plan view, none of whose pointers is null. *)
Record plan_arrays := MkArrays {
  wv_revision : string;
  wv_generations : list Z;
  wv_starts : list Z;
  wv_counts : list Z;
  wv_offsets : list Z;
  wv_state_generations : list Z;
  wv_input_digests : list Sha256Digest;
  wv_slots : list Z;
  wv_sampling : list pih_execution_sampling_v1;
  wv_tokens : list Z;
  wv_positions : list Z;
  wv_request_index : list Z;
  wv_query_offsets : list Z }.

Definition arrays_of (w : pih_execution_plan_view_v1) : option plan_arrays :=
  revision ← wp_profile_revision w;
  generations ← wp_sequence_generations w;
  starts ← wp_committed_start_positions w;
  counts ← wp_sequence_real_token_counts w;
  offsets ← wp_packed_offsets w;
  state_generations ← wp_state_generations w;
  input_digests ← wp_input_digests w;
  slots ← wp_selected_slot_indices w;
  sampling ← wp_selected_sampling w;
  tokens ← wp_input_token_ids w;
  positions ← wp_positions w;
  request_index ← wp_request_index w;
  query_offsets ← wp_query_start_offsets w;
  Some (MkArrays revision generations starts counts offsets state_generations input_digests slots
          sampling tokens positions request_index query_offsets).

Definition plan_header_invalid (limits : ControllerRuntimeLimits) (has_plan : Z)
    (w : pih_execution_plan_view_v1) : bool :=
  negb (has_plan =? 1) || negb (wp_struct_size w =? sizeof_plan_view)
  || negb (wp_abi_version w =? PIH_EXECUTION_CONTROLLER_ABI_V1)
  || negb (wp_epoch w =? rl_epoch limits) || (wp_plan_sequence w =? 0)
  || (wp_sequence_count w =? 0)
  || (wp_sequence_count w >? ptp_maximum_sequences_per_plan (rl_scheduler limits))
  || (wp_execution_bucket_tokens w =? 0)
  || (wp_execution_bucket_tokens w >? pml_maximum_execution_bucket_tokens (rl_metadata limits))
  || (wp_sample_row_count w >? wp_sequence_count w)
  || (wp_profile_revision_bytes w =? 0) || (wp_profile_revision_bytes w >? 128)
  || (negb (wp_sample_row_count w =? 0) && bool_decide (wp_sample_row_index w = None)).

(** The enumerator of a wire phase; [PackedTokenPlan::Create] refuses the values
    that have none. *)
Definition phase_of_value (v : Z) : option PackedTokenPhase :=
  if v =? 1 then Some kPrefill
  else if v =? 2 then Some kDecode
  else if v =? 3 then Some kVerify
  else None.

Definition wire_inputs (count : Z) (a : plan_arrays) : list PackedSequenceInput :=
  map (fun i => MkSequenceInput ((wv_generations a).[i]) ((wv_starts a).[i]) ((wv_counts a).[i])
                  ((wv_state_generations a).[i]) ((wv_input_digests a).[i])) (seqZ 0 count).

Definition client_plan_limits (limits : ControllerRuntimeLimits) : PackedTokenPlanLimits :=
  MkPlanLimits (ptp_maximum_sequences_per_plan (rl_scheduler limits))
    (ptp_maximum_real_tokens_per_plan (rl_scheduler limits))
    (pml_maximum_execution_bucket_tokens (rl_metadata limits)).

Definition rebuild_plan (limits : ControllerRuntimeLimits) (w : pih_execution_plan_view_v1)
    (revision : string) (inputs : list PackedSequenceInput) : Result PackedTokenPlan :=
  let invalid := Error (Internal "execution packed plan invalid") in
  match phase_of_value (wp_phase w) with
  | None => invalid
  | Some phase =>
      match PackedTokenPlan_Create (wp_epoch w) (wp_plan_sequence w) phase revision
              (rl_resource_vector_hash limits) inputs (wp_execution_bucket_tokens w)
              (client_plan_limits limits) with
      | Error _ => invalid
      | Value plan =>
          if negb (pp_total_real_tokens plan =? wp_real_token_count w) then invalid else Value plan
      end
  end.

(** The loop over the rows of one sequence. *)
Definition rows_drifted (plan : PackedTokenPlan) (request_index positions : list Z) (i : Z) : bool :=
  let begin := (pp_packed_offsets plan).[i] in
  let start := (pp_committed_start_positions plan).[i] in
  existsb (fun local =>
    let row := wrap32 (begin + local) in
    (start >? u64_max - local) || negb (request_index.[row] =? i)
    || negb (positions.[row] =? wrap64 (start + local)))
    (seqZ 0 ((pp_real_token_counts plan).[i])).

(** The loop over the sequences, on the indices that remain. *)
Fixpoint check_sequences (plan : PackedTokenPlan) (tokens request_index positions : list Z)
    (indices : list Z) : Status :=
  match indices with
  | [] => StatusOk
  | i :: indices =>
      let begin := (pp_packed_offsets plan).[i] in
      let count := (pp_real_token_counts plan).[i] in
      match packed_token_input_digest (take (Z.to_nat count) (drop (Z.to_nat begin) tokens)) with
      | Error _ => Internal "execution metadata token digest drifted"
      | Value digest =>
          if negb (bool_decide (digest = (pp_input_digests plan).[i]))
          then Internal "execution metadata token digest drifted"
          else if rows_drifted plan request_index positions i
          then Internal "execution metadata position drifted"
          else check_sequences plan tokens request_index positions indices
      end
  end.

Definition sample_rows_invalid (real_token_count : Z) (rows : list Z) : bool :=
  existsb (fun i => (rows.[i] >=? real_token_count)
                    || (negb (i =? 0) && (rows.[i] <=? rows.[i - 1])))
    (seqZ 0 (vsize rows)).

(** The sampling loop; what was pushed before a refused one stays. *)
Fixpoint push_sampling (acc : list ControllerRequestSampling)
    (wires : list pih_execution_sampling_v1) : Status * list ControllerRequestSampling :=
  match wires with
  | [] => (StatusOk, acc)
  | w :: wires =>
      match FromWireSampling w with
      | Error e => (e, acc)
      | Value s => push_sampling (acc ++ [s]) wires
      end
  end.

(** The part of [prepare_next_plan] after the checks of the header. *)
Definition adopt_plan (cl : ControllerClient) (w : pih_execution_plan_view_v1) (a : plan_arrays) :
    Result (option ControllerPreparedPlanView) * ControllerClient :=
  let limits := cl_limits cl in
  let count := wp_sequence_count w in
  let bucket := wp_execution_bucket_tokens w in
  let revision := String.substring 0 (Z.to_nat (wp_profile_revision_bytes w)) (wv_revision a) in
  if negb (String.eqb revision (rl_profile_revision limits))
     || negb (bool_decide (wp_resource_vector_hash w = rl_resource_vector_hash limits))
  then (Error (Internal "execution plan identity drifted"), cl)
  else
    let inputs := wire_inputs count a in
    let cl := cl <| cl_plan_inputs := inputs |> in
    match rebuild_plan limits w revision inputs with
    | Error e => (Error e, cl)
    | Value plan =>
        match semantic_digest plan with
        | Error _ => (Error (Internal "execution packed plan digest invalid"), cl)
        | Value digest =>
            if negb (bool_decide (digest = wp_plan_digest w))
            then (Error (Internal "execution packed plan digest invalid"), cl)
            else if existsb (fun i => negb ((wv_offsets a).[i] =? (pp_packed_offsets plan).[i]))
                      (seqZ 0 (count + 1))
            then (Error (Internal "execution packed offsets drifted"), cl)
            else
              let tokens := take (Z.to_nat bucket) (wv_tokens a) in
              let positions := take (Z.to_nat bucket) (wv_positions a) in
              let request_index := take (Z.to_nat bucket) (wv_request_index a) in
              let query_offsets := take (Z.to_nat (count + 1)) (wv_query_offsets a) in
              let cl := cl <| cl_input_tokens := tokens |> <| cl_positions := positions |>
                           <| cl_request_index := request_index |>
                           <| cl_query_offsets := query_offsets |> in
              if existsb (fun i => negb (query_offsets.[i] =? (pp_packed_offsets plan).[i]))
                   (seqZ 0 (count + 1))
              then (Error (Internal "execution metadata query offsets drifted"), cl)
              else
                let checked :=
                  check_sequences plan tokens request_index positions (seqZ 0 count) in
                if negb (ok checked) then (Error checked, cl)
                else
                  let rows := take (Z.to_nat (wp_sample_row_count w))
                    (default [] (wp_sample_row_index w)) in
                  let cl := cl <| cl_sample_rows := rows |> in
                  if sample_rows_invalid (wp_real_token_count w) rows
                  then (Error (Internal "execution sampling rows invalid"), cl)
                  else
                    let slots := take (Z.to_nat count) (wv_slots a) in
                    let '(projected, sampling) :=
                      push_sampling [] (take (Z.to_nat count) (wv_sampling a)) in
                    let cl := cl <| cl_selected_slots := slots |>
                                 <| cl_selected_sampling := sampling |> in
                    if negb (ok projected) then (Error projected, cl)
                    else
                      (Value (Some (MkPreparedPlan plan
                         (MkMetadataView (wp_metadata_generation w) tokens positions request_index
                            query_offsets rows (wp_real_token_count w)) slots sampling digest)),
                       cl <| cl_plan := Some plan |>)
        end
    end.

Definition prepare_next_plan (cl : ControllerClient) (ps : PS) (now_ns : Z) :
    Result (option ControllerPreparedPlanView) * ControllerClient * PS :=
  if cl_handle cl =? 0 then (Error closed, cl, ps)
  else
    let empty := empty_plan_view sizeof_plan_view PIH_EXECUTION_CONTROLLER_ABI_V1 in
    let '(wire, has_plan, output, ps) :=
      api_prepare api ps (api_context api) (cl_handle cl) now_ns true (Some empty) in
    let status := FromWire wire in
    if negb (ok status) then (Error status, cl, ps)
    else if has_plan =? 0 then (Value None, cl, ps)
    else
      let w := default empty output in
      match arrays_of w with
      | None => (Error (Internal "execution plan projection invalid"), cl, ps)
      | Some a =>
          if plan_header_invalid (cl_limits cl) has_plan w
          then (Error (Internal "execution plan projection invalid"), cl, ps)
          else let '(r, cl) := adopt_plan cl w a in (r, cl, ps)
      end.

(** ** The life of the plan, and the output *)

Definition commit_current_plan (cl : ControllerClient) (ps : PS) (sequence : Z)
    (digest : Sha256Digest) : Status * PS :=
  with_handle cl ps (fun ps =>
    api_commit api ps (api_context api) (cl_handle cl) sequence (Some digest)).

Definition mark_current_plan_in_flight (cl : ControllerClient) (ps : PS) (sequence : Z)
    (digest : Sha256Digest) : Status * PS :=
  with_handle cl ps (fun ps =>
    api_mark_in_flight api ps (api_context api) (cl_handle cl) sequence (Some digest)).

Definition abort_current_plan (cl : ControllerClient) (ps : PS) (sequence : Z)
    (digest : Sha256Digest) : Status * PS :=
  with_handle cl ps (fun ps =>
    api_abort api ps (api_context api) (cl_handle cl) sequence (Some digest)).

Definition complete_current_sampled_tokens (cl : ControllerClient) (ps : PS) (self : Z)
    (tokens : list Z) (now_ns : Z) : Status * PS :=
  if (cl_handle cl =? 0) || (vsize tokens =? 0) || (vsize tokens >? u32_max)
  then (InvalidArgument "execution sampled token span invalid", ps)
  else
    let '(wire, ps) := api_complete_sampled_tokens api ps self (api_context api) (cl_handle cl)
      (Some tokens) (wrap32 (vsize tokens)) now_ns in
    (FromWire wire, ps).

Definition acknowledge_output_plan (cl : ControllerClient) (ps : PS) (sequence : Z) :
    Status * PS :=
  with_handle cl ps (fun ps =>
    api_acknowledge_output api ps (api_context api) (cl_handle cl) sequence).

Definition finalize_draining (cl : ControllerClient) (ps : PS) (self generation : Z) :
    Status * PS :=
  with_handle cl ps (fun ps =>
    api_finalize_draining api ps self (api_context api) (cl_handle cl) generation).

(** The enumerators of values that the range checks let through. *)
Definition event_kind_of_value (v : Z) : EventKind.ControllerOutputEventKind :=
  if v =? 1 then EventKind.kAdmitted
  else if v =? 2 then EventKind.kTokenCommitted
  else if v =? 3 then EventKind.kDraining
  else if v =? 4 then EventKind.kCompleted
  else if v =? 5 then EventKind.kCancelled
  else EventKind.kFailed.

Definition finish_reason_of_value (v : Z) : FinishReason.ControllerFinishReason :=
  if v =? 0 then FinishReason.kNone else if v =? 1 then FinishReason.kStop else FinishReason.kLength.

Definition event_invalid (limits : ControllerRuntimeLimits) (has_event : Z)
    (w : pih_execution_event_v1) : bool :=
  negb (has_event =? 1) || negb (we_struct_size w =? sizeof_event)
  || negb (we_abi_version w =? PIH_EXECUTION_CONTROLLER_ABI_V1)
  || negb (we_epoch w =? rl_epoch limits) || (we_kind w <? PIH_EXECUTION_EVENT_ADMITTED_V1)
  || (we_kind w >? PIH_EXECUTION_EVENT_FAILED_V1)
  || (we_finish_reason w >? PIH_EXECUTION_FINISH_LENGTH_V1)
  || (we_event_sequence w =? 0) || (we_request_generation w =? 0).

Definition try_take_event (cl : ControllerClient) (ps : PS) :
    Result (option ControllerOutputEvent) * PS :=
  if cl_handle cl =? 0 then (Error closed, ps)
  else
    let empty := empty_event sizeof_event PIH_EXECUTION_CONTROLLER_ABI_V1 in
    let '(wire, has_event, output, ps) :=
      api_take_event api ps (api_context api) (cl_handle cl) true (Some empty) in
    let status := FromWire wire in
    if negb (ok status) then (Error status, ps)
    else if has_event =? 0 then (Value None, ps)
    else
      let w := default empty output in
      if event_invalid (cl_limits cl) has_event w
      then (Error (Internal "execution event projection invalid"), ps)
      else (Value (Some (MkEvent (event_kind_of_value (we_kind w)) (we_event_sequence w)
              (we_epoch w) (we_request_generation w) (we_token_ordinal w) (we_token_id w)
              (we_state_digest w) (we_plan_sequence w) (we_plan_event_index w)
              (we_plan_event_count w) (finish_reason_of_value (we_finish_reason w)))), ps).

(** [counts]: the first component for [active_sequence_count], the second for
    [queued_command_count]; both are [UINT32_MAX] when the call fails. *)
Definition counts (cl : ControllerClient) (ps : PS) : Z * Z :=
  if cl_handle cl =? 0 then (u32_max, u32_max)
  else
    let '(wire, active, queued, _) :=
      api_counts api ps (api_context api) (cl_handle cl) (Some u32_max) (Some u32_max) in
    if pih_status_is_ok_v1 wire then (default u32_max active, default u32_max queued)
    else (u32_max, u32_max).

Definition active_sequence_count (cl : ControllerClient) (ps : PS) : Z := fst (counts cl ps).
Definition queued_command_count (cl : ControllerClient) (ps : PS) : Z := snd (counts cl ps).

End Client.
