(* ===== verification/Wire.v ===== *)
(** * Values across the wire

    What the other side of the boundary reads: statuses, sampling descriptors,
    events and limits, projected by the provider and read by the client or the
    other way round. *)

From stdpp Require Import gmap list_numbers.
From S2P Require Import Prelude Core Sha256 TokenPlan TokenMetadata Sequence BurstCredits.
From S2P Require Import Mailbox RequestArena Ingress Scheduler Runtime RuntimeInv.
From S2P Require Import RuntimeMachine RuntimeKeeps ControllerAbi Provider Client.

(** ** Round trips over the wire *)

(** A status as the other side of the boundary reads it: the code, and the text up
    to 255 bytes or the first zero byte. *)
Definition relay (s : Status) : Status := FromWire (WireStatus s).

Lemma wire_status_valid s : pih_status_is_valid_v1 (WireStatus s) = true.
Proof. unfold WireStatus. by destruct (code s). Qed.

Lemma relay_eq s :
  relay s = status_of_code (WireStatus s) "execution controller status code invalid".
Proof. unfold relay, FromWire. by rewrite wire_status_valid. Qed.

Lemma relay_core s : CoreStatus (ToWire s) = relay s.
Proof.
  rewrite relay_eq. unfold CoreStatus. change (ToWire s) with (WireStatus s).
  rewrite wire_status_valid. unfold WireStatus. by destruct (code s).
Qed.

Lemma code_relay s : code (relay s) = code s.
Proof.
  rewrite relay_eq. unfold WireStatus. destruct (code s) eqn:E; try done; apply code_Status_new.
Qed.

Lemma ok_relay s : ok (relay s) = ok s.
Proof. unfold ok. by rewrite code_relay. Qed.

Lemma relay_ok s : ok s = true -> relay s = StatusOk.
Proof. unfold ok. rewrite relay_eq. unfold WireStatus. by destruct (code s). Qed.

Lemma substring_full m n : (String.length m <= n)%nat -> String.substring 0 n m = m.
Proof.
  revert n. induction m as [|c m IH]; intros [|n] Hn; cbn in *; try done; try lia.
  by rewrite IH by lia.
Qed.

(** What survives the wire: a failure whose text fits and has no zero byte, or OK. *)
Definition relayable (s : Status) : bool :=
  bool_decide (s = Status_new (code s) (message s)) && (String.length (message s) <? sizeof_message)%nat
  && String.eqb (c_string (message s)) (message s).

Lemma relay_id s : relayable s = true -> relay s = s.
Proof.
  unfold relayable. rewrite !andb_true_iff. intros [[H1%bool_decide_eq_true H2%Nat.ltb_lt] H3%String.eqb_eq].
  unfold sizeof_message in H2. rewrite relay_eq.
  assert (E : WireStatus s = MkWireStatus sizeof_status PIH_STATUS_ABI_VERSION_V1
    (wire_code (code s)) (message s)).
  { unfold WireStatus, wire_status. rewrite substring_full; [done|]. unfold sizeof_message. lia. }
  rewrite E. unfold status_of_code. cbn [ws_message ws_code]. rewrite H3.
  destruct s as [c m]. destruct c; symmetry; exact H1.
Qed.

(** The sampling descriptor in canonical form: the stop tokens beyond the count
    are zero. *)
Definition canonical_sampling (s : ControllerRequestSampling) : ControllerRequestSampling :=
  s <| sm_stop_token_ids := copy_stop_tokens (sm_stop_token_count s) (sm_stop_token_ids s) |>.

Lemma copy_stop_tokens_size n ids :
  0 <= n <= 16 -> vsize ids = 16 -> vsize (copy_stop_tokens n ids) = 16.
Proof.
  intros Hn Hs. unfold copy_stop_tokens. rewrite vsize_splice; [by rewrite vsize_replicate|lia|].
  rewrite vsize_replicate. unfold vsize in *. rewrite length_take. lia.
Qed.

Lemma copy_stop_tokens_eq n ids :
  0 <= n <= 16 -> vsize ids = 16 ->
  copy_stop_tokens n ids = take (Z.to_nat n) ids ++ replicate (16 - Z.to_nat n) 0.
Proof.
  intros Hn Hs. unfold copy_stop_tokens, splice. change (Z.to_nat 0) with 0%nat. rewrite take_0, app_nil_l.
  rewrite drop_replicate, length_take. f_equal. f_equal. unfold vsize in Hs. lia.
Qed.

Lemma copy_stop_tokens_take n ids :
  0 <= n <= 16 -> vsize ids = 16 ->
  take (Z.to_nat n) (copy_stop_tokens n ids) = take (Z.to_nat n) ids.
Proof.
  intros Hn Hs. rewrite copy_stop_tokens_eq by done. rewrite take_app_le.
  - by rewrite take_take, Nat.min_id.
  - rewrite length_take. unfold vsize in Hs. lia.
Qed.

Lemma copy_stop_tokens_idem n ids :
  0 <= n <= 16 -> vsize ids = 16 ->
  copy_stop_tokens n (copy_stop_tokens n ids) = copy_stop_tokens n ids.
Proof.
  intros Hn Hs. rewrite (copy_stop_tokens_eq n (copy_stop_tokens n ids)), copy_stop_tokens_take
    by (try apply copy_stop_tokens_size; done).
  by rewrite copy_stop_tokens_eq.
Qed.

Lemma copy_stop_tokens_ok s :
  sampling_ok s -> copy_stop_tokens (sm_stop_token_count s) (sm_stop_token_ids s) = sm_stop_token_ids s.
Proof.
  intros ((Hs & H0) & H16 & Hz). unfold kMaximumStopTokenIds in *.
  rewrite copy_stop_tokens_eq by lia.
  rewrite <- (take_drop (Z.to_nat (sm_stop_token_count s)) (sm_stop_token_ids s)) at 2. f_equal.
  assert (L : length (drop (Z.to_nat (sm_stop_token_count s)) (sm_stop_token_ids s)) =
    (16 - Z.to_nat (sm_stop_token_count s))%nat) by (rewrite length_drop; unfold vsize in Hs; lia).
  rewrite <- L. clear L. induction Hz as [|x l -> Hz IH]; [done|]. cbn. by f_equal.
Qed.

Lemma canonical_ok s : sampling_ok s -> canonical_sampling s = s.
Proof. intros Hs. unfold canonical_sampling, upd. rewrite copy_stop_tokens_ok by done. by destruct s. Qed.

(** *** Sampling *)

Lemma sampling_mode_flag m :
  (if sampling_mode_value m =? 0 then SamplingMode.kGreedy else SamplingMode.kStochastic) = m.
Proof. by destruct m. Qed.

Lemma top_k_flag_wire k :
  (if negb (Z.b2z (bool_decide (is_Some k)) =? 0) then Some (default 0 k) else None) = k.
Proof. by destruct k. Qed.

Lemma wire_sampling_valid s :
  0 <= sm_stop_token_count s <= 16 -> ValidSampling (Some (ToWireSampling s)) = true.
Proof.
  intros Hn. unfold ValidSampling. cbn -[Z.leb].
  destruct (sm_mode s), (bool_decide (is_Some (sm_top_k s))), (sm_logprobs_enabled s); cbn -[Z.leb];
    unfold PIH_EXECUTION_CONTROLLER_MAX_STOP_TOKENS_V1; lia.
Qed.

(** The client's descriptor, as the provider reads it. *)
Lemma core_of_client s :
  sampling_typed s -> sm_stop_token_count s <= 16 ->
  CoreSampling (ToWireSampling s) = canonical_sampling s.
Proof.
  intros [Hs H0] Hn. unfold CoreSampling, ToWireSampling, canonical_sampling, upd. cbn.
  unfold kMaximumStopTokenIds in *. rewrite (proj2 (Z.leb_le _ _)) by lia.
  rewrite copy_stop_tokens_idem, sampling_mode_flag, top_k_flag_wire by lia.
  by destruct s as [? ? ? ? ? ? ? [] ? ? ?].
Qed.

(** The provider's descriptor, as the client reads it. *)
Lemma client_of_core s : sampling_ok s -> FromWireSampling (WireSampling s) = Value s.
Proof.
  intros Hs. pose proof Hs as ((Hsz & H0) & Hn & _). unfold FromWireSampling, WireSampling. cbn.
  unfold kMaximumStopTokenIds in *. rewrite copy_stop_tokens_idem, copy_stop_tokens_ok by (done || lia).
  rewrite sampling_mode_flag, top_k_flag_wire.
  assert (E : (sampling_mode_value (sm_mode s) >? 1)
     || (Z.b2z (bool_decide (is_Some (sm_top_k s))) >? 1) || (Z.b2z (sm_logprobs_enabled s) >? 1)
     || (sm_stop_token_count s >? 16) = false).
  { destruct (sm_mode s), (bool_decide (is_Some (sm_top_k s))), (sm_logprobs_enabled s); cbn; lia. }
  rewrite E. by destruct s as [? ? ? ? ? ? ? [] ? ? ?].
Qed.

(** *** Events *)

Lemma event_kind_wire k : event_kind_of_value (event_kind_value k) = k.
Proof. by destruct k. Qed.

Lemma finish_reason_wire r : finish_reason_of_value (finish_reason_value r) = r.
Proof. by destruct r. Qed.

Lemma step_wire s : step_of_value (step_value s) = s.
Proof. by destruct s. Qed.

(** The client accepts an event of its epoch. *)
Lemma event_accepted l e : event_ok (rl_epoch l) e -> event_invalid l 1 (wire_event e) = false.
Proof.
  intros (He & Hs & Hg). unfold event_invalid. cbn. rewrite He, Z.eqb_refl.
  destruct (ev_kind e), (ev_finish_reason e); cbn; lia.
Qed.

(** *** Limits *)

(** The limits that the provider reads are those the client was asked for. *)
Lemma limits_relayed l :
  Z.of_nat (String.length (rl_profile_revision l)) <= 128 -> core_limits (wire_limits l) = l.
Proof.
  intros Hr. unfold core_limits, wire_limits. cbn.
  rewrite wrap32_id by (unfold is_u32; lia). rewrite substring_full by lia.
  destruct l as [? ? [[? ?] [? ? ?]] [? ? ? ? ? ?] [? ?] ? [] ? ? ? ? ? ? []]; done.
Qed.
