(* ===== verification/PlanWire.v ===== *)
(** * A plan across the wire

    The client rebuilds the plan that the provider projected, and checks it: the
    arrays against the rebuilt plan, the metadata against its digests, offsets and
    positions.  On the view of a prepared plan every check passes, and the view the
    client returns is the runtime's. *)

From stdpp Require Import gmap list_numbers sorting.
From S2P Require Import Prelude Core Sha256 TokenPlan TokenMetadata Sequence BurstCredits.
From S2P Require Import Mailbox RequestArena Ingress Scheduler SchedulerPolicy Runtime RuntimeInv.
From S2P Require Import RuntimePrepare.
From S2P Require Import ControllerAbi Provider Client Wire.

(** ** Lists read by index *)

Lemma existsb_none {A} (f : A -> bool) l : (forall x, x ∈ l -> f x = false) -> existsb f l = false.
Proof.
  intros H. apply not_true_iff_false. intros (x & Hx & Hf)%existsb_exists.
  rewrite (H x) in Hf; [done|by apply list_elem_of_In].
Qed.

Lemma map_seqZ_vat {A} `{Inhabited A} (l : list A) : map (fun i => l.[i]) (seqZ 0 (vsize l)) = l.
Proof.
  apply list_eq. intros k. rewrite list_lookup_fmap. destruct (decide (k < length l)%nat) as [Hk|Hk].
  - rewrite lookup_seqZ_lt by (unfold vsize; lia). cbn. symmetry.
    rewrite <- (vat_lookup l (Z.of_nat k)) by (unfold vsize; lia). by rewrite Nat2Z.id.
  - rewrite lookup_seqZ_ge by (unfold vsize; lia). symmetry. apply lookup_ge_None. lia.
Qed.

Lemma vat_take_drop (l : list Z) o n k :
  0 <= o -> 0 <= k < n -> o + n <= vsize l ->
  (take (Z.to_nat n) (drop (Z.to_nat o) l)).[k] = l.[o + k].
Proof.
  intros Ho Hk Hn. unfold vat. rewrite !list_lookup_total_alt. f_equal.
  rewrite lookup_take_lt by lia. rewrite lookup_drop. f_equal. lia.
Qed.

Lemma sorted_at : forall (l : list Z) i j,
  StronglySorted Z.lt l -> 0 <= i < j -> j < vsize l -> l.[i] < l.[j].
Proof.
  induction l as [|x l IH]; intros i j Hs Hij Hj; [unfold vsize in Hj; cbn in Hj; lia|].
  apply StronglySorted_inv in Hs as [Hs Hx]. rewrite vsize_cons in Hj.
  assert (E : forall k, 1 <= k -> (x :: l).[k] = l.[k - 1]).
  { intros k Hk. unfold vat. by replace (Z.to_nat k) with (S (Z.to_nat (k - 1))) by lia. }
  rewrite (E j) by lia. destruct (decide (i = 0)) as [->|Hi].
  - change ((x :: l).[0]) with x. apply (Forall_at (fun y => x < y)); [done|lia].
  - rewrite (E i) by lia. apply IH; [done|lia|lia].
Qed.

(** ** The rows of a packed plan *)

Lemma payload_at p : forall ss i k,
  payload_matches p i ss -> 0 <= k < vsize ss -> payload_ok p (i + k) (ss.[k]).
Proof.
  induction ss as [|s ss IH]; intros i k HP Hk; [unfold vsize in Hk; cbn in Hk; lia|].
  destruct HP as [Hs HP]. destruct (decide (k = 0)) as [->|Hk0].
  - by rewrite Z.add_0_r.
  - rewrite vsize_cons in Hk. replace (i + k) with (i + 1 + (k - 1)) by lia.
    replace ((s :: ss).[k]) with (ss.[k - 1]); [apply IH; [done|lia]|].
    unfold vat. by replace (Z.to_nat k) with (S (Z.to_nat (k - 1))) by lia.
Qed.

(** The rows of one sequence in the packed arrays. *)
Lemma rows_at p (g : Z -> PackedSequenceTokens -> list Z) pad : forall ss i k,
  plan_packed p -> payload_matches p i ss -> 0 <= i -> i + vsize ss = pp_sequence_count p ->
  (forall j s, vsize (g j s) = vsize (pst_token_ids s)) -> 0 <= k < vsize ss ->
  take (Z.to_nat ((pp_real_token_counts p).[i + k]))
    (drop (Z.to_nat ((pp_packed_offsets p).[i + k] - (pp_packed_offsets p).[i]))
       (rows g i ss ++ pad)) = g (i + k) (ss.[k]).
Proof.
  induction ss as [|s ss IH]; intros i k Hp HP Hi Hn Hg Hk; [unfold vsize in Hk; cbn in Hk; lia|].
  pose proof HP as [(_ & HC & _) HP']. rewrite vsize_cons in Hn, Hk. cbn [rows]. rewrite <- app_assoc.
  destruct (decide (k = 0)) as [->|Hk0].
  - rewrite Z.add_0_r, Z.sub_diag. change (Z.to_nat 0) with 0%nat. rewrite drop_0.
    rewrite <- HC, <- (Hg i s). rewrite take_app_le by (unfold vsize; lia).
    change ((s :: ss).[0]) with s. apply take_ge. unfold vsize. lia.
  - pose proof (offset_step p i Hp ltac:(lia)) as Hst.
    replace (i + k) with (i + 1 + (k - 1)) by lia.
    replace ((s :: ss).[k]) with (ss.[k - 1])
      by (unfold vat; by replace (Z.to_nat k) with (S (Z.to_nat (k - 1))) by lia).
    rewrite <- (IH (i + 1) (k - 1)) by (try done; lia). f_equal.
    assert (Hmono : (pp_packed_offsets p).[i + 1] <= (pp_packed_offsets p).[i + 1 + (k - 1)]).
    { rewrite !offset_at by (try done; lia).
      replace (Z.to_nat (i + 1 + (k - 1))) with (Z.to_nat (i + 1) + Z.to_nat (k - 1))%nat by lia.
      rewrite <- take_take_drop, sum_list_app.
      enough (0 <= sum_list (take (Z.to_nat (k - 1)) (drop (Z.to_nat (i + 1)) (pp_real_token_counts p))))
        by lia.
      apply sum_list_nonneg, Forall_take, Forall_drop. destruct Hp as (_ & _ & _ & F & _).
      eapply Forall_impl; [done|]. cbn. lia. }
    replace (Z.to_nat ((pp_packed_offsets p).[i + 1 + (k - 1)] - (pp_packed_offsets p).[i]))
      with (length (g i s) +
            Z.to_nat ((pp_packed_offsets p).[i + 1 + (k - 1)] - (pp_packed_offsets p).[i + 1]))%nat.
    + by rewrite <- drop_drop, drop_app_length.
    + pose proof (Hg i s) as Hl. unfold vsize in Hl, HC. lia.
Qed.

(** ** The checks of the client *)

Section Checks.
Context (p : PackedTokenPlan) (ss : list PackedSequenceTokens) (generation : Z).
Context (Hp : plan_packed p) (HP : payload_matches p 0 ss) (Hn : vsize ss = pp_sequence_count p).
Context (Hb : is_u32 (pp_execution_bucket_tokens p)).

Let md := metadata_view generation p ss.

Lemma offset_range i :
  0 <= i < pp_sequence_count p ->
  0 <= (pp_packed_offsets p).[i] /\ 1 <= (pp_real_token_counts p).[i] /\
  (pp_packed_offsets p).[i] + (pp_real_token_counts p).[i] <= pp_total_real_tokens p.
Proof.
  intros Hi. pose proof (proj2 (payload_start p i Hp Hi)) as Hc.
  rewrite <- (offset_step p i Hp Hi), <- (offset_last p Hp), !offset_at by (try done; lia).
  assert (F : Forall (fun c => 0 <= c) (pp_real_token_counts p)).
  { destruct Hp as (_ & _ & _ & F & _). eapply Forall_impl; [done|]. cbn. lia. }
  split_and!; [by apply sum_list_nonneg, Forall_take|done|].
  rewrite <- (take_drop (Z.to_nat (i + 1)) (pp_real_token_counts p)) at 2.
  rewrite take_app, sum_list_app.
  rewrite take_take, Nat.min_r by lia.
  enough (0 <= sum_list (take (Z.to_nat (pp_sequence_count p) -
    length (take (Z.to_nat (i + 1)) (pp_real_token_counts p)))
    (drop (Z.to_nat (i + 1)) (pp_real_token_counts p)))) by lia.
  by apply sum_list_nonneg, Forall_take, Forall_drop.
Qed.

Lemma rows_total (g : Z -> PackedSequenceTokens -> list Z) :
  (forall i, vsize (rows g i ss) = vsize (rows token_row i ss)) ->
  vsize (rows g 0 ss) = pp_total_real_tokens p.
Proof.
  intros Hg. pose proof (offset_rest p ss 0 Hp HP ltac:(lia) ltac:(lia)) as HR.
  assert (HZ : (pp_packed_offsets p).[0] = 0) by (destruct Hp as (_ & _ & _ & _ & -> & _); done).
  rewrite Hg. lia.
Qed.

Lemma bucket_size (g : Z -> PackedSequenceTokens -> list Z) x :
  (forall i, vsize (rows g i ss) = vsize (rows token_row i ss)) ->
  vsize (rows g 0 ss ++
    replicate (Z.to_nat (pp_execution_bucket_tokens p - pp_total_real_tokens p)) x) =
  pp_execution_bucket_tokens p.
Proof.
  intros Hg. rewrite vsize_app, vsize_replicate, rows_total by done.
  destruct Hp as (_ & _ & _ & _ & _ & _ & Hle). lia.
Qed.

Lemma md_sizes :
  vsize (pmv_input_token_ids md) = pp_execution_bucket_tokens p /\
  vsize (pmv_positions md) = pp_execution_bucket_tokens p /\
  vsize (pmv_request_index md) = pp_execution_bucket_tokens p /\
  vsize (pmv_query_start_offsets md) = pp_sequence_count p + 1 /\
  vsize (pmv_sample_row_index md) <= pp_sequence_count p.
Proof.
  unfold md. cbn. split_and!.
  - by apply bucket_size.
  - apply bucket_size. apply vsize_position_rows.
  - apply bucket_size. apply vsize_request_rows.
  - destruct Hp as (_ & L2 & _ & _ & -> & _). unfold pp_sequence_count, vsize. cbn.
    rewrite length_running_sums. lia.
  - rewrite <- Hn. apply vsize_sample_rows.
Qed.

(** The rows of sequence [i] in an array of the metadata. *)
Lemma array_at (g : Z -> PackedSequenceTokens -> list Z) pad i :
  (forall j s, vsize (g j s) = vsize (pst_token_ids s)) -> 0 <= i < pp_sequence_count p ->
  take (Z.to_nat ((pp_real_token_counts p).[i])) (drop (Z.to_nat ((pp_packed_offsets p).[i]))
    (rows g 0 ss ++ pad)) = g i (ss.[i]).
Proof.
  intros Hg Hi. assert (HZ : (pp_packed_offsets p).[0] = 0)
    by (destruct Hp as (_ & _ & _ & _ & -> & _); done).
  pose proof (rows_at p g pad ss 0 i Hp HP ltac:(lia) ltac:(lia) Hg ltac:(lia)) as H.
  rewrite Z.add_0_l, HZ, Z.sub_0_r in H. exact H.
Qed.

Lemma rows_ok_at i :
  0 <= i < pp_sequence_count p ->
  rows_drifted p (pmv_request_index md) (pmv_positions md) i = false.
Proof.
  intros Hi. destruct (offset_range i Hi) as (Ho & Hc & Ht). unfold rows_drifted. cbn zeta.
  destruct (payload_at p ss 0 i HP ltac:(lia)) as (_ & Hs & _ & Hu). rewrite Z.add_0_l in Hs, Hu.
  destruct (payload_start p i Hp Hi) as [Hst _]. unfold is_u64 in Hst.
  destruct md_sizes as (_ & Hps & Hrs & _).
  assert (Htb : pp_total_real_tokens p <= pp_execution_bucket_tokens p) by apply Hp.
  apply existsb_none. intros k Hk%elem_of_seqZ. rewrite Z.add_0_l in Hk. unfold is_u32 in Hb.
  rewrite wrap32_id by (unfold is_u32; lia). rewrite wrap64_id by (unfold is_u64; lia).
  rewrite <- (vat_take_drop (pmv_request_index md) _ ((pp_real_token_counts p).[i]) k) by lia.
  rewrite <- (vat_take_drop (pmv_positions md) _ ((pp_real_token_counts p).[i]) k) by lia.
  unfold md. cbn [metadata_view pmv_request_index pmv_positions].
  rewrite !array_at; [|intros; unfold position_row; apply vsize_count_from|done
                      |intros; unfold request_row; apply vsize_replicate|done].
  set (s := ss.[i]) in *.
  assert (E1 : (request_row i s).[k] = i).
  { unfold request_row, vat. apply list_lookup_total_correct, lookup_replicate. unfold vsize in Hs. lia. }
  assert (E2 : (position_row p i s).[k] = (pp_committed_start_positions p).[i] + k).
  { unfold position_row, count_from. set (start := (pp_committed_start_positions p).[i]).
    unfold vat. apply list_lookup_total_correct.
    change (map ?f ?l) with (f <$> l).
    rewrite list_lookup_fmap, lookup_seq_lt by (unfold vsize in Hs; lia). cbn. f_equal. lia. }
  rewrite E1, E2, !Z.eqb_refl. cbn. lia.
Qed.

Lemma sequences_checked : forall indices,
  Forall (fun i => 0 <= i < pp_sequence_count p) indices ->
  check_sequences p (pmv_input_token_ids md) (pmv_request_index md) (pmv_positions md) indices
  = StatusOk.
Proof.
  induction indices as [|i indices IH]; intros F; [done|]. apply Forall_cons in F as [Hi F].
  cbn [check_sequences].
  assert (Ea : take (Z.to_nat ((pp_real_token_counts p).[i]))
    (drop (Z.to_nat ((pp_packed_offsets p).[i])) (pmv_input_token_ids md)) = pst_token_ids (ss.[i]))
    by (unfold md; cbn; by apply (array_at token_row)).
  rewrite Ea. destruct (payload_at p ss 0 i HP ltac:(lia)) as (_ & _ & Hd & _).
  rewrite Z.add_0_l in Hd. rewrite Hd, bool_decide_true by done. cbn [negb].
  by rewrite rows_ok_at, IH.
Qed.

Lemma sample_rows_sorted : forall rest i,
  payload_matches p i rest -> 0 <= i -> i + vsize rest = pp_sequence_count p ->
  Forall (fun r => (pp_packed_offsets p).[i] <= r < pp_total_real_tokens p)
    (rows (sample_row p) i rest) /\
  StronglySorted Z.lt (rows (sample_row p) i rest).
Proof.
  induction rest as [|s rest IH]; intros i HPi Hi Hni; cbn [rows]; [split; constructor|].
  destruct HPi as [_ HPi]. rewrite vsize_cons in Hni. pose proof (vsize_nonneg rest).
  destruct (IH (i + 1) HPi ltac:(lia) ltac:(lia)) as [F S].
  destruct (offset_range i ltac:(lia)) as (Ho & Hc & Ht).
  pose proof (offset_step p i Hp ltac:(lia)) as Hst.
  unfold sample_row at 1 3. destruct (pst_produces_logits s); cbn [app].
  - split; constructor.
    + lia.
    + eapply Forall_impl; [exact F|]. cbn. lia.
    + done.
    + eapply Forall_impl; [exact F|]. cbn. lia.
  - split; [|done]. eapply Forall_impl; [exact F|]. cbn. lia.
Qed.

Lemma sample_rows_checked :
  sample_rows_invalid (pp_total_real_tokens p) (pmv_sample_row_index md) = false.
Proof.
  destruct (sample_rows_sorted ss 0 HP ltac:(lia) ltac:(lia)) as [F S]. unfold md, sample_rows_invalid.
  cbn [metadata_view pmv_sample_row_index]. apply existsb_none. intros i Hi%elem_of_seqZ.
  rewrite Z.add_0_l in Hi.
  pose proof (Forall_at _ _ i F Hi) as Hr. cbn in Hr.
  destruct (decide (i = 0)) as [->|Hi0]; [cbn; lia|].
  pose proof (sorted_at _ (i - 1) i S ltac:(lia) ltac:(lia)). lia.
Qed.
End Checks.

Lemma push_sampling_ok : forall l acc,
  Forall sampling_ok l -> push_sampling acc (map WireSampling l) = (StatusOk, acc ++ l).
Proof.
  induction l as [|s l IH]; intros acc F; cbn [map push_sampling]; [by rewrite app_nil_r|].
  apply Forall_cons in F as [Hs F]. rewrite client_of_core, IH by done. by rewrite <- app_assoc.
Qed.

(** ** Rebuilding the plan *)

(** The inputs of a plan, read back from its arrays. *)
Lemma inputs_of_plan epoch ps phase rev hash inputs bucket a :
  let p := plan_of epoch ps phase rev hash inputs bucket in
  wv_generations a = pp_sequence_generations p -> wv_starts a = pp_committed_start_positions p ->
  wv_counts a = pp_real_token_counts p -> wv_state_generations a = pp_state_generations p ->
  wv_input_digests a = pp_input_digests p ->
  wire_inputs (pp_sequence_count p) a = inputs.
Proof.
  cbn. intros E1 E2 E3 E4 E5. unfold wire_inputs, pp_sequence_count, input_counts in *. cbn.
  rewrite E1, E2, E3, E4, E5, vsize_map.
  transitivity (map (fun i => inputs.[i]) (seqZ 0 (vsize inputs))); [|apply map_seqZ_vat].
  apply map_ext_in. intros i Hi%list_elem_of_In%elem_of_seqZ. rewrite Z.add_0_l in Hi.
  rewrite !vat_map by done. by destruct (inputs.[i]).
Qed.

(** A prepared view that a client of the limits can adopt. *)
Record view_ok (l : ControllerRuntimeLimits) (v : ControllerPreparedPlanView) : Prop := {
  vw_created : plan_created (client_plan_limits l) (ppv_plan v);
  vw_epoch : pp_epoch (ppv_plan v) = rl_epoch l;
  vw_revision : pp_profile_revision (ppv_plan v) = rl_profile_revision l;
  vw_hash : pp_resource_vector_hash (ppv_plan v) = rl_resource_vector_hash l;
  vw_digest : semantic_digest (ppv_plan v) = Value (ppv_plan_digest v);
  vw_metadata : metadata_of (ppv_plan v) (ppv_metadata v);
  vw_slots : vsize (ppv_selected_slot_indices v) = pp_sequence_count (ppv_plan v);
  vw_sampling_size : vsize (ppv_selected_sampling v) = pp_sequence_count (ppv_plan v);
  vw_sampling : Forall sampling_ok (ppv_selected_sampling v) }.

(** The limits, of their types. *)
Definition plan_limits_typed (l : ControllerRuntimeLimits) : Prop :=
  is_u32 (ptp_maximum_sequences_per_plan (rl_scheduler l)) /\
  is_u32 (ptp_maximum_real_tokens_per_plan (rl_scheduler l)) /\
  is_u32 (pml_maximum_execution_bucket_tokens (rl_metadata l)).

(** The view, and the buffer that starts with its sampling. *)
Definition view_arrays (v : ControllerPreparedPlanView) (sampling : list pih_execution_sampling_v1) :
    plan_arrays :=
  let p := ppv_plan v in let md := ppv_metadata v in
  MkArrays (pp_profile_revision p) (pp_sequence_generations p) (pp_committed_start_positions p)
    (pp_real_token_counts p) (pp_packed_offsets p) (pp_state_generations p) (pp_input_digests p)
    (ppv_selected_slot_indices v) sampling (pmv_input_token_ids md) (pmv_positions md)
    (pmv_request_index md) (pmv_query_start_offsets md).

Section Adopt.
Context (l : ControllerRuntimeLimits) (v : ControllerPreparedPlanView).
Context (sampling : list pih_execution_sampling_v1).
Context (Hl : plan_limits_typed l) (Hv : view_ok l v).
Context (Hs : take (length (ppv_selected_sampling v)) sampling =
              map WireSampling (ppv_selected_sampling v)).

#[local] Abbreviation p := (ppv_plan v).
#[local] Abbreviation w := (wire_plan v sampling).

Record plan_facts : Prop := {
  pf_packed : plan_packed p;
  pf_epoch : pp_epoch p <> 0;
  pf_sequence : pp_plan_sequence p <> 0;
  pf_revision : 1 <= Z.of_nat (String.length (pp_profile_revision p)) <= 128;
  pf_count : 1 <= pp_sequence_count p <= ptp_maximum_sequences_per_plan (rl_scheduler l);
  pf_bucket : 1 <= pp_execution_bucket_tokens p <=
    pml_maximum_execution_bucket_tokens (rl_metadata l) }.

Lemma plan_facts_hold : plan_facts.
Proof.
  destruct (vw_created _ _ Hv) as (inputs & Hu & Hst & E).
  destruct Hl as (L1 & L2 & L3). unfold is_u32 in *.
  assert (Hm : 0 <= ptl_maximum_real_tokens (client_plan_limits l)) by (cbn; lia).
  pose proof (Create_packed _ _ _ _ _ _ _ _ _ Hu Hm Hst E) as Hp.
  apply PackedTokenPlan_Create_Value in E as (Hid & (_ & Hb) & Ep); [|done..].
  assert (Hc : pp_sequence_count p = vsize inputs)
    by (rewrite Ep; unfold pp_sequence_count; cbn; apply vsize_map).
  destruct Hid. cbn in *.
  pose proof (vsize_nonneg inputs).
  assert (Ht : 0 <= pp_total_real_tokens p).
  { destruct Hp as (_ & _ & _ & F & _ & -> & _). apply sum_list_nonneg.
    eapply Forall_impl; [exact F|]. cbn. lia. }
  assert (Htb : pp_total_real_tokens p <= pp_execution_bucket_tokens p) by apply Hp.
  constructor; try done; lia.
Qed.

Lemma view_sizes :
  pp_sequence_count p <= ptp_maximum_sequences_per_plan (rl_scheduler l) /\
  vsize (pmv_input_token_ids (ppv_metadata v)) = pp_execution_bucket_tokens p /\
  vsize (pmv_positions (ppv_metadata v)) = pp_execution_bucket_tokens p /\
  vsize (pmv_request_index (ppv_metadata v)) = pp_execution_bucket_tokens p /\
  vsize (pmv_query_start_offsets (ppv_metadata v)) = pp_sequence_count p + 1 /\
  vsize (pmv_sample_row_index (ppv_metadata v)) <= pp_sequence_count p.
Proof.
  destruct plan_facts_hold. destruct (vw_metadata _ _ Hv) as (g & ss & -> & Hn & HP).
  destruct (md_sizes p ss g pf_packed0 HP Hn) as (S1 & S2 & S3 & S4 & S5). split_and!; [lia|done..].
Qed.

Lemma view_header : arrays_of w = Some (view_arrays v sampling) /\ plan_header_invalid l 1 w = false.
Proof.
  destruct view_sizes as (_ & _ & _ & _ & _ & Hsr).
  destruct plan_facts_hold. destruct Hl as (L1 & L2 & L3). unfold is_u32 in *.
  pose proof (vsize_nonneg (pmv_sample_row_index (ppv_metadata v))).
  split; [done|]. unfold plan_header_invalid, wire_plan. cbn.
  rewrite (vw_epoch _ _ Hv), !wrap32_id by (unfold is_u32; lia).
  rewrite andb_false_r. rewrite Z.eqb_refl. cbn. lia.
Qed.

Lemma phase_wire ph : phase_of_value (phase_value ph) = Some ph.
Proof. by destruct ph. Qed.

(** The rebuilt plan is the plan. *)
Lemma rebuilt :
  rebuild_plan l w (pp_profile_revision p) (wire_inputs (pp_sequence_count p) (view_arrays v sampling))
  = Value p.
Proof.
  destruct (vw_created _ _ Hv) as (inputs & Hu & Hst & E).
  destruct Hl as (L1 & L2 & L3). unfold is_u32 in *.
  assert (Ei : wire_inputs (pp_sequence_count p) (view_arrays v sampling) = inputs).
  { pose proof E as E'. apply PackedTokenPlan_Create_Value in E' as (_ & _ & Ep); [|done|cbn; lia].
    rewrite Ep. apply inputs_of_plan; cbn; by rewrite Ep. }
  unfold rebuild_plan, wire_plan. cbn. rewrite phase_wire, Ei, <- (vw_hash _ _ Hv).
  by rewrite E, Z.eqb_refl.
Qed.

Lemma take_all (xs : list Z) n : vsize xs = n -> take (Z.to_nat n) xs = xs.
Proof. intros <-. apply take_ge. unfold vsize. lia. Qed.

(** The client that adopted the view. *)
Definition adopted (cl : ControllerClient) : ControllerClient :=
  MkClient (cl_handle cl) (cl_limits cl) (cl_admission cl) (Some (ppv_plan v))
    (wire_inputs (pp_sequence_count (ppv_plan v)) (view_arrays v sampling))
    (pmv_input_token_ids (ppv_metadata v)) (pmv_request_index (ppv_metadata v))
    (pmv_query_start_offsets (ppv_metadata v)) (pmv_sample_row_index (ppv_metadata v))
    (ppv_selected_slot_indices v) (pmv_positions (ppv_metadata v)) (ppv_selected_sampling v).

Lemma view_adopted cl :
  cl_limits cl = l -> adopt_plan cl w (view_arrays v sampling) = (Value (Some v), adopted cl).
Proof.
  intros El. pose proof plan_facts_hold as []. pose proof Hl as (L1 & L2 & L3). unfold is_u32 in *.
  destruct (vw_metadata _ _ Hv) as (g & ss & Emd & Hn & HP).
  assert (Hbu : is_u32 (pp_execution_bucket_tokens p)) by (unfold is_u32; lia).
  destruct (md_sizes p ss g pf_packed0 HP Hn) as (S1 & S2 & S3 & S4 & S5).
  pose proof (sequences_checked p ss g pf_packed0 HP Hn Hbu) as Hseq.
  pose proof (sample_rows_checked p ss g pf_packed0 HP Hn) as Hsr.
  rewrite <- Emd in S1, S2, S3, S4, S5, Hseq, Hsr.
  pose proof (vsize_nonneg (pmv_sample_row_index (ppv_metadata v))).
  assert (Ew : w = MkWirePlan sizeof_plan_view PIH_EXECUTION_CONTROLLER_ABI_V1 (pp_epoch p)
    (pp_plan_sequence p) (phase_value (pp_phase p)) (pp_sequence_count p)
    (pp_total_real_tokens p) (pp_execution_bucket_tokens p) (Some (pp_profile_revision p))
    (Z.of_nat (String.length (pp_profile_revision p))) (pp_resource_vector_hash p)
    (ppv_plan_digest v) (Some (pp_sequence_generations p)) (Some (pp_committed_start_positions p))
    (Some (pp_real_token_counts p)) (Some (pp_packed_offsets p)) (Some (pp_state_generations p))
    (Some (pp_input_digests p)) (Some (ppv_selected_slot_indices v)) (Some sampling)
    (pmv_generation (ppv_metadata v)) (Some (pmv_input_token_ids (ppv_metadata v)))
    (Some (pmv_positions (ppv_metadata v))) (Some (pmv_request_index (ppv_metadata v)))
    (Some (pmv_query_start_offsets (ppv_metadata v)))
    (vsize (pmv_sample_row_index (ppv_metadata v)))
    (Some (pmv_sample_row_index (ppv_metadata v)))).
  { unfold wire_plan. by rewrite !wrap32_id by (unfold is_u32; lia). }
  pose proof rebuilt as Hre. rewrite Ew in *. unfold adopt_plan. rewrite El.
  cbn [wp_sequence_count wp_execution_bucket_tokens wp_profile_revision_bytes wp_resource_vector_hash
       wp_plan_digest wp_sample_row_count wp_sample_row_index wp_real_token_count
       wp_metadata_generation default]. cbn zeta.
  rewrite substring_full by (cbn; lia). cbn [wv_revision view_arrays].
  rewrite (vw_revision _ _ Hv), String.eqb_refl, (vw_hash _ _ Hv), bool_decide_true by done.
  cbn [negb orb]. rewrite (vw_revision _ _ Hv), (vw_hash _ _ Hv) in Hre. rewrite Hre.
  rewrite (vw_digest _ _ Hv), bool_decide_true by done. cbn [negb wv_offsets view_arrays wv_tokens
    wv_positions wv_request_index wv_query_offsets wv_slots wv_sampling].
  rewrite (existsb_none (fun i => negb ((pp_packed_offsets p).[i] =? _)))
    by (intros; by rewrite Z.eqb_refl).
  rewrite !take_all by lia.
  assert (Eq : pmv_query_start_offsets (ppv_metadata v) = pp_packed_offsets p) by (by rewrite Emd).
  rewrite Eq, (existsb_none (fun i => negb ((pp_packed_offsets p).[i] =? _)))
    by (intros; by rewrite Z.eqb_refl).
  rewrite Hseq by (apply Forall_forall; intros i Hi%elem_of_seqZ; lia).
  change (negb (ok StatusOk)) with false. cbn beta iota.
  change (id (pmv_sample_row_index (ppv_metadata v))) with (pmv_sample_row_index (ppv_metadata v)).
  rewrite (take_all (pmv_sample_row_index _)) by done. rewrite Hsr.
  rewrite (take_all (ppv_selected_slot_indices v)) by apply (vw_slots _ _ Hv).
  replace (Z.to_nat (pp_sequence_count p)) with (length (ppv_selected_sampling v))
    by (rewrite <- (vw_sampling_size _ _ Hv); unfold vsize; lia).
  rewrite Hs, push_sampling_ok by apply (vw_sampling _ _ Hv).
  change (negb (ok StatusOk)) with false. cbn beta iota. rewrite app_nil_l, <- Eq.
  assert (Er : pp_total_real_tokens p = pmv_real_token_count (ppv_metadata v)) by (by rewrite Emd).
  rewrite Er. f_equal. clear. by destruct v as [? [] ? ? ?].
Qed.
End Adopt.
