(* ===== verification/Link.v ===== *)
(** * The client over the provider

    The composition of [Client] with [Provider]: a call of the client on a live
    handle behaves as the same call on the runtime behind the handle.

    The parts meet at an interface: [ControllerService] states what a function
    table promises about the runtimes behind its handles.  The theorems about the
    client are proved from the promise; the provider's table keeps it. *)

From stdpp Require Import gmap list_numbers.
From S2P Require Import Prelude Core Sha256 TokenPlan TokenMetadata Sequence BurstCredits.
From S2P Require Import Mailbox RequestArena Ingress Scheduler Runtime RuntimeErrors RuntimeInv.
From S2P Require Import RuntimePrepare RuntimeMachine RuntimeKeeps ControllerAbi Provider Client Wire PlanWire.

(** ** The client's calls *)

Inductive client_op :=
  | ClAdmit (generation : Z) (prompt : list Z) (maximum_new_tokens : Z)
            (sampling : ControllerRequestSampling)
  | ClCancel (generation : Z)
  | ClStep (self now_ns : Z) (reserve publish rollback : Status)
  | ClPrepare (now_ns : Z)
  | ClCommit (sequence : Z) (digest : Sha256Digest)
  | ClMarkInFlight (sequence : Z) (digest : Sha256Digest)
  | ClAbort (sequence : Z) (digest : Sha256Digest)
  | ClComplete (self : Z) (tokens : list Z) (now_ns : Z)
  | ClAcknowledge (sequence : Z)
  | ClFinalize (self generation : Z)
  | ClTakeEvent.

Inductive client_out :=
  | OutStatus (s : Status)
  | OutStep (r : Result ControllerRuntimeStep)
  | OutPlan (r : Result (option ControllerPreparedPlanView))
  | OutEvent (r : Result (option ControllerOutputEvent)).

#[export] Instance client_op_Typed : Typed client_op := fun op =>
  match op with
  | ClAdmit g _ _ s => is_u64 g /\ sampling_typed s
  | ClCancel g => is_u64 g
  | ClCommit p _ | ClMarkInFlight p _ | ClAbort p _ => is_u64 p
  | _ => True
  end.

Definition run_client {PS} (api : pih_execution_controller_api_v1 PS) (st : ControllerClient * PS)
    (op : client_op) : client_out * (ControllerClient * PS) :=
  let '(cl, ps) := st in
  match op with
  | ClAdmit g prompt n s =>
      let '(r, ps) := Client.submit_admit api cl ps g prompt n s in (OutStatus r, (cl, ps))
  | ClCancel g => let '(r, ps) := Client.submit_cancel api cl ps g in (OutStatus r, (cl, ps))
  | ClStep self now a b c =>
      let '(r, _, ps) := Client.step api cl ps self now (answering a b c) tt in
      (OutStep r, (cl, ps))
  | ClPrepare now =>
      let '(r, cl, ps) := Client.prepare_next_plan api cl ps now in (OutPlan r, (cl, ps))
  | ClCommit p d =>
      let '(r, ps) := Client.commit_current_plan api cl ps p d in (OutStatus r, (cl, ps))
  | ClMarkInFlight p d =>
      let '(r, ps) := Client.mark_current_plan_in_flight api cl ps p d in (OutStatus r, (cl, ps))
  | ClAbort p d =>
      let '(r, ps) := Client.abort_current_plan api cl ps p d in (OutStatus r, (cl, ps))
  | ClComplete self tokens now =>
      let '(r, ps) := Client.complete_current_sampled_tokens api cl ps self tokens now in
      (OutStatus r, (cl, ps))
  | ClAcknowledge p =>
      let '(r, ps) := Client.acknowledge_output_plan api cl ps p in (OutStatus r, (cl, ps))
  | ClFinalize self g =>
      let '(r, ps) := Client.finalize_draining api cl ps self g in (OutStatus r, (cl, ps))
  | ClTakeEvent => let '(r, ps) := Client.try_take_event api cl ps in (OutEvent r, (cl, ps))
  end.

(** *** The same calls on the runtime

    A call is refused before it reaches the runtime, or runs there; a failure is
    read through the wire. *)

Definition refusal (op : client_op) : option Status :=
  match op with
  | ClAdmit g prompt _ s =>
      if (vsize prompt =? 0) || (vsize prompt >? u32_max)
         || (sm_stop_token_count s >? kMaximumStopTokenIds)
      then Some (InvalidArgument "execution admission arguments invalid")
      else if (g =? 0) || (vsize prompt >? 65536)
      then Some (InvalidArgument "controller admission invalid") else None
  | ClCancel g => if g =? 0 then Some (InvalidArgument "cancel generation invalid") else None
  | ClCommit p _ | ClMarkInFlight p _ | ClAbort p _ =>
      if p =? 0 then Some (InvalidArgument "plan identity invalid") else None
  | ClComplete _ tokens _ =>
      if (vsize tokens =? 0) || (vsize tokens >? u32_max)
      then Some (InvalidArgument "execution sampled token span invalid")
      else if vsize tokens >? 256
      then Some (InvalidArgument "sampled tokens invalid") else None
  | ClAcknowledge p => if p =? 0 then Some (InvalidArgument "output plan invalid") else None
  | ClFinalize _ g => if g =? 0 then Some (InvalidArgument "drain generation invalid") else None
  | ClStep _ _ _ _ _ | ClPrepare _ | ClTakeEvent => None
  end.

Definition relay_result {A} (r : Result A) : Result A :=
  match r with Value a => Value a | Error e => Error (relay e) end.

(** The runtime's operation for a call. *)
Definition core_op (op : client_op) : rt_op :=
  match op with
  | ClAdmit g prompt n s => RtSubmitAdmit g prompt n (canonical_sampling s)
  | ClCancel g => RtSubmitCancel g
  | ClStep self now a b c => RtStepWith self now (relay a) (relay b) (relay c)
  | ClPrepare now => RtPrepare now
  | ClCommit p d => RtCommit p d
  | ClMarkInFlight p d => RtMarkInFlight p d
  | ClAbort p d => RtAbort p d
  | ClComplete self tokens now => RtSampled self tokens now
  | ClAcknowledge p => RtAcknowledge p
  | ClFinalize self g => RtFinalize self g
  | ClTakeEvent => RtTakeEvent
  end.

(** What the runtime returns to a call that reaches it. *)
Definition core_out (rt : ControllerRuntime) (op : client_op) : client_out :=
  match op with
  | ClStep self now a b c =>
      OutStep (relay_result
        (fst (step_with (answering (relay a) (relay b) (relay c)) rt self now tt)))
  | ClPrepare now => OutPlan (relay_result (fst (Runtime.prepare_next_plan rt now)))
  | ClTakeEvent => OutEvent (relay_result (fst (Runtime.try_take_event rt)))
  | _ => OutStatus (relay (fst (run_rt rt (core_op op))))
  end.

Definition run_direct (rt : ControllerRuntime) (op : client_op) : client_out * ControllerRuntime :=
  match refusal op with
  | Some e => (OutStatus e, rt)
  | None => (core_out rt op, snd (run_rt rt (core_op op)))
  end.

Lemma canonical_typed s :
  sampling_typed s -> sm_stop_token_count s <= 16 -> sampling_typed (canonical_sampling s).
Proof.
  intros [Hs H0] Hn. split; [|done]. cbn. by apply copy_stop_tokens_size.
Qed.

Lemma core_typed op : m_typed op -> refusal op = None -> m_typed (core_op op).
Proof.
  destruct op; cbn; try done. intros [Hg Hs]. repeat case_match; try done. intros _.
  split; [done|]. apply canonical_typed; [done|]. unfold kMaximumStopTokenIds in *. lia.
Qed.

(** ** The promise of a function table *)

Section Promise.
Context {PS : Type} (at_ : PS -> Z -> ControllerRuntimeLimits -> ControllerRuntime -> Prop).

(** The runtime of a handle has moved, and no other. *)
Definition moved (ps : PS) (h : Z) (l : ControllerRuntimeLimits) (ps' : PS)
    (rt' : ControllerRuntime) : Prop :=
  at_ ps' h l rt' /\ forall h' l' rt2, h' <> h -> at_ ps h' l' rt2 -> at_ ps' h' l' rt2.

(** A call that answers with a status: refused, or run on the runtime. *)
Definition answers (ps : PS) (h : Z) (l : ControllerRuntimeLimits) (rt : ControllerRuntime)
    (refused : option Status) (op : rt_op) (x : pih_status_v1 * PS) : Prop :=
  match refused with
  | Some e => x = (WireStatus e, ps)
  | None => fst x = WireStatus (fst (run_rt rt op)) /\ moved ps h l (snd x) (snd (run_rt rt op))
  end.
End Promise.

(** The view that a table may return for a prepared plan: the plan, over a buffer
    that starts with the selected sampling. *)
Definition projects (v : ControllerPreparedPlanView) (w : pih_execution_plan_view_v1) : Prop :=
  exists sampling, w = wire_plan v sampling /\
    take (length (ppv_selected_sampling v)) sampling = map WireSampling (ppv_selected_sampling v).

(** [svc_at ps h l rt]: the handle [h] serves the runtime [rt], which was created
    with the limits [l]. *)
Class ControllerService {PS} (api : pih_execution_controller_api_v1 PS) := {
  svc_at : PS -> Z -> ControllerRuntimeLimits -> ControllerRuntime -> Prop;
  svc_table : ValidApi api = true;
  svc_handle ps h l rt : svc_at ps h l rt -> h <> 0;
  svc_serves ps h l rt : svc_at ps h l rt -> rt_serves l rt;
  svc_admit ps h l rt g prompt n s : svc_at ps h l rt -> m_typed (ClAdmit g prompt n s) ->
    1 <= vsize prompt <= u32_max -> sm_stop_token_count s <= 16 ->
    answers svc_at ps h l rt
      (if (g =? 0) || (vsize prompt >? 65536)
       then Some (InvalidArgument "controller admission invalid") else None)
      (RtSubmitAdmit g prompt n (canonical_sampling s))
      (api_submit_admit api ps (api_context api) h g (Some prompt) (vsize prompt) n
         (Some (ToWireSampling s)));
  svc_cancel ps h l rt g : svc_at ps h l rt -> is_u64 g ->
    answers svc_at ps h l rt
      (if g =? 0 then Some (InvalidArgument "cancel generation invalid") else None)
      (RtSubmitCancel g) (api_submit_cancel api ps (api_context api) h g);
  svc_step CS ps h l rt self now (callbacks : pih_execution_admission_callbacks_v1 CS) cs :
    svc_at ps h l rt -> ValidCallbacks callbacks = true ->
    exists ps',
      let '(r, (rt', cs')) := step_with (Admission callbacks) rt self now cs in
      api_step api ps self (api_context api) h now (Some callbacks) cs true =
        (fst (step_result r), snd (step_result r), cs', ps') /\
      moved svc_at ps h l ps' rt';
  svc_prepare ps h l rt now : svc_at ps h l rt ->
    let empty := empty_plan_view sizeof_plan_view PIH_EXECUTION_CONTROLLER_ABI_V1 in
    let '(r, rt') := Runtime.prepare_next_plan rt now in
    exists ps', moved svc_at ps h l ps' rt' /\
      match r with
      | Error e => api_prepare api ps (api_context api) h now true (Some empty) =
          (WireStatus e, 0, Some empty, ps')
      | Value None => api_prepare api ps (api_context api) h now true (Some empty) =
          (WireStatus StatusOk, 0, Some empty, ps')
      | Value (Some v) => exists w, projects v w /\
          api_prepare api ps (api_context api) h now true (Some empty) =
            (WireStatus StatusOk, 1, Some w, ps')
      end;
  svc_commit ps h l rt p d : svc_at ps h l rt -> is_u64 p ->
    answers svc_at ps h l rt
      (if p =? 0 then Some (InvalidArgument "plan identity invalid") else None)
      (RtCommit p d) (api_commit api ps (api_context api) h p (Some d));
  svc_mark ps h l rt p d : svc_at ps h l rt -> is_u64 p ->
    answers svc_at ps h l rt
      (if p =? 0 then Some (InvalidArgument "plan identity invalid") else None)
      (RtMarkInFlight p d) (api_mark_in_flight api ps (api_context api) h p (Some d));
  svc_abort ps h l rt p d : svc_at ps h l rt -> is_u64 p ->
    answers svc_at ps h l rt
      (if p =? 0 then Some (InvalidArgument "plan identity invalid") else None)
      (RtAbort p d) (api_abort api ps (api_context api) h p (Some d));
  svc_complete ps h l rt self tokens now : svc_at ps h l rt -> 1 <= vsize tokens <= u32_max ->
    answers svc_at ps h l rt
      (if vsize tokens >? 256 then Some (InvalidArgument "sampled tokens invalid") else None)
      (RtSampled self tokens now)
      (api_complete_sampled_tokens api ps self (api_context api) h (Some tokens) (vsize tokens) now);
  svc_acknowledge ps h l rt p : svc_at ps h l rt ->
    answers svc_at ps h l rt
      (if p =? 0 then Some (InvalidArgument "output plan invalid") else None)
      (RtAcknowledge p) (api_acknowledge_output api ps (api_context api) h p);
  svc_finalize ps h l rt self g : svc_at ps h l rt ->
    answers svc_at ps h l rt
      (if g =? 0 then Some (InvalidArgument "drain generation invalid") else None)
      (RtFinalize self g) (api_finalize_draining api ps self (api_context api) h g);
  svc_take_event ps h l rt : svc_at ps h l rt ->
    let empty := empty_event sizeof_event PIH_EXECUTION_CONTROLLER_ABI_V1 in
    let '(r, rt') := Runtime.try_take_event rt in
    exists ps', moved svc_at ps h l ps' rt' /\
      api_take_event api ps (api_context api) h true (Some empty) =
        match r with
        | Error e => (WireStatus e, 0, Some empty, ps')
        | Value None => (WireStatus StatusOk, 0, Some empty, ps')
        | Value (Some e) => (WireStatus StatusOk, 1, Some (wire_event e), ps')
        end }.

(** ** Admission through the callbacks *)

(** An admission that the runtime offers its participant. *)
Definition admission_valid (limits : ControllerRequestArenaLimits) (a : ControllerAdmissionView) :
    Prop :=
  let c := av_command a in let v := av_request a in
  cmd_kind c = CommandKind.kAdmit /\ command_typed c /\
  rqv_request_generation v = cmd_request_generation c /\
  rqv_payload_digest v = cmd_payload_digest c /\ request_ok v /\
  is_u32 (sp_size (rqv_prompt_token_ids v)) /\ view_within limits v.

(** The runtime only asks its participant about valid admissions. *)
Lemma step_participant {CS} (P Q : ControllerAdmissionParticipant CS) rt self now cs :
  rt_ok rt ->
  (forall cs a, admission_valid (ra_limits (ig_requests (rt_ingress rt))) a ->
     pa_reserve P cs a = pa_reserve Q cs a) ->
  (forall cs g, pa_publish P cs g = pa_publish Q cs g) ->
  (forall cs g, pa_rollback P cs g = pa_rollback Q cs g) ->
  step_with P rt self now cs = step_with Q rt self now cs.
Proof.
  intros Hok Hr Hp Hb. unfold step_with, step_impl. destruct (ready _) eqn:Er; [|done]. cbn [negb].
  apply ready_true in Er. destruct (_ || _); [done|]. cbn zeta. do 2 (destruct (_ =? 0); [done|]).
  cbn [rt_ingress upd]. destruct (ingress_take_wf (rt_ingress rt) self (rw_ingress _ (Hok Er))) as [_ Hit].
  destruct (Ingress.try_take_command _ _) as [[[item|]|e] ig]; try done. specialize (Hit item eq_refl).
  destruct (command_kind_eqb _ CommandKind.kCancel); [done|].
  destruct (command_kind_eqb _ CommandKind.kAdmit) eqn:Ek; [|done].
  destruct (cv_request item) as [v|] eqn:Ev; [|done].
  assert (Ha : admission_valid (ra_limits (ig_requests (rt_ingress rt)))
    (MkAdmissionView (cv_command item) v)).
  { unfold item_ok in Hit. rewrite Ev in Hit. split; [cbn; revert Ek; by destruct (cmd_kind (cv_command item))|].
    destruct Hit as (? & ? & ? & ? & ? & ?). by split_and!. }
  unfold step_admit, p_reserve, p_publish, p_rollback. cbn zeta. rewrite Hr by done.
  destruct (first_index _ _ _); [|done]. destruct (pa_reserve _ _ _) as [reserved cs1].
  destruct (negb _); [done|]. rewrite Hp, Hb. done.
Qed.

(** A participant behind the wire. *)
Definition relay_participant {CS} (P : ControllerAdmissionParticipant CS) :
    ControllerAdmissionParticipant CS :=
  MkParticipant CS
    (fun cs a => let '(s, cs) := pa_reserve P cs a in (relay s, cs))
    (fun cs g => let '(s, cs) := pa_publish P cs g in (relay s, cs))
    (fun cs g => let '(s, cs) := pa_rollback P cs g in (relay s, cs)).

(** The callbacks that the client installs. *)
Definition client_callbacks {CS} (cl : ControllerClient) (P : ControllerAdmissionParticipant CS) :
    pih_execution_admission_callbacks_v1 CS :=
  MkCallbacks CS sizeof_callbacks PIH_EXECUTION_CONTROLLER_ABI_V1 true
    (Some (Reserve cl (Some P))) (Some (Publish (Some P))) (Some (Rollback (Some P))).

(** The client's [Reserve] rebuilds the admission that the provider projected. *)
Lemma reserve_relayed {CS} cl (P : ControllerAdmissionParticipant CS) cs a :
  admission_valid (igl_requests (rl_ingress (cl_limits cl))) a ->
  pa_reserve (Admission (client_callbacks cl P)) cs a = pa_reserve (relay_participant P) cs a.
Proof.
  destruct a as [[kind seq epoch g d] [i sg g' [off sz] n s d']].
  intros (Hk & (Hg & Hs & He) & Eg & Ed & (Hi & Hsm) & Hu & (H1 & H2 & H3 & H4)). cbn in *. subst.
  unfold Reserve. cbn [wire_admission av_command av_request wa_prompt_token_ids
    wa_struct_size wa_abi_version wa_command_sequence wa_epoch wa_request_generation wa_slot_generation
    wa_prompt_token_count wa_slot_index wa_sampling wa_payload_digest wa_maximum_new_tokens
    rqv_slot_index rqv_slot_generation rqv_request_generation rqv_prompt_token_ids
    rqv_maximum_new_tokens rqv_sampling rqv_payload_digest sp_offset sp_size cmd_command_sequence
    cmd_epoch]. rewrite wrap32_id by done.
  match goal with |- context [if ?b then (ToWire _, cs) else _] =>
    assert (E : b = false) by (clear Hsm; lia) end.
  rewrite E, client_of_core by done. destruct (pa_reserve P cs _) as [st cs']. by rewrite relay_core.
Qed.

Lemma step_relayed {CS} cl (P : ControllerAdmissionParticipant CS) rt self now cs :
  rt_serves (cl_limits cl) rt ->
  step_with (Admission (client_callbacks cl P)) rt self now cs =
  step_with (relay_participant P) rt self now cs.
Proof.
  intros Hs. apply step_participant.
  - apply Hs.
  - intros cs' a Ha. apply reserve_relayed. by rewrite (sv_requests _ _ Hs) in Ha.
  - intros cs' g. cbn. destruct (pa_publish P cs' g). by rewrite relay_core.
  - intros cs' g. cbn. destruct (pa_rollback P cs' g). by rewrite relay_core.
Qed.

(** ** The prepared plan *)

Lemma slot_sampling_ok slot : slot_wf slot -> is_Some (slot_sequence slot) -> sampling_ok (slot_sampling slot).
Proof. intros (_ & _ & H) [s Es]. rewrite Es in H. destruct H as (_ & (_ & Hs) & _). exact Hs. Qed.

Lemma limits_plan_typed l : runtime_limits_ok l -> plan_limits_typed l.
Proof. intros (_ & (H1 & H2 & H3 & _) & _ & _ & _ & _ & _ & H4). by split_and!. Qed.

(** The view of a prepared plan is one that a client of the limits adopts. *)
Lemma prepared_view_ok l rt rt' v :
  rt_serves l rt -> rt_state rt = RuntimeState.kReady -> plan_prepared rt rt' v -> view_ok l v.
Proof.
  intros Hs Hr []. pose proof (sv_ok _ _ Hs Hr) as Hw. destruct pr_identified as (I1 & I2 & I3).
  pose proof (sv_config _ _ Hs) as Ec.
  assert (Eg : vsize (ppv_selected_slot_indices v) = pp_sequence_count (ppv_plan v))
    by (unfold pp_sequence_count; rewrite pr_generations; by rewrite vsize_map).
  constructor; try done.
  - unfold client_plan_limits. rewrite <- (sv_profile _ _ Hs). unfold runtime_plan_limits in pr_created.
    by rewrite Ec in pr_created.
  - by rewrite I1, Ec.
  - by rewrite I2, Ec.
  - by rewrite I3, Ec.
  - apply pr_digest.
  - by rewrite pr_sampling, vsize_map.
  - rewrite pr_sampling. apply Forall_map, Forall_forall. intros j Hj.
    destruct (pr_slots j Hj) as (Hjr & s & n & Es & _). apply slot_sampling_ok; [by apply wf_at|by eexists].
Qed.

(** The view that [prepare_next_plan] returns. *)
Lemma prepared_adopted rt now l v rt' :
  rt_serves l rt -> Runtime.prepare_next_plan rt now = (Value (Some v), rt') -> view_ok l v.
Proof.
  intros Hs E. destruct (decide (rt_state rt = RuntimeState.kReady)) as [Hr|Hr].
  - pose proof (prepare_next_plan_spec rt now (sv_ok _ _ Hs Hr) Hr) as [_ Ho]. rewrite E in Ho.
    cbn [fst snd] in Ho. by eapply prepared_view_ok.
  - unfold Runtime.prepare_next_plan in E. by destruct (rt_state rt).
Qed.

(** An event that is taken was queued. *)
Lemma taken_event rt e rt' :
  mailbox_wf (ig_mailbox (rt_ingress rt)) ->
  Runtime.try_take_event rt = (Value (Some e), rt') ->
  e ∈ ring_list (mb_events (ig_mailbox (rt_ingress rt))).
Proof.
  intros [_ Hw]. unfold Runtime.try_take_event, Ingress.try_take_event, Mailbox.try_take_event.
  destruct (ring_pop_spec _ Hw) as (_ & _ & Hl).
  destruct (ring_pop _) as [x r]. intros [= -> _]. destruct (ring_list _) as [|y rest]; [done|].
  cbn in Hl. destruct Hl as [[= ->] _]. by left.
Qed.

(** ** The client simulates the runtime *)

Section ClientSim.
Context {PS : Type} (api : pih_execution_controller_api_v1 PS) {Svc : ControllerService api}.

(** The client's handle serves the runtime, under the client's limits. *)
Definition linked (st : ControllerClient * PS) (rt : ControllerRuntime) : Prop :=
  svc_at (snd st) (cl_handle (fst st)) (cl_limits (fst st)) rt /\ cl_admission (fst st) = false.

(** A call of the client, on the link: the result is the runtime's, the link holds
    for the runtime after the call, and no other handle has moved. *)
Record follows (st : ControllerClient * PS) (rt : ControllerRuntime) (op : client_op) : Prop := {
  fo_out : fst (run_client api st op) = fst (run_direct rt op);
  fo_link : linked (snd (run_client api st op)) (snd (run_direct rt op));
  fo_handle : cl_handle (fst (snd (run_client api st op))) = cl_handle (fst st);
  fo_others : forall h l rt2, h <> cl_handle (fst st) -> svc_at (snd st) h l rt2 ->
    svc_at (snd (snd (run_client api st op))) h l rt2 }.

(** A call that answers with a status, after the client's own checks. *)
Lemma follows_answers cl ps rt op refused x :
  linked (cl, ps) rt ->
  answers svc_at ps (cl_handle cl) (cl_limits cl) rt refused (core_op op) x ->
  run_client api (cl, ps) op = (OutStatus (FromWire (fst x)), (cl, snd x)) ->
  refusal op = refused -> (forall e, refused = Some e -> relay e = e) ->
  core_out rt op = OutStatus (relay (fst (run_rt rt (core_op op)))) ->
  follows (cl, ps) rt op.
Proof.
  intros [Hat Had] Ha Er Eref Hrel Ec. unfold answers in Ha.
  destruct refused as [e|].
  - subst x. cbn [fst snd] in Er. change (FromWire (WireStatus e)) with (relay e) in Er.
    rewrite Hrel in Er by done. constructor; rewrite ?Er; unfold run_direct; rewrite ?Eref; done.
  - destruct Ha as [Hx [Hm Ho]]. rewrite Hx in Er.
    change (FromWire (WireStatus ?s)) with (relay s) in Er.
    constructor; rewrite ?Er; unfold run_direct; rewrite ?Eref; cbn [fst snd]; [by rewrite Ec|done|done|].
    intros h l rt2 Hh Hat2. by apply Ho.
Qed.

Ltac relayed := intros ? ?; repeat case_match; simplify_eq; apply relay_id; vm_compute; reflexivity.

Lemma follows_refused cl ps rt op e :
  linked (cl, ps) rt -> run_client api (cl, ps) op = (OutStatus e, (cl, ps)) ->
  refusal op = Some e -> follows (cl, ps) rt op.
Proof.
  intros Hl Er Eref. constructor; rewrite ?Er; unfold run_direct; rewrite ?Eref; done.
Qed.

Lemma linked_open cl ps rt : linked (cl, ps) rt -> (cl_handle cl =? 0) = false.
Proof. intros [Hat _]. apply svc_handle in Hat. cbn in Hat. lia. Qed.

Lemma follows_admit cl ps rt g prompt n s :
  linked (cl, ps) rt -> m_typed (ClAdmit g prompt n s) -> follows (cl, ps) rt (ClAdmit g prompt n s).
Proof.
  intros Hl Ht. pose proof (linked_open _ _ _ Hl) as Ho. pose proof Hl as [Hat _].
  destruct ((vsize prompt =? 0) || (vsize prompt >? u32_max)
    || (sm_stop_token_count s >? kMaximumStopTokenIds)) eqn:Eg.
  { eapply follows_refused; [done| |].
    - cbn [run_client]. unfold Client.submit_admit. rewrite Ho. cbn [orb]. by rewrite Eg.
    - cbn [refusal]. by rewrite Eg. }
  pose proof (vsize_nonneg prompt). pose proof Eg as Eg'. unfold kMaximumStopTokenIds in Eg'.
  eapply follows_answers;
    [done|apply (svc_admit ps (cl_handle cl) (cl_limits cl) rt g prompt n s); [done|done|lia|lia]
    | | |relayed|done].
  - cbn [run_client]. unfold Client.submit_admit. rewrite Ho. cbn [orb]. rewrite Eg.
    rewrite wrap32_id by (unfold is_u32; lia). by destruct (api_submit_admit _ _ _ _ _ _ _ _ _).
  - cbn [refusal]. by rewrite Eg.
Qed.

Lemma follows_complete cl ps rt self tokens now :
  linked (cl, ps) rt -> follows (cl, ps) rt (ClComplete self tokens now).
Proof.
  intros Hl. pose proof (linked_open _ _ _ Hl) as Ho. pose proof Hl as [Hat _].
  destruct ((vsize tokens =? 0) || (vsize tokens >? u32_max)) eqn:Eg.
  { eapply follows_refused; [done| |].
    - cbn [run_client]. unfold Client.complete_current_sampled_tokens. rewrite Ho. cbn [orb]. by rewrite Eg.
    - cbn [refusal]. by rewrite Eg. }
  pose proof (vsize_nonneg tokens).
  eapply follows_answers;
    [done|apply (svc_complete ps (cl_handle cl) (cl_limits cl) rt self tokens now); [done|lia]
    | | |relayed|done].
  - cbn [run_client]. unfold Client.complete_current_sampled_tokens. rewrite Ho. cbn [orb]. rewrite Eg.
    rewrite wrap32_id by (unfold is_u32; lia). by destruct (api_complete_sampled_tokens _ _ _ _ _ _ _ _).
  - cbn [refusal]. by rewrite Eg.
Qed.

(** The calls that need the handle only. *)
Lemma follows_handle cl ps rt op refused call :
  linked (cl, ps) rt ->
  (run_client api (cl, ps) op = let '(r, ps) := with_handle cl ps call in (OutStatus r, (cl, ps))) ->
  answers svc_at ps (cl_handle cl) (cl_limits cl) rt refused (core_op op) (call ps) ->
  refusal op = refused -> (forall e, refused = Some e -> relay e = e) ->
  core_out rt op = OutStatus (relay (fst (run_rt rt (core_op op)))) ->
  follows (cl, ps) rt op.
Proof.
  intros Hl Er Ha. eapply follows_answers; [done|exact Ha|]. rewrite Er. unfold with_handle.
  rewrite (linked_open _ _ _ Hl). by destruct (call ps).
Qed.

Lemma follows_step cl ps rt self now a b c :
  linked (cl, ps) rt -> follows (cl, ps) rt (ClStep self now a b c).
Proof.
  intros Hl. pose proof (linked_open _ _ _ Hl) as Ho. pose proof Hl as [Hat Had].
  cbn [fst snd] in Hat, Had.
  destruct (svc_step unit ps _ _ rt self now (client_callbacks cl (answering a b c)) tt Hat
    ltac:(done)) as (ps' & Hs).
  rewrite step_relayed in Hs by (by eapply svc_serves).
  change (relay_participant (answering a b c)) with (answering (relay a) (relay b) (relay c)) in Hs.
  pose proof (step_fails (Some (answering (relay a) (relay b) (relay c))) rt self now tt) as Hf.
  fold (step_with (answering (relay a) (relay b) (relay c)) rt self now tt) in Hf.
  assert (Er : run_client api (cl, ps) (ClStep self now a b c) =
    (fst (run_direct rt (ClStep self now a b c)), (cl, ps'))).
  { cbn [run_client run_direct refusal core_out fst]. unfold Client.step. rewrite Ho, Had. cbn [orb].
    fold (client_callbacks cl (answering a b c)).
    destruct (step_with _ rt self now tt) as [r [rt' cs']]. destruct Hs as [-> _].
    destruct r as [s|e]; cbn [step_result fst snd relay_result].
    - change (FromWire ok_status) with StatusOk. by destruct s.
    - change (FromWire (WireStatus e)) with (relay e). rewrite ok_relay, (Hf e (rt', cs') eq_refl). done. }
  constructor; rewrite ?Er; [done| |done|].
  - cbn [run_direct refusal core_op run_rt snd fst]. unfold linked. cbn [fst snd]. split; [|done].
    destruct (step_with _ rt self now tt) as [r [rt' cs']]. exact (proj1 (proj2 Hs)).
  - cbn [fst snd]. destruct (step_with _ rt self now tt) as [r [rt' cs']]. exact (proj2 (proj2 Hs)).
Qed.

Lemma follows_take_event cl ps rt : linked (cl, ps) rt -> follows (cl, ps) rt ClTakeEvent.
Proof.
  intros Hl. pose proof (linked_open _ _ _ Hl) as Ho. pose proof Hl as [Hat Had].
  cbn [fst snd] in Hat, Had. pose proof (svc_take_event ps _ _ rt Hat) as Hs. cbn zeta in Hs.
  pose proof (sv_mailbox _ _ (svc_serves _ _ _ _ Hat)) as [Hmw Hev].
  pose proof (sv_config _ _ (svc_serves _ _ _ _ Hat)) as Ec. rewrite Ec in Hev. cbn in Hev.
  pose proof (fun e rt' => taken_event rt e rt' Hmw) as Ht. pose proof (take_event_fails rt) as Hf.
  assert (Er : exists ps', run_client api (cl, ps) ClTakeEvent =
    (fst (run_direct rt ClTakeEvent), (cl, ps')) /\
    moved svc_at ps (cl_handle cl) (cl_limits cl) ps' (snd (Runtime.try_take_event rt))).
  { cbn [run_client run_direct refusal core_out fst]. unfold Client.try_take_event. rewrite Ho.
    destruct (Runtime.try_take_event rt) as [r rt']. destruct Hs as (ps' & Hm & ->). exists ps'.
    split; [|exact Hm]. destruct r as [[e|]|e]; cbn [fst relay_result].
    - change (FromWire (WireStatus StatusOk)) with StatusOk. cbn [ok negb].
      assert (He : event_ok (rl_epoch (cl_limits cl)) e)
        by (rewrite Forall_forall in Hev; by apply Hev, (Ht e rt')).
      change (negb (ok StatusOk)) with false. cbn [Z.eqb default].
      unfold id. rewrite event_accepted by done. cbn. rewrite event_kind_wire, finish_reason_wire. by destruct e.
    - done.
    - change (FromWire (WireStatus e)) with (relay e). by rewrite ok_relay, (Hf e rt' eq_refl). }
  destruct Er as (ps' & Er & Hm & Hoth).
  constructor; rewrite ?Er; [done| |done|exact Hoth].
  cbn [run_direct refusal core_op run_rt snd fst]. unfold linked. cbn [fst snd]. split; [|done].
  destruct (Runtime.try_take_event rt). exact Hm.
Qed.

Lemma follows_prepare cl ps rt now : linked (cl, ps) rt -> follows (cl, ps) rt (ClPrepare now).
Proof.
  intros Hl. pose proof (linked_open _ _ _ Hl) as Ho. pose proof Hl as [Hat Had].
  cbn [fst snd] in Hat, Had. pose proof (svc_serves _ _ _ _ Hat) as Hsv.
  pose proof (svc_prepare ps _ _ rt now Hat) as Hs. cbn zeta in Hs.
  pose proof (prepare_fails rt now) as Hf. pose proof (prepared_adopted rt now) as Hp.
  set (st1 := run_client api (cl, ps) (ClPrepare now)).
  assert (Er : exists cl' ps', st1 = (fst (run_direct rt (ClPrepare now)), (cl', ps')) /\
    cl_handle cl' = cl_handle cl /\ cl_limits cl' = cl_limits cl /\ cl_admission cl' = false /\
    moved svc_at ps (cl_handle cl) (cl_limits cl) ps' (snd (Runtime.prepare_next_plan rt now))).
  { unfold st1. cbn [run_client run_direct refusal core_out fst]. unfold Client.prepare_next_plan.
    rewrite Ho. cbn zeta.
    destruct (Runtime.prepare_next_plan rt now) as [r rt']. destruct Hs as (ps' & Hm & Hs).
    destruct r as [[v|]|e]; cbn [fst relay_result].
    - destruct Hs as (w & (sampling & -> & Hsm) & ->).
      change (FromWire (WireStatus StatusOk)) with StatusOk.
      change (negb (ok StatusOk)) with false. cbn [Z.eqb default].
      pose proof (Hp (cl_limits cl) v rt' Hsv eq_refl) as Hv.
      pose proof (limits_plan_typed _ (sv_limits _ _ Hsv)) as Hlt.
      destruct (view_header (cl_limits cl) v sampling Hlt Hv) as [Ea Eh].
      unfold id. rewrite Ea, Eh.
      rewrite (view_adopted (cl_limits cl) v sampling Hlt Hv Hsm cl eq_refl).
      exists (adopted v sampling cl), ps'. split_and!; try done; apply Hm.
    - rewrite Hs. exists cl, ps'. split_and!; try done; apply Hm.
    - rewrite Hs. change (FromWire (WireStatus e)) with (relay e).
      rewrite ok_relay, (Hf e rt' eq_refl). exists cl, ps'. split_and!; try done; apply Hm. }
  destruct Er as (cl' & ps' & Er & Hh & Hli & Hads & Hm & Hoth).
  constructor; fold st1; rewrite ?Er; [done| |done|exact Hoth].
  cbn [run_direct refusal core_op run_rt snd fst]. unfold linked. cbn [fst snd].
  rewrite Hh, Hli. split; [|done]. destruct (Runtime.prepare_next_plan rt now). exact Hm.
Qed.

Lemma client_follows cl ps rt op : linked (cl, ps) rt -> m_typed op -> follows (cl, ps) rt op.
Proof.
  intros Hl Ht. pose proof Hl as [Hat _]. cbn [fst snd] in Hat.
  destruct op as [g prompt n s|g|self now a b c|now|p d|p d|p d|self tokens now|p|self g|].
  - by apply follows_admit.
  - eapply follows_handle; [done|reflexivity|by apply svc_cancel|reflexivity|relayed|done].
  - by apply follows_step.
  - by apply follows_prepare.
  - eapply follows_handle; [done|reflexivity|by apply svc_commit|reflexivity|relayed|done].
  - eapply follows_handle; [done|reflexivity|by apply svc_mark|reflexivity|relayed|done].
  - eapply follows_handle; [done|reflexivity|by apply svc_abort|reflexivity|relayed|done].
  - by apply follows_complete.
  - eapply follows_handle; [done|reflexivity|by apply svc_acknowledge|reflexivity|relayed|done].
  - eapply follows_handle; [done|reflexivity|by apply svc_finalize|reflexivity|relayed|done].
  - by apply follows_take_event.
Qed.

(** ** Interleaved clients *)

(** A schedule names, for each call, the client that makes it. *)
Fixpoint run_clients (cls : list ControllerClient) (ps : PS) (calls : list (nat * client_op)) :
    list (nat * client_out) * (list ControllerClient * PS) :=
  match calls with
  | [] => ([], (cls, ps))
  | (i, op) :: calls =>
      match cls !! i with
      | None => run_clients cls ps calls
      | Some cl =>
          let '(out, (cl, ps)) := run_client api (cl, ps) op in
          let '(outs, st) := run_clients (<[i := cl]> cls) ps calls in ((i, out) :: outs, st)
      end
  end.

Lemma run_clients_cons cls ps i op calls cl :
  cls !! i = Some cl ->
  run_clients cls ps ((i, op) :: calls) =
  let st := snd (run_client api (cl, ps) op) in
  ((i, fst (run_client api (cl, ps) op)) :: fst (run_clients (<[i := fst st]> cls) (snd st) calls),
   snd (run_clients (<[i := fst st]> cls) (snd st) calls)).
Proof.
  intros Hi. cbn [run_clients]. rewrite Hi. destruct (run_client _ _ _) as [out [cl' ps']]. cbn.
  by destruct (run_clients _ _ _).
Qed.

(** Each client is linked to its runtime, through a handle of its own. *)
Definition all_linked (cls : list ControllerClient) (ps : PS) (rts : list ControllerRuntime) : Prop :=
  Forall2 (fun cl rt => linked (cl, ps) rt) cls rts /\ NoDup (map cl_handle cls).

Lemma handle_apart cls i j a b :
  NoDup (map cl_handle cls) -> cls !! i = Some a -> cls !! j = Some b -> i <> j ->
  cl_handle b <> cl_handle a.
Proof.
  intros Hn Hi Hj Hij E. apply Hij. eapply NoDup_lookup; [exact Hn|..];
    rewrite list_lookup_fmap; [by rewrite Hi|by rewrite Hj, <- E].
Qed.

(** A call of one client keeps all of them linked. *)
Lemma linked_call cls ps rts i op cl rt :
  all_linked cls ps rts -> cls !! i = Some cl -> rts !! i = Some rt -> m_typed op ->
  let st := snd (run_client api (cl, ps) op) in
  all_linked (<[i := fst st]> cls) (snd st) (<[i := snd (run_direct rt op)]> rts).
Proof.
  intros [Hl Hn] Hi Hr Ht. pose proof (Forall2_lookup_lr _ _ _ _ _ _ Hl Hi Hr) as Hlink.
  pose proof (client_follows cl ps rt op Hlink Ht) as [_ Hlk Hh Ho]. cbn zeta.
  cbn [fst] in Hh, Ho. split.
  - apply Forall2_same_length_lookup_2.
    { rewrite !length_insert. by eapply Forall2_length. }
    intros j a b Ha Hb. destruct (decide (i = j)) as [->|Hij].
    + rewrite list_lookup_insert_eq in Ha by (by eapply lookup_lt_Some).
      rewrite list_lookup_insert_eq in Hb by (by eapply lookup_lt_Some). simplify_eq.
      by destruct (snd (run_client api (cl, ps) op)).
    + rewrite (list_lookup_insert_ne cls) in Ha by done.
      rewrite (list_lookup_insert_ne rts) in Hb by done.
      pose proof (Forall2_lookup_lr _ _ _ _ _ _ Hl Ha Hb) as [Hat Had]. split; [|exact Had].
      apply Ho; [|exact Hat]. by eapply handle_apart.
  - change (map cl_handle) with (fmap (M := list) cl_handle). rewrite list_fmap_insert, Hh.
    rewrite list_insert_id; [done|]. by rewrite list_lookup_fmap, Hi.
Qed.

End ClientSim.

(** The calls, or the results, of one client. *)
Definition of_client {A} (i : nat) (xs : list (nat * A)) : list A :=
  omap (fun x => if decide (fst x = i) then Some (snd x) else None) xs.

Lemma of_client_own {A} i (x : A) xs : of_client i ((i, x) :: xs) = x :: of_client i xs.
Proof. unfold of_client. cbn. by rewrite decide_True. Qed.

Lemma of_client_other {A} i j (x : A) xs : j <> i -> of_client i ((j, x) :: xs) = of_client i xs.
Proof. intros H. unfold of_client. cbn. by rewrite decide_False. Qed.

(** The calls on a runtime, one after the other. *)
Fixpoint run_all (rt : ControllerRuntime) (ops : list client_op) :
    list client_out * ControllerRuntime :=
  match ops with
  | [] => ([], rt)
  | op :: ops =>
      let '(out, rt) := run_direct rt op in
      let '(outs, rt) := run_all rt ops in (out :: outs, rt)
  end.

Lemma run_all_cons rt op ops :
  run_all rt (op :: ops) =
  (fst (run_direct rt op) :: fst (run_all (snd (run_direct rt op)) ops),
   snd (run_all (snd (run_direct rt op)) ops)).
Proof. cbn. destruct (run_direct rt op) as [out rt1]. cbn. by destruct (run_all rt1 ops). Qed.

Lemma clients_sim {PS} (api : pih_execution_controller_api_v1 PS) `{!ControllerService api} calls :
  forall cls ps rts i cl rt,
  all_linked api cls ps rts -> cls !! i = Some cl -> rts !! i = Some rt ->
  Forall (fun c => m_typed (snd c)) calls ->
  let '(outs, (cls', ps')) := run_clients api cls ps calls in
  of_client i outs = fst (run_all rt (of_client i calls)) /\
  exists cl', cls' !! i = Some cl' /\ linked api (cl', ps') (snd (run_all rt (of_client i calls))).
Proof.
  induction calls as [|[j op] calls IH]; intros cls ps rts i cl rt Hall Hi Hr Ht.
  { cbn. split; [done|]. exists cl. split; [done|]. 
    exact (Forall2_lookup_lr _ _ _ _ _ _ (proj1 Hall) Hi Hr). }
  inversion Ht as [|? ? Hop Hcalls]; subst. cbn [snd] in Hop.
  destruct (cls !! j) as [b|] eqn:Hj.
  - destruct (Forall2_lookup_l _ _ _ _ _ (proj1 Hall) Hj) as (rb & Hrb & _).
    pose proof (linked_call api cls ps rts j op b rb Hall Hj Hrb Hop) as Hall'. cbn zeta in Hall'.
    rewrite (run_clients_cons api cls ps j op calls b Hj). cbn zeta.
    set (st := snd (run_client api (b, ps) op)) in *. destruct (decide (j = i)) as [->|Hji].
    + simplify_eq. specialize (IH _ _ _ i (fst st) (snd (run_direct rt op)) Hall'
        ltac:(rewrite list_lookup_insert_eq; [done|by eapply lookup_lt_Some])
        ltac:(rewrite list_lookup_insert_eq; [done|by eapply lookup_lt_Some]) Hcalls).
      destruct (run_clients _ _ _ calls) as [outs [cls' ps']]. cbn [fst snd].
      destruct IH as [IH1 IH2]. rewrite !of_client_own, run_all_cons. cbn [fst snd].
      split; [|exact IH2]. f_equal; [|exact IH1].
      apply (fo_out api _ _ _ (client_follows api cl ps rt op
        (Forall2_lookup_lr _ _ _ _ _ _ (proj1 Hall) Hi Hr) Hop)).
    + specialize (IH _ _ _ i cl rt Hall' ltac:(by rewrite list_lookup_insert_ne)
        ltac:(by rewrite list_lookup_insert_ne) Hcalls).
      destruct (run_clients _ _ _ calls) as [outs [cls' ps']]. cbn [fst snd].
      by rewrite !of_client_other.
  - cbn [run_clients]. rewrite Hj. assert (Hji : j <> i) by congruence.
    specialize (IH _ _ _ i cl rt Hall Hi Hr Hcalls). destruct (run_clients _ _ _ calls) as [outs [cls' ps']].
    by rewrite of_client_other.
Qed.
