(* ===== verification/Service.v ===== *)
(** * The provider keeps the controller promise

    The instance of [ControllerService] for the provider's function table, and the
    theorems about the composition: client, wire, provider and runtime. *)

From stdpp Require Import gmap list_numbers.
From S2P Require Import Prelude Core Sha256 TokenPlan TokenMetadata Sequence BurstCredits.
From S2P Require Import Mailbox RequestArena Ingress Scheduler Runtime RuntimeErrors RuntimeInv.
From S2P Require Import RuntimePrepare RuntimeBatch RuntimeMachine RuntimeCount RuntimeKeeps RuntimeProps.
From S2P Require Import ControllerAbi Provider Client Wire PlanWire Link.

(** ** Handles *)

Lemma find_set p h c c' : Find p h = Some c -> Find (set_handle p h c') h = Some c'.
Proof.
  unfold Find, set_handle. cbn. induction (pv_handles p) as [|[k x] hs IH]; cbn; [done|].
  destruct (k =? h) eqn:E; cbn; rewrite E; [done|]. exact IH.
Qed.

Lemma find_set_other p h h' c : h' <> h -> Find (set_handle p h c) h' = Find p h'.
Proof.
  intros Hh. unfold Find, set_handle. cbn. induction (pv_handles p) as [|[k x] hs IH]; cbn; [done|].
  destruct (k =? h) eqn:E; cbn; destruct (k =? h') eqn:E'; [lia|done..].
Qed.

(** The runtime behind a handle of the provider. *)
Definition provider_at (p : Provider) (h : Z) (l : ControllerRuntimeLimits)
    (rt : ControllerRuntime) : Prop :=
  h <> 0 /\ rt_serves l rt /\ ptp_maximum_sequences_per_plan (rl_scheduler l) <= rl_maximum_sequences l /\
  exists c, Find p h = Some c /\ ec_runtime c = rt /\ vsize (ec_sampling c) = rl_maximum_sequences l.

Lemma provider_moved p h l rt c rt' :
  provider_at p h l rt -> rt_serves l rt' -> ec_runtime c = rt' ->
  vsize (ec_sampling c) = rl_maximum_sequences l ->
  moved provider_at p h l (set_handle p h c) rt'.
Proof.
  intros (Hh & _ & Hn & c0 & Hf & _ & _) Hs Ec Hv. split.
  - split_and!; try done. exists c. split_and!; try done. by eapply find_set.
  - intros h' l' rt2 Hne (Hh' & Hs' & Hn' & c' & Hf' & H'). split_and!; try done. exists c'.
    by rewrite find_set_other.
Qed.

Lemma serves_run l rt op : rt_serves l rt -> m_typed op -> rt_serves l (snd (run_rt rt op)).
Proof.
  intros Hs Ht. pose proof (sv_ok _ _ Hs) as Hok. eapply serves_keeps; [done| | |by apply keeps_run].
  2: { apply counted_run; [done|apply Hs]. }
  by apply (inv_run (MachineInv := rt_ok_inv) rt op).
Qed.

Lemma serves_trace l ops : forall rt,
  rt_serves l rt -> Forall m_typed ops -> rt_serves l (snd (m_trace rt ops)).
Proof.
  induction ops as [|op ops IH]; intros rt Hs Ht; [done|]. inversion Ht; subst.
  rewrite m_trace_cons. cbn [snd]. apply IH; [by apply serves_run|done].
Qed.

Lemma serves_step {CS} l rt (P : ControllerAdmissionParticipant CS) self now cs :
  rt_serves l rt -> rt_serves l (fst (snd (step_with P rt self now cs))).
Proof.
  intros Hs. eapply serves_keeps; [done|apply step_impl_ok; apply Hs|apply step_counted; apply Hs|apply keeps_step_impl].
Qed.

(** A call that runs on the runtime of the handle. *)
Lemma runs_on p h l rt op (call : ControllerRuntime -> pih_status_v1 * ControllerRuntime) :
  provider_at p h l rt -> m_typed op ->
  call rt = (WireStatus (fst (run_rt rt op)), snd (run_rt rt op)) ->
  answers provider_at p h l rt None op (on_runtime p h foreign_handle call).
Proof.
  intros Hat Ht Ec. pose proof Hat as (_ & Hs & _ & c & Hf & Er & Hv).
  unfold answers, on_runtime. rewrite Hf, Er, Ec. split; [done|].
  by eapply provider_moved; [done|by apply serves_run| |].
Qed.

Lemma projection_valid l rt v n :
  rt_serves l rt -> view_ok l v -> ptp_maximum_sequences_per_plan (rl_scheduler l) <= n ->
  projection_invalid n v = false.
Proof.
  intros Hs Hv Hn. pose proof (limits_plan_typed _ (sv_limits _ _ Hs)) as Hl.
  destruct (view_sizes l v Hl Hv) as (S1 & S2 & S3 & S4 & S5 & S6).
  pose proof (vw_sampling_size _ _ Hv). pose proof (vw_slots _ _ Hv).
  unfold projection_invalid. lia.
Qed.

(** The sampling of the view, at the start of the controller's buffer. *)
Lemma buffer_take (buf : list pih_execution_sampling_v1) ss :
  take (length ss) (splice buf 0 (map WireSampling ss)) = map WireSampling ss.
Proof.
  pose proof (take_splice buf 0 (map WireSampling ss)) as H. rewrite length_map in H. apply H. lia.
Qed.

(** The provider's guards on a call of its own client. *)
Ltac provider_call f :=
  cbn [ControllerApi api_submit_admit api_submit_cancel api_step api_prepare api_commit
       api_mark_in_flight api_abort api_complete_sampled_tokens api_acknowledge_output
       api_finalize_draining api_take_event api_context];
  unfold f; cbn [Z.eqb provider_address Pos.eqb negb orb].

Lemma provider_steps CS p h l rt self now (callbacks : pih_execution_admission_callbacks_v1 CS) cs :
  provider_at p h l rt -> ValidCallbacks callbacks = true ->
  exists p',
    let '(r, (rt', cs')) := step_with (Admission callbacks) rt self now cs in
    Step p self provider_address h now (Some callbacks) cs true =
      (fst (step_result r), snd (step_result r), cs', p') /\
    moved provider_at p h l p' rt'.
Proof.
  intros Hat Hc. pose proof Hat as (_ & Hs & _ & c & Hf & Er & Hv).
  pose proof (serves_step l rt (Admission callbacks) self now cs Hs) as Hs'.
  provider_call @Step. rewrite Hc. cbn [negb]. unfold on_runtime. rewrite Hf, Er.
  destruct (step_with _ _ _ _ _) as [r [rt' cs']]. eexists. split; [by destruct r|].
  by eapply provider_moved; [done|exact Hs'| |].
Qed.

Lemma provider_prepares p h l rt now :
  provider_at p h l rt ->
  let empty := empty_plan_view sizeof_plan_view PIH_EXECUTION_CONTROLLER_ABI_V1 in
  let '(r, rt') := Runtime.prepare_next_plan rt now in
  exists p', moved provider_at p h l p' rt' /\
    match r with
    | Error e => Prepare p provider_address h now true (Some empty) =
        (WireStatus e, 0, Some empty, p')
    | Value None => Prepare p provider_address h now true (Some empty) =
        (WireStatus StatusOk, 0, Some empty, p')
    | Value (Some v) => exists w, projects v w /\
        Prepare p provider_address h now true (Some empty) = (WireStatus StatusOk, 1, Some w, p')
    end.
Proof.
  intros Hat. cbn zeta. pose proof Hat as (_ & Hs & Hn & c & Hf & Er & Hv).
  pose proof (serves_run l rt (RtPrepare now) Hs I) as Hs'. cbn [run_rt] in Hs'.
  pose proof (prepared_adopted rt now l) as Hp. provider_call Prepare.
  cbn [empty_plan_view wp_struct_size wp_abi_version]. rewrite !Z.eqb_refl. cbn [andb negb].
  rewrite Hf, Er.
  destruct (Runtime.prepare_next_plan rt now) as [[[v|]|e] rt']; cbn [snd] in Hs';
    [|eexists; split; [|reflexivity]; by eapply provider_moved..].
  specialize (Hp v rt' Hs eq_refl). cbn [ec_sampling upd]. rewrite Hv.
  pose proof (projection_valid l rt v _ Hs Hp Hn) as Epi. rewrite Epi. eexists. split; cycle 1.
  - eexists. split; [|reflexivity]. eexists. split; [reflexivity|]. apply buffer_take.
  - eapply provider_moved; [done|exact Hs'|done|]. cbn. unfold projection_invalid in Epi. breflect.
    rewrite vsize_splice; rewrite ?vsize_map; lia.
Qed.

Lemma provider_takes p h l rt :
  provider_at p h l rt ->
  let empty := empty_event sizeof_event PIH_EXECUTION_CONTROLLER_ABI_V1 in
  let '(r, rt') := Runtime.try_take_event rt in
  exists p', moved provider_at p h l p' rt' /\
    TakeEvent p provider_address h true (Some empty) =
      match r with
      | Error e => (WireStatus e, 0, Some empty, p')
      | Value None => (WireStatus StatusOk, 0, Some empty, p')
      | Value (Some e) => (WireStatus StatusOk, 1, Some (wire_event e), p')
      end.
Proof.
  intros Hat. cbn zeta. pose proof Hat as (_ & Hs & Hn & c & Hf & Er & Hv).
  pose proof (serves_run l rt RtTakeEvent Hs I) as Hs'. cbn [run_rt] in Hs'. provider_call TakeEvent.
  cbn [empty_event we_struct_size we_abi_version]. rewrite !Z.eqb_refl. cbn [andb negb].
  unfold on_runtime. rewrite Hf, Er.
  destruct (Runtime.try_take_event rt) as [[[v|]|e] rt']; cbn [snd] in Hs';
    (eexists; split; [|reflexivity]; by eapply provider_moved).
Qed.

#[export] Instance provider_service : ControllerService ControllerApi.
Proof.
  refine {| svc_at := provider_at |}.
  - reflexivity.
  - by intros ps h l rt [].
  - by intros ps h l rt (_ & Hs & _).
  - intros p h l rt g prompt n s Hat [Hg Hs] Hp Hn. provider_call SubmitAdmit.
    rewrite wire_sampling_valid, (proj2 (Z.eqb_neq (vsize prompt) 0)) by (lia || (split; [apply Hs|done])).
    cbn [negb]. rewrite !orb_false_r.
    destruct (_ || _); [done|]. eapply runs_on; [done|split; [done|by apply canonical_typed]|].
    rewrite core_of_client, take_ge by (done || unfold vsize; lia).
    cbn [run_rt]. by destruct (Runtime.submit_admit _ _ _ _ _) as [[|] ?].
  - intros p h l rt g Hat Hg. provider_call SubmitCancel. destruct (_ =? _); [done|].
    eapply runs_on; [done..|]. cbn [run_rt]. by destruct (Runtime.submit_cancel _ _) as [[|] ?].
  - exact provider_steps.
  - exact provider_prepares.
  - intros p h l rt q d Hat Hq. provider_call Commit. unfold PlanIdentity. cbn.
    destruct (_ =? _); [done|]. eapply runs_on; [done..|].
    destruct (Runtime.commit_current_plan _ _ _) eqn:E; cbn; by rewrite E.
  - intros p h l rt q d Hat Hq. provider_call MarkInFlight. unfold PlanIdentity. cbn.
    destruct (_ =? _); [done|]. eapply runs_on; [done..|].
    destruct (Runtime.mark_current_plan_in_flight _ _ _) eqn:E; cbn; by rewrite E.
  - intros p h l rt q d Hat Hq. provider_call Abort. unfold PlanIdentity. cbn.
    destruct (_ =? _); [done|]. eapply runs_on; [done..|].
    destruct (Runtime.abort_current_plan _ _ _) eqn:E; cbn; by rewrite E.
  - intros p h l rt self tokens now Hat Ht. provider_call CompleteSampledTokens.
    rewrite (proj2 (Z.eqb_neq (vsize tokens) 0)), take_ge by (unfold vsize in *; lia). cbn [orb].
    destruct (_ >? _); [done|]. eapply runs_on; [done..|].
    cbn [run_rt]. by destruct (Runtime.complete_current_sampled_tokens _ _ _ _).
  - intros p h l rt q Hat. provider_call AcknowledgeOutput. destruct (_ =? _); [done|].
    eapply runs_on; [done..|]. cbn [run_rt]. by destruct (Runtime.acknowledge_output_plan _ _).
  - intros p h l rt self g Hat. provider_call FinalizeDraining. destruct (_ =? _); [done|].
    eapply runs_on; [done..|]. cbn [run_rt]. by destruct (Runtime.finalize_draining _ _ _).
  - exact provider_takes.
Defined.

(** ** The life of a handle *)

Lemma find_app p h a c :
  h <> a -> Find (p <| pv_handles := pv_handles p ++ [(a, c)] |>) h = Find p h.
Proof.
  intros Hh. unfold Find. cbn. induction (pv_handles p) as [|[k x] hs IH]; cbn.
  - destruct (a =? h) eqn:E; [lia|done].
  - by destruct (k =? h).
Qed.

Lemma find_fresh p a c :
  Find p a = None -> Find (p <| pv_handles := pv_handles p ++ [(a, c)] |>) a = Some c.
Proof.
  unfold Find. cbn. induction (pv_handles p) as [|[k x] hs IH]; cbn.
  - by rewrite Z.eqb_refl.
  - by destruct (k =? a).
Qed.

Lemma find_filter p h h' :
  Find (p <| pv_handles := filter (fun x : Z * ExecutionController => fst x <> h) (pv_handles p) |>) h' =
  if h' =? h then None else Find p h'.
Proof.
  unfold Find. cbn -[filter]. induction (pv_handles p) as [|[k x] hs IH]; [by destruct (_ =? _)|].
  rewrite filter_cons. cbn [fst]. case_decide as Hk; cbn [find fst].
  - destruct (k =? h') eqn:E; [|exact IH]. assert (h' <> h) by lia. by destruct (h' =? h) eqn:E2; [lia|].
  - rewrite IH. destruct (h' =? h) eqn:E2; [done|]. destruct (k =? h') eqn:E; [lia|done].
Qed.

Lemma provider_kept p p' h l rt :
  Find p' h = Find p h -> provider_at p h l rt -> provider_at p' h l rt.
Proof. unfold provider_at. by intros ->. Qed.

(** Limits that the client refuses, the runtime refuses too. *)
Lemma limits_refused l :
  Z.of_nat (String.length (rl_profile_revision l)) = 0 \/
  Z.of_nat (String.length (rl_profile_revision l)) > 128 \/ rl_maximum_sequences l = 0 ->
  exists e, ControllerRuntime_Create l = Error e.
Proof.
  intros H. unfold ControllerRuntime_Create.
  destruct (runtime_limits_invalid l) eqn:E; [by eexists|]. exfalso.
  unfold runtime_limits_invalid in E. rewrite !orb_false_iff in E.
  destruct E as ((((((((((_ & E1) & _) & _) & _) & _) & _) & _) & E2) & E3) & _). apply Nat.eqb_neq in E2. apply Nat.ltb_ge in E3. lia.
Qed.

Lemma created_sequences l rt :
  runtime_limits_ok l -> ControllerRuntime_Create l = Value rt -> 0 <= rl_maximum_sequences l.
Proof.
  intros ((_ & Hq) & _). unfold ControllerRuntime_Create.
  destruct (runtime_limits_invalid l) eqn:E; [done|]. intros _. unfold runtime_limits_invalid in E. breflect.
  unfold limits_ok, is_u32 in Hq. lia.
Qed.

(** C26. A client is created through the table exactly on a runtime with its
    limits: a success binds the fresh handle to the runtime that [Create] of the
    same limits returns, leaves the other handles as they were and counts against
    the four handles of a ready provider; a failure has no effect, and on a ready
    provider with a free handle and limits within the bounds of the wire it comes
    from the runtime's own checks. *)
Theorem create_binds_runtime p address l
    (Hl : runtime_limits_ok l) (Ha : address <> 0) (Hf : Find p address = None) :
  match Client.Create ControllerApi p address l with
  | (Value cl, p') =>
      cl_handle cl = address /\ cl_limits cl = l /\ pv_ready p = true /\
      vsize (pv_handles p') = vsize (pv_handles p) + 1 /\ vsize (pv_handles p') <= 4 /\
      (exists rt, ControllerRuntime_Create l = Value rt /\ linked ControllerApi (cl, p') rt) /\
      (forall h l2 rt2, provider_at p h l2 rt2 -> provider_at p' h l2 rt2)
  | (Error e, p') =>
      p' = p /\ ok e = false /\
      (pv_ready p = true -> vsize (pv_handles p) < 4 -> ValidLimits (Some (wire_limits l)) = true ->
       exists e', ControllerRuntime_Create l = Error e')
  end.
Proof.
  unfold Client.Create. change (negb (ValidApi ControllerApi)) with false. cbn [orb].
  destruct (_ || _) eqn:Eg.
  { split_and!; [done..|]. intros _ _ _. apply limits_refused. lia. }
  cbn [ControllerApi api_create api_context]. unfold Provider.Create. rewrite limits_relayed by lia.
  cbn [Z.eqb provider_address Pos.eqb negb orb]. rewrite orb_false_r.
  destruct (ValidLimits _) eqn:Ev; cbn [negb]; [|by split_and!].
  destruct (pv_ready p) eqn:Er; cbn [negb]; [|by split_and!].
  destruct (_ >=? _) eqn:E4; [split_and!; [done..|lia]|].
  destruct (ControllerRuntime_Create l) as [rt|e] eqn:Ec.
  - change (FromWire ok_status) with StatusOk. change (negb (ok StatusOk)) with false. cbn iota.
    rewrite (proj2 (Z.eqb_neq _ _) Ha). pose proof (serves_created l rt Hl Ec) as Hs.
    pose proof (created_sequences l rt Hl Ec) as Hn. cbn [cl_handle cl_limits pv_handles upd].
    rewrite vsize_app. change (vsize [_]) with 1. split_and!; [done..|lia| |].
    + exists rt. split; [done|]. split; [|done]. change (provider_at
        (p <| pv_handles := pv_handles p ++ [(address, MkController rt
          (replicate (Z.to_nat (rl_maximum_sequences l)) zero_sampling))] |>) address l rt).
      split_and!; [done..| |].
      { unfold ValidLimits in Ev. cbn in Ev. unfold u32_nonzero_at_most in Ev. rewrite !andb_true_iff in Ev.
        intuition lia. }
      eexists. split; [by apply find_fresh|]. split; [done|]. cbn. rewrite vsize_replicate. lia.
    + intros h l2 rt2 Hat. eapply provider_kept; [|done]. apply find_app. intros ->.
      destruct Hat as (_ & _ & _ & c & Hc & _). congruence.
  - change (FromWire (WireStatus e)) with (relay e). rewrite ok_relay.
    rewrite (runtime_create_fails l e Ec). cbn [negb]. 
    split_and!; [done|by rewrite ok_relay, (runtime_create_fails l e Ec)|by eexists].
Qed.

(** C39. A client is closed exactly when the runtime behind its handle is ready and has
    no work left: no admitted request, no queued command or event, no plan under way and
    no output credit leased.  Then the handle is gone from the provider, the others are
    untouched and the client makes no further call.  Otherwise, also when the runtime has
    failed, the client and the provider are as before. *)
Theorem close_retires cl p rt (Hl : linked ControllerApi (cl, p) rt) :
  let '(status, cl', p') := Client.close ControllerApi cl p in
  (retired rt /\ status = StatusOk /\ cl_handle cl' = 0 /\ Find p' (cl_handle cl) = None /\
    (forall h, h <> cl_handle cl -> Find p' h = Find p h) /\
    (forall op, snd (run_client ControllerApi (cl', p') op) = (cl', p'))) \/
  (~ retired rt /\ status = FailedPrecondition "controller has unretired work" /\ cl' = cl /\ p' = p).
Proof.
  pose proof (linked_open ControllerApi cl p rt Hl) as Ho.
  destruct Hl as [(_ & Hsv & _ & c & Hf & Er & _) _]. cbn [fst snd] in Hf.
  pose proof (retirable_spec rt (sv_ok _ _ Hsv) (sv_counted _ _ Hsv)) as Hret.
  unfold Client.close. rewrite Ho. cbn [ControllerApi api_destroy api_context]. unfold Destroy.
  cbn [Z.eqb provider_address Pos.eqb negb orb]. rewrite Ho, Hf, Er.
  destruct (retirable rt); cbn [negb default].
  - left. split_and!; [by apply Hret|done..| | |].
    + by rewrite find_filter, Z.eqb_refl.
    + intros h Hh. rewrite find_filter. by rewrite (proj2 (Z.eqb_neq _ _) Hh).
    + by intros [].
  - right. split_and!; [by intros ?%Hret|vm_compute; reflexivity| |done]. by destruct cl.
Qed.

(** C1. Clients that share the provider do not see each other: in any interleaving
    of their calls, each client gets, call by call, the results of its own calls
    made directly on the runtime behind its handle (with failures read through the
    wire), and stays linked to the runtime those calls lead to. *)
Theorem clients_refine_runtimes cls p rts calls i cl rt
    (Hall : all_linked ControllerApi cls p rts)
    (Ht : Forall (fun c => m_typed (snd c)) calls)
    (Hi : cls !! i = Some cl) (Hr : rts !! i = Some rt) :
  let '(outs, (cls', p')) := run_clients ControllerApi cls p calls in
  of_client i outs = fst (run_all rt (of_client i calls)) /\
  exists cl', cls' !! i = Some cl' /\
    linked ControllerApi (cl', p') (snd (run_all rt (of_client i calls))).
Proof. exact (clients_sim ControllerApi calls cls p rts i cl rt Hall Hi Hr Ht). Qed.

(** ** A plan that samples nothing *)

(** No selected row reaches the end of its prompt. *)
Definition samples_nothing (rt : ControllerRuntime) (plan : PackedTokenPlan) : bool :=
  phase_eqb (pp_phase plan) kPrefill &&
  forallb (fun i =>
    let s := sequence_at rt ((rt_selected_slot_indices rt).[i]) in
    match checked_add_u64 (cs_model_processed_length s) ((pp_real_token_counts plan).[i]) with
    | Value committed => negb (committed =? cs_prompt_token_count s)
    | Error _ => true
    end) (seqZ 0 (cp_selected_count (rt_current rt))).

Lemma sampled_nothing rt plan samples : forall fuel i out,
  samples_nothing rt plan = true -> 0 <= i -> i + Z.of_nat fuel <= cp_selected_count (rt_current rt) ->
  sampled_results rt plan fuel i samples = Value out -> snd out = samples.
Proof.
  induction fuel as [|fuel IH]; intros i out Hn Hi Hc; cbn [sampled_results]; [by intros [= <-]|].
  pose proof Hn as [Hp Hr]%andb_true_iff. rewrite forallb_forall in Hr.
  specialize (Hr i ltac:(apply list_elem_of_In, elem_of_seqZ; lia)). cbn zeta in Hr.
  destruct (checked_add_u64 _ _) as [committed|]; [|done]. destruct (_ =? u64_max); [done|].
  rewrite Hp. cbn [negb orb]. apply negb_true_iff in Hr. rewrite Hr.
  destruct (_ <? _); [done|]. destruct (sampled_results _ _ _ _ _) as [rest|] eqn:E; cbn; [|done].
  intros [= <-]. cbn. apply (IH (i + 1) rest); [done|lia|lia|exact E].
Qed.

Lemma sampled_refused rt plan self tokens now :
  cp_plan (rt_current rt) = Some plan -> samples_nothing rt plan = true -> 1 <= vsize tokens ->
  ok (fst (Runtime.complete_current_sampled_tokens rt self tokens now)) = false /\
  snd (Runtime.complete_current_sampled_tokens rt self tokens now) = rt.
Proof.
  intros Hp Hn Ht. unfold Runtime.complete_current_sampled_tokens. rewrite Hp.
  destruct (_ =? _) eqn:Ec; cbn [negb]; [|done].
  pose proof (vsize_nonneg (pp_sequence_generations plan)) as H0. unfold pp_sequence_count in Ec.
  destruct (sampled_results _ _ _ _ _) as [[results rest]|e] eqn:E.
  - apply sampled_nothing in E; [|done|lia|lia]. cbn in E. subst rest.
    rewrite (proj2 (Z.eqb_neq (vsize tokens) 0)) by lia. done.
  - cbn. split; [|done]. by eapply sampled_fails.
Qed.

(** A prefill chunk that samples nothing cannot be completed through the
    capability: whatever tokens the client passes, none included, the call fails
    and the runtime keeps its plan, although the runtime itself completes such a
    plan with no tokens. *)
Theorem chunk_completion_refused cl p rt plan self tokens now
    (Hl : linked ControllerApi (cl, p) rt) (Hp : cp_plan (rt_current rt) = Some plan)
    (Hn : samples_nothing rt plan = true) :
  let '(out, st) := run_client ControllerApi (cl, p) (ClComplete self tokens now) in
  (exists e, out = OutStatus e /\ ok e = false) /\ linked ControllerApi st rt.
Proof.
  pose proof (client_follows ControllerApi cl p rt (ClComplete self tokens now) Hl I) as [Ho Hk _ _].
  destruct (run_client _ _ _) as [out st]. cbn [fst snd] in Ho, Hk. rewrite Ho.
  unfold run_direct in *. cbn [refusal core_op core_out run_rt] in *. pose proof (vsize_nonneg tokens).
  destruct (_ || _) eqn:Eg; [split; [by eexists|exact Hk]|].
  destruct (vsize tokens >? 256); [split; [by eexists|exact Hk]|].
  destruct (sampled_refused rt plan self tokens now Hp Hn ltac:(lia)) as [Hf Hs].
  cbn [fst snd] in *. rewrite Hs in Hk. split; [|exact Hk]. eexists. by rewrite ok_relay.
Qed.

(** ** A provider with two clients *)

Definition empty_provider : Provider := MkProvider true [].

Definition first_created := Client.Create ControllerApi empty_provider 16 sample_runtime_limits.
Definition second_created := Client.Create ControllerApi (snd first_created) 32 sample_runtime_limits.

Lemma sample_limits_ok : runtime_limits_ok sample_runtime_limits.
Proof.
  unfold runtime_limits_ok, ingress_limits_ok, mailbox_limits_ok, limits_ok, profile_typed, is_u32.
  cbn. lia.
Qed.

Definition first_client : ControllerClient := of_value (fst first_created).
Definition second_client : ControllerClient := of_value (fst second_created).

Lemma create_binds_runtime_witness :
  fst first_created = Value first_client /\ fst second_created = Value second_client /\
  exists rt, ControllerRuntime_Create sample_runtime_limits = Value rt /\
    linked ControllerApi (second_client, snd second_created) rt.
Proof.
  split; [vm_compute; reflexivity|]. assert (E : fst second_created = Value second_client)
    by (vm_compute; reflexivity). split; [done|].
  pose proof (create_binds_runtime (snd first_created) 32 sample_runtime_limits sample_limits_ok
    ltac:(done) ltac:(vm_compute; reflexivity)) as H.
  fold second_created in H. destruct second_created as [r p']. cbn [fst] in E. rewrite E in H. apply H.
Defined.

Lemma sample_linked :
  linked ControllerApi (first_client, snd second_created) sample_runtime /\
  linked ControllerApi (second_client, snd second_created) sample_runtime.
Proof.
  assert (Hs : rt_serves sample_runtime_limits sample_runtime).
  { apply serves_created; [exact sample_limits_ok|]. vm_compute. reflexivity. }
  split; (split; [|reflexivity]; split_and!; [done|exact Hs|done|]); eexists;
    (split; [vm_compute; reflexivity|split; vm_compute; reflexivity]).
Qed.

(** The second client submits a request. *)
Definition busy_call : client_op := ClAdmit 9 [4] 1 default_sampling.
Definition busy_provider : Provider :=
  snd (snd (run_client ControllerApi (second_client, snd second_created) busy_call)).
Definition busy_runtime : ControllerRuntime := snd (run_direct sample_runtime busy_call).

Lemma busy_linked : linked ControllerApi (second_client, busy_provider) busy_runtime.
Proof.
  pose proof (fo_link _ _ _ _ (client_follows ControllerApi second_client (snd second_created) sample_runtime busy_call
    (proj2 sample_linked) ltac:(vm_compute; repeat constructor; discriminate))) as H.
  exact H.
Qed.

Lemma close_retires_witness :
  (let '(status, cl, p) := Client.close ControllerApi second_client (snd second_created) in
   retired sample_runtime /\ status = StatusOk /\ cl_handle cl = 0 /\ Find p 32 = None /\
   Find p 16 = Find (snd second_created) 16) /\
  (let '(status, cl, p) := Client.close ControllerApi second_client busy_provider in
   ~ retired busy_runtime /\ ok status = false /\ p = busy_provider).
Proof.
  split.
  - pose proof (close_retires second_client (snd second_created) sample_runtime (proj2 sample_linked)) as H.
    assert (E : ok (fst (fst (Client.close ControllerApi second_client (snd second_created)))) = true)
      by (vm_compute; reflexivity).
    destruct (Client.close _ _ _) as [[status cl] p]. cbn [fst] in E.
    destruct H as [(H0 & H1 & H2 & H3 & H4 & _)|(_ & -> & _)]; [|discriminate E].
    split; [exact H0|]. split; [exact H1|]. split; [exact H2|]. split; [exact H3|by apply H4].
  - pose proof (close_retires second_client busy_provider busy_runtime busy_linked) as H.
    assert (E : ok (fst (fst (Client.close ControllerApi second_client busy_provider))) = false)
      by (vm_compute; reflexivity).
    destruct (Client.close _ _ _) as [[status cl] p]. cbn [fst] in E.
    destruct H as [(_ & -> & _)|(H0 & _ & _ & H1)]; [discriminate E|].
    split; [exact H0|]. split; [exact E|exact H1].
Defined.

(** Two requests, admitted by alternating calls; the second client prepares. *)
Definition alternating : list (nat * client_op) :=
  [(0%nat, ClAdmit 7 [5; 6; 8] 3 default_sampling); (1%nat, ClAdmit 9 [4] 1 default_sampling);
   (0%nat, ClStep 1 10 StatusOk StatusOk StatusOk); (1%nat, ClStep 2 10 StatusOk StatusOk StatusOk);
   (1%nat, ClPrepare 20); (0%nat, ClTakeEvent)].

Lemma clients_refine_runtimes_witness :
  let '(outs, (cls, p)) :=
    run_clients ControllerApi [first_client; second_client] (snd second_created) alternating in
  of_client 1 outs = fst (run_all sample_runtime (of_client 1 alternating)) /\
  (exists v, hd_error (rev (of_client 1 outs)) = Some (OutPlan (Value (Some v))) /\
     pp_sequence_generations (ppv_plan v) = [9]).
Proof.
  assert (Hall : all_linked ControllerApi [first_client; second_client] (snd second_created)
    [sample_runtime; sample_runtime]).
  { destruct sample_linked as [H1 H2]. split; [constructor; [exact H1|constructor; [exact H2|constructor]]|].
    apply (bool_decide_unpack (NoDup _)). vm_compute. reflexivity. }
  pose proof (clients_refine_runtimes [first_client; second_client] (snd second_created)
    [sample_runtime; sample_runtime] alternating 1 second_client sample_runtime Hall
    ltac:(repeat constructor; cbn; unfold is_u64; lia) eq_refl eq_refl) as H.
  destruct (run_clients _ _ _ _) as [outs [cls p]]. destruct H as [H _]. split; [exact H|]. rewrite H.
  assert (Hx : match hd_error (rev (fst (run_all sample_runtime (of_client 1 alternating)))) with
    | Some (OutPlan (Value (Some v))) => bool_decide (pp_sequence_generations (ppv_plan v) = [9])
    | _ => false end = true) by (vm_compute; reflexivity).
  destruct (hd_error _) as [[| |[[v|]|]|]|]; try done. apply bool_decide_eq_true in Hx. by exists v.
Defined.

(** The client of a runtime whose first plan, a prefill chunk, is in flight. *)
Definition flight_provider : Provider :=
  MkProvider true [(16, MkController flight_runtime (replicate 2 zero_sampling))].

Lemma flight_linked : linked ControllerApi (first_client, flight_provider) flight_runtime.
Proof.
  split; [|reflexivity]. split_and!; [done| |done|].
  - replace flight_runtime with (after flight_ops) by (vm_compute; reflexivity).
    apply serves_trace.
    + apply serves_created; [exact sample_limits_ok|]. vm_compute. reflexivity.
    + repeat constructor; cbn; unfold is_u64; lia.
  - eexists. split; [vm_compute; reflexivity|split; vm_compute; reflexivity].
Qed.

Lemma chunk_completion_refused_witness :
  ok (fst (run_rt flight_runtime (RtSampled 1 [] 30))) = true /\
  exists e, fst (run_client ControllerApi (first_client, flight_provider) (ClComplete 1 [] 30)) =
    OutStatus e /\ ok e = false.
Proof.
  split; [vm_compute; reflexivity|].
  assert (Hx : match cp_plan (rt_current flight_runtime) with
    | Some plan => samples_nothing flight_runtime plan
    | None => false end = true) by (vm_compute; reflexivity).
  destruct (cp_plan (rt_current flight_runtime)) as [plan|] eqn:Ep; [|done].
  pose proof (chunk_completion_refused first_client flight_provider flight_runtime plan 1 [] 30
    flight_linked Ep Hx) as H.
  destruct (run_client _ _ _) as [out st]. apply H.
Defined.
