(* ===== verification/KvPool.v ===== *)
(** * The KV slot pool

    Models [QwenKvSlotPool] ([include/pih/model/qwen3_kv_slot_pool.h] and
    [plugins/model-qwen3/qwen3_kv_slot_pool.cpp]): the ledger of the device blocks
    that hold the key-value cache.  A block is reserved for one sequence, owned
    while the sequence runs, reclaimed when its last use has completed, scrubbed,
    and only then handed out again.

    [kv_op] is one call; [kv_wf] is the invariant of the ledger, proved in
    [KvPoolInv]. *)

From stdpp Require Import gmap list_numbers.
From S2P Require Import Prelude Core.

(** ** Data *)

Module KvState.
Inductive QwenKvSlotLifecycle :=
  | kUninitialized | kFreeClean | kAdmissionReserved | kOwned | kReclaimPending | kFreeDirty
  | kScrubbing.
End KvState.
Import KvState(QwenKvSlotLifecycle).

#[export] Instance QwenKvSlotLifecycle_eq_dec : EqDecision QwenKvSlotLifecycle.
Proof. solve_decision. Defined.

Record QwenKvBlockHandle := MkHandle {
  bh_slot : Z;
  bh_generation : Z }.

#[export] Instance QwenKvBlockHandle_eq_dec : EqDecision QwenKvBlockHandle.
Proof. solve_decision. Defined.
#[export] Instance QwenKvBlockHandle_inhabited : Inhabited QwenKvBlockHandle := populate (MkHandle 0 0).

Record QwenKvSlotState := MkSlotState {
  ks_generation : Z;
  ks_owner_sequence_index : Z;
  ks_valid_tokens : Z;
  ks_state : QwenKvSlotLifecycle;
  ks_reserved_zero_u8 : Z;
  ks_reserved_zero_u32 : Z }.

#[export] Instance eta_QwenKvSlotState : Eta QwenKvSlotState := fun s =>
  MkSlotState (ks_generation s) (ks_owner_sequence_index s) (ks_valid_tokens s) (ks_state s)
    (ks_reserved_zero_u8 s) (ks_reserved_zero_u32 s).

Record QwenKvCompletionEvent := MkCompletionEvent {
  ce_handle : Z;
  ce_generation : Z }.

#[export] Instance QwenKvCompletionEvent_eq_dec : EqDecision QwenKvCompletionEvent.
Proof. solve_decision. Defined.
#[export] Instance QwenKvCompletionEvent_inhabited : Inhabited QwenKvCompletionEvent :=
  populate (MkCompletionEvent 0 0).

Definition no_event : QwenKvCompletionEvent := MkCompletionEvent 0 0.

Definition event_null (e : QwenKvCompletionEvent) : bool :=
  (ce_handle e =? 0) || (ce_generation e =? 0).

Record QwenKvScrubWork := MkScrubWork {
  sw_slot : QwenKvBlockHandle;
  sw_bytes : Z }.

Definition kTokensPerSlot : Z := 16.
Definition kSlotPayloadBytes : Z := 1835008.
Definition kNoOwner : Z := u32_max.
Definition kMaximumSlots : Z := 4681.
Definition sizeof_QwenKvSlotState : Z := 16.

#[export] Instance QwenKvSlotState_inhabited : Inhabited QwenKvSlotState :=
  populate (MkSlotState 0 kNoOwner 0 KvState.kUninitialized 0 0).

Record QwenKvSlotPool := MkKvPool {
  kp_slots : list QwenKvSlotState;
  kp_pending_events : list QwenKvCompletionEvent;
  kp_kv_backing_bytes : Z;
  kp_metadata_backing_bytes : Z;
  kp_clean_credits : Z;
  kp_next_sequence_generation : Z;
  kp_ready : bool;
  kp_failed : bool }.

#[export] Instance eta_QwenKvSlotPool : Eta QwenKvSlotPool := fun p =>
  MkKvPool (kp_slots p) (kp_pending_events p) (kp_kv_backing_bytes p)
    (kp_metadata_backing_bytes p) (kp_clean_credits p) (kp_next_sequence_generation p)
    (kp_ready p) (kp_failed p).

(** ** Operations *)

Definition QwenKvSlotPool_Create (slot_count kv_backing_bytes metadata_backing_bytes : Z) :
    Result QwenKvSlotPool :=
  if (slot_count =? 0) || (slot_count >? kMaximumSlots)
  then Error (InvalidArgument "Qwen KV slot count is outside profile bounds")
  else
    let? required_kv := checked_mul_u64 slot_count kSlotPayloadBytes in
    let? required_metadata := checked_mul_u64 slot_count sizeof_QwenKvSlotState in
    if (kv_backing_bytes <? required_kv)
       || (wrap64 (kv_backing_bytes - required_kv) >=? kSlotPayloadBytes)
       || (metadata_backing_bytes <? required_metadata)
    then Error (InvalidArgument "Qwen KV backing does not match slot capacity")
    else Value (MkKvPool
      (replicate (Z.to_nat slot_count) (MkSlotState 0 kNoOwner 0 KvState.kUninitialized 0 0))
      (replicate (Z.to_nat slot_count) no_event) kv_backing_bytes metadata_backing_bytes 0 1
      false false).

Definition complete_startup_sanitize (p : QwenKvSlotPool)
    (cleared_kv_bytes cleared_metadata_bytes : Z) (completion_event_succeeded : bool) :
    Status * QwenKvSlotPool :=
  if kp_failed p || kp_ready p
  then (FailedPrecondition "Qwen KV startup sanitize is not in initial state", p)
  else if negb completion_event_succeeded
          || negb (cleared_kv_bytes =? kp_kv_backing_bytes p)
          || negb (cleared_metadata_bytes =? kp_metadata_backing_bytes p)
  then (FailedPrecondition "Qwen KV startup sanitize did not cover the complete backing",
        p <| kp_failed := true |>)
  else (StatusOk,
        p <| kp_slots := map (fun _ => MkSlotState 1 kNoOwner 0 KvState.kFreeClean 0 0) (kp_slots p) |>
          <| kp_clean_credits := wrap32 (vsize (kp_slots p)) |>
          <| kp_ready := true |>).

Definition not_ready (p : QwenKvSlotPool) : bool := negb (kp_ready p) || kp_failed p.

Definition acquire_sequence_generation (p : QwenKvSlotPool) : Result Z * QwenKvSlotPool :=
  if not_ready p then (Error (FailedPrecondition "Qwen KV pool is not ready"), p)
  else if kp_next_sequence_generation p =? u32_max
  then (Error (ResourceExhausted "Qwen sequence generation identity is exhausted"),
        p <| kp_failed := true |>)
  else (Value (kp_next_sequence_generation p),
        p <| kp_next_sequence_generation := wrap32 (kp_next_sequence_generation p + 1) |>).

Definition in_state (st : QwenKvSlotLifecycle) (s : QwenKvSlotState) : bool :=
  bool_decide (ks_state s = st).

(** The selection loop: the ordinals of the first clean slots, at most [need]. *)
Fixpoint select_clean (slots : list QwenKvSlotState) (ordinal : Z) (need : nat) :
    Result (list Z) :=
  match slots, need with
  | [], _ | _, O => Value []
  | s :: rest, S need' =>
      if in_state KvState.kFreeClean s
      then
        if ks_generation s =? u32_max
        then Error (FailedPrecondition "Qwen KV generation wrap requires an epoch rebuild")
        else let? selected := select_clean rest (ordinal + 1) need' in
             Value (ordinal :: selected)
      else select_clean rest (ordinal + 1) need
  end.

Definition reserve_slot (owner : Z) (s : QwenKvSlotState) : QwenKvSlotState :=
  MkSlotState (wrap32 (ks_generation s + 1)) owner 0 KvState.kAdmissionReserved
    (ks_reserved_zero_u8 s) (ks_reserved_zero_u32 s).

(** An update of the slots of a list of ordinals. *)
Definition update_slots (f : QwenKvSlotState -> QwenKvSlotState) (ordinals : list Z)
    (slots : list QwenKvSlotState) : list QwenKvSlotState :=
  foldl (fun slots i => slots.[i <- f (slots.[i])]) slots ordinals.

Definition reserve (p : QwenKvSlotPool) (owner_sequence_index slot_count : Z) :
    Result (list QwenKvBlockHandle) * QwenKvSlotPool :=
  if not_ready p then (Error (FailedPrecondition "Qwen KV pool is not ready"), p)
  else if (owner_sequence_index =? kNoOwner) || (slot_count =? 0)
  then (Error (InvalidArgument "Qwen KV reservation identity is invalid"), p)
  else if existsb (fun s => ks_owner_sequence_index s =? owner_sequence_index) (kp_slots p)
  then (Error (FailedPrecondition "Qwen KV owner already has a live reservation or allocation"), p)
  else if slot_count >? kp_clean_credits p
  then (Error (ResourceExhausted "Qwen KV clean credits are exhausted"), p)
  else match select_clean (kp_slots p) 0 (Z.to_nat slot_count) with
  | Error e => (Error e, p)
  | Value selected =>
      if negb (vsize selected =? slot_count)
      then (Error (Internal "Qwen KV clean credit ledger is inconsistent"),
            p <| kp_failed := true |>)
      else
        let slots := update_slots (reserve_slot owner_sequence_index) selected (kp_slots p) in
        (Value (map (fun i => MkHandle i (ks_generation (slots.[i]))) selected),
         p <| kp_slots := slots |>
           <| kp_clean_credits := wrap32 (kp_clean_credits p - slot_count) |>)
  end.

Definition validate_handle (p : QwenKvSlotPool) (handle : QwenKvBlockHandle) (owner : Z)
    (expected : QwenKvSlotLifecycle) : Status :=
  if bh_slot handle >=? vsize (kp_slots p)
  then InvalidArgument "Qwen KV handle slot is out of range"
  else
    let slot := (kp_slots p).[bh_slot handle] in
    if negb (bh_generation handle =? ks_generation slot)
       || negb (ks_owner_sequence_index slot =? owner) || negb (in_state expected slot)
       || negb (ks_reserved_zero_u8 slot =? 0) || negb (ks_reserved_zero_u32 slot =? 0)
    then FailedPrecondition "Qwen KV handle is stale or in wrong state"
    else StatusOk.

(** The loop over the handles; [unique] is the set of slots seen. *)
Fixpoint check_handles (p : QwenKvSlotPool) (owner : Z) (expected : QwenKvSlotLifecycle)
    (unique : gset Z) (handles : list QwenKvBlockHandle) : Status :=
  match handles with
  | [] => StatusOk
  | h :: rest =>
      if bool_decide (bh_slot h ∈ unique)
      then InvalidArgument "Qwen KV handle is duplicated"
      else
        let valid := validate_handle p h owner expected in
        if negb (ok valid) then valid
        else check_handles p owner expected ({[bh_slot h]} ∪ unique) rest
  end.

Definition owned_in (owner : Z) (st : QwenKvSlotLifecycle) (s : QwenKvSlotState) : bool :=
  (ks_owner_sequence_index s =? owner) && in_state st s.

Definition validate_exact_owner_set (p : QwenKvSlotPool) (owner : Z)
    (handles : list QwenKvBlockHandle) (expected : QwenKvSlotLifecycle) : Status :=
  if negb (vsize handles =? count_if (owned_in owner expected) (kp_slots p))
  then FailedPrecondition "Qwen KV transaction handle set is incomplete"
  else check_handles p owner expected ∅ handles.

Definition set_slot_state (st : QwenKvSlotLifecycle) (s : QwenKvSlotState) : QwenKvSlotState :=
  s <| ks_state := st |>.

Definition publish (p : QwenKvSlotPool) (owner_sequence_index : Z)
    (handles : list QwenKvBlockHandle) : Status * QwenKvSlotPool :=
  if not_ready p || (vsize handles =? 0)
  then (FailedPrecondition "Qwen KV publish is not permitted", p)
  else
    let exact := validate_exact_owner_set p owner_sequence_index handles
                   KvState.kAdmissionReserved in
    if negb (ok exact) then (exact, p)
    else (StatusOk, p <| kp_slots := update_slots (set_slot_state KvState.kOwned)
                           (map bh_slot handles) (kp_slots p) |>).

(** A slot back in a free state: no owner, no valid tokens. *)
Definition free_slot (st : QwenKvSlotLifecycle) (s : QwenKvSlotState) : QwenKvSlotState :=
  s <| ks_owner_sequence_index := kNoOwner |> <| ks_valid_tokens := 0 |> <| ks_state := st |>.

Definition rollback (p : QwenKvSlotPool) (owner_sequence_index : Z)
    (handles : list QwenKvBlockHandle) : Status * QwenKvSlotPool :=
  if not_ready p || (vsize handles =? 0)
  then (FailedPrecondition "Qwen KV rollback is not permitted", p)
  else
    let exact := validate_exact_owner_set p owner_sequence_index handles
                   KvState.kAdmissionReserved in
    if negb (ok exact) then (exact, p)
    else (StatusOk,
          p <| kp_slots := update_slots (free_slot KvState.kFreeClean) (map bh_slot handles)
                 (kp_slots p) |>
            <| kp_clean_credits := wrap32 (kp_clean_credits p + wrap32 (vsize handles)) |>).

Definition commit_valid_tokens (p : QwenKvSlotPool) (owner_sequence_index : Z)
    (handle : QwenKvBlockHandle) (valid_tokens : Z) : Status * QwenKvSlotPool :=
  if not_ready p || (valid_tokens =? 0) || (valid_tokens >? kTokensPerSlot)
  then (FailedPrecondition "Qwen KV valid-token commit is not permitted", p)
  else
    let valid := validate_handle p handle owner_sequence_index KvState.kOwned in
    if negb (ok valid) then (valid, p)
    else
      let slot := (kp_slots p).[bh_slot handle] in
      if valid_tokens <? ks_valid_tokens slot
      then (InvalidArgument "Qwen KV valid tokens cannot move backward", p)
      else (StatusOk, p <| kp_slots :=
              (kp_slots p).[bh_slot handle <- slot <| ks_valid_tokens := valid_tokens |>] |>).

(** The tokens of the prefix that fall into the block at [index]. *)
Definition prefix_target (committed_tokens index : Z) : Z :=
  let begin := wrap64 (index * kTokensPerSlot) in
  let remaining := if committed_tokens >? begin then committed_tokens - begin else 0 in
  if remaining >? kTokensPerSlot then kTokensPerSlot else remaining.

(** The first loop of [commit_prefix]: no block moves backward. *)
Fixpoint prefix_backward (slots : list QwenKvSlotState) (committed_tokens index : Z)
    (handles : list QwenKvBlockHandle) : bool :=
  match handles with
  | [] => false
  | h :: rest =>
      (prefix_target committed_tokens index <? ks_valid_tokens (slots.[bh_slot h]))
      || prefix_backward slots committed_tokens (index + 1) rest
  end.

Fixpoint write_prefix (slots : list QwenKvSlotState) (committed_tokens index : Z)
    (handles : list QwenKvBlockHandle) : list QwenKvSlotState :=
  match handles with
  | [] => slots
  | h :: rest =>
      write_prefix (slots.[bh_slot h <- slots.[bh_slot h] <| ks_valid_tokens :=
        prefix_target committed_tokens index |>]) committed_tokens (index + 1) rest
  end.

Definition prefix_invalid (p : QwenKvSlotPool) (handles : list QwenKvBlockHandle)
    (committed_tokens : Z) : bool :=
  not_ready p || (vsize handles =? 0) || (committed_tokens =? 0)
  || (committed_tokens >? wrap64 (vsize handles * kTokensPerSlot)).

Definition commit_prefix (p : QwenKvSlotPool) (owner_sequence_index : Z)
    (handles : list QwenKvBlockHandle) (committed_tokens : Z) : Status * QwenKvSlotPool :=
  if prefix_invalid p handles committed_tokens
  then (InvalidArgument "Qwen KV committed prefix is invalid", p)
  else
    let exact := validate_exact_owner_set p owner_sequence_index handles KvState.kOwned in
    if negb (ok exact) then (exact, p)
    else if prefix_backward (kp_slots p) committed_tokens 0 handles
    then (InvalidArgument "Qwen KV committed prefix cannot move backward", p)
    else (StatusOk, p <| kp_slots := write_prefix (kp_slots p) committed_tokens 0 handles |>).

(** The loop of [project_prefix], which checks and writes a copy of the slots. *)
Fixpoint project_loop (slots : list QwenKvSlotState) (committed_tokens index : Z)
    (handles : list QwenKvBlockHandle) : Result (list QwenKvSlotState) :=
  match handles with
  | [] => Value slots
  | h :: rest =>
      let target := prefix_target committed_tokens index in
      if target <? ks_valid_tokens (slots.[bh_slot h])
      then Error (InvalidArgument "Qwen KV projected prefix cannot move backward")
      else project_loop (slots.[bh_slot h <- slots.[bh_slot h] <| ks_valid_tokens := target |>])
             committed_tokens (index + 1) rest
  end.

Definition project_prefix (p : QwenKvSlotPool) (owner_sequence_index : Z)
    (handles : list QwenKvBlockHandle) (committed_tokens : Z) : Result (list QwenKvSlotState) :=
  if prefix_invalid p handles committed_tokens
  then Error (InvalidArgument "Qwen KV projected prefix is invalid")
  else
    let exact := validate_exact_owner_set p owner_sequence_index handles KvState.kOwned in
    if negb (ok exact) then Error exact
    else project_loop (kp_slots p) committed_tokens 0 handles.

Definition release (p : QwenKvSlotPool) (owner_sequence_index : Z)
    (handles : list QwenKvBlockHandle) (last_use_event : QwenKvCompletionEvent) :
    Status * QwenKvSlotPool :=
  if not_ready p || (vsize handles =? 0) || event_null last_use_event
  then (FailedPrecondition "Qwen KV release is not permitted", p)
  else
    let exact := validate_exact_owner_set p owner_sequence_index handles KvState.kOwned in
    if negb (ok exact) then (exact, p)
    else (StatusOk,
          p <| kp_slots := update_slots (set_slot_state KvState.kReclaimPending)
                 (map bh_slot handles) (kp_slots p) |>
            <| kp_pending_events := foldl (fun es h => es.[bh_slot h <- last_use_event])
                 (kp_pending_events p) handles |>).

(** The identity check shared by the two completions. *)
Definition event_stale (p : QwenKvSlotPool) (st : QwenKvSlotLifecycle)
    (handle : QwenKvBlockHandle) (event : QwenKvCompletionEvent) : bool :=
  let slot := (kp_slots p).[bh_slot handle] in
  let pending := (kp_pending_events p).[bh_slot handle] in
  negb (in_state st slot) || negb (ks_generation slot =? bh_generation handle)
  || negb (ce_handle pending =? ce_handle event)
  || negb (ce_generation pending =? ce_generation event).

Definition finish_slot (p : QwenKvSlotPool) (i : Z) (st : QwenKvSlotLifecycle) : QwenKvSlotPool :=
  p <| kp_slots := (kp_slots p).[i <- free_slot st ((kp_slots p).[i])] |>
    <| kp_pending_events := (kp_pending_events p).[i <- no_event] |>.

Definition complete_reclaim_event (p : QwenKvSlotPool) (handle : QwenKvBlockHandle)
    (event : QwenKvCompletionEvent) (event_ready event_succeeded : bool) :
    Status * QwenKvSlotPool :=
  if not_ready p || (bh_slot handle >=? vsize (kp_slots p))
  then (FailedPrecondition "Qwen KV reclaim completion is not permitted", p)
  else if event_stale p KvState.kReclaimPending handle event
  then (FailedPrecondition "Qwen KV reclaim event is stale", p)
  else if negb event_ready then (Unavailable "Qwen KV last-use event is not complete", p)
  else if negb event_succeeded
  then (FailedPrecondition "Qwen KV last-use event failed", p <| kp_failed := true |>)
  else (StatusOk, finish_slot p (bh_slot handle) KvState.kFreeDirty).

Definition lifecycle_count (p : QwenKvSlotPool) (st : QwenKvSlotLifecycle) : Z :=
  wrap32 (count_if (in_state st) (kp_slots p)).

Definition begin_next_scrub (p : QwenKvSlotPool) (scrub_completion_event : QwenKvCompletionEvent) :
    Result QwenKvScrubWork * QwenKvSlotPool :=
  if not_ready p || event_null scrub_completion_event
  then (Error (FailedPrecondition "Qwen KV scrub cannot begin"), p)
  else if negb (lifecycle_count p KvState.kScrubbing =? 0)
  then (Error (ResourceExhausted "Qwen KV scrub lane is busy"), p)
  else match first_index (in_state KvState.kFreeDirty) (kp_slots p) 0 with
  | None => (Error (Unavailable "Qwen KV dirty ring is empty"), p)
  | Some ordinal =>
      let slot := (kp_slots p).[ordinal] in
      (Value (MkScrubWork (MkHandle ordinal (ks_generation slot)) kSlotPayloadBytes),
       p <| kp_slots := (kp_slots p).[ordinal <- slot <| ks_state := KvState.kScrubbing |>] |>
         <| kp_pending_events := (kp_pending_events p).[ordinal <- scrub_completion_event] |>)
  end.

Definition complete_scrub (p : QwenKvSlotPool) (handle : QwenKvBlockHandle)
    (event : QwenKvCompletionEvent) (cleared_bytes : Z) (event_ready event_succeeded : bool) :
    Status * QwenKvSlotPool :=
  if not_ready p || (bh_slot handle >=? vsize (kp_slots p))
  then (FailedPrecondition "Qwen KV scrub completion is not permitted", p)
  else if event_stale p KvState.kScrubbing handle event
  then (FailedPrecondition "Qwen KV scrub event is stale", p)
  else if negb event_ready then (Unavailable "Qwen KV scrub is not complete", p)
  else if negb event_succeeded || negb (cleared_bytes =? kSlotPayloadBytes)
  then (FailedPrecondition "Qwen KV scrub did not clear the complete slot",
        p <| kp_failed := true |>)
  else (StatusOk, (finish_slot p (bh_slot handle) KvState.kFreeClean)
                    <| kp_clean_credits := wrap32 (kp_clean_credits p + 1) |>).

(** ** Runs of the pool *)

Inductive kv_op :=
  | KvSanitize (cleared_kv cleared_metadata : Z) (succeeded : bool)
  | KvAcquire
  | KvReserve (owner slot_count : Z)
  | KvPublish (owner : Z) (handles : list QwenKvBlockHandle)
  | KvRollback (owner : Z) (handles : list QwenKvBlockHandle)
  | KvCommitTokens (owner : Z) (handle : QwenKvBlockHandle) (valid_tokens : Z)
  | KvCommitPrefix (owner : Z) (handles : list QwenKvBlockHandle) (committed_tokens : Z)
  | KvRelease (owner : Z) (handles : list QwenKvBlockHandle) (last_use : QwenKvCompletionEvent)
  | KvReclaim (handle : QwenKvBlockHandle) (event : QwenKvCompletionEvent) (ready succeeded : bool)
  | KvBeginScrub (event : QwenKvCompletionEvent)
  | KvCompleteScrub (handle : QwenKvBlockHandle) (event : QwenKvCompletionEvent)
                    (cleared_bytes : Z) (ready succeeded : bool).

Inductive kv_out :=
  | KvStatus (s : Status)
  | KvGeneration (r : Result Z)
  | KvHandles (r : Result (list QwenKvBlockHandle))
  | KvWork (r : Result QwenKvScrubWork).

Definition kv_status (x : Status * QwenKvSlotPool) : kv_out * QwenKvSlotPool :=
  let '(s, p) := x in (KvStatus s, p).

Definition run_kv (p : QwenKvSlotPool) (op : kv_op) : kv_out * QwenKvSlotPool :=
  match op with
  | KvSanitize kv md ok => kv_status (complete_startup_sanitize p kv md ok)
  | KvAcquire => let '(r, p) := acquire_sequence_generation p in (KvGeneration r, p)
  | KvReserve owner n => let '(r, p) := reserve p owner n in (KvHandles r, p)
  | KvPublish owner hs => kv_status (publish p owner hs)
  | KvRollback owner hs => kv_status (rollback p owner hs)
  | KvCommitTokens owner h n => kv_status (commit_valid_tokens p owner h n)
  | KvCommitPrefix owner hs n => kv_status (commit_prefix p owner hs n)
  | KvRelease owner hs e => kv_status (release p owner hs e)
  | KvReclaim h e rdy ok => kv_status (complete_reclaim_event p h e rdy ok)
  | KvBeginScrub e => let '(r, p) := begin_next_scrub p e in (KvWork r, p)
  | KvCompleteScrub h e n rdy ok => kv_status (complete_scrub p h e n rdy ok)
  end.

(** The arguments, of their types. *)
Definition handle_typed (h : QwenKvBlockHandle) : Prop := is_u32 (bh_slot h) /\ is_u32 (bh_generation h).

Definition kv_op_typed (op : kv_op) : Prop :=
  match op with
  | KvReserve owner n => is_u32 owner /\ is_u32 n
  | KvPublish owner hs | KvRollback owner hs | KvRelease owner hs _ =>
      is_u32 owner /\ Forall handle_typed hs
  | KvCommitPrefix owner hs n => is_u32 owner /\ Forall handle_typed hs /\ is_u32 n
  | KvCommitTokens owner h n => is_u32 owner /\ handle_typed h /\ 0 <= n
  | KvReclaim h _ _ _ | KvCompleteScrub h _ _ _ _ => handle_typed h
  | KvSanitize _ _ _ | KvAcquire | KvBeginScrub _ => True
  end.

#[export] Instance kv_op_Typed : Typed kv_op := kv_op_typed.

#[export] Instance kv_Machine : Machine QwenKvSlotPool kv_op kv_out := {|
  m_run := run_kv;
  m_init p := exists n kv md, 0 <= n /\ 0 <= kv /\ QwenKvSlotPool_Create n kv md = Value p |}.

(** ** The invariant *)

(** The states in which a slot belongs to a sequence. *)
Definition attached (st : QwenKvSlotLifecycle) : bool :=
  match st with
  | KvState.kAdmissionReserved | KvState.kOwned | KvState.kReclaimPending => true
  | _ => false
  end.

(** The states that wait for an event. *)
Definition awaiting (st : QwenKvSlotLifecycle) : bool :=
  match st with KvState.kReclaimPending | KvState.kScrubbing => true | _ => false end.

Record slot_ok (ready : bool) (s : QwenKvSlotState) (e : QwenKvCompletionEvent) : Prop := {
  so_zero : ks_reserved_zero_u8 s = 0 /\ ks_reserved_zero_u32 s = 0;
  so_state : ks_state s = KvState.kUninitialized <-> ready = false;
  so_generation : ready = true -> 1 <= ks_generation s <= u32_max;
  so_owner : is_u32 (ks_owner_sequence_index s) /\
    (attached (ks_state s) = true <-> ks_owner_sequence_index s <> kNoOwner);
  so_tokens : 0 <= ks_valid_tokens s <= kTokensPerSlot /\
    (ks_state s <> KvState.kOwned -> ks_state s <> KvState.kReclaimPending -> ks_valid_tokens s = 0);
  so_event : if awaiting (ks_state s) then event_null e = false else e = no_event }.

Record kv_wf (p : QwenKvSlotPool) : Prop := {
  kw_size : 1 <= vsize (kp_slots p) <= kMaximumSlots;
  kw_events : vsize (kp_pending_events p) = vsize (kp_slots p);
  kw_slots : forall i, 0 <= i < vsize (kp_slots p) ->
    slot_ok (kp_ready p) ((kp_slots p).[i]) ((kp_pending_events p).[i]);
  kw_credits : kp_clean_credits p = count_if (in_state KvState.kFreeClean) (kp_slots p);
  kw_lane : count_if (in_state KvState.kScrubbing) (kp_slots p) <= 1;
  kw_owners : forall i j, 0 <= i < vsize (kp_slots p) -> 0 <= j < vsize (kp_slots p) ->
    ks_owner_sequence_index ((kp_slots p).[i]) <> kNoOwner ->
    ks_owner_sequence_index ((kp_slots p).[i]) = ks_owner_sequence_index ((kp_slots p).[j]) ->
    ks_state ((kp_slots p).[i]) = ks_state ((kp_slots p).[j]);
  kw_next : 1 <= kp_next_sequence_generation p <= u32_max }.
