(* ===== verification/KvPoolInv.v ===== *)
(** * The ledger of the KV slot pool

    The invariant [kv_wf] holds of every pool that its operations reach.  An
    operation moves a set of slots, all of one owner, from one state to another;
    [kv_wf_moved] is the rule for such a move, [exact_set] describes the sets of
    handles that the pool accepts. *)

From stdpp Require Import gmap list_numbers.
From S2P Require Import Prelude Core KvPool.
Import KvState(QwenKvSlotLifecycle).

(** ** Updates of several slots *)

Section Updates.
Context (f : QwenKvSlotState -> QwenKvSlotState).

Lemma update_slots_cons i is_ slots :
  update_slots f (i :: is_) slots = update_slots f is_ (slots.[i <- f (slots.[i])]).
Proof. done. Qed.

Lemma update_slots_size is_ : forall slots, vsize (update_slots f is_ slots) = vsize slots.
Proof.
  induction is_ as [|i is_ IH]; intros slots; [done|].
  by rewrite update_slots_cons, IH, vsize_vput.
Qed.

Lemma update_slots_at is_ : forall slots j,
  NoDup is_ -> Forall (fun i => 0 <= i < vsize slots) is_ -> 0 <= j ->
  (update_slots f is_ slots).[j] = if bool_decide (j ∈ is_) then f (slots.[j]) else slots.[j].
Proof.
  induction is_ as [|i is_ IH]; intros slots j Hn Hr Hj; [done|].
  apply NoDup_cons in Hn as [Hi Hn]. apply Forall_cons in Hr as [Hir Hr].
  rewrite update_slots_cons, IH; [|done| |done].
  2: { eapply Forall_impl; [done|]. intros k. by rewrite vsize_vput. }
  rewrite vat_vput by done. destruct (Z.eqb_spec j i) as [->|Hji].
  - rewrite bool_decide_false, bool_decide_true by set_solver. done.
  - repeat case_bool_decide; set_solver.
Qed.

(** A count after an update that the counted property does not distinguish. *)
Lemma update_slots_count g b b' is_ : forall slots,
  NoDup is_ -> Forall (fun i => 0 <= i < vsize slots) is_ ->
  Forall (fun i => g (slots.[i]) = b /\ g (f (slots.[i])) = b') is_ ->
  count_if g (update_slots f is_ slots) =
  count_if g slots + vsize is_ * (Z.b2z b' - Z.b2z b).
Proof.
  induction is_ as [|i is_ IH]; intros slots Hn Hr Hg.
  { change (count_if g slots = count_if g slots + 0 * (Z.b2z b' - Z.b2z b)). ring. }
  apply NoDup_cons in Hn as [Hi Hn]. apply Forall_cons in Hr as [Hir Hr].
  apply Forall_cons in Hg as [[Hg Hg'] Hgs]. rewrite update_slots_cons, IH.
  - rewrite count_if_vput by done. rewrite Hg, Hg', vsize_cons. ring.
  - done.
  - eapply Forall_impl; [exact Hr|]. intros k. by rewrite vsize_vput.
  - apply Forall_forall. intros k Hk. rewrite Forall_forall in Hgs, Hr.
    specialize (Hr k Hk). rewrite vat_vput by lia. destruct (Z.eqb_spec k i) as [->|]; [done|].
    by apply Hgs.
Qed.
End Updates.

(** ** Exact sets of handles *)

Section Exact.
Context (p : QwenKvSlotPool) (owner : Z) (st : QwenKvSlotLifecycle).

Definition handle_valid (h : QwenKvBlockHandle) : Prop :=
  bh_slot h < vsize (kp_slots p) /\
  let s := (kp_slots p).[bh_slot h] in
  bh_generation h = ks_generation s /\ ks_owner_sequence_index s = owner /\ ks_state s = st /\
  ks_reserved_zero_u8 s = 0 /\ ks_reserved_zero_u32 s = 0.

Lemma validate_handle_ok h : ok (validate_handle p h owner st) = true <-> handle_valid h.
Proof.
  unfold validate_handle, handle_valid, in_state. cbn zeta.
  destruct (_ >=? _) eqn:Er; [split; [done|lia]|].
  destruct (_ || _) eqn:E; split; try done; intros H.
  - destruct H as (_ & H1 & H2 & H3 & H4 & H5).
    by rewrite H1, H2, H4, H5, !Z.eqb_refl, bool_decide_true in E by done.
  - breflect. split_and!; lia || done.
Qed.

Lemma check_handles_ok : forall handles unique,
  ok (check_handles p owner st unique handles) = true <->
  NoDup (map bh_slot handles) /\ Forall (fun h => bh_slot h ∉ unique) handles /\
  Forall handle_valid handles.
Proof.
  induction handles as [|h hs IH]; intros unique; cbn [check_handles map].
  { split; [|done]. intros _. split_and!; constructor. }
  rewrite NoDup_cons, !Forall_cons. case_bool_decide as Hu; [split; [done|tauto]|].
  destruct (ok (validate_handle p h owner st)) eqn:Ev.
  - cbn [negb]. apply validate_handle_ok in Ev. rewrite IH. setoid_rewrite not_elem_of_union.
    rewrite !Forall_forall. split.
    + intros (Hn & Hu' & Hv). split_and!; try done; [|set_solver].
      intros (h' & E & Hh)%list_elem_of_fmap. apply (Hu' h') in Hh. set_solver.
    + intros ((Hh & Hn) & (_ & Hu') & (_ & Hv)). split_and!; try done.
      intros h' Hh'. split; [|by apply Hu']. intros E%elem_of_singleton. apply Hh.
      rewrite <- E. by apply list_elem_of_fmap_2.
  - cbn [negb]. rewrite Ev. split; [done|]. intros (_ & _ & Hv & _).
    apply validate_handle_ok in Hv. congruence.
Qed.

(** The slots that a property selects. *)
Definition slots_of (g : QwenKvSlotState -> bool) : list Z :=
  filter (fun i => g ((kp_slots p).[i]) = true) (seqZ 0 (vsize (kp_slots p))).

Lemma slots_of_elem g i :
  i ∈ slots_of g <-> 0 <= i < vsize (kp_slots p) /\ g ((kp_slots p).[i]) = true.
Proof. unfold slots_of. rewrite list_elem_of_filter, elem_of_seqZ. intuition lia. Qed.
End Exact.

Lemma count_if_filter {A} `{Inhabited A} (g : A -> bool) (l : list A) :
  count_if g l = vsize (filter (fun i => g (l.[i]) = true) (seqZ 0 (vsize l))).
Proof.
  induction l as [|x l IH] using rev_ind; [done|].
  assert (E : count_if g (l ++ [x]) = count_if g l + Z.b2z (g x)).
  { clear IH. induction l as [|y l IH]; cbn; [lia|]. rewrite IH. lia. }
  rewrite E, IH, vsize_app. change (vsize [x]) with 1. pose proof (vsize_nonneg l).
  rewrite (seqZ_app 0 (vsize l) 1) by lia. rewrite filter_app, vsize_app. f_equal.
  - f_equal. apply filter_ext_in. intros i Hi%elem_of_seqZ. unfold vat.
    by rewrite lookup_total_app_l by (unfold vsize in Hi; lia).
  - rewrite Z.add_0_l. change (seqZ (vsize l) 1) with [0 + vsize l]. rewrite Z.add_0_l.
    assert (Ex : (l ++ [x]).[vsize l] = x).
    { unfold vat, vsize. rewrite Nat2Z.id. by rewrite lookup_total_app_r, Nat.sub_diag by lia. }
    rewrite filter_cons, filter_nil, Ex. by destruct (g x); case_decide.
Qed.

(** An exact set: distinct valid handles, as many as the owner has slots in the
    state, hence all of them. *)
Record exact_set (p : QwenKvSlotPool) (owner : Z) (handles : list QwenKvBlockHandle)
    (st : QwenKvSlotLifecycle) : Prop := {
  ex_nodup : NoDup (map bh_slot handles);
  ex_valid : Forall (handle_valid p owner st) handles;
  ex_count : vsize handles = count_if (owned_in owner st) (kp_slots p) }.

Lemma validate_exact_ok p owner handles st :
  ok (validate_exact_owner_set p owner handles st) = true <-> exact_set p owner handles st.
Proof.
  unfold validate_exact_owner_set. destruct (_ =? _) eqn:E; cbn [negb].
  - rewrite check_handles_ok. split.
    + intros (Hn & _ & Hv). split; [done..|lia].
    + intros []. split_and!; [done| |done]. apply Forall_forall. set_solver.
  - split; [done|]. intros []. lia.
Qed.

Lemma owned_in_true owner st s :
  owned_in owner st s = true <-> ks_owner_sequence_index s = owner /\ ks_state s = st.
Proof. unfold owned_in, in_state. rewrite andb_true_iff, Z.eqb_eq, bool_decide_eq_true. done. Qed.

Lemma exact_range p owner handles st :
  exact_set p owner handles st -> Forall handle_typed handles ->
  Forall (fun i => 0 <= i < vsize (kp_slots p)) (map bh_slot handles).
Proof.
  intros [_ Hv _] Ht. apply Forall_map, Forall_forall. intros h Hh. cbn.
  rewrite Forall_forall in Hv, Ht. destruct (Hv h Hh) as [Hr _], (Ht h Hh) as [[H0 _] _]. lia.
Qed.

Lemma exact_elem p owner handles st i :
  exact_set p owner handles st -> Forall handle_typed handles ->
  i ∈ map bh_slot handles <->
  0 <= i < vsize (kp_slots p) /\ ks_owner_sequence_index ((kp_slots p).[i]) = owner /\
  ks_state ((kp_slots p).[i]) = st.
Proof.
  intros He Ht. pose proof (exact_range _ _ _ _ He Ht) as Hr. destruct He as [Hn Hv Hc].
  assert (Hsub : map bh_slot handles ⊆ slots_of p (owned_in owner st)).
  { intros j Hj. rewrite slots_of_elem. rewrite Forall_forall in Hr. split; [by apply Hr|].
    apply list_elem_of_fmap in Hj as (h & -> & Hh). rewrite Forall_forall in Hv.
    apply owned_in_true. destruct (Hv h Hh) as (_ & _ & ? & ? & _). done. }
  assert (Hperm : map bh_slot handles ≡ₚ slots_of p (owned_in owner st)).
  { apply submseteq_length_Permutation.
    - by apply NoDup_submseteq.
    - rewrite count_if_filter in Hc. unfold vsize in Hc. rewrite length_map. unfold slots_of, vsize. lia. }
  rewrite Hperm, slots_of_elem, owned_in_true. tauto.
Qed.

(** ** Preservation *)

(** A move of the slots in [is_], all of them to one state and one owner. *)
Lemma kv_wf_moved p p' (is_ : list Z) st' o' :
  kv_wf p -> kp_ready p' = kp_ready p -> kp_next_sequence_generation p' = kp_next_sequence_generation p ->
  vsize (kp_slots p') = vsize (kp_slots p) ->
  vsize (kp_pending_events p') = vsize (kp_pending_events p) ->
  (forall j, 0 <= j < vsize (kp_slots p) -> j ∉ is_ ->
     (kp_slots p').[j] = (kp_slots p).[j] /\ (kp_pending_events p').[j] = (kp_pending_events p).[j]) ->
  (forall i, 0 <= i < vsize (kp_slots p) -> i ∈ is_ ->
     slot_ok (kp_ready p) ((kp_slots p').[i]) ((kp_pending_events p').[i]) /\
     ks_state ((kp_slots p').[i]) = st' /\ ks_owner_sequence_index ((kp_slots p').[i]) = o') ->
  (forall j, 0 <= j < vsize (kp_slots p) -> j ∉ is_ -> o' <> kNoOwner ->
     ks_owner_sequence_index ((kp_slots p).[j]) = o' -> ks_state ((kp_slots p).[j]) = st') ->
  kp_clean_credits p' = count_if (in_state KvState.kFreeClean) (kp_slots p') ->
  count_if (in_state KvState.kScrubbing) (kp_slots p') <= 1 ->
  kv_wf p'.
Proof.
  intros [Hsz Hev Hsl _ _ Ho Hnx] Hr Hnx' Hs He Hout Hin Hsep Hc Hlane.
  split; rewrite ?Hs, ?Hr, ?Hnx'; [done|lia| |done|done| |done].
  - intros i Hi. destruct (decide (i ∈ is_)) as [Hm|Hm]; [by apply Hin|].
    destruct (Hout i Hi Hm) as [-> ->]. by apply Hsl.
  - intros i j Hi Hj. destruct (decide (i ∈ is_)) as [Hmi|Hmi], (decide (j ∈ is_)) as [Hmj|Hmj].
    + destruct (Hin i Hi Hmi) as (_ & -> & _), (Hin j Hj Hmj) as (_ & -> & _). done.
    + destruct (Hin i Hi Hmi) as (_ & -> & ->), (Hout j Hj Hmj) as [-> _].
      intros Hne E. symmetry. by apply Hsep.
    + destruct (Hin j Hj Hmj) as (_ & -> & ->), (Hout i Hi Hmi) as [-> _].
      intros Hne E. apply Hsep; [done|done|congruence|done].
    + destruct (Hout i Hi Hmi) as [-> _], (Hout j Hj Hmj) as [-> _]. by apply Ho.
Qed.

(** The same, for an update of the slots of an exact set. *)
Lemma kv_wf_group p p' f owner handles st st' o' :
  kv_wf p -> exact_set p owner handles st -> Forall handle_typed handles -> handles <> [] ->
  kp_ready p' = kp_ready p -> kp_next_sequence_generation p' = kp_next_sequence_generation p ->
  kp_slots p' = update_slots f (map bh_slot handles) (kp_slots p) ->
  vsize (kp_pending_events p') = vsize (kp_pending_events p) ->
  (forall j, 0 <= j < vsize (kp_slots p) -> j ∉ map bh_slot handles ->
     (kp_pending_events p').[j] = (kp_pending_events p).[j]) ->
  (forall i, 0 <= i < vsize (kp_slots p) -> i ∈ map bh_slot handles ->
     slot_ok (kp_ready p) (f ((kp_slots p).[i])) ((kp_pending_events p').[i])) ->
  (forall s, ks_state s = st -> ks_owner_sequence_index s = owner ->
     ks_state (f s) = st' /\ ks_owner_sequence_index (f s) = o') ->
  o' = owner \/ o' = kNoOwner ->
  kp_clean_credits p' = kp_clean_credits p + vsize handles *
    (Z.b2z (bool_decide (st' = KvState.kFreeClean)) - Z.b2z (bool_decide (st = KvState.kFreeClean))) ->
  st' <> KvState.kScrubbing ->
  kv_wf p'.
Proof.
  intros Hw He Ht Hnil Hr Hnx Hs Hev Hout Hin Hf Ho Hc Hns.
  pose proof (exact_range _ _ _ _ He Ht) as Hrange. pose proof (ex_nodup _ _ _ _ He) as Hn.
  pose proof (fun i => exact_elem p owner handles st i He Ht) as Hel.
  assert (Hat : forall j, 0 <= j -> (kp_slots p').[j] =
    if bool_decide (j ∈ map bh_slot handles) then f ((kp_slots p).[j]) else (kp_slots p).[j])
    by (intros j Hj; rewrite Hs; by apply update_slots_at).
  assert (Hcount : forall x, count_if (in_state x) (kp_slots p') = count_if (in_state x) (kp_slots p)
    + vsize handles * (Z.b2z (bool_decide (st' = x)) - Z.b2z (bool_decide (st = x)))).
  { intros x. rewrite Hs. rewrite (update_slots_count f (in_state x) (bool_decide (st = x))
      (bool_decide (st' = x))); [|done|done|].
    - unfold vsize. by rewrite length_map.
    - apply Forall_forall. intros i Hi. apply Hel in Hi as (_ & Ho' & Hst).
      destruct (Hf ((kp_slots p).[i]) Hst Ho') as [E _]. unfold in_state. by rewrite E, Hst. }
  pose proof (vsize_nonneg handles) as H0.
  apply (kv_wf_moved p p' (map bh_slot handles) st' o'); try done.
  - by rewrite Hs, update_slots_size.
  - intros j Hj Hm. rewrite Hat, bool_decide_false by (done || lia). split; [done|by apply Hout].
  - intros i Hi Hm. rewrite Hat, bool_decide_true by (done || lia). apply Hel in Hm as Hm'.
    split; [by apply Hin|]. apply Hf; apply Hm'.
  - intros j Hj Hm Hne Eo. destruct Ho as [->| ->]; [|done]. exfalso. apply Hm, Hel.
    split; [lia|]. split; [done|]. destruct handles as [|h hs]; [by destruct Hnil|].
    assert (Hh : bh_slot h ∈ map bh_slot (h :: hs)) by (by left).
    apply Hel in Hh as (Hhr & Hho & <-). apply (kw_owners _ Hw); [done|lia|congruence|congruence].
  - rewrite Hcount, Hc, (kw_credits _ Hw). done.
  - rewrite Hcount. pose proof (kw_lane _ Hw). rewrite (bool_decide_false (st' = _)) by done.
    destruct (bool_decide (st = KvState.kScrubbing)); cbn; lia.
Qed.

Lemma not_ready_false p : not_ready p = false -> kp_ready p = true /\ kp_failed p = false.
Proof. unfold not_ready. rewrite orb_false_iff, negb_false_iff. done. Qed.

Lemma kv_wf_failed p : kv_wf p -> kv_wf (p <| kp_failed := true |>).
Proof. by intros []. Qed.

(** The slots in a state change, with the event that goes with the new state. *)
Ltac slot_solve :=
  let Hok := fresh in intros Hok; destruct Hok as [? ? ? [? ?] [? ?] ?]; intros;
  repeat match goal with H : ks_state _ = _ |- _ => rewrite H in * end;
  split; cbn in *; try done; intuition (try done; try lia; try congruence).

Lemma slot_publish s e : slot_ok true s e -> ks_state s = KvState.kAdmissionReserved ->
  slot_ok true (set_slot_state KvState.kOwned s) e.
Proof. slot_solve. Qed.

Lemma slot_rollback s e : slot_ok true s e -> ks_state s = KvState.kAdmissionReserved ->
  slot_ok true (free_slot KvState.kFreeClean s) e.
Proof. slot_solve. Qed.

Lemma slot_release s e e' : slot_ok true s e -> ks_state s = KvState.kOwned -> event_null e' = false ->
  slot_ok true (set_slot_state KvState.kReclaimPending s) e'.
Proof. slot_solve. Qed.

Lemma slot_free s e st : slot_ok true s e -> st = KvState.kFreeDirty \/ st = KvState.kFreeClean ->
  slot_ok true (free_slot st s) no_event.
Proof. intros Hok [-> | ->]; revert Hok; slot_solve. Qed.

Lemma slot_scrub s e e' : slot_ok true s e -> ks_state s = KvState.kFreeDirty -> event_null e' = false ->
  slot_ok true (set_slot_state KvState.kScrubbing s) e'.
Proof. slot_solve. Qed.

Lemma slot_tokens s e n : slot_ok true s e -> ks_state s = KvState.kOwned -> 0 <= n <= kTokensPerSlot ->
  slot_ok true (s <| ks_valid_tokens := n |>) e.
Proof. intros [] Hs Hn. by split. Qed.

Lemma slot_reserve s e owner : slot_ok true s e -> ks_state s = KvState.kFreeClean ->
  is_u32 owner -> owner <> kNoOwner -> ks_generation s <> u32_max ->
  slot_ok true (reserve_slot owner s) e.
Proof.
  intros Hok Hs Ho Hn Hg. unfold reserve_slot. destruct Hok as [H1 H2 H3 [H4 H5] [H6 H7] H8].
  rewrite Hs in *. specialize (H3 eq_refl).
  split; cbn in *; [done|done| |done| |done].
  - intros _. rewrite wrap32_id by (unfold is_u32; lia). lia.
  - unfold kTokensPerSlot. split; [lia|done].
Qed.

(** The pending events of a set of slots. *)
Lemma set_events_spec (e : QwenKvCompletionEvent) handles : forall es,
  NoDup (map bh_slot handles) -> Forall (fun i => 0 <= i < vsize es) (map bh_slot handles) ->
  let es' := foldl (fun es h => es.[bh_slot h <- e]) es handles in
  vsize es' = vsize es /\
  forall j, 0 <= j -> es'.[j] = if bool_decide (j ∈ map bh_slot handles) then e else es.[j].
Proof.
  induction handles as [|h hs IH]; intros es Hn Hr; [by split|]. cbn [map foldl] in *.
  apply NoDup_cons in Hn as [Hh Hn]. apply Forall_cons in Hr as [Hhr Hr].
  destruct (IH (es.[bh_slot h <- e]) Hn) as [Hs Hat].
  { eapply Forall_impl; [exact Hr|]. intros k. by rewrite vsize_vput. }
  split; [by rewrite Hs, vsize_vput|]. intros j Hj. rewrite Hat, vat_vput by done.
  destruct (Z.eqb_spec j (bh_slot h)) as [->|Hne].
  - rewrite bool_decide_false, bool_decide_true by set_solver. done.
  - repeat case_bool_decide; set_solver.
Qed.

Lemma count_attached_bound p owner st handles :
  exact_set p owner handles st -> vsize handles + (if decide (st = KvState.kFreeClean) then 0
    else count_if (in_state KvState.kFreeClean) (kp_slots p)) <= vsize (kp_slots p).
Proof.
  intros [_ _ Hc]. rewrite Hc. clear Hc. induction (kp_slots p) as [|s l IH]; cbn [count_if].
  { case_decide; done. }
  rewrite vsize_cons. assert (Z.b2z (owned_in owner st s) <= 1) by (by destruct (owned_in _ _ _)).
  case_decide as Hst; [lia|].
  assert (Z.b2z (owned_in owner st s) + Z.b2z (in_state KvState.kFreeClean s) <= 1); [|lia].
  unfold owned_in, in_state. destruct (_ =? _); repeat case_bool_decide; cbn; try done; congruence.
Qed.

Lemma publish_wf p owner handles :
  kv_wf p -> Forall handle_typed handles -> kv_wf (snd (publish p owner handles)).
Proof.
  intros Hw Ht. unfold publish. destruct (_ || _) eqn:Eg; [done|]. breflect.
  destruct (ok _) eqn:Ee; cbn [negb]; [|done]. apply validate_exact_ok in Ee. cbn [snd].
  apply not_ready_false in H as [Hr _]. apply nonempty_vsize in H0.
  eapply (kv_wf_group p _ (set_slot_state KvState.kOwned) owner handles KvState.kAdmissionReserved
    KvState.kOwned owner); try done.
  - intros i Hi Hm. apply (exact_elem p owner _ _ i Ee Ht) in Hm as (_ & _ & Hst). rewrite Hr.
    apply slot_publish; [|done]. rewrite <- Hr. by apply (kw_slots _ Hw).
  - by left.
  - rewrite !bool_decide_false by done. cbn. lia.
Qed.

Lemma rollback_wf p owner handles :
  kv_wf p -> Forall handle_typed handles -> kv_wf (snd (rollback p owner handles)).
Proof.
  intros Hw Ht. unfold rollback. destruct (_ || _) eqn:Eg; [done|]. breflect.
  destruct (ok _) eqn:Ee; cbn [negb]; [|done]. apply validate_exact_ok in Ee. cbn [snd].
  apply not_ready_false in H as [Hr _]. apply nonempty_vsize in H0.
  eapply (kv_wf_group p _ (free_slot KvState.kFreeClean) owner handles KvState.kAdmissionReserved
    KvState.kFreeClean kNoOwner); try done.
  - intros i Hi Hm. apply (exact_elem p owner _ _ i Ee Ht) in Hm as (_ & _ & Hst). rewrite Hr.
    apply slot_rollback; [|done]. rewrite <- Hr. by apply (kw_slots _ Hw).
  - by right.
  - rewrite bool_decide_true, bool_decide_false by done. cbn -[wrap32 Z.mul].
    pose proof (count_attached_bound _ _ _ _ Ee) as Hb. rewrite decide_False in Hb by done.
    pose proof (kw_size _ Hw) as Hsz. unfold kMaximumSlots in Hsz. rewrite (kw_credits _ Hw).
    pose proof (count_if_bounds (in_state KvState.kFreeClean) (kp_slots p)). pose proof (vsize_nonneg handles).
    rewrite (wrap32_id (vsize handles)), wrap32_id by (unfold is_u32; lia). lia.
Qed.

Lemma release_wf p owner handles e :
  kv_wf p -> Forall handle_typed handles -> kv_wf (snd (release p owner handles e)).
Proof.
  intros Hw Ht. unfold release. destruct (_ || _) eqn:Eg; [done|]. breflect.
  destruct (ok _) eqn:Ee; cbn [negb]; [|done]. apply validate_exact_ok in Ee. cbn [snd].
  apply not_ready_false in H as [Hr _]. apply nonempty_vsize in H1.
  destruct (set_events_spec e handles (kp_pending_events p)) as [Hes Hat].
  { apply Ee. } { rewrite (kw_events _ Hw). by eapply exact_range. }
  eapply (kv_wf_group p _ (set_slot_state KvState.kReclaimPending) owner handles KvState.kOwned
    KvState.kReclaimPending owner); try done.
  - intros j Hj Hm. cbn. rewrite Hat, bool_decide_false by (done || lia). done.
  - intros i Hi Hm. cbn. rewrite Hat, bool_decide_true by (done || lia).
    apply (exact_elem p owner _ _ i Ee Ht) in Hm as (_ & _ & Hst). rewrite Hr.
    apply (slot_release _ ((kp_pending_events p).[i])); [|done|done]. rewrite <- Hr. by apply (kw_slots _ Hw).
  - by left.
  - rewrite !bool_decide_false by done. cbn. lia.
Qed.

(** *** [reserve] *)

Definition clean_at (slots : list QwenKvSlotState) (i : Z) : Prop :=
  ks_state (slots.[i]) = KvState.kFreeClean /\ ks_generation (slots.[i]) <> u32_max.

Lemma select_clean_Value slots : forall o n sel,
  select_clean slots o n = Value sel ->
  NoDup sel /\ Forall (fun i => o <= i < o + vsize slots /\ clean_at slots (i - o)) sel /\
  vsize sel = Z.min (Z.of_nat n) (count_if (in_state KvState.kFreeClean) slots).
Proof.
  induction slots as [|s slots IH]; intros o n sel; cbn [select_clean count_if].
  { intros [= <-]. split_and!; [constructor..|]. change (vsize []) with 0. lia. }
  pose proof (count_if_bounds (in_state KvState.kFreeClean) slots) as Hb.
  assert (Hlift : forall sel, Forall (fun i => o + 1 <= i < o + 1 + vsize slots /\
    clean_at slots (i - (o + 1))) sel -> Forall (fun i => o <= i < o + vsize (s :: slots) /\
    clean_at (s :: slots) (i - o)) sel).
  { intros l Hl. eapply Forall_impl; [exact Hl|]. intros i [Hi Hc]. rewrite vsize_cons.
    split; [lia|]. unfold clean_at in *. rewrite vat_cons by lia. by replace (i - o - 1) with (i - (o + 1)) by lia. }
  destruct n as [|n].
  { intros [= <-]. split_and!; [constructor..|]. change (vsize []) with 0.
    destruct (in_state _ s); cbn; lia. }
  destruct (in_state KvState.kFreeClean s) eqn:Es.
  - destruct (_ =? u32_max) eqn:Eg; [done|].
    destruct (select_clean slots (o + 1) n) as [l|] eqn:E; cbn; [|done]. intros [= <-].
    destruct (IH _ _ _ E) as (Hn & Hf & Hc). split_and!.
    + constructor; [|done]. intros Ho. rewrite Forall_forall in Hf. destruct (Hf o Ho). lia.
    + constructor; [|by apply Hlift]. rewrite vsize_cons. pose proof (vsize_nonneg slots).
      split; [lia|]. rewrite Z.sub_diag. apply bool_decide_eq_true in Es.
      split; [exact Es|]. change ((s :: slots).[0]) with s. lia.
    + rewrite vsize_cons. cbn [Z.b2z]. lia.
  - intros E. destruct (IH _ _ _ E) as (Hn & Hf & Hc). split_and!; [done|by apply Hlift|]. cbn. lia.
Qed.

(** What a reservation returns: distinct handles of clean slots, now reserved for
    the owner, and all that the owner has. *)
Record reserved (p : QwenKvSlotPool) (owner n : Z) (handles : list QwenKvBlockHandle)
    (p' : QwenKvSlotPool) : Prop := {
  rs_ready : not_ready p = false;
  rs_owner : owner <> kNoOwner;
  rs_exact : exact_set p' owner handles KvState.kAdmissionReserved;
  rs_typed : Forall handle_typed handles;
  rs_count : vsize handles = n /\ 1 <= n <= kp_clean_credits p;
  rs_clean : Forall (fun h => clean_at (kp_slots p) (bh_slot h) /\
    bh_generation h = ks_generation ((kp_slots p).[bh_slot h]) + 1) handles;
  rs_vacant : forall i, 0 <= i < vsize (kp_slots p) ->
    ks_owner_sequence_index ((kp_slots p).[i]) <> owner;
  rs_pool : p' = p <| kp_slots := update_slots (reserve_slot owner) (map bh_slot handles) (kp_slots p) |>
                   <| kp_clean_credits := kp_clean_credits p - n |> }.

Lemma reserve_spec p owner n handles p' :
  kv_wf p -> is_u32 owner -> is_u32 n -> reserve p owner n = (Value handles, p') ->
  reserved p owner n handles p'.
Proof.
  intros Hw Ho Hn. unfold reserve. destruct (not_ready p) eqn:Er; [done|].
  destruct (_ || _) eqn:Eg; [done|]. breflect. destruct (existsb _ _) eqn:Ex; [done|].
  destruct (_ >? _) eqn:Ec; [done|].
  destruct (select_clean _ _ _) as [sel|] eqn:Es; [|done]. destruct (_ =? _) eqn:Ev; [|done]. cbn [negb].
  apply select_clean_Value in Es as (Hnd & Hf & Hc). intros [= <- <-].
  assert (Hcl : Forall (fun i => 0 <= i < vsize (kp_slots p) /\ clean_at (kp_slots p) i) sel).
  { eapply Forall_impl; [exact Hf|]. intros i. by rewrite Z.add_0_l, Z.sub_0_r. }
  clear Hf. set (slots := update_slots _ _ _).
  assert (Hsz : vsize slots = vsize (kp_slots p)) by apply update_slots_size.
  assert (Hr : Forall (fun i => 0 <= i < vsize (kp_slots p)) sel)
    by (eapply Forall_impl; [exact Hcl|]; intros i [Hi _]; exact Hi).
  assert (Hat : forall j, 0 <= j -> slots.[j] = if bool_decide (j ∈ sel)
    then reserve_slot owner ((kp_slots p).[j]) else (kp_slots p).[j])
    by (intros j Hj; by apply update_slots_at).
  assert (Hvac : forall i, 0 <= i < vsize (kp_slots p) ->
    ks_owner_sequence_index ((kp_slots p).[i]) <> owner).
  { intros i Hi E. apply not_true_iff_false in Ex. apply Ex, existsb_exists.
    exists ((kp_slots p).[i]). split; [by apply vat_In|]. lia. }
  assert (Hmap : map bh_slot (map (fun i => MkHandle i (ks_generation (slots.[i]))) sel) = sel)
    by (rewrite map_map; apply map_id).
  assert (Hg : forall i, i ∈ sel -> slots.[i] = reserve_slot owner ((kp_slots p).[i]) /\
    0 <= i < vsize (kp_slots p) /\ clean_at (kp_slots p) i /\
    wrap32 (ks_generation ((kp_slots p).[i]) + 1) = ks_generation ((kp_slots p).[i]) + 1 /\
    1 <= ks_generation ((kp_slots p).[i]) < u32_max).
  { intros i Hi. rewrite Forall_forall in Hcl. destruct (Hcl i Hi) as [Hir Hci].
    rewrite Hat, bool_decide_true by (done || lia). split_and!; [done|lia..|done| | |].
    all: destruct (kw_slots _ Hw i Hir) as [_ _ Hgen _ _ _];
      specialize (Hgen (proj1 (not_ready_false _ Er))); destruct Hci.
    all: rewrite ?wrap32_id; unfold is_u32; lia. }
  split.
  - done.
  - done.
  - split; [by rewrite Hmap| |].
    + apply Forall_map, Forall_forall. intros i Hi. cbn. destruct (Hg i Hi) as (E & Hir & Hci & _).
      unfold handle_valid. cbn. rewrite Hsz. split; [lia|]. rewrite E. cbn. destruct (so_zero _ _ _ (kw_slots _ Hw i Hir)). by split_and!.
    + unfold slots. cbn [kp_slots upd]. rewrite (update_slots_count _ _ false true); [|done|done|].
      * rewrite vsize_map. assert (count_if (owned_in owner KvState.kAdmissionReserved) (kp_slots p) = 0).
        { apply count_if_0, Forall_forall. intros x (i & Hi & <-)%list_elem_of_In%In_vat.
          apply Hvac in Hi. unfold owned_in. rewrite (proj2 (Z.eqb_neq _ _) Hi). done. }
        cbn [Z.b2z]. lia.
      * apply Forall_forall. intros i Hi. destruct (Hg i Hi) as (_ & Hir & _). apply Hvac in Hir.
        unfold owned_in. rewrite (proj2 (Z.eqb_neq _ _) Hir). split; [done|]. cbn. by rewrite Z.eqb_refl.
  - apply Forall_map, Forall_forall. intros i Hi. destruct (Hg i Hi) as (E & Hir & Hci & Hw1 & Hgg).
    pose proof (kw_size _ Hw). unfold kMaximumSlots in *.
    split; cbn; [unfold is_u32; lia|]. rewrite E. cbn. apply wrap32_range.
  - rewrite vsize_map. unfold is_u32 in Hn. lia.
  - apply Forall_map, Forall_forall. intros i Hi. destruct (Hg i Hi) as (E & Hir & Hci & Hw1 & Hgg). cbn.
    split; [done|]. by rewrite E.
  - done.
  - rewrite Hmap. fold slots. rewrite wrap32_id; [done|]. pose proof (kw_size _ Hw). unfold kMaximumSlots in *.
    pose proof (count_if_bounds (in_state KvState.kFreeClean) (kp_slots p)).
    rewrite <- (kw_credits _ Hw) in *. unfold is_u32 in *. lia.
Qed.

(** With the ledger in order, a reservation that the credits cover finds its
    slots. *)
Lemma reserve_ledger p owner n :
  kv_wf p -> is_u32 n ->
  reserve p owner n = (Error (Internal "Qwen KV clean credit ledger is inconsistent"),
    p <| kp_failed := true |>) -> False.
Proof.
  intros Hw Hn. unfold reserve. destruct (not_ready p); [done|]. destruct (_ || _); [done|].
  destruct (existsb _ _); [done|]. destruct (_ >? _) eqn:Ec; [done|].
  destruct (select_clean _ _ _) as [sel|e] eqn:Es.
  - apply select_clean_Value in Es as (_ & _ & Hc). rewrite <- (kw_credits _ Hw) in Hc.
    destruct (_ =? _) eqn:Ev; [done|]. unfold is_u32 in Hn. cbn in *. lia.
  - intros [= -> Hp]. revert Es. generalize 0 (Z.to_nat n).
    induction (kp_slots p) as [|s l IH]; intros o [|m]; cbn; try done.
    destruct (in_state _ _); [|apply IH]. destruct (_ =? u32_max); [done|].
    destruct (select_clean l _ _) eqn:E; cbn; [done|]. intros [= ->]. by eapply IH.
Qed.

Lemma reserved_wf p owner n handles p' :
  kv_wf p -> is_u32 owner -> reserved p owner n handles p' -> kv_wf p'.
Proof.
  intros Hw Ho [Hr Hne He Ht [Hn Hn'] Hc Hv ->].
  pose proof (exact_range _ _ _ _ He Ht) as Hrange. pose proof (ex_nodup _ _ _ _ He) as Hnd.
  cbn in Hrange. rewrite update_slots_size in Hrange.
  apply not_ready_false in Hr as [Hr _]. rewrite Forall_forall in Hc.
  assert (Hcl : forall i, i ∈ map bh_slot handles -> clean_at (kp_slots p) i).
  { intros i (h & -> & Hh)%list_elem_of_fmap. by apply Hc. }
  apply (kv_wf_moved p _ (map bh_slot handles) KvState.kAdmissionReserved owner); try done; cbn.
  - by rewrite update_slots_size.
  - intros j Hj Hm. split; [|done]. rewrite update_slots_at, bool_decide_false by (done || lia). done.
  - intros i Hi Hm. rewrite update_slots_at, bool_decide_true by (done || lia). destruct (Hcl i Hm) as [Hs Hg].
    split; [|done]. rewrite Hr. apply slot_reserve; try done. rewrite <- Hr. by apply (kw_slots _ Hw).
  - intros j Hj _ _ E. by apply Hv in E.
  - rewrite (update_slots_count _ _ true false); [|done|done|].
    + rewrite vsize_map, (kw_credits _ Hw). cbn [Z.b2z]. lia.
    + apply Forall_forall. intros i Hi. destruct (Hcl i Hi) as [Hs _]. unfold in_state.
      split; [by rewrite bool_decide_true|done].
  - rewrite (update_slots_count _ _ false false); [|done|done|].
    + pose proof (kw_lane _ Hw). cbn [Z.b2z]. lia.
    + apply Forall_forall. intros i Hi. destruct (Hcl i Hi) as [Hs _]. unfold in_state. cbn.
      by rewrite Hs, !bool_decide_false.
Qed.

Lemma reserve_error p owner n e p' :
  reserve p owner n = (Error e, p') -> p' = p \/ p' = p <| kp_failed := true |>.
Proof.
  unfold reserve. repeat (case_match; try done); intros [= _ <-]; auto.
Qed.

Lemma reserve_wf p owner n :
  kv_wf p -> is_u32 owner -> is_u32 n -> kv_wf (snd (reserve p owner n)).
Proof.
  intros Hw Ho Hn. destruct (reserve p owner n) as [[hs|e] p'] eqn:E.
  - apply (reserved_wf p owner n hs p' Hw Ho). by apply reserve_spec.
  - apply reserve_error in E as [-> | ->]; [done|by apply kv_wf_failed].
Qed.

(** *** Operations on one slot *)

(** Counts of one slot, whose state is known. *)
Ltac slot_counts Hs :=
  unfold in_state; rewrite Hs; cbn [ks_state free_slot set_slot_state upd eta];
  repeat first [rewrite bool_decide_true by done | rewrite bool_decide_false by done]; cbn [Z.b2z].

Lemma kv_wf_one p i s' e' credits :
  kv_wf p -> kp_ready p = true -> 0 <= i < vsize (kp_slots p) -> slot_ok true s' e' ->
  (ks_owner_sequence_index s' = kNoOwner \/
   ks_owner_sequence_index s' = ks_owner_sequence_index ((kp_slots p).[i]) /\
   ks_state s' = ks_state ((kp_slots p).[i])) ->
  credits = kp_clean_credits p - Z.b2z (in_state KvState.kFreeClean ((kp_slots p).[i]))
            + Z.b2z (in_state KvState.kFreeClean s') ->
  (ks_state s' = KvState.kScrubbing ->
   count_if (in_state KvState.kScrubbing) (kp_slots p) = 0) ->
  kv_wf (p <| kp_slots := (kp_slots p).[i <- s'] |>
           <| kp_pending_events := (kp_pending_events p).[i <- e'] |>
           <| kp_clean_credits := credits |>).
Proof.
  intros Hw Hr Hi Hs Hown Hc Hsc.
  apply (kv_wf_moved p _ [i] (ks_state s') (ks_owner_sequence_index s')); cbn; try done.
  - by rewrite vsize_vput.
  - by rewrite vsize_vput.
  - intros j Hj Hm. pose proof (kw_events _ Hw). rewrite !vat_vput by lia.
    by rewrite (proj2 (Z.eqb_neq j i)) by set_solver.
  - intros j Hj ->%list_elem_of_singleton. pose proof (kw_events _ Hw).
    rewrite !vat_vput_eq by lia. by rewrite Hr.
  - intros j Hj Hm Hne E. destruct Hown as [H|[H1 H2]]; [congruence|].
    rewrite H2. apply (kw_owners _ Hw); [lia..|congruence|congruence].
  - rewrite count_if_vput, Hc, (kw_credits _ Hw) by done. lia.
  - rewrite count_if_vput by done. pose proof (kw_lane _ Hw) as Hl.
    assert (0 <= Z.b2z (in_state KvState.kScrubbing ((kp_slots p).[i])))
      by (by destruct (in_state KvState.kScrubbing _)).
    destruct (in_state KvState.kScrubbing s') eqn:E; cbn [Z.b2z]; [|lia].
    apply bool_decide_eq_true in E. apply Hsc in E. lia.
Qed.

Lemma kv_pool_same_events p i credits s' :
  kv_wf p -> 0 <= i < vsize (kp_slots p) -> credits = kp_clean_credits p ->
  p <| kp_slots := (kp_slots p).[i <- s'] |> =
  p <| kp_slots := (kp_slots p).[i <- s'] |>
    <| kp_pending_events := (kp_pending_events p).[i <- (kp_pending_events p).[i]] |>
    <| kp_clean_credits := credits |>.
Proof.
  intros Hw Hi ->. unfold upd. cbn. f_equal. unfold vput, vat. symmetry. apply list_insert_id.
  pose proof (kw_events _ Hw). by apply vat_lookup; lia.
Qed.

Lemma sanitize_wf p kv md b : kv_wf p -> kv_wf (snd (complete_startup_sanitize p kv md b)).
Proof.
  intros Hw. unfold complete_startup_sanitize. destruct (kp_failed p || kp_ready p) eqn:Eg; [done|].
  apply orb_false_iff in Eg as [_ Hr]. destruct (_ || _); [by apply kv_wf_failed|]. cbn [snd].
  set (clean := MkSlotState 1 kNoOwner 0 KvState.kFreeClean 0 0).
  assert (Hat : forall i, 0 <= i < vsize (kp_slots p) -> (map (fun _ => clean) (kp_slots p)).[i] = clean).
  { intros i Hi. unfold vat. apply list_lookup_total_correct. rewrite list_lookup_fmap.
    by rewrite (vat_lookup _ _ Hi). }
  assert (Hcount : forall st, count_if (in_state st) (map (fun _ => clean) (kp_slots p)) =
    if decide (st = KvState.kFreeClean) then vsize (kp_slots p) else 0).
  { intros st. clear Hat. induction (kp_slots p) as [|s l IH]; [by case_decide|]. cbn [map count_if].
    rewrite IH, vsize_cons. unfold in_state. cbn.
    case_decide; [by rewrite bool_decide_true|by rewrite bool_decide_false by congruence]. }
  pose proof (kw_size _ Hw) as Hsz. unfold kMaximumSlots in Hsz.
  split; cbn; rewrite ?vsize_map; try apply Hw.
  - intros i Hi. rewrite Hat by done. destruct (kw_slots _ Hw i Hi) as [_ Hst _ _ _ He].
    rewrite Hr in Hst. assert (E : ks_state ((kp_slots p).[i]) = KvState.kUninitialized) by (by apply Hst).
    rewrite E in He. cbn in He. by split; cbn; unfold is_u32, kNoOwner; try lia.
  - rewrite Hcount, decide_True by done. apply wrap32_id. unfold is_u32. lia.
  - rewrite Hcount. case_decide; [done|lia].
  - intros i j Hi Hj _ _. by rewrite !Hat.
Qed.

Lemma acquire_wf p : kv_wf p -> kv_wf (snd (acquire_sequence_generation p)).
Proof.
  intros Hw. unfold acquire_sequence_generation. destruct (not_ready p); [done|].
  destruct (_ =? _) eqn:E; [by apply kv_wf_failed|]. destruct Hw. split; try done. cbn.
  rewrite wrap32_id by (unfold is_u32; lia). lia.
Qed.

Lemma tokens_wf p owner h n : kv_wf p -> handle_typed h -> 0 <= n ->
  kv_wf (snd (commit_valid_tokens p owner h n)).
Proof.
  intros Hw [[H0 _] _] Hn. unfold commit_valid_tokens. destruct (_ || _) eqn:Eg; [done|]. breflect.
  destruct (ok _) eqn:Ev; cbn [negb]; [|done]. apply validate_handle_ok in Ev as (Hi & _ & _ & Hs & _).
  destruct (_ <? _); [done|]. cbn [snd]. apply not_ready_false in H as [Hr _].
  assert (Hir : 0 <= bh_slot h < vsize (kp_slots p)) by lia.
  pose proof (kw_slots _ Hw _ Hir) as Hok. rewrite Hr in Hok.
  erewrite kv_pool_same_events by (done || reflexivity). apply kv_wf_one; try done.
  - apply slot_tokens; [done|done|]. unfold kTokensPerSlot in *. lia.
  - right. done.
  - unfold in_state. cbn. lia.
  - cbn. by rewrite Hs.
Qed.

Lemma event_stale_false p st h e : event_stale p st h e = false ->
  ks_state ((kp_slots p).[bh_slot h]) = st /\ ks_generation ((kp_slots p).[bh_slot h]) = bh_generation h /\
  (kp_pending_events p).[bh_slot h] = e.
Proof.
  unfold event_stale, in_state. cbn zeta. intros H. breflect. split_and!; [done|done|].
  destruct ((kp_pending_events p).[bh_slot h]), e. cbn in *. by subst.
Qed.

Lemma reclaim_wf p h e rdy succ : kv_wf p -> handle_typed h ->
  kv_wf (snd (complete_reclaim_event p h e rdy succ)).
Proof.
  intros Hw [[H0 _] _]. unfold complete_reclaim_event. destruct (_ || _) eqn:Eg; [done|]. breflect.
  destruct (event_stale _ _ _ _) eqn:Es; [done|]. apply event_stale_false in Es as (Hs & _ & _).
  destruct rdy; [|done]. destruct succ; cbn [negb]; [|by apply kv_wf_failed]. cbn [snd].
  apply not_ready_false in H as [Hr _]. assert (Hir : 0 <= bh_slot h < vsize (kp_slots p)) by lia.
  pose proof (kw_slots _ Hw _ Hir) as Hok. rewrite Hr in Hok.
  change (kv_wf (p <| kp_slots := (kp_slots p).[bh_slot h <- free_slot KvState.kFreeDirty
      ((kp_slots p).[bh_slot h])] |> <| kp_pending_events := (kp_pending_events p).[bh_slot h <- no_event] |>
      <| kp_clean_credits := kp_clean_credits p |>)).
  apply kv_wf_one; try done.
  - eapply slot_free; [done|by left].
  - by left.
  - slot_counts Hs. lia.
Qed.

Lemma begin_scrub_wf p e : kv_wf p -> kv_wf (snd (begin_next_scrub p e)).
Proof.
  intros Hw. unfold begin_next_scrub. destruct (_ || _) eqn:Eg; [done|]. breflect.
  destruct (_ =? 0) eqn:El; cbn [negb]; [|done]. destruct (first_index _ _ _) as [i|] eqn:Ei; [|done].
  apply first_index_Some in Ei as (Hi & Hs & _). rewrite Z.sub_0_r in Hs. apply bool_decide_eq_true in Hs.
  cbn [snd]. apply not_ready_false in H as [Hr _]. assert (Hir : 0 <= i < vsize (kp_slots p)) by lia.
  pose proof (kw_slots _ Hw _ Hir) as Hok. rewrite Hr in Hok. pose proof (kw_size _ Hw) as Hsz.
  change (kv_wf (p <| kp_slots := (kp_slots p).[i <- set_slot_state KvState.kScrubbing ((kp_slots p).[i])] |>
      <| kp_pending_events := (kp_pending_events p).[i <- e] |>
      <| kp_clean_credits := kp_clean_credits p |>)).
  apply kv_wf_one; try done.
  - by eapply slot_scrub.
  - left. cbn. destruct (so_owner _ _ _ Hok) as [_ Ho]. rewrite Hs in Ho. cbn in Ho.
    destruct (decide (ks_owner_sequence_index ((kp_slots p).[i]) = kNoOwner)); [done|].
    by apply Ho in n.
  - slot_counts Hs. lia.
  - intros _. unfold lifecycle_count in El. unfold kMaximumSlots in Hsz.
    pose proof (count_if_bounds (in_state KvState.kScrubbing) (kp_slots p)).
    rewrite wrap32_id in El by (unfold is_u32; lia). lia.
Qed.

Lemma complete_scrub_wf p h e n rdy succ : kv_wf p -> handle_typed h ->
  kv_wf (snd (complete_scrub p h e n rdy succ)).
Proof.
  intros Hw [[H0 _] _]. unfold complete_scrub. destruct (_ || _) eqn:Eg; [done|]. breflect.
  destruct (event_stale _ _ _ _) eqn:Es; [done|]. apply event_stale_false in Es as (Hs & _ & _).
  destruct rdy; [|done]. cbn [negb]. destruct (_ || _); [by apply kv_wf_failed|]. cbn [snd].
  apply not_ready_false in H as [Hr _]. assert (Hir : 0 <= bh_slot h < vsize (kp_slots p)) by lia.
  pose proof (kw_slots _ Hw _ Hir) as Hok. rewrite Hr in Hok. pose proof (kw_size _ Hw) as Hsz.
  apply kv_wf_one; try done.
  - eapply slot_free; [done|by right].
  - by left.
  - slot_counts Hs. pose proof (kw_credits _ Hw). unfold kMaximumSlots in Hsz.
    pose proof (count_if_bounds (in_state KvState.kFreeClean) (kp_slots p)).
    rewrite wrap32_id by (unfold is_u32; lia). lia.
Qed.

(** *** [commit_prefix] *)

Lemma prefix_target_range c i : 0 <= c -> 0 <= prefix_target c i <= kTokensPerSlot.
Proof. intros Hc. unfold prefix_target, kTokensPerSlot. repeat case_match; breflect; lia. Qed.

(** The block at [i] gets the tokens of the prefix that are past the blocks before
    it, at most a block. *)
Lemma prefix_target_eq c i : 0 <= i < 2 ^ 32 ->
  prefix_target c i = Z.min kTokensPerSlot (Z.max 0 (c - i * kTokensPerSlot)).
Proof.
  intros Hi. unfold prefix_target, kTokensPerSlot. rewrite wrap64_id by (unfold is_u64; lia).
  repeat case_match; breflect; lia.
Qed.

Lemma write_prefix_spec c : forall handles slots k,
  NoDup (map bh_slot handles) -> Forall (fun i => 0 <= i < vsize slots) (map bh_slot handles) ->
  let slots' := write_prefix slots c k handles in
  vsize slots' = vsize slots /\
  (forall j, 0 <= j -> j ∉ map bh_slot handles -> slots'.[j] = slots.[j]) /\
  (forall m h, handles !! m = Some h ->
     slots'.[bh_slot h] = slots.[bh_slot h] <| ks_valid_tokens := prefix_target c (k + Z.of_nat m) |>).
Proof.
  induction handles as [|h hs IH]; intros slots k Hn Hr; [done|]. cbn [map write_prefix] in *.
  apply NoDup_cons in Hn as [Hh Hn]. apply Forall_cons in Hr as [Hhr Hr].
  set (s1 := slots.[bh_slot h <- _]). destruct (IH s1 (k + 1) Hn) as (Hs & Hout & Hin).
  { eapply Forall_impl; [exact Hr|]. intros j. unfold s1. by rewrite vsize_vput. }
  assert (H1 : forall j, 0 <= j -> j <> bh_slot h -> s1.[j] = slots.[j])
    by (intros j Hj Hne; unfold s1; apply vat_vput_ne; lia).
  split_and!.
  - rewrite Hs. unfold s1. apply vsize_vput.
  - intros j Hj Hm. rewrite Hout by set_solver. apply H1; set_solver.
  - intros [|m] h' Hm; cbn in Hm.
    + injection Hm as <-. rewrite Hout by (done || lia). unfold s1. rewrite vat_vput_eq by done.
      by rewrite Z.add_0_r.
    + rewrite (Hin m h' Hm). assert (Hne : bh_slot h' <> bh_slot h).
      { intros E. apply Hh. rewrite <- E. by eapply list_elem_of_fmap_2, list_elem_of_lookup_2. }
      rewrite H1; [|eapply (Forall_forall (fun i => 0 <= i < vsize slots)); [exact Hr|]|done].
      * by replace (k + 1 + Z.of_nat m) with (k + Z.of_nat (S m)) by lia.
      * by eapply list_elem_of_fmap_2, list_elem_of_lookup_2.
Qed.

Lemma commit_prefix_wf p owner handles n : kv_wf p -> Forall handle_typed handles -> 0 <= n ->
  kv_wf (snd (commit_prefix p owner handles n)).
Proof.
  intros Hw Ht Hn0. unfold commit_prefix. destruct (prefix_invalid _ _ _) eqn:Eg; [done|].
  destruct (ok _) eqn:Ee; cbn [negb]; [|done]. destruct (prefix_backward _ _ _ _); [done|]. cbn [snd].
  apply validate_exact_ok in Ee. unfold prefix_invalid in Eg. breflect.
  apply not_ready_false in H as [Hr _]. pose proof (exact_range _ _ _ _ Ee Ht) as Hrange.
  pose proof (fun i => exact_elem p owner handles _ i Ee Ht) as Hel.
  destruct (write_prefix_spec n handles (kp_slots p) 0 (ex_nodup _ _ _ _ Ee) Hrange) as (Hs & Hout & Hin).
  assert (Hat : forall i, i ∈ map bh_slot handles -> exists v, 0 <= v <= kTokensPerSlot /\
    (write_prefix (kp_slots p) n 0 handles).[i] = (kp_slots p).[i] <| ks_valid_tokens := v |>).
  { intros i (h & -> & (m & Hm)%list_elem_of_lookup)%list_elem_of_fmap. rewrite (Hin m h Hm).
    eexists. split; [|done]. by apply prefix_target_range. }
  assert (Hst : forall i, 0 <= i ->
    ks_state ((write_prefix (kp_slots p) n 0 handles).[i]) = ks_state ((kp_slots p).[i])).
  { intros i Hi. destruct (decide (i ∈ map bh_slot handles)) as [Hm|Hm].
    - by destruct (Hat i Hm) as (v & _ & ->).
    - by rewrite Hout. }
  assert (Hc : forall st, count_if (in_state st) (write_prefix (kp_slots p) n 0 handles) =
    count_if (in_state st) (kp_slots p)).
  { intros st. rewrite !count_if_filter, Hs. f_equal. apply filter_ext_in. intros i Hi%elem_of_seqZ.
    unfold in_state. by rewrite Hst by lia. }
  apply (kv_wf_moved p _ (map bh_slot handles) KvState.kOwned owner); cbn; try done.
  - intros j Hj Hm. by rewrite Hout by (done || lia).
  - intros i Hi Hm. pose proof Hm as (_ & Ho & Hs')%Hel. destruct (Hat i Hm) as (v & Hv & ->).
    split; [|done]. pose proof (kw_slots _ Hw i Hi) as Hok. rewrite Hr in *. by apply slot_tokens.
  - intros j Hj Hm Hne E. destruct handles as [|h hs]; [done|].
    assert (Hh : bh_slot h ∈ map bh_slot (h :: hs)) by (by left).
    apply Hel in Hh as (Hhr & Hho & <-). symmetry. apply (kw_owners _ Hw); [done|lia|congruence|congruence].
  - by rewrite Hc, (kw_credits _ Hw).
  - rewrite Hc. apply Hw.
Qed.

(** *** Reachable pools *)

Lemma create_kv_wf n kv md p : 0 <= n -> QwenKvSlotPool_Create n kv md = Value p -> kv_wf p.
Proof.
  intros Hn. unfold QwenKvSlotPool_Create. destruct (_ || _) eqn:Eg; [done|]. breflect.
  destruct (checked_mul_u64 _ _); cbn; [|done]. destruct (checked_mul_u64 _ _); cbn; [|done].
  destruct (_ || _); [done|]. intros [= <-]. unfold kMaximumSlots in *.
  set (s0 := MkSlotState 0 kNoOwner 0 KvState.kUninitialized 0 0).
  assert (Hat : forall i, 0 <= i < n -> (replicate (Z.to_nat n) s0).[i] = s0 /\
    (replicate (Z.to_nat n) no_event).[i] = no_event).
  { intros i Hi. unfold vat. rewrite !lookup_total_replicate_2 by lia. done. }
  assert (Hc : forall st, st <> KvState.kUninitialized ->
    count_if (in_state st) (replicate (Z.to_nat n) s0) = 0).
  { intros st Hst. apply count_if_0, Forall_replicate. unfold in_state. cbn. by rewrite bool_decide_false. }
  assert (Hn' : Z.of_nat (Z.to_nat n) = n) by lia.
  split; cbn; rewrite ?vsize_replicate, ?Hn'.
  - unfold kMaximumSlots. lia.
  - done.
  - intros i Hi. destruct (Hat i Hi) as [-> ->]. by split; cbn; unfold is_u32, kNoOwner, kTokensPerSlot; try lia.
  - by rewrite Hc.
  - by rewrite Hc.
  - intros i j Hi Hj. destruct (Hat i Hi) as [-> _]. done.
  - lia.
Qed.

#[export] Instance kv_wf_inv : MachineInv kv_wf.
Proof.
  split; [intros p (n & kv & md & Hn & _ & E); by eapply create_kv_wf|].
  intros p op Hw Ht. cbn [m_run kv_Machine]. destruct op; cbn [run_kv kv_status]; cbn in Ht.
  - pose proof (sanitize_wf p cleared_kv cleared_metadata succeeded Hw). by destruct (complete_startup_sanitize _ _ _ _).
  - pose proof (acquire_wf p Hw). by destruct (acquire_sequence_generation p).
  - pose proof (reserve_wf p owner slot_count Hw (proj1 Ht) (proj2 Ht)). by destruct (reserve _ _ _).
  - pose proof (publish_wf p owner handles Hw (proj2 Ht)). by destruct (publish _ _ _).
  - pose proof (rollback_wf p owner handles Hw (proj2 Ht)). by destruct (rollback _ _ _).
  - pose proof (tokens_wf p owner handle valid_tokens Hw (proj1 (proj2 Ht)) (proj2 (proj2 Ht))).
    by destruct (commit_valid_tokens _ _ _ _).
  - destruct Ht as (_ & Hh & Hn & _). pose proof (commit_prefix_wf p owner handles committed_tokens Hw Hh Hn).
    by destruct (commit_prefix _ _ _ _).
  - pose proof (release_wf p owner handles last_use Hw (proj2 Ht)). by destruct (release _ _ _ _).
  - pose proof (reclaim_wf p handle event ready succeeded Hw Ht). by destruct (complete_reclaim_event _ _ _ _ _).
  - pose proof (begin_scrub_wf p event Hw). by destruct (begin_next_scrub _ _).
  - pose proof (complete_scrub_wf p handle event cleared_bytes ready succeeded Hw Ht).
    by destruct (complete_scrub _ _ _ _ _ _).
Qed.
