(* ===== verification/KvPoolProps.v ===== *)
(** * Properties of the KV slot pool

    The life cycle of a block, call by call; no block is handed out that may hold
    the data of a sequence; a handle that was given back never becomes valid
    again; a reservation is served exactly when the ledger covers it.

    The bytes of a block are not in the pool.  A ghost ledger records which blocks
    may hold data: a block does from its publication to a sequence until the
    device reports that all of it was cleared. *)

From stdpp Require Import gmap list_numbers.
From S2P Require Import Prelude Core KvPool KvPoolInv.
Import KvState(QwenKvSlotLifecycle).

(** ** The life cycle of a block *)

(** The tokens of a prefix of [n] tokens that are in its block [m]. *)
Definition prefix_share (n m : Z) : Z := Z.max 0 (Z.min kTokensPerSlot (n - kTokensPerSlot * m)).

(** The calls that record [v] tokens in the block of a handle. *)
Definition commits_to (op : kv_op) (owner : Z) (h : QwenKvBlockHandle) (v : Z) : Prop :=
  match op with
  | KvCommitTokens o h' n => o = owner /\ h' = h /\ v = n
  | KvCommitPrefix o hs n => o = owner /\ exists m, hs !! m = Some h /\ v = prefix_share n (Z.of_nat m)
  | _ => False
  end.

(** The blocks that a call which reports success has acted on. *)
Definition acted_on (op : kv_op) (out : kv_out) (i : Z) : Prop :=
  match op, out with
  | KvSanitize _ _ _, KvStatus s => ok s = true
  | KvReserve _ _, KvHandles (Value hs) => i ∈ map bh_slot hs
  | KvPublish _ hs, KvStatus s | KvRollback _ hs, KvStatus s | KvCommitPrefix _ hs _, KvStatus s
  | KvRelease _ hs _, KvStatus s => ok s = true /\ i ∈ map bh_slot hs
  | KvCommitTokens _ h _, KvStatus s | KvReclaim h _ _ _, KvStatus s
  | KvCompleteScrub h _ _ _ _, KvStatus s => ok s = true /\ i = bh_slot h
  | KvBeginScrub _, KvWork (Value w) => i = bh_slot (sw_slot w)
  | _, _ => False
  end.

(** The move of slot [i] by one call with the result [out]: [s], [e] are the slot and its
    pending event before, [s'], [e'] after.  Every field of [s'] is given.  A slot stays
    as it is exactly when the call did not succeed for it. *)
Inductive kv_move (p : QwenKvSlotPool) (op : kv_op) (out : kv_out) (i : Z) (s s' : QwenKvSlotState)
    (e e' : QwenKvCompletionEvent) : Prop :=
  | MvStay : ~ acted_on op out i -> s' = s -> e' = e -> kv_move p op out i s s' e e'
  | MvTokens owner v : commits_to op owner (MkHandle i (ks_generation s)) v ->
      ks_state s = KvState.kOwned -> ks_owner_sequence_index s = owner ->
      ks_valid_tokens s <= v <= kTokensPerSlot -> s' = s <| ks_valid_tokens := v |> -> e' = e ->
      kv_move p op out i s s' e e'
  | MvSanitize : op = KvSanitize (kp_kv_backing_bytes p) (kp_metadata_backing_bytes p) true ->
      ks_state s = KvState.kUninitialized ->
      s' = MkSlotState 1 kNoOwner 0 KvState.kFreeClean 0 0 -> e' = e -> kv_move p op out i s s' e e'
  | MvReserve owner n : op = KvReserve owner n ->
      ks_state s = KvState.kFreeClean ->
      s' = MkSlotState (ks_generation s + 1) owner 0 KvState.kAdmissionReserved 0 0 -> e' = e ->
      kv_move p op out i s s' e e'
  | MvPublish owner hs : op = KvPublish owner hs ->
      MkHandle i (ks_generation s) ∈ hs -> ks_owner_sequence_index s = owner ->
      ks_state s = KvState.kAdmissionReserved ->
      s' = MkSlotState (ks_generation s) owner 0 KvState.kOwned 0 0 -> e' = e ->
      kv_move p op out i s s' e e'
  | MvRollback owner hs : op = KvRollback owner hs ->
      MkHandle i (ks_generation s) ∈ hs -> ks_owner_sequence_index s = owner ->
      ks_state s = KvState.kAdmissionReserved ->
      s' = MkSlotState (ks_generation s) kNoOwner 0 KvState.kFreeClean 0 0 -> e' = e ->
      kv_move p op out i s s' e e'
  | MvRelease owner hs : op = KvRelease owner hs e' ->
      MkHandle i (ks_generation s) ∈ hs -> ks_owner_sequence_index s = owner ->
      ks_state s = KvState.kOwned ->
      s' = MkSlotState (ks_generation s) owner (ks_valid_tokens s) KvState.kReclaimPending 0 0 ->
      kv_move p op out i s s' e e'
  | MvReclaim : op = KvReclaim (MkHandle i (ks_generation s)) e true true ->
      ks_state s = KvState.kReclaimPending ->
      s' = MkSlotState (ks_generation s) kNoOwner 0 KvState.kFreeDirty 0 0 -> e' = no_event ->
      kv_move p op out i s s' e e'
  | MvScrub : op = KvBeginScrub e' ->
      ks_state s = KvState.kFreeDirty ->
      s' = MkSlotState (ks_generation s) kNoOwner 0 KvState.kScrubbing 0 0 -> kv_move p op out i s s' e e'
  | MvClean : op = KvCompleteScrub (MkHandle i (ks_generation s)) e kSlotPayloadBytes true true ->
      ks_state s = KvState.kScrubbing ->
      s' = MkSlotState (ks_generation s) kNoOwner 0 KvState.kFreeClean 0 0 -> e' = no_event ->
      kv_move p op out i s s' e e'.

Definition moves (p : QwenKvSlotPool) (op : kv_op) (out : kv_out) (p' : QwenKvSlotPool) : Prop :=
  vsize (kp_slots p') = vsize (kp_slots p) /\
  forall i, 0 <= i < vsize (kp_slots p) ->
    kv_move p op out i ((kp_slots p).[i]) ((kp_slots p').[i])
      ((kp_pending_events p).[i]) ((kp_pending_events p').[i]).

Lemma moves_same p op out p' :
  (forall i, ~ acted_on op out i) ->
  kp_slots p' = kp_slots p -> kp_pending_events p' = kp_pending_events p -> moves p op out p'.
Proof. intros Ha Hs He. unfold moves. rewrite Hs, He. split; [done|]. intros i Hi. by apply MvStay. Qed.

(** A call that was refused. *)
Ltac refused :=
  apply moves_same; [cbn; intros ? Hx; first [congruence | destruct Hx; congruence]|done|done].

(** The fields of a slot that do not depend on its history. *)
Lemma slot_fields p i (s := (kp_slots p).[i]) :
  kv_wf p -> 0 <= i < vsize (kp_slots p) ->
  s = MkSlotState (ks_generation s) (ks_owner_sequence_index s) (ks_valid_tokens s) (ks_state s) 0 0 /\
  (attached (ks_state s) = false -> ks_owner_sequence_index s = kNoOwner) /\
  (ks_state s <> KvState.kOwned -> ks_state s <> KvState.kReclaimPending -> ks_valid_tokens s = 0).
Proof.
  intros Hw Hi. destruct (kw_slots _ Hw i Hi) as [[Hz1 Hz2] _ _ [_ Ho] [_ Ht] _]. fold s in Hz1, Hz2, Ho, Ht.
  split; [by destruct s; cbn in *; subst|]. split; [|done]. intros Ha.
  destruct (decide (ks_owner_sequence_index s = kNoOwner)) as [|Hn]; [done|]. apply Ho in Hn. congruence.
Qed.

(** A call that updates the slots of an exact set. *)
Lemma moves_group p op out owner handles st f p' :
  exact_set p owner handles st -> Forall handle_typed handles ->
  kp_slots p' = update_slots f (map bh_slot handles) (kp_slots p) ->
  (forall i, acted_on op out i -> i ∈ map bh_slot handles) ->
  (forall i, 0 <= i < vsize (kp_slots p) -> i ∉ map bh_slot handles ->
     (kp_pending_events p').[i] = (kp_pending_events p).[i]) ->
  (forall i, 0 <= i < vsize (kp_slots p) -> MkHandle i (ks_generation ((kp_slots p).[i])) ∈ handles ->
     ks_owner_sequence_index ((kp_slots p).[i]) = owner -> ks_state ((kp_slots p).[i]) = st ->
     kv_move p op out i ((kp_slots p).[i]) (f ((kp_slots p).[i]))
       ((kp_pending_events p).[i]) ((kp_pending_events p').[i])) ->
  moves p op out p'.
Proof.
  intros He Ht Hs Hac Hev Hm. pose proof (exact_range _ _ _ _ He Ht) as Hr. split.
  { by rewrite Hs, update_slots_size. }
  intros i Hi. rewrite Hs, update_slots_at by (done || lia || apply He).
  case_bool_decide as Hin; [|apply MvStay; auto].
  pose proof Hin as (_ & Ho & Hst)%(exact_elem p owner handles st i He Ht).
  apply Hm; try done. apply list_elem_of_fmap in Hin as (h & -> & Hh).
  pose proof (ex_valid _ _ _ _ He) as Hv. rewrite Forall_forall in Hv. destruct (Hv h Hh) as (_ & <- & _).
  by destruct h.
Qed.

(** A call on one slot. *)
Lemma moves_one p op out i s' e' p' :
  kv_wf p -> 0 <= i < vsize (kp_slots p) -> kp_slots p' = (kp_slots p).[i <- s'] ->
  kp_pending_events p' = (kp_pending_events p).[i <- e'] ->
  (forall j, acted_on op out j -> j = i) ->
  kv_move p op out i ((kp_slots p).[i]) s' ((kp_pending_events p).[i]) e' -> moves p op out p'.
Proof.
  intros Hw Hi Hs He Ha Hm. pose proof (kw_events _ Hw). split; [by rewrite Hs, vsize_vput|].
  intros j Hj. rewrite Hs, He, !vat_vput by lia. destruct (Z.eqb_spec j i) as [->|]; [done|].
  apply MvStay; [|done..]. intros Hx. by apply Ha in Hx.
Qed.

Lemma sanitize_moves p kv md b (r := complete_startup_sanitize p kv md b) :
  kv_wf p -> moves p (KvSanitize kv md b) (KvStatus (fst r)) (snd r).
Proof.
  intros Hw. subst r.
  unfold complete_startup_sanitize. destruct (kp_failed p || kp_ready p) eqn:Eg; [refused|].
  apply orb_false_iff in Eg as [_ Hr].
  destruct (_ || _) eqn:E2; [refused|]. breflect. subst.
  split; cbn; [by rewrite vsize_map|]. intros i Hi.
  rewrite vat_map by done. apply MvSanitize; [done| |done|done]. by apply (so_state _ _ _ (kw_slots _ Hw i Hi)).
Qed.

Lemma reserve_moves p owner slot_count (r := reserve p owner slot_count) :
  kv_wf p -> is_u32 owner -> is_u32 slot_count ->
  moves p (KvReserve owner slot_count) (KvHandles (fst r)) (snd r).
Proof.
  intros Hw Ho Hn. subst r.
  destruct (reserve p owner slot_count) as [[hs|e] p'] eqn:E; cbn [fst snd].
  + apply reserve_spec in E as [_ _ He Hh _ Hc _ ->]; [|done..].
    pose proof (exact_range _ _ _ _ He Hh) as Hr. cbn in Hr. rewrite update_slots_size in Hr.
    split; cbn; [apply update_slots_size|]. intros i Hi.
    rewrite update_slots_at by (done || lia || apply He). case_bool_decide as Hin; [|by apply MvStay].
    apply list_elem_of_fmap in Hin as (h & -> & Hin). rewrite Forall_forall in Hc.
    destruct (Hc h Hin) as [[Hst Hg] _]. eapply MvReserve; try done. unfold reserve_slot.
    destruct (so_generation _ _ _ (kw_slots _ Hw _ Hi)) as [G1 G2].
    { destruct (kp_ready p) eqn:Er; [done|]. exfalso.
      destruct (so_state _ _ _ (kw_slots _ Hw _ Hi)) as [_ Hx]. rewrite Hst in Hx. by specialize (Hx Er). }
    destruct (so_zero _ _ _ (kw_slots _ Hw _ Hi)) as [-> ->]. rewrite wrap32_id by (unfold is_u32; lia). done.
  + apply reserve_error in E as [-> | ->]; refused.
Qed.

Lemma prefix_forward slots c : forall handles k,
  prefix_backward slots c k handles = false <->
  forall m h, handles !! m = Some h ->
    ks_valid_tokens (slots.[bh_slot h]) <= prefix_target c (k + Z.of_nat m).
Proof.
  induction handles as [|h hs IH]; intros k; [done|]. cbn [prefix_backward].
  rewrite orb_false_iff, IH, Z.ltb_ge. split.
  - intros [H1 H2] [|m] x Hx; cbn in Hx; [injection Hx as <-; by rewrite Z.add_0_r|].
    replace (k + Z.of_nat (S m)) with (k + 1 + Z.of_nat m) by lia. by apply H2.
  - intros H. split; [specialize (H 0%nat h eq_refl); by rewrite Z.add_0_r in H|].
    intros m x Hx. specialize (H (S m) x Hx). by replace (k + 1 + Z.of_nat m) with (k + Z.of_nat (S m)) by lia.
Qed.

Lemma prefix_target_share c k : 0 <= k <= kMaximumSlots -> prefix_target c k = prefix_share c k.
Proof.
  unfold kMaximumSlots. intros Hk. unfold prefix_target, prefix_share, kTokensPerSlot.
  rewrite wrap64_id by (unfold is_u64; lia). destruct (c >? k * 16) eqn:E; destruct (_ >? 16) eqn:E2; lia.
Qed.

Lemma prefix_moves p owner handles committed_tokens (r := commit_prefix p owner handles committed_tokens) :
  kv_wf p -> Forall handle_typed handles -> 0 <= committed_tokens ->
  moves p (KvCommitPrefix owner handles committed_tokens) (KvStatus (fst r)) (snd r).
Proof.
  intros Hw Hh Hc. subst r.
  unfold commit_prefix. destruct (prefix_invalid _ _ _); [refused|].
  destruct (ok _) eqn:E; [|refused]. cbn [negb].
  destruct (prefix_backward _ _ _ _) eqn:Eb; [refused|]. apply validate_exact_ok in E.
  pose proof (proj1 (prefix_forward _ _ _ _) Eb) as Hf.
  pose proof (exact_range _ _ _ _ E Hh) as Hr.
  destruct (write_prefix_spec committed_tokens handles (kp_slots p) 0 (ex_nodup _ _ _ _ E) Hr)
    as (Hs & Hout & Hin).
  split; [done|]. intros i Hi. cbn.
  destruct (decide (i ∈ map bh_slot handles)) as [(h & -> & Hm)%list_elem_of_fmap|Hm].
  - pose proof (ex_valid _ _ _ _ E) as Hv. rewrite Forall_forall in Hv.
    destruct (Hv h Hm) as (_ & Hg & Ho & Hst & _). destruct (proj1 (list_elem_of_lookup _ _) Hm) as [m Hl].
    rewrite (Hin m h Hl). eapply (MvTokens _ _ _ _ _ _ _ _ owner (prefix_target committed_tokens (0 + Z.of_nat m))); try done.
    + cbn. split; [done|]. exists m. rewrite <- Hg. split; [by destruct h|]. apply prefix_target_share.
      apply lookup_lt_Some in Hl. pose proof (ex_count _ _ _ _ E) as Hsz.
      pose proof (count_if_bounds (owned_in owner KvState.kOwned) (kp_slots p)). pose proof (kw_size _ Hw). unfold vsize in *. lia.
    + split; [by apply Hf|by apply prefix_target_range].
  - rewrite Hout by (done || lia). apply MvStay; [|done..]. cbn. by intros [_ ?].
Qed.

(** Goals about the one slot a call acted on. *)
Ltac one_slot Hw Hir Hst :=
  destruct (slot_fields _ _ Hw Hir) as (Hf & Hno & Hnt);
  rewrite Hst in Hf, Hno, Hnt; rewrite ?Hno, ?Hnt in Hf by done.

Lemma kv_moves p op : kv_wf p -> m_typed op -> moves p op (fst (run_kv p op)) (snd (run_kv p op)).
Proof.
  intros Hw Ht. destruct op; cbn [run_kv kv_status]; cbn in Ht.
  - pose proof (sanitize_moves p cleared_kv cleared_metadata succeeded Hw).
    by destruct (complete_startup_sanitize _ _ _ _).
  - unfold acquire_sequence_generation. destruct (not_ready p); [refused|].
    destruct (_ =? _); refused.
  - pose proof (reserve_moves p owner slot_count Hw (proj1 Ht) (proj2 Ht)). by destruct (reserve _ _ _).
  - unfold publish. destruct (_ || _); [refused|].
    destruct (ok _) eqn:E; [|refused]. apply validate_exact_ok in E. cbn [negb fst snd].
    eapply moves_group; [done|apply Ht|done|by intros i [_ ?]|done|]. intros i Hi Hh Ho Hs.
    one_slot Hw Hi Hs. eapply MvPublish; try done. rewrite Hf. cbn. by rewrite Ho.
  - unfold rollback. destruct (_ || _); [refused|].
    destruct (ok _) eqn:E; [|refused]. apply validate_exact_ok in E. cbn [negb fst snd].
    eapply moves_group; [done|apply Ht|done|by intros i [_ ?]|done|]. intros i Hi Hh Ho Hs.
    one_slot Hw Hi Hs. eapply MvRollback; try done. by rewrite Hf.
  - unfold commit_valid_tokens. destruct (_ || _) eqn:Eg; [refused|]. breflect.
    destruct (ok _) eqn:E; [|refused]. cbn [negb]. apply validate_handle_ok in E as (Hi & Hg & Ho & Hst & _).
    destruct (_ <? _) eqn:Eb; [refused|]. destruct Ht as (_ & [[Hh0 _] _] & _). cbn [fst snd].
    assert (Hir : 0 <= bh_slot handle < vsize (kp_slots p)) by lia.
    erewrite kv_pool_same_events by (done || reflexivity).
    eapply moves_one; [done|exact Hir|done|done|by intros j [_ ?]|]. eapply MvTokens; try done; [|lia].
    split; [done|]. split; [|done]. rewrite <- Hg. by destruct handle.
  - pose proof (prefix_moves p owner handles committed_tokens Hw (proj1 (proj2 Ht)) ltac:(apply Ht)).
    by destruct (commit_prefix _ _ _ _).
  - unfold release. destruct (_ || _); [refused|].
    destruct (ok _) eqn:E; [|refused]. apply validate_exact_ok in E. cbn [negb fst snd].
    destruct (set_events_spec last_use handles (kp_pending_events p)) as [_ Hat].
    { apply E. } { rewrite (kw_events _ Hw). eapply exact_range; [done|apply Ht]. }
    eapply moves_group; [done|apply Ht|done|by intros i [_ ?]| |].
    + intros i Hi Hm. cbn. by rewrite Hat, bool_decide_false by (done || lia).
    + intros i Hi Hh Ho Hs. one_slot Hw Hi Hs. cbn. rewrite Hat, bool_decide_true; [| |lia].
      * eapply MvRelease; try done. rewrite Hf. cbn. by rewrite Ho.
      * by apply (list_elem_of_fmap_2 bh_slot) in Hh.
  - unfold complete_reclaim_event. destruct (_ || _) eqn:Eg; [refused|]. breflect.
    destruct (event_stale _ _ _ _) eqn:Es; [refused|].
    apply event_stale_false in Es as (Hs & Hg & He). destruct ready; [|refused].
    destruct succeeded; [|refused]. destruct Ht as [[H1 _] _].
    assert (Hir : 0 <= bh_slot handle < vsize (kp_slots p)) by lia.
    eapply moves_one; [done|exact Hir|done|done|by intros j [_ ?]|]. one_slot Hw Hir Hs.
    apply MvReclaim; [|done|by rewrite Hf|done]. rewrite Hg, He. by destruct handle.
  - unfold begin_next_scrub. destruct (_ || _); [refused|].
    destruct (negb _); [refused|]. destruct (first_index _ _ _) as [i|] eqn:Ei; [|refused].
    apply first_index_Some in Ei as (Hi & Hs & _). rewrite Z.sub_0_r in Hs. apply bool_decide_eq_true in Hs.
    assert (Hir : 0 <= i < vsize (kp_slots p)) by lia. one_slot Hw Hir Hs.
    eapply (moves_one p _ _ i); [done|done|done|done|done|]. apply MvScrub; [done|done|by rewrite Hf].
  - unfold complete_scrub. destruct (_ || _) eqn:Eg; [refused|]. breflect.
    destruct (event_stale _ _ _ _) eqn:Es; [refused|].
    apply event_stale_false in Es as (Hs & Hg & He). destruct ready; [|refused]. cbn [negb].
    destruct (_ || _) eqn:E2; [refused|]. breflect. subst. destruct Ht as [[H1 _] _].
    assert (Hir : 0 <= bh_slot handle < vsize (kp_slots p)) by lia.
    eapply moves_one; [done|exact Hir|done|done|by intros j [_ ?]|]. one_slot Hw Hir Hs.
    apply MvClean; [|done|by rewrite Hf|done]. rewrite Hg. by destruct handle.
Qed.


(** ** Blocks that may hold data *)

(** The history of the pool: which blocks may hold data, and the last clearing of a
    block that was started, with the event that ends it. *)
Record kv_ghost := MkGhost {
  gh_pool : QwenKvSlotPool;
  gh_dirty : list bool;
  gh_scrub : option (QwenKvBlockHandle * QwenKvCompletionEvent) }.

Definition mark (b : bool) (dirty : list bool) (hs : list QwenKvBlockHandle) : list bool :=
  foldl (fun d h => d.[bh_slot h <- b]) dirty hs.

(** Read off the calls and their results: a block may hold data from its publication
    on; it does no longer when the device reported the end of the clearing that was
    started for it, and all of it cleared. *)
Definition dirty_after (g : kv_ghost) (op : kv_op) (out : kv_out) : list bool :=
  match op, out with
  | KvSanitize kv md true, KvStatus s =>
      if ok s && (kv =? kp_kv_backing_bytes (gh_pool g)) && (md =? kp_metadata_backing_bytes (gh_pool g))
      then map (fun _ => false) (gh_dirty g) else gh_dirty g
  | KvPublish _ hs, KvStatus s => if ok s then mark true (gh_dirty g) hs else gh_dirty g
  | KvCompleteScrub h e bytes true true, KvStatus s =>
      if ok s && (bytes =? kSlotPayloadBytes) && bool_decide (gh_scrub g = Some (h, e))
      then mark false (gh_dirty g) [h] else gh_dirty g
  | _, _ => gh_dirty g
  end.

Definition scrub_after (g : kv_ghost) (op : kv_op) (out : kv_out) :
    option (QwenKvBlockHandle * QwenKvCompletionEvent) :=
  match op, out with
  | KvBeginScrub e, KvWork (Value w) => Some (sw_slot w, e)
  | _, _ => gh_scrub g
  end.

Definition run_ghost (g : kv_ghost) (op : kv_op) : kv_out * kv_ghost :=
  let '(out, p) := run_kv (gh_pool g) op in
  (out, MkGhost p (dirty_after g op out) (scrub_after g op out)).

(** At creation every block may hold data. *)
#[export] Instance ghost_Machine : Machine kv_ghost kv_op kv_out := {|
  m_run := run_ghost;
  m_init g := m_init (gh_pool g) /\ gh_dirty g = map (fun _ => true) (kp_slots (gh_pool g)) /\
    gh_scrub g = None |}.

(** The states from which a block can be handed to a sequence. *)
Definition handed_out (st : QwenKvSlotLifecycle) : bool :=
  match st with KvState.kFreeClean | KvState.kAdmissionReserved => true | _ => false end.

Record ghost_ok (g : kv_ghost) : Prop := {
  go_wf : kv_wf (gh_pool g);
  go_size : vsize (gh_dirty g) = vsize (kp_slots (gh_pool g));
  go_scrub : forall i, 0 <= i < vsize (kp_slots (gh_pool g)) ->
    ks_state ((kp_slots (gh_pool g)).[i]) = KvState.kScrubbing ->
    gh_scrub g = Some (MkHandle i (ks_generation ((kp_slots (gh_pool g)).[i])),
                       (kp_pending_events (gh_pool g)).[i]);
  go_clean : forall i, 0 <= i < vsize (kp_slots (gh_pool g)) ->
    handed_out (ks_state ((kp_slots (gh_pool g)).[i])) = true -> (gh_dirty g).[i] = false }.

Lemma mark_size b dirty hs : vsize (mark b dirty hs) = vsize dirty.
Proof. unfold mark. revert dirty. induction hs as [|h hs IH]; intros d; [done|]. cbn. by rewrite IH, vsize_vput. Qed.

Lemma mark_at b dirty hs i :
  0 <= i < vsize dirty -> Forall handle_typed hs ->
  (mark b dirty hs).[i] = if bool_decide (i ∈ map bh_slot hs) then b else dirty.[i].
Proof.
  unfold mark. revert dirty. induction hs as [|h hs IH]; intros d Hi Ht; [done|].
  apply Forall_cons in Ht as [H1 Ht]. cbn [foldl map]. rewrite IH by (rewrite ?vsize_vput; done).
  case_bool_decide as E1.
  - rewrite bool_decide_true; [done|]. by right.
  - destruct H1 as [[H1 _] _]. destruct (decide (i = bh_slot h)) as [->|Hne].
    + rewrite vat_vput_eq by done. rewrite bool_decide_true; [done|]. by left.
    + rewrite vat_vput_ne by lia. rewrite bool_decide_false; [done|]. intros [?|?]%elem_of_cons; done.
Qed.

Lemma publish_done p owner hs s p' :
  publish p owner hs = (s, p') -> ok s = true ->
  exact_set p owner hs KvState.kAdmissionReserved /\
  kp_slots p' = update_slots (set_slot_state KvState.kOwned) (map bh_slot hs) (kp_slots p).
Proof.
  unfold publish. destruct (not_ready p || _); [intros [= <- <-] Hs; by rewrite ok_FailedPrecondition in Hs|].
  destruct (ok (validate_exact_owner_set _ _ _ _)) eqn:E; cbn [negb].
  - intros [= <- <-] _. split; [by apply validate_exact_ok|done].
  - intros [= <- <-] Hs. by rewrite Hs in E.
Qed.

(** A block becomes dirty only by a publication. *)
Lemma dirty_keeps g op out i :
  m_typed op -> 0 <= i < vsize (gh_dirty g) -> (gh_dirty g).[i] = false ->
  (dirty_after g op out).[i] = false \/
  exists owner hs s, op = KvPublish owner hs /\ out = KvStatus s /\ ok s = true /\ i ∈ map bh_slot hs.
Proof.
  intros Ht Hi Hd.
  destruct op, out; cbn [dirty_after]; try destruct succeeded; try destruct ready; auto.
  - destruct (_ && _); [|by left]. left.
    by rewrite vat_map.
  - destruct (ok s) eqn:E; [|by left]. destruct Ht as [_ Ht]. rewrite mark_at by done.
    case_bool_decide as Hin; [|by left]. right. by repeat eexists.
  - destruct (_ && _); [|by left]. left.
    rewrite mark_at by (done || by apply Forall_singleton). by case_bool_decide.
Qed.

Lemma publish_attaches p owner hs s p' i :
  publish p owner hs = (s, p') -> ok s = true -> Forall handle_typed hs -> i ∈ map bh_slot hs ->
  ks_state ((kp_slots p').[i]) = KvState.kOwned /\ ks_state ((kp_slots p).[i]) = KvState.kAdmissionReserved.
Proof.
  intros E Hs Ht Hin. destruct (publish_done _ _ _ _ _ E Hs) as [He ->].
  pose proof (exact_range _ _ _ _ He Ht) as Hr.
  pose proof Hin as (Hi & _ & Hst)%(exact_elem _ _ _ _ _ He Ht).
  rewrite update_slots_at by (done || lia || apply He). by rewrite bool_decide_true.
Qed.

Lemma ghost_clean g op i :
  ghost_ok g -> m_typed op -> 0 <= i < vsize (kp_slots (gh_pool g)) ->
  handed_out (ks_state ((kp_slots (snd (run_kv (gh_pool g) op))).[i])) = true ->
  (dirty_after g op (fst (run_kv (gh_pool g) op))).[i] = false.
Proof.
  intros Hg Ht Hi Hh. pose proof (go_wf _ Hg) as Hw. pose proof (go_size _ Hg) as Hsz.
  assert (Hkeep : handed_out (ks_state ((kp_slots (gh_pool g)).[i])) = true ->
    (dirty_after g op (fst (run_kv (gh_pool g) op))).[i] = false).
  { intros Hb%(go_clean _ Hg i Hi).
    destruct (dirty_keeps g op (fst (run_kv (gh_pool g) op)) i Ht) as [|(o & hs & s & -> & Ho & Hs & Hin)];
      [lia|done..|].
    exfalso. cbn in Ho, Hh. destruct (publish (gh_pool g) o hs) as [s' p'] eqn:E. cbn in Ho, Hh.
    injection Ho as ->. destruct (publish_attaches _ _ _ _ _ i E Hs (proj2 Ht) Hin) as [E' _].
    by rewrite E' in Hh. }
  destruct (kv_moves _ _ Hw Ht) as [_ Hm]. destruct (Hm i Hi) as
    [_ E _|? ? _ Eb _ _ Ec _| -> Eb Ea _| o n -> Eb _ _| o hs _ _ _ _ Ea _| o hs _ _ _ Eb _ _| o hs _ _ _ _ Ea
    |_ _ Ea _|_ _ Ea| -> Eb Ea _];
    try (rewrite Ea in Hh; done); try (rewrite Ec in Hh; cbn in Hh; by rewrite Eb in Hh);
    try (apply Hkeep; by rewrite ?Eb).
  - apply Hkeep. by rewrite <- E.
  - apply (f_equal ks_state) in Ea. revert Ea. cbn. unfold complete_startup_sanitize.
    destruct (kp_failed _ || kp_ready _); [by cbn; rewrite Eb|].
    destruct (_ || _); [by cbn; rewrite Eb|]. intros _. cbn. rewrite !Z.eqb_refl. cbn.
    rewrite vat_map; [done|lia].
  - apply (f_equal ks_state) in Ea. revert Ea. cbn. unfold complete_scrub.
    destruct (not_ready _ || _); [by cbn; rewrite Eb|]. destruct (event_stale _ _ _ _); [by cbn; rewrite Eb|].
    cbn [negb orb]. rewrite Z.eqb_refl. intros _. cbn. rewrite (go_scrub _ Hg i Hi Eb), bool_decide_true by done.
    apply vat_vput_eq. lia.
Qed.

Lemma begin_scrub_idle p e w p' i :
  kv_wf p -> begin_next_scrub p e = (Value w, p') -> 0 <= i < vsize (kp_slots p) ->
  ks_state ((kp_slots p).[i]) <> KvState.kScrubbing /\
  (ks_state ((kp_slots p').[i]) = KvState.kScrubbing ->
   sw_slot w = MkHandle i (ks_generation ((kp_slots p).[i]))).
Proof.
  intros Hw E Hi. unfold begin_next_scrub in E. destruct (not_ready p || _); [done|].
  destruct (lifecycle_count _ _ =? 0) eqn:El; [|done]. cbn [negb] in E. pose proof (kw_size _ Hw) as Hsz.
  pose proof (count_if_bounds (in_state KvState.kScrubbing) (kp_slots p)) as Hb.
  unfold lifecycle_count in El. unfold kMaximumSlots in Hsz. rewrite wrap32_id in El by (unfold is_u32; lia).
  apply Z.eqb_eq, count_if_0 in El. rewrite Forall_forall in El.
  assert (Hidle : ks_state ((kp_slots p).[i]) <> KvState.kScrubbing).
  { apply (proj1 (bool_decide_eq_false _)). by apply El, list_elem_of_In, vat_In. }
  split; [done|]. destruct (first_index _ _ _) as [j|] eqn:Ej; [|done]. injection E as <- <-. cbn.
  apply first_index_Some in Ej as (Hj & _ & _). rewrite vat_vput by lia.
  by destruct (Z.eqb_spec i j) as [->|].
Qed.

Lemma ghost_scrub g op i :
  ghost_ok g -> m_typed op -> 0 <= i < vsize (kp_slots (gh_pool g)) ->
  let p' := snd (run_kv (gh_pool g) op) in
  ks_state ((kp_slots p').[i]) = KvState.kScrubbing ->
  scrub_after g op (fst (run_kv (gh_pool g) op)) =
    Some (MkHandle i (ks_generation ((kp_slots p').[i])), (kp_pending_events p').[i]).
Proof.
  intros Hg Ht Hi p' Hs. subst p'. pose proof (go_wf _ Hg) as Hw.
  destruct (kv_moves _ _ Hw Ht) as [_ Hm]. destruct (Hm i Hi) as
    [_ E Ee|? ? _ Eb _ _ Ec _|? ? Ea _| o n ? ? Ea _| o hs _ _ _ _ Ea _| o hs _ _ _ _ Ea _| o hs _ _ _ _ Ea
    |_ _ Ea _| Eo Eb Ea|_ _ Ea _]; try (rewrite Ea in Hs; discriminate Hs);
    try (rewrite Ec in Hs; cbn in Hs; congruence).
  - rewrite E in Hs. rewrite E, Ee, <- (go_scrub _ Hg i Hi Hs).
    destruct op; try done. cbn [run_kv scrub_after].
    destruct (begin_next_scrub _ _) as [[w|] p'] eqn:Eb; [|done].
    by destruct (begin_scrub_idle _ _ _ _ i Hw Eb Hi) as [[] _].
  - pose proof (f_equal ks_generation Ea) as Eg. cbn in Eg. revert Eo Hs Eg Ea. generalize ((kp_pending_events (snd (run_kv (gh_pool g) op))).[i]). intros e -> Hs Eg Ea.
    cbn [run_kv scrub_after] in *. destruct (begin_next_scrub _ _) as [[w|] p'] eqn:E; cbn in *.
    + destruct (begin_scrub_idle _ _ _ _ i Hw E Hi) as [_ ->]; [by rewrite Eg|done].
    + unfold begin_next_scrub in E. repeat case_match; try done; injection E as _ <-; congruence.
Qed.

Lemma dirty_after_size g op out : vsize (dirty_after g op out) = vsize (gh_dirty g).
Proof.
  destruct op, out; cbn [dirty_after]; try destruct succeeded; try destruct ready; try done;
    (destruct (_ && _) || destruct (ok _)); by rewrite ?mark_size, ?vsize_map.
Qed.

#[export] Instance ghost_ok_inv : MachineInv ghost_ok.
Proof.
  split.
  - intros [p d sc] (Hi & Hd & Hsc). cbn in *. subst.
    assert (Hw : kv_wf p) by by apply (inv_init (MachineInv := kv_wf_inv)).
    destruct Hi as (n & kv & md & _ & _ & E). unfold QwenKvSlotPool_Create in E.
    assert (Hu : forall i, 0 <= i < vsize (kp_slots p) -> ks_state ((kp_slots p).[i]) = KvState.kUninitialized).
    { intros i Hi. apply (so_state _ _ _ (kw_slots _ Hw i Hi)). repeat case_match; try done.
      by injection E as <-. }
    split; cbn; [done|by rewrite vsize_map|..]; intros i Hi; rewrite (Hu i Hi); done.
  - intros g op Hg Ht. cbn [m_run ghost_Machine]. unfold run_ghost.
    pose proof (inv_run (MachineInv := kv_wf_inv) _ op (go_wf _ Hg) Ht) as Hw'.
    destruct (kv_moves _ op (go_wf _ Hg) Ht) as [Hsz _].
    pose proof (fun i => ghost_clean g op i Hg Ht) as Hc. pose proof (fun i => ghost_scrub g op i Hg Ht) as Hsc.
    cbn [m_run kv_Machine] in *. destruct (run_kv (gh_pool g) op) as [out p'] eqn:E. cbn [snd fst] in *.
    split; cbn; [done| |rewrite Hsz; auto..]. rewrite dirty_after_size, Hsz. apply Hg.
Qed.

(** C4. No block that may hold the data of an earlier sequence is handed to a
    sequence: in every history of calls, with any outcome of the device, the blocks
    that a reservation returns and the blocks that a publication accepts were all
    cleared, in full and after the last publication they were part of. *)
Theorem kv_blocks_clean g (Hr : m_reachable g) :
  (forall owner n hs p', is_u32 owner -> is_u32 n -> reserve (gh_pool g) owner n = (Value hs, p') ->
     Forall (fun h => (gh_dirty g).[bh_slot h] = false) hs) /\
  (forall owner hs s p', Forall handle_typed hs -> publish (gh_pool g) owner hs = (s, p') -> ok s = true ->
     Forall (fun h => (gh_dirty g).[bh_slot h] = false) hs).
Proof.
  pose proof (reachable_inv ghost_ok g Hr) as Hg. pose proof (go_wf _ Hg) as Hw. split.
  - intros owner n hs p' Ho Hn E. destruct (reserve_spec _ _ _ _ _ Hw Ho Hn E) as [_ _ He Hh _ Hc _ ->].
    pose proof (exact_range _ _ _ _ He Hh) as Hx. cbn in Hx. rewrite update_slots_size in Hx.
    rewrite Forall_map in Hx. rewrite !Forall_forall in *. intros h Hin. apply (go_clean _ Hg).
    + by apply Hx.
    + destruct (Hc h Hin) as [[-> _] _]. done.
  - intros owner hs s p' Hh E Hs. destruct (publish_done _ _ _ _ _ E Hs) as [He _].
    pose proof (exact_range _ _ _ _ He Hh) as Hx. rewrite Forall_map in Hx. rewrite Forall_forall in Hx.
    apply Forall_forall. intros h Hin. apply (go_clean _ Hg); [by apply Hx|].
    assert (Hm : bh_slot h ∈ map bh_slot hs) by (apply list_elem_of_fmap; by exists h).
    by destruct (publish_attaches _ _ _ _ _ _ E Hs Hh Hm) as [_ ->].
Qed.

(** ** Handles that were given back *)

(** The calls that give back the block of handle [h]. *)
Definition gives_back (op : kv_op) (h : QwenKvBlockHandle) : Prop :=
  match op with
  | KvRollback _ hs => h ∈ hs
  | KvReclaim h' _ _ _ => h' = h
  | _ => False
  end.

(** The block of [h] was reserved anew since, or is no sequence's. *)
Definition retired (p : QwenKvSlotPool) (h : QwenKvBlockHandle) : Prop :=
  let s := (kp_slots p).[bh_slot h] in
  0 <= bh_slot h < vsize (kp_slots p) /\ ks_state s <> KvState.kUninitialized /\
  (bh_generation h < ks_generation s \/
   bh_generation h = ks_generation s /\ attached (ks_state s) = false).

Lemma retired_run p h op : kv_wf p -> m_typed op -> retired p h -> retired (snd (run_kv p op)) h.
Proof.
  intros Hw Ht (Hi & Hu & Hg). destruct (kv_moves p op Hw Ht) as [Hsz Hm]. unfold retired.
  rewrite Hsz. split; [done|].
  destruct (Hm _ Hi) as [_ E _|? ? _ Eb _ _ E _|_ Eb E _|? ? _ Eb E _|? ? _ _ _ Eb E _|? ? _ _ _ Eb E _
    |? ? _ _ _ Eb E|_ Eb E _|_ Eb E|_ Eb E _]; rewrite E; cbn; rewrite ?Eb in *; cbn in *; try done;
    (split; [congruence|intuition (lia || congruence)]).
Qed.

Lemma retired_trace ops p h :
  kv_wf p -> Forall m_typed ops -> retired p h -> retired (snd (m_trace p ops)) h.
Proof.
  revert p. induction ops as [|op ops IH]; intros p Hw Ht Hx; [done|].
  apply Forall_cons in Ht as [Ht Hts]. rewrite m_trace_cons. cbn [snd]. apply IH; [|done|].
  - by apply inv_run.
  - by apply retired_run.
Qed.

Lemma rollback_retires p owner hs s p' h :
  kv_wf p -> Forall handle_typed hs -> rollback p owner hs = (s, p') -> ok s = true -> h ∈ hs ->
  retired p' h.
Proof.
  intros Hw Ht E Hs Hin. unfold rollback in E.
  destruct (not_ready p || _); [injection E as <- <-; by rewrite ok_FailedPrecondition in Hs|].
  destruct (ok (validate_exact_owner_set _ _ _ _)) eqn:Ev; cbn [negb] in E; injection E as <- <-;
    [|by rewrite Hs in Ev].
  apply validate_exact_ok in Ev as He. pose proof (exact_range _ _ _ _ He Ht) as Hr.
  assert (Hm : bh_slot h ∈ map bh_slot hs) by (apply list_elem_of_fmap; by exists h).
  pose proof Hm as (Hi & _)%(exact_elem _ _ _ _ _ He Ht).
  pose proof (ex_valid _ _ _ _ He) as Hv. rewrite Forall_forall in Hv. destruct (Hv h Hin) as (_ & Hg & _).
  unfold retired. cbn. rewrite update_slots_size.
  rewrite update_slots_at, bool_decide_true by (done || lia || apply He). cbn. auto.
Qed.

Lemma reclaim_retires p h e ready succeeded s p' :
  kv_wf p -> handle_typed h -> complete_reclaim_event p h e ready succeeded = (s, p') -> ok s = true ->
  retired p' h.
Proof.
  intros Hw [[H0 _] _] E Hs. unfold complete_reclaim_event in E.
  destruct (not_ready p || _) eqn:Er; [injection E as <- <-; by rewrite ok_FailedPrecondition in Hs|].
  destruct (event_stale _ _ _ _) eqn:Es; [injection E as <- <-; by rewrite ok_FailedPrecondition in Hs|].
  destruct ready, succeeded; cbn [negb] in E; injection E as <- <-; try done.
  apply event_stale_false in Es as (_ & Hg & _). breflect.
  assert (Hi : 0 <= bh_slot h < vsize (kp_slots p)) by lia.
  unfold retired. cbn. rewrite vsize_vput, vat_vput_eq by done. cbn. auto.
Qed.

Lemma retired_stale p h owner st :
  retired p h -> attached st = true -> ok (validate_handle p h owner st) = false.
Proof.
  intros (Hi & _ & Hg) Ha. unfold validate_handle. destruct (_ >=? _) eqn:E; [done|].
  destruct (_ || _) eqn:Ev; [by rewrite ok_FailedPrecondition|]. breflect. exfalso.
  destruct Hg as [|[_ Hf]]; [lia|]. unfold in_state in *. breflect. congruence.
Qed.

(** The calls through which a sequence uses the block of [h], and those that end its last
    use. *)
Definition uses (op : kv_op) (h : QwenKvBlockHandle) : Prop :=
  match op with
  | KvPublish _ hs | KvRollback _ hs | KvCommitPrefix _ hs _ | KvRelease _ hs _ => h ∈ hs
  | KvCommitTokens _ h' _ | KvReclaim h' _ _ _ => h' = h
  | _ => False
  end.

Lemma retired_exact p h owner hs st :
  retired p h -> attached st = true -> h ∈ hs -> ok (validate_exact_owner_set p owner hs st) = false.
Proof.
  intros Hx Ha Hin. destruct (ok (validate_exact_owner_set p owner hs st)) eqn:E; [|done].
  apply validate_exact_ok in E as [_ Hv _]. rewrite Forall_forall in Hv.
  destruct (Hv h Hin) as (_ & Hg & _ & Hst & _). destruct Hx as (_ & _ & [|[_ Hf]]); [lia|congruence].
Qed.

Lemma retired_refused p h op :
  retired p h -> uses op h -> exists s, run_kv p op = (KvStatus s, p) /\ ok s = false.
Proof.
  intros Hx Hu. destruct op; try done; cbn [run_kv] in *; cbn in Hu.
  - unfold publish. destruct (_ || _); [by eexists|]. rewrite (retired_exact p h) by done. eexists. split; [done|].
    by apply (retired_exact p h).
  - unfold rollback. destruct (_ || _); [by eexists|]. rewrite (retired_exact p h) by done. eexists. split; [done|].
    by apply (retired_exact p h).
  - subst. unfold commit_valid_tokens. destruct (_ || _); [by eexists|]. rewrite retired_stale by done.
    eexists. split; [done|]. by apply retired_stale.
  - unfold commit_prefix. destruct (prefix_invalid _ _ _); [by eexists|]. rewrite (retired_exact p h) by done.
    eexists. split; [done|]. by apply (retired_exact p h).
  - unfold release. destruct (_ || _); [by eexists|]. rewrite (retired_exact p h) by done. eexists. split; [done|].
    by apply (retired_exact p h).
  - subst. unfold complete_reclaim_event. destruct (_ || _); [by eexists|].
    destruct (event_stale _ _ _ _) eqn:Es; [by eexists|]. apply event_stale_false in Es as (Hs & Hg & _). exfalso.
    destruct Hx as (_ & _ & [|[_ Hf]]); [lia|]. by rewrite Hs in Hf.
Qed.

(** C20. A handle never comes back to life.  Once its block was given back, by a roll back
    of the reservation or by the event of its last use, every later call that uses the
    block through the handle is refused and changes nothing: no publication, roll back,
    commit, projection, release or reclaim accepts it, whatever calls came in between,
    further reservations of the same block included.  (The one call that still takes the
    handle is [complete_scrub], by which the device reports the clearing of the block.) *)
Theorem kv_handles_never_revive p op ops h s (Hr : m_reachable p) (Ht : Forall m_typed (op :: ops))
    (Hg : gives_back op h) (Ho : fst (run_kv p op) = KvStatus s) (Hs : ok s = true)
    (p' := snd (m_trace p (op :: ops))) :
  (forall later, uses later h -> exists s', run_kv p' later = (KvStatus s', p') /\ ok s' = false) /\
  (forall owner hs n, h ∈ hs -> rok (project_prefix p' owner hs n) = false).
Proof.
  assert (Hx : retired p' h).
  { pose proof (reachable_inv kv_wf p Hr) as Hw. apply Forall_cons in Ht as [Ht Hts].
    unfold p'. rewrite m_trace_cons. cbn [snd m_run kv_Machine].
    apply retired_trace; [by apply (inv_run (MachineInv := kv_wf_inv))|done|].
    destruct op; try done; cbn in Ho |- *.
    - destruct (rollback p owner handles) as [s' p1] eqn:E. injection Ho as ->.
      by eapply rollback_retires; [| |exact E|..]; [|apply Ht|..].
    - cbn in Hg. subst handle.
      destruct (complete_reclaim_event p h event ready succeeded) as [s' p1] eqn:E. injection Ho as ->.
      by eapply reclaim_retires; [| |exact E|]. }
  clearbody p'. split; [intros later; by apply retired_refused|]. intros owner hs n Hin.
  unfold project_prefix. destruct (prefix_invalid _ _ _); [done|]. by rewrite (retired_exact p' h) by done.
Qed.

(** ** Reservations *)

Lemma select_clean_Error slots o n e :
  select_clean slots o n = Error e ->
  Exists (fun s => ks_state s = KvState.kFreeClean /\ ks_generation s = u32_max) slots.
Proof.
  revert o n e. induction slots as [|s l IH]; intros o [|n] e; cbn; try done.
  destruct (in_state _ s) eqn:E; [|intros H; right; by eapply IH].
  apply bool_decide_eq_true in E. destruct (_ =? u32_max) eqn:Eg; [intros _; left; split; [done|lia]|].
  destruct (select_clean l _ _) eqn:Ei; cbn; [done|]. intros _. right. by eapply IH.
Qed.

(** A reservation is served in full or refused without effect, and it is refused
    exactly for cause: the pool is not ready, the request is malformed, the owner
    already holds blocks, fewer blocks are clean than asked for, or a clean block has
    used up its generations.  What is served is a set of distinct clean blocks, each
    under a generation it never had before, that are all the owner holds. *)
Theorem kv_reserve_correct p owner n (Hr : m_reachable p) (Ho : is_u32 owner) (Hn : is_u32 n) :
  match reserve p owner n with
  | (Value handles, p') => reserved p owner n handles p'
  | (Error _, p') =>
      p' = p /\
      (not_ready p = true \/ owner = kNoOwner \/ n = 0 \/
       Exists (fun s => ks_owner_sequence_index s = owner) (kp_slots p) \/
       lifecycle_count p KvState.kFreeClean < n \/
       Exists (fun s => ks_state s = KvState.kFreeClean /\ ks_generation s = u32_max) (kp_slots p))
  end.
Proof.
  pose proof (reachable_inv kv_wf p Hr) as Hw.
  destruct (reserve p owner n) as [[hs|e] p'] eqn:E; [by apply reserve_spec|].
  pose proof (reserve_ledger p owner n Hw Hn) as Hl. revert E Hl. unfold reserve.
  destruct (not_ready p); [intros [= _ <-] _; auto|].
  destruct ((owner =? kNoOwner) || (n =? 0)) eqn:E1.
  { intros [= _ <-] _. split; [done|]. apply orb_true_iff in E1 as [?%Z.eqb_eq|?%Z.eqb_eq]; auto. }
  destruct (existsb _ _) eqn:E2.
  { intros [= _ <-] _. split; [done|]. do 3 right. left. apply existsb_exists in E2 as (s & Hs & Ex).
    apply Exists_exists. exists s. split; [by apply list_elem_of_In|lia]. }
  destruct (_ >? _) eqn:E3.
  { intros [= _ <-] _. split; [done|]. do 4 right. left. rewrite (kw_credits _ Hw) in E3.
    pose proof (kw_size _ Hw) as Hsz. unfold lifecycle_count, kMaximumSlots in *.
    pose proof (count_if_bounds (in_state KvState.kFreeClean) (kp_slots p)).
    rewrite wrap32_id by (unfold is_u32; lia). lia. }
  destruct (select_clean _ _ _) eqn:E4.
  - destruct (_ =? n); [done|]. intros _ []. done.
  - intros [= _ <-] _. split; [done|]. do 5 right. by eapply select_clean_Error.
Qed.

(** ** A run of the pool *)

(** Two blocks: sanitized, reserved, published, released, reclaimed, one of them
    scrubbed. *)
Definition sample_pool : QwenKvSlotPool :=
  MkKvPool [MkSlotState 0 kNoOwner 0 KvState.kUninitialized 0 0;
            MkSlotState 0 kNoOwner 0 KvState.kUninitialized 0 0]
    [no_event; no_event] 3670016 32 0 1 false false.

Definition sample_handles : list QwenKvBlockHandle := [MkHandle 0 2; MkHandle 1 2].

Definition sample_kv_run : list kv_op :=
  [KvSanitize 3670016 32 true; KvReserve 7 2; KvPublish 7 sample_handles;
   KvRelease 7 sample_handles (MkCompletionEvent 5 1); KvReclaim (MkHandle 0 2) (MkCompletionEvent 5 1) true true;
   KvReclaim (MkHandle 1 2) (MkCompletionEvent 5 1) true true; KvBeginScrub (MkCompletionEvent 6 2);
   KvCompleteScrub (MkHandle 0 2) (MkCompletionEvent 6 2) kSlotPayloadBytes true true].

Lemma sample_kv_typed : Forall m_typed sample_kv_run.
Proof. repeat constructor; unfold is_u32; cbn; lia. Qed.

Lemma sample_kv_pool_reachable : m_reachable sample_pool.
Proof. exists sample_pool. split; [|done]. exists 2, 3670016, 32. by vm_compute. Qed.


Lemma kv_blocks_clean_witness :
  let g := snd (m_trace (MkGhost sample_pool [true; true] None) sample_kv_run) in
  gh_dirty g = [false; true] /\
  Forall (fun h => (gh_dirty g).[bh_slot h] = false) [MkHandle 0 3].
Proof.
  split; [vm_compute; reflexivity|].
  refine (proj1 (kv_blocks_clean (snd (m_trace (MkGhost sample_pool [true; true] None) sample_kv_run)) _)
    8 1 _ (snd (reserve (gh_pool (snd (m_trace (MkGhost sample_pool [true; true] None) sample_kv_run))) 8 1))
    _ _ _).
  - apply trace_reachable; [|apply sample_kv_typed]. exists (MkGhost sample_pool [true; true] None).
    split; [|done]. split; [|done]. exists 2, 3670016, 32. by vm_compute.
  - unfold is_u32; lia.
  - unfold is_u32; lia.
  - vm_compute; reflexivity.
Defined.

(** The block was cleared, reserved again and published to the same owner. *)
Lemma kv_handles_never_revive_witness :
  let ops := drop 4 sample_kv_run ++ [KvReserve 7 1; KvPublish 7 [MkHandle 0 3]] in
  let p' := snd (m_trace (snd (m_trace sample_pool (take 4 sample_kv_run))) ops) in
  (exists s, fst (run_kv p' (KvCommitTokens 7 (MkHandle 0 3) 4)) = KvStatus s /\ ok s = true) /\
  (exists s, run_kv p' (KvCommitTokens 7 (MkHandle 0 2) 4) = (KvStatus s, p') /\ ok s = false).
Proof.
  split; [eexists; split; vm_compute; reflexivity|].
  refine (proj1 (kv_handles_never_revive _ (KvReclaim (MkHandle 0 2) (MkCompletionEvent 5 1) true true)
    (drop 5 sample_kv_run ++ [KvReserve 7 1; KvPublish 7 [MkHandle 0 3]]) (MkHandle 0 2) StatusOk
    _ _ eq_refl _ eq_refl) (KvCommitTokens 7 (MkHandle 0 2) 4) eq_refl).
  - apply trace_reachable; [apply sample_kv_pool_reachable|].
    repeat constructor; unfold is_u32; cbn; lia.
  - repeat constructor; unfold is_u32; cbn; lia.
  - vm_compute; reflexivity.
Defined.

Lemma kv_reserve_correct_witness :
  let p := snd (m_trace sample_pool sample_kv_run) in
  reserved p 7 1 [MkHandle 0 3] (snd (reserve p 7 1)) /\ snd (reserve p 7 2) = p.
Proof.
  assert (Hr : m_reachable (snd (m_trace sample_pool sample_kv_run))).
  { apply trace_reachable; [apply sample_kv_pool_reachable|apply sample_kv_typed]. }
  split.
  - pose proof (kv_reserve_correct _ 7 1 Hr ltac:(unfold is_u32; lia) ltac:(unfold is_u32; lia)) as H.
    destruct (reserve _ 7 1) as [r p'] eqn:E.
    assert (Hv : fst (reserve (snd (m_trace sample_pool sample_kv_run)) 7 1) = Value [MkHandle 0 3])
      by (vm_compute; reflexivity).
    rewrite E in Hv. cbn in Hv. by subst r.
  - pose proof (kv_reserve_correct _ 7 2 Hr ltac:(unfold is_u32; lia) ltac:(unfold is_u32; lia)) as H.
    destruct (reserve _ 7 2) as [r p'] eqn:E.
    assert (Hv : rok (fst (reserve (snd (m_trace sample_pool sample_kv_run)) 7 2)) = false)
      by (vm_compute; reflexivity).
    rewrite E in Hv. cbn in Hv. destruct r; [done|]. apply H.
Defined.
