(* ===== verification/KvTable.v ===== *)
(** * Block tables, leases and admissions of the KV cache

    Models [qwen3_kv_block_table.cpp], [qwen3_kv_sequence_lease.cpp] and
    [qwen3_kv_admission_transaction.cpp] of [plugins/model-qwen3] with their headers
    in [include/pih/model].

    A block table holds the handles reserved for a sequence and the tokens committed
    to them; a lease couples it with the pool and records each append in both; an
    admission transaction reserves the blocks of a sequence, to be published as a
    table or rolled back.  A reference to the pool is the pool in and out of the
    call.  The move constructors are not modelled. *)

From stdpp Require Import gmap list_numbers.
From S2P Require Import Prelude Core KvPool KvPoolInv KvPoolProps.
Import KvState(QwenKvSlotLifecycle).

(** ** The block table *)

Record QwenKvSequenceDescriptor := MkDescriptor {
  sd_sequence_generation : Z;
  sd_owner_sequence_index : Z;
  sd_reserved_tokens : Z;
  sd_committed_tokens : Z;
  sd_handle_count : Z;
  sd_block_table_generation : Z;
  sd_active : Z;
  sd_reserved_zero : list Z }.

#[export] Instance eta_QwenKvSequenceDescriptor : Eta QwenKvSequenceDescriptor := fun d =>
  MkDescriptor (sd_sequence_generation d) (sd_owner_sequence_index d) (sd_reserved_tokens d)
    (sd_committed_tokens d) (sd_handle_count d) (sd_block_table_generation d) (sd_active d)
    (sd_reserved_zero d).

Record QwenKvAppendPlan := MkAppendPlan {
  ap_owner_sequence_index : Z;
  ap_expected_sequence_generation : Z;
  ap_expected_block_table_generation : Z;
  ap_previous_committed_tokens : Z;
  ap_target_committed_tokens : Z;
  ap_visible_handle_count_after_commit : Z }.

#[export] Instance QwenKvAppendPlan_inhabited : Inhabited QwenKvAppendPlan :=
  populate (MkAppendPlan 0 0 0 0 0 0).

Definition kMaximumReservedTokens : Z := 40960.

Record QwenKvBlockTable := MkBlockTable {
  bt_descriptor : QwenKvSequenceDescriptor;
  bt_handles : list QwenKvBlockHandle }.

#[export] Instance eta_QwenKvBlockTable : Eta QwenKvBlockTable := fun t =>
  MkBlockTable (bt_descriptor t) (bt_handles t).

Definition handles_for_tokens (tokens : Z) : Result Z :=
  if tokens =? 0 then Value 0
  else Value (wrap32 (wrap64 (tokens + kTokensPerSlot - 1) / kTokensPerSlot)).

(** The loop over the reserved handles; [slots] is the set of slots seen. *)
Fixpoint reserved_invalid (slots : gset Z) (handles : list QwenKvBlockHandle) : bool :=
  match handles with
  | [] => false
  | h :: rest =>
      (bh_generation h =? 0) || bool_decide (bh_slot h ∈ slots)
      || reserved_invalid ({[bh_slot h]} ∪ slots) rest
  end.

Definition QwenKvBlockTable_Create (owner_sequence_index sequence_generation reserved_tokens : Z)
    (reserved_handles : list QwenKvBlockHandle) : Result QwenKvBlockTable :=
  if (owner_sequence_index =? kNoOwner) || (sequence_generation =? 0) || (reserved_tokens =? 0)
     || (reserved_tokens >? kMaximumReservedTokens)
  then Error (InvalidArgument "Qwen KV sequence identity is invalid")
  else
    let? required := handles_for_tokens reserved_tokens in
    if negb (vsize reserved_handles =? required)
    then Error (InvalidArgument "Qwen KV reserved handle count differs from token reservation")
    else if reserved_invalid ∅ reserved_handles
    then Error (InvalidArgument "Qwen KV reserved handle is invalid")
    else Value (MkBlockTable
      (MkDescriptor sequence_generation owner_sequence_index reserved_tokens 0 required 1 1
         (replicate 57 0)) reserved_handles).

Definition prepare_append (t : QwenKvBlockTable) (target_committed_tokens : Z) :
    Result QwenKvAppendPlan :=
  let d := bt_descriptor t in
  if negb (sd_active d =? 1) || (target_committed_tokens <=? sd_committed_tokens d)
     || (target_committed_tokens >? sd_reserved_tokens d)
  then Error (InvalidArgument "Qwen KV append target is outside reservation")
  else if sd_block_table_generation d =? u32_max
  then Error (FailedPrecondition "Qwen KV block-table generation requires epoch rebuild")
  else
    let? visible := handles_for_tokens target_committed_tokens in
    Value (MkAppendPlan (sd_owner_sequence_index d) (sd_sequence_generation d)
      (sd_block_table_generation d) (sd_committed_tokens d) target_committed_tokens visible).

Definition plan_stale (d : QwenKvSequenceDescriptor) (plan : QwenKvAppendPlan) : bool :=
  negb (sd_active d =? 1)
  || negb (ap_owner_sequence_index plan =? sd_owner_sequence_index d)
  || negb (ap_expected_sequence_generation plan =? sd_sequence_generation d)
  || negb (ap_expected_block_table_generation plan =? sd_block_table_generation d)
  || negb (ap_previous_committed_tokens plan =? sd_committed_tokens d)
  || (ap_target_committed_tokens plan <=? sd_committed_tokens d)
  || (ap_target_committed_tokens plan >? sd_reserved_tokens d).

Definition validate_plan (t : QwenKvBlockTable) (plan : QwenKvAppendPlan) : Status :=
  if plan_stale (bt_descriptor t) plan then FailedPrecondition "Qwen KV append plan is stale"
  else match handles_for_tokens (ap_target_committed_tokens plan) with
  | Error e => e
  | Value visible =>
      if negb (visible =? ap_visible_handle_count_after_commit plan)
         || (visible >? vsize (bt_handles t))
      then InvalidArgument "Qwen KV append plan handle count is invalid"
      else StatusOk
  end.

Definition commit_append (t : QwenKvBlockTable) (plan : QwenKvAppendPlan) :
    Status * QwenKvBlockTable :=
  let valid := validate_plan t plan in
  if negb (ok valid) then (valid, t)
  else
    let d := bt_descriptor t in
    if sd_block_table_generation d =? u32_max
    then (FailedPrecondition "Qwen KV block-table generation requires epoch rebuild", t)
    else (StatusOk, t <| bt_descriptor :=
            d <| sd_committed_tokens := ap_target_committed_tokens plan |>
              <| sd_block_table_generation := wrap32 (sd_block_table_generation d + 1) |> |>).

Definition rollback_append (t : QwenKvBlockTable) (plan : QwenKvAppendPlan) : Status :=
  validate_plan t plan.

Definition visible_handles (t : QwenKvBlockTable) : list QwenKvBlockHandle :=
  match handles_for_tokens (sd_committed_tokens (bt_descriptor t)) with
  | Value count => take (Z.to_nat count) (bt_handles t)
  | Error _ => []
  end.

(** ** The sequence lease *)

Record QwenKvSequenceLease := MkLease {
  ls_table : QwenKvBlockTable;
  ls_released : bool }.

#[export] Instance eta_QwenKvSequenceLease : Eta QwenKvSequenceLease := fun l =>
  MkLease (ls_table l) (ls_released l).

Definition lease_slot_count (reserved_tokens : Z) : Z :=
  wrap32 (wrap64 (reserved_tokens + kTokensPerSlot - 1) / kTokensPerSlot).

Definition Admit (p : QwenKvSlotPool) (owner_sequence_index sequence_generation reserved_tokens : Z) :
    Result QwenKvSequenceLease * QwenKvSlotPool :=
  if (reserved_tokens =? 0) || (reserved_tokens >? kMaximumReservedTokens)
  then (Error (InvalidArgument "Qwen KV lease token reservation is invalid"), p)
  else
    match reserve p owner_sequence_index (lease_slot_count reserved_tokens) with
    | (Error e, p) => (Error e, p)
    | (Value handles, p) =>
        match QwenKvBlockTable_Create owner_sequence_index sequence_generation reserved_tokens
                handles with
        | Error e =>
            let '(rolled_back, p) := rollback p owner_sequence_index handles in
            if negb (ok rolled_back)
            then (Error (Internal "Qwen KV admission rollback failed"), p)
            else (Error e, p)
        | Value table =>
            let '(published, p) := publish p owner_sequence_index handles in
            if negb (ok published)
            then
              let '(rolled_back, p) := rollback p owner_sequence_index handles in
              if negb (ok rolled_back)
              then (Error (Internal "Qwen KV publish rollback failed"), p)
              else (Error published, p)
            else (Value (MkLease table false), p)
        end
    end.

Definition kLeaseReleased : Status := FailedPrecondition "Qwen KV lease is released".

Definition lease_prepare_append (l : QwenKvSequenceLease) (target_committed_tokens : Z) :
    Result QwenKvAppendPlan :=
  if ls_released l then Error kLeaseReleased
  else prepare_append (ls_table l) target_committed_tokens.

Definition lease_commit_append (l : QwenKvSequenceLease) (p : QwenKvSlotPool)
    (plan : QwenKvAppendPlan) : Status * QwenKvSequenceLease * QwenKvSlotPool :=
  if ls_released l then (kLeaseReleased, l, p)
  else
    let valid := rollback_append (ls_table l) plan in
    if negb (ok valid) then (valid, l, p)
    else
      let '(prefix, p) := commit_prefix p (sd_owner_sequence_index (bt_descriptor (ls_table l)))
                            (bt_handles (ls_table l)) (ap_target_committed_tokens plan) in
      if negb (ok prefix) then (prefix, l, p)
      else
        let '(s, table) := commit_append (ls_table l) plan in
        (s, l <| ls_table := table |>, p).

Definition lease_rollback_append (l : QwenKvSequenceLease) (plan : QwenKvAppendPlan) : Status :=
  if ls_released l then kLeaseReleased else rollback_append (ls_table l) plan.

Definition lease_release (l : QwenKvSequenceLease) (p : QwenKvSlotPool)
    (last_use_event : QwenKvCompletionEvent) : Status * QwenKvSequenceLease * QwenKvSlotPool :=
  if ls_released l then (kLeaseReleased, l, p)
  else
    let '(released, p) := release p (sd_owner_sequence_index (bt_descriptor (ls_table l)))
                            (bt_handles (ls_table l)) last_use_event in
    if negb (ok released) then (released, l, p)
    else (StatusOk, l <| ls_released := true |>, p).

(** ** The admission transaction *)

Module AdmissionState.
Inductive QwenKvAdmissionState :=
  | kReserved
  | kPublished
  | kRolledBack
  | kFailed.
End AdmissionState.
Export AdmissionState(QwenKvAdmissionState).

#[export] Instance QwenKvAdmissionState_eq : EqDecision QwenKvAdmissionState.
Proof. solve_decision. Defined.

Record QwenKvAdmissionTransaction := MkAdmission {
  at_owner_sequence_index : Z;
  at_sequence_generation : Z;
  at_reserved_tokens : Z;
  at_handles : list QwenKvBlockHandle;
  at_table : option QwenKvBlockTable;
  at_state : QwenKvAdmissionState }.

#[export] Instance eta_QwenKvAdmissionTransaction : Eta QwenKvAdmissionTransaction := fun a =>
  MkAdmission (at_owner_sequence_index a) (at_sequence_generation a) (at_reserved_tokens a)
    (at_handles a) (at_table a) (at_state a).

Definition Admission_Reserve (p : QwenKvSlotPool) (owner_sequence_index reserved_tokens : Z) :
    Result QwenKvAdmissionTransaction * QwenKvSlotPool :=
  if (owner_sequence_index =? kNoOwner) || (reserved_tokens =? 0)
     || (reserved_tokens >? kMaximumReservedTokens)
  then (Error (InvalidArgument "Qwen KV admission bounds are invalid"), p)
  else match checked_add_u64 reserved_tokens (kTokensPerSlot - 1) with
  | Error e => (Error e, p)
  | Value rounded =>
      let slot_count := wrap32 (rounded / kTokensPerSlot) in
      match acquire_sequence_generation p with
      | (Error e, p) => (Error e, p)
      | (Value sequence_generation, p) =>
          match reserve p owner_sequence_index slot_count with
          | (Error e, p) => (Error e, p)
          | (Value handles, p) =>
              (Value (MkAdmission owner_sequence_index sequence_generation reserved_tokens handles
                        None AdmissionState.kReserved), p)
          end
      end
  end.

(** The state after giving the blocks back. *)
Definition restored_state (restored : Status) : QwenKvAdmissionState :=
  if ok restored then AdmissionState.kRolledBack else AdmissionState.kFailed.

Definition admission_publish (a : QwenKvAdmissionTransaction) (p : QwenKvSlotPool) :
    Status * QwenKvAdmissionTransaction * QwenKvSlotPool :=
  if negb (bool_decide (at_state a = AdmissionState.kReserved))
  then (FailedPrecondition "Qwen KV admission is not reserved for publication", a, p)
  else match QwenKvBlockTable_Create (at_owner_sequence_index a) (at_sequence_generation a)
               (at_reserved_tokens a) (at_handles a) with
  | Error e =>
      let '(restored, p) := rollback p (at_owner_sequence_index a) (at_handles a) in
      (e, a <| at_state := restored_state restored |>, p)
  | Value table =>
      let '(published, p) := publish p (at_owner_sequence_index a) (at_handles a) in
      if negb (ok published)
      then
        let '(restored, p) := rollback p (at_owner_sequence_index a) (at_handles a) in
        (published, a <| at_state := restored_state restored |>, p)
      else (StatusOk,
            a <| at_table := Some table |> <| at_state := AdmissionState.kPublished |>, p)
  end.

Definition admission_rollback (a : QwenKvAdmissionTransaction) (p : QwenKvSlotPool) :
    Status * QwenKvAdmissionTransaction * QwenKvSlotPool :=
  if bool_decide (at_state a = AdmissionState.kRolledBack) then (StatusOk, a, p)
  else if negb (bool_decide (at_state a = AdmissionState.kReserved))
  then (FailedPrecondition "published Qwen KV admission cannot be rolled back", a, p)
  else
    let '(restored, p) := rollback p (at_owner_sequence_index a) (at_handles a) in
    (restored, a <| at_state := restored_state restored |>, p).
