(* ===== verification/KvLease.v ===== *)
(** * Leases on the KV pool

    What a sequence's lease promises while other leases, admissions and the reclaim
    of blocks run on the same pool: its blocks are its own, they record exactly its
    committed tokens, and an append within the reservation succeeds. *)

From stdpp Require Import gmap list_numbers.
From S2P Require Import Prelude Core KvPool KvPoolInv KvPoolProps KvTable.
Import KvState(QwenKvSlotLifecycle).

(** ** Block tables *)

(** The blocks that hold [n] tokens. *)
Definition blocks_of (n : Z) : Z := (n + kTokensPerSlot - 1) / kTokensPerSlot.

Lemma handles_for_tokens_eq n :
  0 <= n <= kMaximumReservedTokens -> handles_for_tokens n = Value (blocks_of n).
Proof.
  unfold kMaximumReservedTokens, handles_for_tokens, blocks_of, kTokensPerSlot. intros Hn.
  destruct (Z.eqb_spec n 0) as [->|]; [done|].
  rewrite wrap64_id by (unfold is_u64; lia). rewrite wrap32_id; [done|]. unfold is_u32.
  pose proof (Z.div_pos (n + 16 - 1) 16). pose proof (Z.div_le_upper_bound (n + 16 - 1) 16 4096). lia.
Qed.

Lemma lease_slot_count_eq n :
  1 <= n <= kMaximumReservedTokens -> lease_slot_count n = blocks_of n /\ 1 <= blocks_of n <= 2560.
Proof.
  intros Hn. split.
  - pose proof (handles_for_tokens_eq n ltac:(lia)) as H. unfold handles_for_tokens in H.
    destruct (Z.eqb_spec n 0); [lia|]. by injection H.
  - unfold blocks_of, kTokensPerSlot, kMaximumReservedTokens in *.
    pose proof (Z.div_le_lower_bound (n + 16 - 1) 16 1).
    pose proof (Z.div_lt_upper_bound (n + 16 - 1) 16 2561). lia.
Qed.

Lemma reserved_invalid_false handles slots :
  reserved_invalid slots handles = false <->
  Forall (fun h => bh_generation h <> 0) handles /\ NoDup (map bh_slot handles) /\
  Forall (fun h => bh_slot h ∉ slots) handles.
Proof.
  revert slots. induction handles as [|h hs IH]; intros slots; cbn.
  { split; [intros _; split_and!; constructor|done]. }
  rewrite !orb_false_iff, IH, !Forall_cons, NoDup_cons, bool_decide_eq_false, Z.eqb_neq.
  rewrite !Forall_forall. setoid_rewrite list_elem_of_fmap.
  split.
  - intros [[H1 H2] (H3 & H4 & H5)]. split_and!; try done.
    + intros (x & Hx & Hin). specialize (H5 x Hin). set_solver.
    + intros x Hin. specialize (H5 x Hin). set_solver.
  - intros ((H1 & H3) & (H2 & H4) & H5 & H6). split_and!; try done.
    intros x Hin Hx. apply elem_of_union in Hx as [Hx%elem_of_singleton|Hx]; [|by apply (H6 x)].
    apply H2. by exists x.
Qed.

Record table_ok (t : QwenKvBlockTable) : Prop := {
  tb_active : sd_active (bt_descriptor t) = 1;
  tb_owner : sd_owner_sequence_index (bt_descriptor t) <> kNoOwner;
  tb_sequence : sd_sequence_generation (bt_descriptor t) <> 0;
  tb_reserved : 1 <= sd_reserved_tokens (bt_descriptor t) <= kMaximumReservedTokens;
  tb_committed : 0 <= sd_committed_tokens (bt_descriptor t) <= sd_reserved_tokens (bt_descriptor t);
  tb_count : vsize (bt_handles t) = blocks_of (sd_reserved_tokens (bt_descriptor t)) /\
    sd_handle_count (bt_descriptor t) = vsize (bt_handles t);
  tb_generation : 1 <= sd_block_table_generation (bt_descriptor t) <=
    sd_committed_tokens (bt_descriptor t) + 1;
  tb_handles : NoDup (map bh_slot (bt_handles t)) /\
    Forall (fun h => bh_generation h <> 0) (bt_handles t) }.

(** The table of a new sequence. *)
Definition new_table (owner sequence_generation reserved_tokens : Z)
    (handles : list QwenKvBlockHandle) : QwenKvBlockTable :=
  MkBlockTable (MkDescriptor sequence_generation owner reserved_tokens 0 (blocks_of reserved_tokens)
    1 1 (replicate 57 0)) handles.

Lemma table_create_eq owner sg n handles :
  owner <> kNoOwner -> 1 <= n <= kMaximumReservedTokens -> vsize handles = blocks_of n ->
  NoDup (map bh_slot handles) -> Forall (fun h => bh_generation h <> 0) handles ->
  QwenKvBlockTable_Create owner sg n handles =
    if sg =? 0 then Error (InvalidArgument "Qwen KV sequence identity is invalid")
    else Value (new_table owner sg n handles).
Proof.
  intros Ho Hn Hc Hd Hg. unfold QwenKvBlockTable_Create.
  rewrite (proj2 (Z.eqb_neq owner kNoOwner)), (proj2 (Z.eqb_neq n 0)) by lia.
  replace (n >? kMaximumReservedTokens) with false by lia.
  destruct (sg =? 0); [done|]. cbn [orb]. rewrite handles_for_tokens_eq by lia. cbn.
  rewrite Hc, Z.eqb_refl. cbn. rewrite (proj2 (reserved_invalid_false handles ∅)); [done|].
  split_and!; [done..|]. apply Forall_forall. intros h _. apply not_elem_of_empty.
Qed.

Lemma new_table_ok owner sg n handles :
  owner <> kNoOwner -> sg <> 0 -> 1 <= n <= kMaximumReservedTokens -> vsize handles = blocks_of n ->
  NoDup (map bh_slot handles) -> Forall (fun h => bh_generation h <> 0) handles ->
  table_ok (new_table owner sg n handles).
Proof. intros. split; cbn; try done; lia. Qed.

(** The plan that [prepare_append] makes. *)
Definition append_plan (t : QwenKvBlockTable) (target : Z) : QwenKvAppendPlan :=
  let d := bt_descriptor t in
  MkAppendPlan (sd_owner_sequence_index d) (sd_sequence_generation d) (sd_block_table_generation d)
    (sd_committed_tokens d) target (blocks_of target).

Definition appendable (t : QwenKvBlockTable) (target : Z) : Prop :=
  sd_committed_tokens (bt_descriptor t) < target <= sd_reserved_tokens (bt_descriptor t).

Lemma prepare_append_eq t target :
  table_ok t ->
  (appendable t target /\ prepare_append t target = Value (append_plan t target)) \/
  (~ appendable t target /\
   prepare_append t target = Error (InvalidArgument "Qwen KV append target is outside reservation")).
Proof.
  intros [Ha _ _ Hr Hc _ Hg _]. unfold prepare_append, appendable. rewrite Ha, Z.eqb_refl. cbn [negb orb].
  destruct (_ || _) eqn:E; [right|left].
  - split; [|done]. breflect; lia.
  - breflect. split; [lia|]. unfold kMaximumReservedTokens in *. rewrite (proj2 (Z.eqb_neq _ u32_max)) by lia.
    by rewrite handles_for_tokens_eq by (unfold kMaximumReservedTokens; lia).
Qed.

Lemma blocks_of_mono a b : a <= b -> blocks_of a <= blocks_of b.
Proof. intros. unfold blocks_of, kTokensPerSlot. apply Z.div_le_mono; lia. Qed.

(** A plan is valid exactly when it is the plan of its target. *)
Lemma validate_plan_ok t plan :
  table_ok t ->
  ok (validate_plan t plan) = true <->
  appendable t (ap_target_committed_tokens plan) /\ plan = append_plan t (ap_target_committed_tokens plan).
Proof.
  intros Ht. destruct plan as [o sg bg prev target vis]. unfold validate_plan, plan_stale, appendable, append_plan.
  cbn. rewrite (tb_active _ Ht), Z.eqb_refl. cbn [negb orb].
  pose proof (tb_reserved _ Ht) as Hr. pose proof (tb_committed _ Ht) as Hc.
  destruct (_ || _) eqn:E.
  - split; [done|]. intros [Hb [= -> -> -> -> ->]]. rewrite !Z.eqb_refl in E. cbn in E. breflect; lia.
  - breflect. rewrite handles_for_tokens_eq by (unfold kMaximumReservedTokens in *; lia).
    pose proof (blocks_of_mono target _ (ltac:(lia) : target <= sd_reserved_tokens (bt_descriptor t))) as Hm.
    rewrite <- (proj1 (tb_count _ Ht)) in Hm.
    destruct (Z.eqb_spec (blocks_of target) vis) as [<-|Hne]; cbn.
    + replace (blocks_of target >? vsize (bt_handles t)) with false by lia. split; [|done].
      intros _. split; [lia|]. by f_equal.
    + split; [done|]. by intros [_ [= _ _ _ _ ?]].
Qed.

(** The table after an append. *)
Definition appended (t : QwenKvBlockTable) (target : Z) : QwenKvBlockTable :=
  let d := bt_descriptor t in
  t <| bt_descriptor := d <| sd_committed_tokens := target |>
         <| sd_block_table_generation := sd_block_table_generation d + 1 |> |>.

Lemma commit_append_eq t plan :
  table_ok t -> ok (validate_plan t plan) = true ->
  commit_append t plan = (StatusOk, appended t (ap_target_committed_tokens plan)) /\
  table_ok (appended t (ap_target_committed_tokens plan)).
Proof.
  intros Ht Hv. unfold commit_append. rewrite Hv. cbn [negb].
  apply validate_plan_ok in Hv as [[H1 H2] _]; [|done]. destruct Ht as [Ha Ho Hs Hr Hc Hn Hg Hh].
  unfold kMaximumReservedTokens in *. rewrite (proj2 (Z.eqb_neq _ u32_max)) by lia.
  rewrite wrap32_id by (unfold is_u32; lia). split; [done|]. split; cbn; try done; lia.
Qed.

Lemma commit_append_refused t plan :
  ok (validate_plan t plan) = false -> commit_append t plan = (validate_plan t plan, t).
Proof. intros H. unfold commit_append. by rewrite H. Qed.

(** ** What other calls leave alone *)

Definition owned_at (o : Z) (p : QwenKvSlotPool) (i : Z) : Prop :=
  owned_in o KvState.kOwned ((kp_slots p).[i]) = true.

(** The blocks that [o] owns are the same, and in the same state, in both pools. *)
Definition frames (o : Z) (p p' : QwenKvSlotPool) : Prop :=
  vsize (kp_slots p') = vsize (kp_slots p) /\
  forall i, 0 <= i < vsize (kp_slots p) -> owned_at o p i \/ owned_at o p' i ->
    (kp_slots p').[i] = (kp_slots p).[i].

#[export] Instance frames_preorder o : PreOrder (frames o).
Proof.
  split; [by intros p; split|]. intros p p1 p2 [S1 H1] [S2 H2]. split; [by rewrite S2|].
  intros i Hi Hd. unfold owned_at in *. assert (E : (kp_slots p1).[i] = (kp_slots p).[i]).
  { destruct Hd as [Hd|Hd]; [by apply H1; [|left]|]. apply H1; [done|]. right.
    rewrite <- (H2 i); [done|by rewrite S1|by right]. }
  rewrite <- E. apply H2; [by rewrite S1|]. destruct Hd as [Hd|Hd]; [left; by rewrite E|by right].
Qed.

(** The calls that act on the owned blocks of [o]. *)
Definition touches (op : kv_op) (o : Z) : Prop :=
  match op with
  | KvCommitTokens o' _ _ | KvCommitPrefix o' _ _ | KvRelease o' _ _ => o' = o
  | _ => False
  end.

Lemma owned_at_spec o p i :
  owned_at o p i <-> ks_owner_sequence_index ((kp_slots p).[i]) = o /\ ks_state ((kp_slots p).[i]) = KvState.kOwned.
Proof. unfold owned_at, owned_in, in_state. by rewrite andb_true_iff, Z.eqb_eq, bool_decide_eq_true. Qed.

(** A sequence that owns a block is not disturbed by the calls for others. *)
Lemma run_frames p op o j :
  kv_wf p -> m_typed op -> ~ touches op o -> o <> kNoOwner ->
  0 <= j < vsize (kp_slots p) -> owned_at o p j -> frames o p (snd (run_kv p op)).
Proof.
  intros Hw Ht Hto Hn Hj Hoj. destruct (kv_moves p op Hw Ht) as [Hs Hm]. split; [done|].
  intros i Hi Hd. rewrite !owned_at_spec in Hd. apply owned_at_spec in Hoj as [Hoj Hsj].
  destruct (Hm i Hi) as
    [_ E _|o' v Hc Eb Eo _ E _| -> Eb E _| o' n -> Eb E _| o' hs -> _ Eo Eb E _| o' hs _ _ _ Eb E _
    | o' hs Eop _ Eo Eb E|_ Eb E _|_ Eb E| _ Eb E _]; try done; rewrite E in Hd; cbn in Hd;
    try (exfalso; destruct Hd as [[_ Hd]|[_ Hd]]; congruence).
  - exfalso. apply Hto. assert (o' = o) as -> by (rewrite <- Eo; by destruct Hd as [[<- _]|[<- _]]).
    destruct op; try done; by destruct Hc as [-> _].
  - exfalso. destruct Hd as [[_ Hd]|[Hd _]]; [congruence|]. assert (o' = o) as -> by congruence.
    pose proof (kw_owners _ Hw i j Hi Hj) as Hx. rewrite Eo, Hoj, Eb, Hsj in Hx. by specialize (Hx Hn eq_refl).
  - exfalso. apply Hto. rewrite Eop. cbn. destruct Hd as [[Hd _]|[_ Hd]]; congruence.
Qed.

(** ** The state of a lease *)

Section Lease.
Context (p : QwenKvSlotPool) (t : QwenKvBlockTable).

Definition t_owner : Z := sd_owner_sequence_index (bt_descriptor t).

(** The table's blocks are the blocks its owner has, and they record its committed
    tokens, in order. *)
Record backed : Prop := {
  bk_table : table_ok t;
  bk_typed : Forall handle_typed (bt_handles t);
  bk_exact : exact_set p t_owner (bt_handles t) KvState.kOwned;
  bk_tokens : forall m h, bt_handles t !! m = Some h ->
    ks_valid_tokens ((kp_slots p).[bh_slot h]) =
      prefix_target (sd_committed_tokens (bt_descriptor t)) (Z.of_nat m) }.

Lemma table_nonempty : table_ok t -> 1 <= vsize (bt_handles t) <= 2560.
Proof.
  intros Ht. pose proof (lease_slot_count_eq _ (tb_reserved _ Ht)). rewrite (proj1 (tb_count _ Ht)). lia.
Qed.

Lemma backed_owns : backed -> exists j, 0 <= j < vsize (kp_slots p) /\ owned_at t_owner p j.
Proof.
  intros [Ht Hh He _]. pose proof (table_nonempty Ht) as Hn. destruct (bt_handles t) as [|h hs] eqn:E; [by destruct Hn|].
  exists (bh_slot h). rewrite owned_at_spec. apply (exact_elem _ _ _ _ _ He Hh). cbn. left.
Qed.
End Lease.

Lemma frames_backed p p' t : backed p t -> frames (t_owner t) p p' -> backed p' t.
Proof.
  intros Hb Hf. pose proof Hb as [Ht Hh He Hk]. destruct Hf as [Hs Hf].
  assert (Hsame : forall h, h ∈ bt_handles t -> (kp_slots p').[bh_slot h] = (kp_slots p).[bh_slot h]).
  { intros h Hin. apply (list_elem_of_fmap_2 bh_slot) in Hin.
    apply (exact_elem _ _ _ _ _ He Hh) in Hin as (Hi & Ho). apply Hf; [done|]. left. by apply owned_at_spec. }
  split; [done..| |].
  - destruct He as [Hn Hv Hc]. split; [done| |].
    + rewrite Forall_forall in *. intros h Hin. destruct (Hv h Hin) as [Hi Hx]. unfold handle_valid.
      rewrite Hs, Hsame by done. done.
    + rewrite Hc. apply count_if_vat; [done|]. intros i Hi.
      destruct (owned_in (t_owner t) KvState.kOwned ((kp_slots p).[i])) eqn:E1;
        [by rewrite Hf by (done || by left)|].
      destruct (owned_in (t_owner t) KvState.kOwned ((kp_slots p').[i])) eqn:E2; [|done].
      rewrite <- E1, <- E2. by rewrite Hf by (done || by right).
  - intros m h Hm. rewrite Hsame by (by eapply list_elem_of_lookup_2). by apply Hk.
Qed.

Lemma run_backed p op t :
  kv_wf p -> m_typed op -> ~ touches op (t_owner t) -> backed p t -> backed (snd (run_kv p op)) t.
Proof.
  intros Hw Ht Hto Hb. destruct (backed_owns _ _ Hb) as (j & Hj & Ho). eapply frames_backed; [done|].
  eapply run_frames; [done..| |done|done]. apply Hb.
Qed.

(** ** Admission *)

(** The owner's blocks, all moved to one state. *)
Lemma exact_restate p p' owner handles st st' :
  kv_wf p -> exact_set p owner handles st -> Forall handle_typed handles -> handles <> [] ->
  owner <> kNoOwner -> st <> st' ->
  kp_slots p' = update_slots (set_slot_state st') (map bh_slot handles) (kp_slots p) ->
  exact_set p' owner handles st'.
Proof.
  intros Hw He Ht Hnil Ho Hne Hs. pose proof (exact_range _ _ _ _ He Ht) as Hr.
  pose proof (fun i => exact_elem p owner handles st i He Ht) as Hel. pose proof He as [Hn Hv Hc].
  split; [done| |].
  - apply Forall_forall. intros h Hh. rewrite Forall_forall in Hv.
    destruct (Hv h Hh) as (Hi & Hg & Howner & Hst & Hz).
    pose proof (list_elem_of_fmap_2 bh_slot _ _ Hh) as Hm. pose proof (proj1 (Hel _) Hm) as [Hx _].
    unfold handle_valid. by rewrite Hs, update_slots_size, update_slots_at, bool_decide_true by (done || lia).
  - rewrite Hs. rewrite (update_slots_count _ _ false true); [|done|done|].
    + rewrite vsize_map. replace (count_if _ _) with 0; [cbn [Z.b2z]; lia|]. symmetry.
      apply count_if_0, Forall_forall. intros s (i & Hi & <-)%list_elem_of_In%In_vat.
      apply not_true_iff_false. rewrite owned_in_true. intros [Ho' Hst'].
      destruct handles as [|h hs]; [done|].
      assert (Hm : bh_slot h ∈ map bh_slot (h :: hs)) by (by left). apply Hel in Hm as (Hj & Hoj & Hsj).
      apply Hne. rewrite <- Hsj, <- Hst'. apply (kw_owners _ Hw); [done|done|congruence..].
    + apply Forall_forall. intros i (_ & Ho' & Hst)%Hel. split.
      * apply not_true_iff_false. rewrite owned_in_true. intros [_ ?]. congruence.
      * apply owned_in_true. by rewrite <- Ho'.
Qed.

Lemma publish_total p owner handles :
  not_ready p = false -> handles <> [] -> exact_set p owner handles KvState.kAdmissionReserved ->
  publish p owner handles = (StatusOk,
    p <| kp_slots := update_slots (set_slot_state KvState.kOwned) (map bh_slot handles) (kp_slots p) |>).
Proof.
  intros Hr Hh He. unfold publish. rewrite Hr. destruct handles; [done|].
  rewrite (proj2 (Z.eqb_neq _ 0)) by (rewrite vsize_cons; pose proof (vsize_nonneg handles); lia).
  cbn [orb]. by rewrite (proj2 (validate_exact_ok _ _ _ _) He).
Qed.

Lemma rollback_total p owner handles :
  not_ready p = false -> handles <> [] -> exact_set p owner handles KvState.kAdmissionReserved ->
  rollback p owner handles = (StatusOk,
    p <| kp_slots := update_slots (free_slot KvState.kFreeClean) (map bh_slot handles) (kp_slots p) |>
      <| kp_clean_credits := wrap32 (kp_clean_credits p + wrap32 (vsize handles)) |>).
Proof.
  intros Hr Hh He. unfold rollback. rewrite Hr. destruct handles; [done|].
  rewrite (proj2 (Z.eqb_neq _ 0)) by (rewrite vsize_cons; pose proof (vsize_nonneg handles); lia).
  cbn [orb]. by rewrite (proj2 (validate_exact_ok _ _ _ _) He).
Qed.

Lemma release_total p owner handles e :
  not_ready p = false -> handles <> [] -> event_null e = false ->
  exact_set p owner handles KvState.kOwned ->
  release p owner handles e = (StatusOk,
    p <| kp_slots := update_slots (set_slot_state KvState.kReclaimPending) (map bh_slot handles) (kp_slots p) |>
      <| kp_pending_events := foldl (fun es h => es.[bh_slot h <- e]) (kp_pending_events p) handles |>).
Proof.
  intros Hr Hh Hev He. unfold release. rewrite Hr, Hev. destruct handles; [done|].
  rewrite (proj2 (Z.eqb_neq _ 0)) by (rewrite vsize_cons; pose proof (vsize_nonneg handles); lia).
  cbn [orb]. by rewrite (proj2 (validate_exact_ok _ _ _ _) He).
Qed.

Lemma reserved_generations p owner n handles p' :
  kv_wf p -> reserved p owner n handles p' -> Forall (fun h => bh_generation h <> 0) handles.
Proof.
  intros Hw Hrs. pose proof (rs_clean _ _ _ _ _ Hrs) as Hc. pose proof (exact_range _ _ _ _ (rs_exact _ _ _ _ _ Hrs) (rs_typed _ _ _ _ _ Hrs)) as Hr.
  rewrite (rs_pool _ _ _ _ _ Hrs) in Hr. cbn in Hr. rewrite update_slots_size, Forall_map in Hr.
  rewrite Forall_forall in Hc, Hr. apply Forall_forall. intros h Hh. destruct (Hc h Hh) as [_ ->].
  pose proof (not_ready_false _ (rs_ready _ _ _ _ _ Hrs)) as [Hrd _].
  pose proof (so_generation _ _ _ (kw_slots _ Hw _ (Hr h Hh)) Hrd). lia.
Qed.

Lemma reserved_nonempty p owner n handles p' : reserved p owner n handles p' -> handles <> [].
Proof. intros Hrs ->. destruct (rs_count _ _ _ _ _ Hrs) as [E ?]. change (vsize []) with 0 in E. lia. Qed.

Lemma prefix_target_0 i : 0 <= i -> prefix_target 0 i = 0.
Proof.
  intros Hi. unfold prefix_target. pose proof (wrap64_range (i * kTokensPerSlot)) as [? _].
  by replace (0 >? wrap64 (i * kTokensPerSlot)) with false by lia.
Qed.

(** What [Admit] returns when the reservation succeeded. *)
Lemma admitted_backed p owner sg n handles p1 p2 :
  kv_wf p -> is_u32 owner -> sg <> 0 -> 1 <= n <= kMaximumReservedTokens ->
  reserved p owner (blocks_of n) handles p1 -> publish p1 owner handles = (StatusOk, p2) ->
  backed p2 (new_table owner sg n handles).
Proof.
  intros Hw Ho Hsg Hn Hrs Hp. pose proof (reserved_wf _ _ _ _ _ Hw Ho Hrs) as Hw1.
  pose proof (reserved_nonempty _ _ _ _ _ Hrs) as Hnil. pose proof (rs_exact _ _ _ _ _ Hrs) as He.
  pose proof (rs_typed _ _ _ _ _ Hrs) as Ht. pose proof (rs_owner _ _ _ _ _ Hrs) as Hne.
  destruct (publish_done _ _ _ _ _ Hp eq_refl) as [_ Hs].
  split; cbn.
  - apply new_table_ok; try done; [apply (rs_count _ _ _ _ _ Hrs)|apply He|].
    exact (reserved_generations _ _ _ _ _ Hw Hrs).
  - done.
  - eapply exact_restate; [exact Hw1|exact He|done..|exact Hs].
  - intros m h Hm. pose proof (list_elem_of_lookup_2 _ _ _ Hm) as Hin.
    pose proof (exact_range _ _ _ _ He Ht) as Hr. apply (list_elem_of_fmap_2 bh_slot) in Hin.
    rewrite prefix_target_0 by lia. pose proof Hin as (Hx & _)%(exact_elem _ _ _ _ _ He Ht).
    rewrite Hs, update_slots_at, bool_decide_true by (done || lia || apply He). cbn.
    rewrite (rs_pool _ _ _ _ _ Hrs) in Hr, Hx |- *. cbn in Hr, Hx |- *. rewrite update_slots_size in Hr, Hx.
    by rewrite update_slots_at, bool_decide_true by (done || lia || apply He).
Qed.

(** The blocks are free again, under a later generation. *)
Definition given_back (p p' : QwenKvSlotPool) : Prop :=
  kp_clean_credits p' = kp_clean_credits p /\ vsize (kp_slots p') = vsize (kp_slots p) /\
  forall i, 0 <= i < vsize (kp_slots p) ->
    let s := (kp_slots p).[i] in let s' := (kp_slots p').[i] in
    s' = s \/ ks_state s = KvState.kFreeClean /\ s' = s <| ks_generation := ks_generation s + 1 |>.

Lemma reserve_rollback p owner n handles p1 p2 :
  kv_wf p -> is_u32 owner -> reserved p owner n handles p1 -> rollback p1 owner handles = (StatusOk, p2) ->
  given_back p p2.
Proof.
  intros Hw Hu Hrs Hb. pose proof (rs_exact _ _ _ _ _ Hrs) as He. pose proof (rs_typed _ _ _ _ _ Hrs) as Ht.
  pose proof (exact_range _ _ _ _ He Ht) as Hr. pose proof (kw_size _ Hw) as Hsz. unfold kMaximumSlots in Hsz.
  rewrite rollback_total in Hb; [|by rewrite (rs_pool _ _ _ _ _ Hrs); apply (rs_ready _ _ _ _ _ Hrs)|
    by eapply reserved_nonempty|done]. injection Hb as <-.
  rewrite (rs_pool _ _ _ _ _ Hrs) in Hr |- *. destruct (rs_count _ _ _ _ _ Hrs) as [Hc Hn].
  cbn in Hr |- *. pose proof (count_if_bounds (in_state KvState.kFreeClean) (kp_slots p)) as Hb.
  rewrite <- (kw_credits _ Hw) in Hb. split; [|split].
  - cbn. rewrite Hc, !wrap32_id by (unfold is_u32; rewrite ?wrap32_id by (unfold is_u32; lia); lia). lia.
  - cbn. by rewrite !update_slots_size.
  - intros i Hi. cbn. pose proof (ex_nodup _ _ _ _ He) as Hnd.
    rewrite update_slots_at by (done || lia). rewrite update_slots_size in Hr.
    rewrite update_slots_at by (done || lia). case_bool_decide as Hm; [right|by left].
    apply list_elem_of_fmap in Hm as (h & -> & Hh). pose proof (rs_clean _ _ _ _ _ Hrs) as Hcl.
    rewrite Forall_forall in Hcl. destruct (Hcl h Hh) as [[Hst Hg] _]. split; [done|].
    destruct (not_ready_false _ (rs_ready _ _ _ _ _ Hrs)) as [Hrd _].
    pose proof (so_generation _ _ _ (kw_slots _ Hw _ Hi) Hrd) as Hgen.
    destruct (so_owner _ _ _ (kw_slots _ Hw _ Hi)) as [_ Ho]. destruct (so_tokens _ _ _ (kw_slots _ Hw _ Hi)) as [_ Hv].
    rewrite Hst in Ho, Hv. cbn in Ho. specialize (Hv ltac:(done) ltac:(done)).
    unfold reserve_slot. rewrite wrap32_id by (unfold is_u32; lia).
    destruct ((kp_slots p).[bh_slot h]) as [g o v st z8 z32]. cbn in *. subst.
    assert (o = kNoOwner) as -> by (destruct (decide (o = kNoOwner)); [done|by apply Ho in n]). done.
Qed.

Lemma select_clean_code slots o n e : select_clean slots o n = Error e -> code e = kFailedPrecondition.
Proof.
  revert o n e. induction slots as [|s l IH]; intros o [|n] e; cbn; try done.
  destruct (in_state _ s); [|apply IH]. destruct (_ =? u32_max); [by intros [= <-]|].
  destruct (select_clean l _ _) eqn:Ei; cbn; [done|]. intros [= <-]. by eapply IH.
Qed.

Lemma reserve_error_same p owner n e p' :
  kv_wf p -> is_u32 n -> reserve p owner n = (Error e, p') -> p' = p /\ code e <> kInternal.
Proof.
  intros Hw Hn E. pose proof (reserve_ledger p owner n Hw Hn) as Hl. revert E Hl. unfold reserve.
  destruct (not_ready p); [by intros [= <- <-]|]. destruct (_ || _); [by intros [= <- <-]|].
  destruct (existsb _ _); [by intros [= <- <-]|]. destruct (_ >? _); [by intros [= <- <-]|].
  destruct (select_clean _ _ _) eqn:Es.
  - destruct (_ =? _); [done|]. by intros [= <- <-].
  - intros [= <- <-] _. by rewrite (select_clean_code _ _ _ _ Es).
Qed.

Lemma admit_spec p owner sg n :
  kv_wf p -> is_u32 owner -> 0 <= n ->
  match Admit p owner sg n with
  | (Value l, p') =>
      exists handles p1, sg <> 0 /\ 1 <= n <= kMaximumReservedTokens /\
        l = MkLease (new_table owner sg n handles) false /\
        reserved p owner (blocks_of n) handles p1 /\ reserve p owner (blocks_of n) = (Value handles, p1) /\
        publish p1 owner handles = (StatusOk, p')
  | (Error e, p') =>
      p' = p /\ code e <> kInternal \/
      sg = 0 /\ e = InvalidArgument "Qwen KV sequence identity is invalid" /\ given_back p p' /\
      exists handles p1, 1 <= n <= kMaximumReservedTokens /\
        reserved p owner (blocks_of n) handles p1 /\ reserve p owner (blocks_of n) = (Value handles, p1) /\
        rollback p1 owner handles = (StatusOk, p')
  end.
Proof.
  intros Hw Ho Hn. unfold Admit. destruct (_ || _) eqn:E; [by left|]. breflect.
  assert (Hb : 1 <= n <= kMaximumReservedTokens) by lia.
  destruct (lease_slot_count_eq n Hb) as [-> Hc].
  assert (Hc' : is_u32 (blocks_of n)) by (unfold is_u32; lia).
  destruct (reserve p owner (blocks_of n)) as [[handles|e] p1] eqn:Er; [|left; by eapply reserve_error_same].
  pose proof (reserve_spec _ _ _ _ _ Hw Ho Hc' Er) as Hrs. pose proof (rs_exact _ _ _ _ _ Hrs) as He.
  assert (Hnr : not_ready p1 = false) by (rewrite (rs_pool _ _ _ _ _ Hrs); apply (rs_ready _ _ _ _ _ Hrs)).
  pose proof (reserved_nonempty _ _ _ _ _ Hrs) as Hnil.
  rewrite table_create_eq; [|apply (rs_owner _ _ _ _ _ Hrs)|done|apply (rs_count _ _ _ _ _ Hrs)|apply He
    |exact (reserved_generations _ _ _ _ _ Hw Hrs)].
  destruct (Z.eqb_spec sg 0) as [->|Hsg].
  - destruct (rollback p1 owner handles) as [s p2] eqn:Eb. pose proof Eb as Eb'.
    rewrite rollback_total in Eb' by done. injection Eb' as <- E2. cbn [negb ok]. right.
    split_and!; [done|done| |by eexists _, _]. exact (reserve_rollback _ _ _ _ _ _ Hw Ho Hrs Eb).
  - destruct (publish p1 owner handles) as [s p2] eqn:Eb. pose proof Eb as Eb'.
    rewrite publish_total in Eb' by done. injection Eb' as <- E2. cbn [negb ok].
    exists handles, p1. done.
Qed.

(** A sequence that owns blocks keeps them through the admission of another. *)
Lemma admit_others p owner sg n :
  kv_wf p -> is_u32 owner -> 0 <= n ->
  let p' := snd (Admit p owner sg n) in
  kv_wf p' /\ forall t, backed p t -> backed p' t.
Proof.
  intros Hw Ho Hn. pose proof (admit_spec p owner sg n Hw Ho Hn) as H.
  assert (Hrun : forall n handles p1 op p2, reserved p owner n handles p1 ->
    reserve p owner n = (Value handles, p1) -> is_u32 n ->
    op = KvPublish owner handles \/ op = KvRollback owner handles ->
    snd (run_kv p1 op) = p2 -> kv_wf p2 /\ forall t, backed p t -> backed p2 t).
  { intros m handles p1 op p2 Hrs Er Hm Hop <-. pose proof (rs_typed _ _ _ _ _ Hrs) as Hh.
    pose proof (reserved_wf _ _ _ _ _ Hw Ho Hrs) as Hw1.
    assert (Ht : m_typed op) by (destruct Hop as [->| ->]; done).
    split; [by apply (inv_run (MachineInv := kv_wf_inv))|]. intros t Hb.
    pose proof (run_backed p (KvReserve owner m) t Hw ltac:(done) ltac:(tauto) Hb) as H1.
    cbn in H1. rewrite Er in H1. apply run_backed; [done|done| |done]. by destruct Hop as [->| ->]; intros []. }
  destruct (Admit p owner sg n) as [[l|e] p']; cbn.
  - destruct H as (handles & p1 & _ & Hb & _ & Hrs & Er & Ep). destruct (lease_slot_count_eq n Hb) as [_ Hc].
    eapply (Hrun _ handles p1 (KvPublish owner handles)); [done|done|unfold is_u32; lia|by left|].
    cbn. by rewrite Ep.
  - destruct H as [[-> _]|(_ & _ & _ & handles & p1 & Hb & Hrs & Er & Ep)]; [done|].
    destruct (lease_slot_count_eq n Hb) as [_ Hc].
    eapply (Hrun _ handles p1 (KvRollback owner handles)); [done|done|unfold is_u32; lia|by right|].
    cbn. by rewrite Ep.
Qed.

(** Admission of a sequence is all or nothing.  A lease comes with the blocks for
    its tokens, owned by its sequence and by no other, published, with a table that
    has committed nothing; the blocks of the other sequences are untouched.  A refusal
    leaves the pool as it was, except that a sequence without generation is noticed
    only after the reservation: its blocks are free again, under a later generation.
    The internal errors of the roll back paths cannot occur. *)
Theorem lease_admit_atomic p owner sg n (Hr : m_reachable p) (Ho : is_u32 owner) (Hn : 0 <= n) :
  match Admit p owner sg n with
  | (Value l, p') =>
      ls_released l = false /\ backed p' (ls_table l) /\ t_owner (ls_table l) = owner /\
      sd_reserved_tokens (bt_descriptor (ls_table l)) = n /\
      sd_committed_tokens (bt_descriptor (ls_table l)) = 0 /\
      kp_clean_credits p' = kp_clean_credits p - blocks_of n /\
      (forall t, backed p t -> backed p' t /\ t_owner t <> owner)
  | (Error e, p') => (sg <> 0 -> p' = p) /\ given_back p p' /\ code e <> kInternal
  end.
Proof.
  pose proof (reachable_inv kv_wf p Hr) as Hw. pose proof (admit_spec p owner sg n Hw Ho Hn) as H.
  assert (Hrf : given_back p p) by (split; [done|]; split; [done|]; by left).
  destruct (Admit p owner sg n) as [[l|e] p'] eqn:Ea.
  - destruct H as (handles & p1 & Hsg & Hb & -> & Hrs & Er & Ep). cbn.
    split_and!; try done; [by eapply admitted_backed| |].
    + pose proof Ep as Ep'. rewrite publish_total in Ep'; [|rewrite (rs_pool _ _ _ _ _ Hrs); apply (rs_ready _ _ _ _ _ Hrs)|
        by eapply reserved_nonempty|apply (rs_exact _ _ _ _ _ Hrs)].
      injection Ep' as <-. by rewrite (rs_pool _ _ _ _ _ Hrs).
    + intros t Ht. pose proof (admit_others p owner sg n Hw Ho Hn) as [_ Hk]. rewrite Ea in Hk.
      split; [by apply Hk|]. destruct (backed_owns _ _ Ht) as (j & Hj & [Hoj _]%owned_at_spec).
      intros E. apply (rs_vacant _ _ _ _ _ Hrs j Hj). congruence.
  - destruct H as [[-> ?]|(-> & -> & Hg & _)]; done.
Qed.

(** ** Appends *)

Lemma prefix_target_mono c c' i : 0 <= i -> c <= c' -> prefix_target c i <= prefix_target c' i.
Proof.
  intros Hi Hc. unfold prefix_target. generalize (wrap64 (i * kTokensPerSlot)). intros b.
  unfold kTokensPerSlot. repeat case_match; breflect; lia.
Qed.

Lemma blocks_of_covers n : n <= blocks_of n * kTokensPerSlot.
Proof.
  unfold blocks_of, kTokensPerSlot.
  pose proof (Z.div_mod (n + 16 - 1) 16). pose proof (Z.mod_pos_bound (n + 16 - 1) 16). lia.
Qed.

(** The pool after the prefix of a sequence grew. *)
Definition prefix_pool (p : QwenKvSlotPool) (t : QwenKvBlockTable) (target : Z) : QwenKvSlotPool :=
  p <| kp_slots := write_prefix (kp_slots p) target 0 (bt_handles t) |>.

Lemma commit_prefix_backed p t target :
  backed p t -> appendable t target ->
  commit_prefix p (t_owner t) (bt_handles t) target =
    if not_ready p then (InvalidArgument "Qwen KV committed prefix is invalid", p)
    else (StatusOk, prefix_pool p t target).
Proof.
  intros [Ht Hh He Hk] [H1 H2]. unfold commit_prefix, prefix_invalid. pose proof (table_nonempty t Ht) as Hn.
  destruct (not_ready p); [done|]. cbn [orb]. pose proof (tb_committed _ Ht) as Hc.
  rewrite (proj2 (Z.eqb_neq _ 0)), (proj2 (Z.eqb_neq target 0)) by lia. cbn [orb].
  rewrite wrap64_id by (unfold is_u64, kTokensPerSlot; lia).
  pose proof (blocks_of_covers (sd_reserved_tokens (bt_descriptor t))) as Hcov.
  rewrite <- (proj1 (tb_count _ Ht)) in Hcov.
  replace (target >? vsize (bt_handles t) * kTokensPerSlot) with false by lia.
  rewrite (proj2 (validate_exact_ok _ _ _ _) He). cbn [negb].
  rewrite (proj2 (prefix_forward _ _ _ _)); [done|]. intros m h Hm. rewrite (Hk m h Hm).
  apply prefix_target_mono; lia.
Qed.

Lemma prefix_pool_backed p t target :
  kv_wf p -> backed p t -> appendable t target -> table_ok (appended t target) ->
  backed (prefix_pool p t target) (appended t target).
Proof.
  intros Hw Hb Ha Ht'. pose proof Hb as [Ht Hh He Hk]. pose proof (exact_range _ _ _ _ He Hh) as Hr.
  destruct (write_prefix_spec target (bt_handles t) (kp_slots p) 0 (ex_nodup _ _ _ _ He) Hr) as (Hs & Hout & Hin).
  assert (Hsame : forall i, 0 <= i -> exists v,
    (write_prefix (kp_slots p) target 0 (bt_handles t)).[i] = (kp_slots p).[i] <| ks_valid_tokens := v |>).
  { intros i Hi. destruct (decide (i ∈ map bh_slot (bt_handles t))) as [(h & -> & (m & Hm)%list_elem_of_lookup)%list_elem_of_fmap|Hm].
    - eexists. by apply (Hin m h).
    - exists (ks_valid_tokens ((kp_slots p).[i])). rewrite Hout by done. by destruct ((kp_slots p).[i]). }
  split; [done|done| |].
  - destruct He as [Hn Hv Hc]. split; cbn.
    + done.
    + apply Forall_forall. intros h Hin'. rewrite Forall_forall in Hv, Hh. destruct (Hv h Hin') as [Hi Hx].
      destruct (Hsame (bh_slot h)) as [v E]; [apply (Hh h Hin')|]. unfold handle_valid. cbn. by rewrite Hs, E.
    + rewrite Hc. apply count_if_vat; [by rewrite Hs|]. intros i Hi. by destruct (Hsame i ltac:(lia)) as [v ->].
  - intros m h Hm. cbn. by rewrite (Hin m h Hm).
Qed.

Lemma lease_commit_spec p l plan :
  kv_wf p -> ls_released l = false -> backed p (ls_table l) ->
  let t := ls_table l in let target := ap_target_committed_tokens plan in
  lease_commit_append l p plan =
    if negb (ok (validate_plan t plan)) then (validate_plan t plan, l, p)
    else if not_ready p then (InvalidArgument "Qwen KV committed prefix is invalid", l, p)
    else (StatusOk, l <| ls_table := appended t target |>, prefix_pool p t target).
Proof.
  intros Hw Hl Hb t target. unfold lease_commit_append, rollback_append. rewrite Hl. fold t.
  destruct (ok (validate_plan t plan)) eqn:Ev; [|done]. cbn [negb].
  apply validate_plan_ok in Ev as Ev'; [|apply Hb]. destruct Ev' as [Ha Hp].
  fold (t_owner t). fold target. rewrite (commit_prefix_backed p t target Hb Ha).
  destruct (not_ready p); [done|]. cbn [ok negb].
  destruct (commit_append_eq t plan) as [-> _]; [apply Hb|done|done].
Qed.

(** ** Many leases on one pool *)

Record lease_world := MkWorld {
  lw_pool : QwenKvSlotPool;
  lw_leases : list QwenKvSequenceLease }.

#[export] Instance eta_lease_world : Eta lease_world := fun w => MkWorld (lw_pool w) (lw_leases w).

(** Calls on the leases, by position, and on the pool itself. *)
Inductive lease_op :=
  | LAdmit (owner sequence_generation reserved_tokens : Z)
  | LAppend (i : nat) (target : Z)
  | LCommit (i : nat) (plan : QwenKvAppendPlan)
  | LRelease (i : nat) (last_use : QwenKvCompletionEvent)
  | LPool (op : kv_op).

Inductive lease_out :=
  | LLease (r : Result QwenKvSequenceLease)
  | LStatus (s : Status)
  | LKv (o : kv_out)
  | LNone.

Definition put_lease (w : lease_world) (i : nat)
    (r : Status * QwenKvSequenceLease * QwenKvSlotPool) : lease_out * lease_world :=
  let '(s, l, p) := r in (LStatus s, MkWorld p (<[i := l]> (lw_leases w))).

Definition run_lease (w : lease_world) (op : lease_op) : lease_out * lease_world :=
  match op with
  | LAdmit owner sg n =>
      match Admit (lw_pool w) owner sg n with
      | (Value l, p) => (LLease (Value l), MkWorld p (lw_leases w ++ [l]))
      | (Error e, p) => (LLease (Error e), w <| lw_pool := p |>)
      end
  | LAppend i target =>
      match lw_leases w !! i with
      | None => (LNone, w)
      | Some l =>
          match lease_prepare_append l target with
          | Error e => (LStatus e, w)
          | Value plan => put_lease w i (lease_commit_append l (lw_pool w) plan)
          end
      end
  | LCommit i plan =>
      match lw_leases w !! i with
      | None => (LNone, w)
      | Some l => put_lease w i (lease_commit_append l (lw_pool w) plan)
      end
  | LRelease i e =>
      match lw_leases w !! i with
      | None => (LNone, w)
      | Some l => put_lease w i (lease_release l (lw_pool w) e)
      end
  | LPool op =>
      let '(o, p) := run_kv (lw_pool w) op in (LKv o, w <| lw_pool := p |>)
  end.

(** The pool is otherwise used for admissions, reclaim and scrubbing. *)
Definition around_leases (op : kv_op) : bool :=
  match op with KvCommitTokens _ _ _ | KvCommitPrefix _ _ _ | KvRelease _ _ _ => false | _ => true end.

#[export] Instance lease_op_Typed : Typed lease_op := fun op =>
  match op with
  | LAdmit owner _ n => is_u32 owner /\ 0 <= n
  | LPool op => m_typed op /\ around_leases op = true
  | _ => True
  end.

#[export] Instance lease_Machine : Machine lease_world lease_op lease_out := {|
  m_run := run_lease;
  m_init w := m_init (lw_pool w) /\ lw_leases w = [] |}.

Record leases_ok (w : lease_world) : Prop := {
  lo_pool : kv_wf (lw_pool w);
  lo_backed : forall i l, lw_leases w !! i = Some l -> ls_released l = false ->
    backed (lw_pool w) (ls_table l);
  lo_owners : forall i j l l', lw_leases w !! i = Some l -> lw_leases w !! j = Some l' -> i <> j ->
    ls_released l = false -> ls_released l' = false -> t_owner (ls_table l) <> t_owner (ls_table l') }.

(** A call on lease [i]: what it does to the lease, and what others see. *)
Lemma leases_put w i l l' p' :
  leases_ok w -> lw_leases w !! i = Some l -> kv_wf p' ->
  (ls_released l' = false -> ls_released l = false /\ t_owner (ls_table l') = t_owner (ls_table l) /\
     backed p' (ls_table l')) ->
  (forall t, backed (lw_pool w) t -> (ls_released l = false -> t_owner t <> t_owner (ls_table l)) -> backed p' t) ->
  leases_ok (MkWorld p' (<[i := l']> (lw_leases w))).
Proof.
  intros [Hw Hb Ho] Hi Hw' Hl Hk. split; cbn; [done| |].
  - intros j x Hj Hx. destruct (decide (i = j)) as [->|Hne].
    + rewrite list_lookup_insert_eq in Hj by (by eapply lookup_lt_Some). injection Hj as <-. by apply Hl.
    + rewrite list_lookup_insert_ne in Hj by done. apply Hk; [by eapply Hb|]. intros Hr. by eapply (Ho j i).
  - assert (Hsee : forall k x, <[i := l']> (lw_leases w) !! k = Some x -> ls_released x = false ->
      exists y, lw_leases w !! k = Some y /\ ls_released y = false /\ t_owner (ls_table x) = t_owner (ls_table y)).
    { intros k x Hx Hr. destruct (decide (i = k)) as [->|Hne].
      - rewrite list_lookup_insert_eq in Hx by (by eapply lookup_lt_Some). injection Hx as <-.
        exists l. by destruct (Hl Hr) as (? & ? & _).
      - rewrite list_lookup_insert_ne in Hx by done. by exists x. }
    intros j k x y Hj Hk' Hne Hx Hy. destruct (Hsee j x Hj Hx) as (x' & Hx' & Hrx & ->).
    destruct (Hsee k y Hk' Hy) as (y' & Hy' & Hry & ->). by eapply (Ho j k).
Qed.

Lemma backed_owner_u32 p t : kv_wf p -> backed p t -> is_u32 (t_owner t).
Proof.
  intros Hw Hb. destruct (backed_owns _ _ Hb) as (j & Hj & [<- _]%owned_at_spec).
  apply (so_owner _ _ _ (kw_slots _ Hw j Hj)).
Qed.

(** A call on the blocks of one table, seen by the others. *)
Lemma touch_others p t op :
  kv_wf p -> m_typed op -> (forall o, touches op o -> o = t_owner t) ->
  kv_wf (snd (run_kv p op)) /\
  forall t', backed p t' -> t_owner t' <> t_owner t -> backed (snd (run_kv p op)) t'.
Proof.
  intros Hw Ht Hto. split; [by apply (inv_run (MachineInv := kv_wf_inv))|].
  intros t' Hb Hne. apply run_backed; try done. by intros ?%Hto.
Qed.

Lemma commit_pool_others p t target :
  kv_wf p -> backed p t -> appendable t target -> not_ready p = false ->
  kv_wf (prefix_pool p t target) /\
  forall t', backed p t' -> t_owner t' <> t_owner t -> backed (prefix_pool p t target) t'.
Proof.
  intros Hw Hb Ha Hr. pose proof (commit_prefix_backed p t target Hb Ha) as E. rewrite Hr in E.
  pose proof (touch_others p t (KvCommitPrefix (t_owner t) (bt_handles t) target) Hw) as H.
  cbn in H. rewrite E in H. cbn in H. apply H; [|by intros o ->].
  pose proof (tb_committed _ (bk_table _ _ Hb)) as Hc. pose proof (tb_reserved _ (bk_table _ _ Hb)) as Hres.
  destruct Ha as [H1 H2]. unfold kMaximumReservedTokens in *.
  split; [by eapply backed_owner_u32|]. split; [apply Hb|unfold is_u32; lia].
Qed.

Lemma lease_release_spec p l e :
  kv_wf p -> ls_released l = false -> backed p (ls_table l) ->
  lease_release l p e = (fst (release p (t_owner (ls_table l)) (bt_handles (ls_table l)) e), l, p) \/
  exists p', lease_release l p e = (StatusOk, l <| ls_released := true |>, p') /\ kv_wf p' /\
    release p (t_owner (ls_table l)) (bt_handles (ls_table l)) e = (StatusOk, p') /\
    forall t', backed p t' -> t_owner t' <> t_owner (ls_table l) -> backed p' t'.
Proof.
  intros Hw Hl Hb. unfold lease_release. rewrite Hl. fold (t_owner (ls_table l)).
  pose proof (touch_others p (ls_table l) (KvRelease (t_owner (ls_table l)) (bt_handles (ls_table l)) e) Hw) as H.
  cbn in H. destruct (release p _ _ e) as [s p'] eqn:E. cbn in H. unfold release in E.
  destruct (not_ready p || _ || _).
  { injection E as <- <-. by left. }
  rewrite (proj2 (validate_exact_ok _ _ _ _) (bk_exact _ _ Hb)) in E. cbn [negb] in E. injection E as <- <-.
  right. eexists. split; [done|]. destruct H as [H1 H2]; [|by intros o ->|done].
  split; [by eapply backed_owner_u32|apply Hb].
Qed.

Lemma leases_commit w i l plan :
  leases_ok w -> lw_leases w !! i = Some l ->
  leases_ok (snd (put_lease w i (lease_commit_append l (lw_pool w) plan))).
Proof.
  intros Hw Hi. assert (Hsame : leases_ok (MkWorld (lw_pool w) (<[i := l]> (lw_leases w)))).
  { rewrite list_insert_id by done. by destruct w. }
  destruct (ls_released l) eqn:Hl; [unfold lease_commit_append; by rewrite Hl|].
  pose proof (lo_backed _ Hw i l Hi Hl) as Hb. rewrite lease_commit_spec by (done || apply Hw).
  destruct (ok (validate_plan (ls_table l) plan)) eqn:Ev; [|done]. cbn [negb].
  destruct (not_ready (lw_pool w)) eqn:Hr; [done|]. cbn [put_lease snd].
  pose proof (proj2 (commit_append_eq _ _ (bk_table _ _ Hb) Ev)) as Ht'.
  apply validate_plan_ok in Ev as [Ha _]; [|apply Hb].
  destruct (commit_pool_others _ _ _ (lo_pool _ Hw) Hb Ha Hr) as [Hw' Hk].
  apply (leases_put w i l); try done.
  - intros _. split; [done|]. split; [done|]. apply prefix_pool_backed; try done. apply Hw.
  - intros t Ht Hne. apply Hk; [done|by apply Hne].
Qed.

Lemma leases_release w i l e :
  leases_ok w -> lw_leases w !! i = Some l ->
  leases_ok (snd (put_lease w i (lease_release l (lw_pool w) e))).
Proof.
  intros Hw Hi. assert (Hsame : leases_ok (MkWorld (lw_pool w) (<[i := l]> (lw_leases w)))).
  { rewrite list_insert_id by done. by destruct w. }
  destruct (ls_released l) eqn:Hl; [unfold lease_release; by rewrite Hl|].
  pose proof (lo_backed _ Hw i l Hi Hl) as Hb.
  destruct (lease_release_spec _ _ e (lo_pool _ Hw) Hl Hb) as [->|(p' & -> & Hw' & _ & Hk)]; [done|].
  cbn [put_lease snd]. apply (leases_put w i l); try done. intros t Ht Hne. apply Hk; [done|by apply Hne].
Qed.

Lemma leases_admit w owner sg n :
  leases_ok w -> is_u32 owner -> 0 <= n -> leases_ok (snd (run_lease w (LAdmit owner sg n))).
Proof.
  intros Hw Ho Hn. cbn. pose proof (admit_spec (lw_pool w) owner sg n (lo_pool _ Hw) Ho Hn) as H.
  destruct (admit_others (lw_pool w) owner sg n (lo_pool _ Hw) Ho Hn) as [Hw' Hk].
  destruct (Admit (lw_pool w) owner sg n) as [[l|e] p']; cbn in *.
  - destruct H as (handles & p1 & Hsg & Hb & -> & Hrs & Er & Ep).
    pose proof (admitted_backed _ _ _ _ _ _ _ (lo_pool _ Hw) Ho Hsg Hb Hrs Ep) as Hnew.
    assert (Hold : forall l', ls_released l' = false -> l' ∈ lw_leases w -> t_owner (ls_table l') <> owner).
    { intros l' Hr (j & Hj)%list_elem_of_lookup. destruct (backed_owns _ _ (lo_backed _ Hw j l' Hj Hr)) as (k & Hk' & [Hx _]%owned_at_spec).
      intros E. apply (rs_vacant _ _ _ _ _ Hrs k Hk'). congruence. }
    set (new := MkLease (new_table owner sg n handles) false).
    assert (Hin : forall i l, (lw_leases w ++ [new]) !! i = Some l ->
      lw_leases w !! i = Some l \/ i = length (lw_leases w) /\ l = new).
    { intros i l [?|[? E]]%lookup_app_Some; [by left|right].
      apply list_lookup_singleton_Some in E as [? ->]. split; [lia|done]. }
    split; cbn; [done| |].
    + intros i l [Hi|[_ ->]]%Hin Hl; [by eapply Hk, Hw|done].
    + intros i j l l' Hi Hj Hne Hl Hl'. apply Hin in Hi as [Hi|[-> ->]]; apply Hin in Hj as [Hj|[-> ->]].
      * by eapply (lo_owners _ Hw i j).
      * apply Hold; [done|by eapply list_elem_of_lookup_2].
      * apply not_eq_sym, Hold; [done|by eapply list_elem_of_lookup_2].
      * done.
  - split; cbn; [done| |apply Hw]. intros i l Hi Hl. by eapply Hk, Hw.
Qed.

#[export] Instance leases_ok_inv : MachineInv leases_ok.
Proof.
  split.
  - intros [p ls] [Hi Hl]. cbn in *. subst. split; cbn; [by apply (inv_init (MachineInv := kv_wf_inv))|done|done].
  - intros w op Hw Ht. cbn [m_run lease_Machine]. destruct op; cbn [run_lease].
    + exact (leases_admit w _ _ _ Hw (proj1 Ht) (proj2 Ht)).
    + destruct (lw_leases w !! i) as [l|] eqn:Hi; [|done].
      destruct (lease_prepare_append l target); [|done]. by apply leases_commit.
    + destruct (lw_leases w !! i) as [l|] eqn:Hi; [|done]. by apply leases_commit.
    + destruct (lw_leases w !! i) as [l|] eqn:Hi; [|done]. by apply leases_release.
    + destruct Ht as [Ht Ha]. pose proof (inv_run (MachineInv := kv_wf_inv) _ op (lo_pool _ Hw) Ht) as Hw'.
      assert (Hk : forall t, backed (lw_pool w) t -> backed (snd (run_kv (lw_pool w) op)) t).
      { intros t Hb. apply run_backed; [apply Hw|done| |done]. destruct op; (done || intros []). }
      cbn in Hw'. destruct (run_kv (lw_pool w) op) as [o p']. cbn in *.
      split; cbn; [done| |apply Hw]. intros i l Hi Hl. by eapply Hk, Hw.
Qed.

Lemma visible_prefix t :
  table_ok t ->
  visible_handles t = take (Z.to_nat (blocks_of (sd_committed_tokens (bt_descriptor t)))) (bt_handles t).
Proof.
  intros Ht. unfold visible_handles. rewrite handles_for_tokens_eq; [done|].
  pose proof (tb_committed _ Ht). pose proof (tb_reserved _ Ht). lia.
Qed.

(** C7. Leases on one pool are isolated.  However their calls interleave with each
    other, with admissions and with the reclaim of blocks: two live leases share no
    block; every handle of a live lease is valid for its sequence; its blocks record
    exactly its committed tokens, sixteen to a block and in order; and the handles it
    shows are those of the blocks that hold tokens. *)
Theorem leases_isolated w (Hr : m_reachable w) i l (Hi : lw_leases w !! i = Some l)
    (Hl : ls_released l = false) :
  let t := ls_table l in let c := sd_committed_tokens (bt_descriptor t) in
  (forall j l', lw_leases w !! j = Some l' -> ls_released l' = false -> i <> j ->
     Forall (fun h => bh_slot h ∉ map bh_slot (bt_handles (ls_table l'))) (bt_handles t)) /\
  Forall (fun h => ok (validate_handle (lw_pool w) h (t_owner t) KvState.kOwned) = true) (bt_handles t) /\
  (forall m h, bt_handles t !! m = Some h ->
     ks_valid_tokens ((kp_slots (lw_pool w)).[bh_slot h]) = Z.min 16 (Z.max 0 (c - 16 * Z.of_nat m))) /\
  visible_handles t = take (Z.to_nat ((c + 15) / 16)) (bt_handles t) /\
  0 <= c <= sd_reserved_tokens (bt_descriptor t).
Proof.
  pose proof (reachable_inv leases_ok w Hr) as Hw. pose proof (lo_backed _ Hw i l Hi Hl) as Hb.
  pose proof Hb as [Ht Hh He Hk]. cbn zeta. split_and!.
  - intros j l' Hj Hl' Hne. pose proof (lo_backed _ Hw j l' Hj Hl') as [_ Hh' He' _].
    apply Forall_forall. intros h Hin Hm. apply (list_elem_of_fmap_2 bh_slot) in Hin.
    apply (exact_elem _ _ _ _ _ He Hh) in Hin as (_ & Ho & _). apply (exact_elem _ _ _ _ _ He' Hh') in Hm as (_ & Ho' & _).
    apply (lo_owners _ Hw i j l l'); try done. congruence.
  - eapply Forall_impl; [exact (ex_valid _ _ _ _ He)|]. intros h Hv. by apply validate_handle_ok.
  - intros m h Hm. rewrite (Hk m h Hm), prefix_target_eq; [unfold kTokensPerSlot; lia|].
    pose proof (table_nonempty _ Ht) as Hn. apply lookup_lt_Some in Hm. unfold vsize in Hn. lia.
  - rewrite visible_prefix by done. unfold blocks_of, kTokensPerSlot. do 3 f_equal. lia.
  - apply Ht.
  - apply Ht.
Qed.

(** Appends within the reservation always go through: on a pool that works, a live
    lease accepts a target exactly when it is past its committed tokens and within its
    reservation; it then commits the target, table and pool alike.  Otherwise nothing
    changes.  A commit can not become partial. *)
Theorem lease_append_total w i l target (Hr : m_reachable w) (Hi : lw_leases w !! i = Some l)
    (Hl : ls_released l = false) (Hp : not_ready (lw_pool w) = false) :
  let t := ls_table l in
  (appendable t target ->
   run_lease w (LAppend i target) =
     (LStatus StatusOk, MkWorld (prefix_pool (lw_pool w) t target)
                          (<[i := MkLease (appended t target) false]> (lw_leases w)))) /\
  (~ appendable t target ->
   run_lease w (LAppend i target) =
     (LStatus (InvalidArgument "Qwen KV append target is outside reservation"), w)).
Proof.
  pose proof (reachable_inv leases_ok w Hr) as Hw. pose proof (lo_backed _ Hw i l Hi Hl) as Hb.
  cbn [run_lease]. rewrite Hi. unfold lease_prepare_append. rewrite Hl.
  destruct (prepare_append_eq (ls_table l) target (bk_table _ _ Hb)) as [[Ha ->]|[Ha ->]]; [|done].
  split; [intros _|done]. rewrite lease_commit_spec by (done || apply Hw).
  assert (Hv : ok (validate_plan (ls_table l) (append_plan (ls_table l) target)) = true)
    by (by apply validate_plan_ok; [apply Hb|]).
  rewrite Hv, Hp. cbn [negb put_lease]. do 3 f_equal. destruct l as [t r]. cbn in *. by subst r.
Qed.

(** ** A run of two leases *)

Definition sample_lease_run : list lease_op :=
  [LPool (KvSanitize 3670016 32 true); LAdmit 7 1 16; LAdmit 8 2 10; LAppend 0 5].

Lemma sample_world_reachable : m_reachable (snd (m_trace (MkWorld sample_pool []) sample_lease_run)).
Proof.
  apply trace_reachable.
  - exists (MkWorld sample_pool []). split; [|done]. split; [|done]. exists 2, 3670016, 32. by vm_compute.
  - repeat constructor; unfold is_u32; cbn; lia.
Qed.

Lemma lease_admit_atomic_witness :
  let r := Admit (snd (m_trace sample_pool [KvSanitize 3670016 32 true])) 7 1 20 in
  exists l, fst r = Value l /\ bt_handles (ls_table l) = [MkHandle 0 2; MkHandle 1 2] /\
    backed (snd r) (ls_table l).
Proof.
  assert (Hr : m_reachable (snd (m_trace sample_pool [KvSanitize 3670016 32 true]))).
  { apply trace_reachable; [apply sample_kv_pool_reachable|by repeat constructor]. }
  pose proof (lease_admit_atomic _ 7 1 20 Hr ltac:(unfold is_u32; lia) ltac:(lia)) as H.
  destruct (Admit _ 7 1 20) as [r p'] eqn:E. cbn.
  assert (Hv : exists l, fst (Admit (snd (m_trace sample_pool [KvSanitize 3670016 32 true])) 7 1 20) = Value l /\
    bt_handles (ls_table l) = [MkHandle 0 2; MkHandle 1 2]) by (vm_compute; by eexists).
  rewrite E in Hv. destruct Hv as (l & Hl & Hh). cbn in Hl. subst r. exists l.
  split; [done|]. split; [exact Hh|]. exact (proj1 (proj2 H)).
Defined.

Lemma leases_isolated_witness :
  let w := snd (m_trace (MkWorld sample_pool []) sample_lease_run) in
  exists l l', lw_leases w = [l; l'] /\
    Forall (fun h => bh_slot h ∉ map bh_slot (bt_handles (ls_table l'))) (bt_handles (ls_table l)).
Proof.
  intros w. assert (E : exists l l', lw_leases w = [l; l'] /\ ls_released l = false /\ ls_released l' = false)
    by (vm_compute; by repeat eexists).
  destruct E as (l & l' & E & Hl & Hl'). exists l, l'. split; [exact E|].
  refine (proj1 (leases_isolated w sample_world_reachable 0 l _ Hl) 1%nat l' _ Hl' _).
  - by rewrite E.
  - by rewrite E.
  - done.
Defined.

Lemma lease_append_total_witness :
  let w := snd (m_trace (MkWorld sample_pool []) sample_lease_run) in
  fst (run_lease w (LAppend 0 16)) = LStatus StatusOk /\
  run_lease w (LAppend 0 17) =
    (LStatus (InvalidArgument "Qwen KV append target is outside reservation"), w).
Proof.
  intros w. assert (E : exists l, lw_leases w !! 0%nat = Some l /\ ls_released l = false /\
    sd_committed_tokens (bt_descriptor (ls_table l)) = 5 /\ sd_reserved_tokens (bt_descriptor (ls_table l)) = 16)
    by (vm_compute; by repeat eexists).
  destruct E as (l & Hi & Hl & Hc & Hn). assert (Hp : not_ready (lw_pool w) = false) by (vm_compute; reflexivity).
  split.
  - rewrite (proj1 (lease_append_total w 0 l 16 sample_world_reachable Hi Hl Hp)); [done|].
    unfold appendable. rewrite Hc, Hn. lia.
  - apply (lease_append_total w 0 l 17 sample_world_reachable Hi Hl Hp).
    unfold appendable. rewrite Hc, Hn. lia.
Defined.
