(* ===== verification/KvRecycler.v ===== *)
(** * Clearing the KV blocks

    Models [qwen3_bf16_kv_startup.cpp] and [qwen3_bf16_kv_recycler.cpp] of
    [plugins/model-qwen3] with their headers: the device memory of the pool is cleared
    at startup, and the blocks of a sequence that ended are cleared one by one before
    they are reserved again.

    The device is behind the interface [QwenBf16KvScrubDriver]: a parameter [clear] of
    the model, with a state of its own. *)

From stdpp Require Import gmap list_numbers.
From S2P Require Import Prelude Core KvPool KvPoolInv KvPoolProps KvTable KvLease.
Import KvState(QwenKvSlotLifecycle).

Record QwenBf16DeviceArenaOwner := MkArenaOwner {
  ao_base : Z;
  ao_bytes : Z;
  ao_generation : Z }.

Record QwenBf16SynchronousKvRecycler := MkRecycler {
  rc_kv_backing : Z;
  rc_kv_backing_bytes : Z;
  rc_slot_count : Z;
  rc_scrub_stream : Z;
  rc_scrub_event : Z;
  rc_next_scrub_generation : Z }.

#[export] Instance eta_QwenBf16SynchronousKvRecycler : Eta QwenBf16SynchronousKvRecycler := fun r =>
  MkRecycler (rc_kv_backing r) (rc_kv_backing_bytes r) (rc_slot_count r) (rc_scrub_stream r)
    (rc_scrub_event r) (rc_next_scrub_generation r).

(** The abstract class [QwenBf16KvRecycler]: one call, on a state of the implementation
    and on the pool. *)
Definition QwenBf16KvRecycler (RS : Type) : Type :=
  RS -> QwenKvSlotPool -> list QwenKvBlockHandle -> QwenKvCompletionEvent -> Status * RS * QwenKvSlotPool.

Definition pool_slot_count (p : QwenKvSlotPool) : Z := wrap32 (vsize (kp_slots p)).

Definition Recycler_Create (kv_backing kv_backing_bytes slot_count scrub_stream scrub_event
    first_scrub_generation : Z) : Result QwenBf16SynchronousKvRecycler :=
  let? required := checked_mul_u64 slot_count kSlotPayloadBytes in
  if (kv_backing =? 0) || (slot_count =? 0) || (slot_count >? kMaximumSlots)
     || negb (kv_backing_bytes =? required) || (scrub_stream =? 0) || (scrub_event =? 0)
     || (first_scrub_generation =? 0)
  then Error (InvalidArgument "Qwen KV recycler identity is invalid")
  else Value (MkRecycler kv_backing kv_backing_bytes slot_count scrub_stream scrub_event
                first_scrub_generation).

Section Driver.
Context {DS : Type} (clear_and_wait : DS -> Z -> Z -> Z -> Z -> Status * DS).

Definition SanitizeAndPublish (p : QwenKvSlotPool) (kv_backing kv_metadata : QwenBf16DeviceArenaOwner)
    (scrub_stream scrub_event : Z) (ds : DS) : Status * QwenKvSlotPool * DS :=
  if kp_ready p || kp_failed p || (scrub_stream =? 0) || (scrub_event =? 0)
     || (ao_base kv_backing =? 0) || (ao_generation kv_backing =? 0)
     || (ao_base kv_metadata =? 0) || (ao_generation kv_metadata =? 0)
  then (FailedPrecondition "Qwen KV startup sanitizer dependencies are invalid", p, ds)
  else
    match checked_mul_u64 (pool_slot_count p) kSlotPayloadBytes,
          checked_mul_u64 (pool_slot_count p) sizeof_QwenKvSlotState with
    | Error e, _ => (e, p, ds)
    | _, Error e => (e, p, ds)
    | Value expected_kv, Value expected_metadata =>
        if negb (ao_bytes kv_backing =? expected_kv) || negb (ao_bytes kv_metadata =? expected_metadata)
        then (InvalidArgument "Qwen KV startup backing does not match the host pool", p, ds)
        else
          let '(status, ds) := clear_and_wait ds (ao_base kv_backing) (ao_bytes kv_backing)
                                 scrub_stream scrub_event in
          if negb (ok status) then (status, snd (complete_startup_sanitize p 0 0 false), ds)
          else
            let '(status, ds) := clear_and_wait ds (ao_base kv_metadata) (ao_bytes kv_metadata)
                                   scrub_stream scrub_event in
            if negb (ok status)
            then (status, snd (complete_startup_sanitize p (ao_bytes kv_backing) 0 false), ds)
            else
              let '(s, p) := complete_startup_sanitize p (ao_bytes kv_backing) (ao_bytes kv_metadata) true in
              (s, p, ds)
    end.

(** The body of the loop, after the reclaim of the handle: scrub one block. *)
Definition scrub_one (r : QwenBf16SynchronousKvRecycler) (p : QwenKvSlotPool) (ds : DS)
    (scrub_event : QwenKvCompletionEvent) : Status * QwenKvSlotPool * DS :=
  match begin_next_scrub p scrub_event with
  | (Error e, p) => (e, p, ds)
  | (Value work, p) =>
      if negb (sw_bytes work =? kSlotPayloadBytes) || (bh_slot (sw_slot work) >=? rc_slot_count r)
      then (FailedPrecondition "Qwen KV scrub queue returned an unexpected slot", p, ds)
      else
        match checked_mul_u64 (bh_slot (sw_slot work)) kSlotPayloadBytes with
        | Error _ => (Internal "Qwen KV scrub address exceeds its backing", p, ds)
        | Value offset =>
            if (offset >? wrap64 (rc_kv_backing_bytes r - sw_bytes work))
               || (offset >? wrap64 (u64_max - rc_kv_backing r))
            then (Internal "Qwen KV scrub address exceeds its backing", p, ds)
            else
              let '(status, ds) := clear_and_wait ds (wrap64 (rc_kv_backing r + offset)) (sw_bytes work)
                                     (rc_scrub_stream r) (rc_scrub_event r) in
              let '(completed, p) := complete_scrub p (sw_slot work) scrub_event
                                       (if ok status then sw_bytes work else 0) true (ok status) in
              if negb (ok status) then (status, p, ds)
              else if negb (ok completed) then (completed, p, ds)
              else (StatusOk, p, ds)
        end
  end.

Fixpoint recycle_loop (r : QwenBf16SynchronousKvRecycler) (p : QwenKvSlotPool) (ds : DS)
    (last_use_event : QwenKvCompletionEvent) (handles : list QwenKvBlockHandle) :
    Status * QwenBf16SynchronousKvRecycler * QwenKvSlotPool * DS :=
  match handles with
  | [] => (StatusOk, r, p, ds)
  | handle :: rest =>
      if (bh_slot handle >=? rc_slot_count r) || (rc_next_scrub_generation r =? u64_max)
      then (ResourceExhausted "Qwen KV scrub identity or slot range is exhausted", r, p, ds)
      else
        let '(status, p) := complete_reclaim_event p handle last_use_event true true in
        if negb (ok status) then (status, r, p, ds)
        else
          let scrub_event := MkCompletionEvent (rc_scrub_event r) (rc_next_scrub_generation r) in
          let r := r <| rc_next_scrub_generation := wrap64 (rc_next_scrub_generation r + 1) |> in
          let '(status, p, ds) := scrub_one r p ds scrub_event in
          if negb (ok status) then (status, r, p, ds)
          else recycle_loop r p ds last_use_event rest
  end.

Definition recycle (r : QwenBf16SynchronousKvRecycler) (p : QwenKvSlotPool) (ds : DS)
    (handles : list QwenKvBlockHandle) (last_use_event : QwenKvCompletionEvent) :
    Status * QwenBf16SynchronousKvRecycler * QwenKvSlotPool * DS :=
  if negb (kp_ready p) || kp_failed p || negb (pool_slot_count p =? rc_slot_count r)
     || (vsize handles =? 0) || event_null last_use_event
  then (FailedPrecondition "Qwen KV recycler cannot run", r, p, ds)
  else recycle_loop r p ds last_use_event handles.

(** The synchronous recycler behind the interface. *)
Definition synchronous_recycler : QwenBf16KvRecycler (QwenBf16SynchronousKvRecycler * DS) :=
  fun rs p handles last_use_event =>
    let '(status, r, p, ds) := recycle (fst rs) p (snd rs) handles last_use_event in (status, (r, ds), p).
End Driver.

(** ** The recycler *)

Record recycler_ok (r : QwenBf16SynchronousKvRecycler) : Prop := {
  ro_slots : 1 <= rc_slot_count r <= kMaximumSlots;
  ro_bytes : rc_kv_backing_bytes r = rc_slot_count r * kSlotPayloadBytes;
  ro_event : rc_scrub_event r <> 0;
  ro_generation : 1 <= rc_next_scrub_generation r <= u64_max }.

(** The backing is a range of addresses. *)
Definition addressable (r : QwenBf16SynchronousKvRecycler) : Prop :=
  0 <= rc_kv_backing r /\ rc_kv_backing r + rc_kv_backing_bytes r <= u64_max.

Lemma recycler_create_ok kv_backing bytes n stream event first r :
  is_u64 n -> is_u64 first -> Recycler_Create kv_backing bytes n stream event first = Value r ->
  recycler_ok r /\ r = MkRecycler kv_backing bytes n stream event first.
Proof.
  intros Hn Hf E. unfold Recycler_Create in E. destruct (checked_mul_u64 n kSlotPayloadBytes) eqn:Em; [|done].
  apply checked_mul_u64_Value in Em as [-> _]; [|done|unfold is_u64, kSlotPayloadBytes; lia]. cbn beta iota in E.
  destruct (_ || _) eqn:Eg; [done|]. injection E as <-. breflect. split; [|done].
  unfold is_u64 in *. split; cbn; try done; lia.
Qed.

(** No block waits to be scrubbed. *)
Definition quiet (p : QwenKvSlotPool) : Prop :=
  forall i, 0 <= i < vsize (kp_slots p) ->
    ks_state ((kp_slots p).[i]) <> KvState.kFreeDirty /\ ks_state ((kp_slots p).[i]) <> KvState.kScrubbing.

(** The pool after block [i] was reclaimed and scrubbed. *)
Definition freed (p : QwenKvSlotPool) (i : Z) : QwenKvSlotPool :=
  (finish_slot p i KvState.kFreeClean) <| kp_clean_credits := kp_clean_credits p + 1 |>.

Definition reclaimable (p : QwenKvSlotPool) (e : QwenKvCompletionEvent) (h : QwenKvBlockHandle) : Prop :=
  0 <= bh_slot h < vsize (kp_slots p) /\
  ks_state ((kp_slots p).[bh_slot h]) = KvState.kReclaimPending /\
  ks_generation ((kp_slots p).[bh_slot h]) = bh_generation h /\ (kp_pending_events p).[bh_slot h] = e.

Lemma event_stale_refl p st h :
  ks_state ((kp_slots p).[bh_slot h]) = st -> ks_generation ((kp_slots p).[bh_slot h]) = bh_generation h ->
  event_stale p st h ((kp_pending_events p).[bh_slot h]) = false.
Proof.
  intros Hs Hg. unfold event_stale, in_state. cbn zeta. rewrite bool_decide_true by done.
  by rewrite Hg, !Z.eqb_refl.
Qed.

Lemma reclaim_reclaimable p h e :
  not_ready p = false -> reclaimable p e h ->
  complete_reclaim_event p h e true true = (StatusOk, finish_slot p (bh_slot h) KvState.kFreeDirty).
Proof.
  intros Hr (Hi & Hs & Hg & <-). unfold complete_reclaim_event. rewrite Hr.
  replace (bh_slot h >=? vsize (kp_slots p)) with false by lia. cbn [orb]. by rewrite event_stale_refl.
Qed.

(** The one dirty block is the next to be scrubbed. *)
Lemma begin_only_dirty p i e :
  not_ready p = false -> event_null e = false -> 0 <= i < vsize (kp_slots p) ->
  ks_state ((kp_slots p).[i]) = KvState.kFreeDirty ->
  (forall j, 0 <= j < vsize (kp_slots p) -> ks_state ((kp_slots p).[j]) <> KvState.kScrubbing /\
     (j <> i -> ks_state ((kp_slots p).[j]) <> KvState.kFreeDirty)) ->
  begin_next_scrub p e =
    (Value (MkScrubWork (MkHandle i (ks_generation ((kp_slots p).[i]))) kSlotPayloadBytes),
     p <| kp_slots := (kp_slots p).[i <- set_slot_state KvState.kScrubbing ((kp_slots p).[i])] |>
       <| kp_pending_events := (kp_pending_events p).[i <- e] |>).
Proof.
  intros Hr He Hi Hs Hq. unfold begin_next_scrub. rewrite Hr, He. cbn [orb].
  assert (Hz : count_if (in_state KvState.kScrubbing) (kp_slots p) = 0).
  { apply count_if_0, Forall_forall. intros s (j & Hj & <-)%list_elem_of_In%In_vat.
    apply bool_decide_false, Hq, Hj. }
  unfold lifecycle_count. rewrite Hz. cbn [negb Z.eqb wrap32 Z.modulo].
  destruct (first_index _ _ _) as [j|] eqn:Ej.
  - apply first_index_Some in Ej as (Hj & Hf & _). rewrite Z.sub_0_r in Hf. apply bool_decide_eq_true in Hf.
    assert (j = i) as ->; [|done]. destruct (decide (j = i)) as [|Hne]; [done|].
    by destruct (Hq j ltac:(lia)) as [_ []].
  - apply first_index_None in Ej. rewrite Forall_forall in Ej.
    pose proof (Ej _ (proj2 (list_elem_of_In _ _) (vat_In _ _ Hi))) as Hf. by apply bool_decide_eq_false in Hf.
Qed.

Lemma vput_vput {A} (l : list A) i x y : l.[i <- x].[i <- y] = l.[i <- y].
Proof. apply list_insert_insert_eq. Qed.

Section Recycle.
Context {DS : Type} (clear : DS -> Z -> Z -> Z -> Z -> Status * DS).

(** The memory of block [i]. *)
Definition block_address (r : QwenBf16SynchronousKvRecycler) (i : Z) : Z :=
  rc_kv_backing r + i * kSlotPayloadBytes.

Definition clear_block (r : QwenBf16SynchronousKvRecycler) (ds : DS) (i : Z) : Status * DS :=
  clear ds (block_address r i) kSlotPayloadBytes (rc_scrub_stream r) (rc_scrub_event r).

(** The pool while block [i] is scrubbed. *)
Definition scrubbing (p : QwenKvSlotPool) (i : Z) (e : QwenKvCompletionEvent) : QwenKvSlotPool :=
  p <| kp_slots := (kp_slots p).[i <- free_slot KvState.kScrubbing ((kp_slots p).[i])] |>
    <| kp_pending_events := (kp_pending_events p).[i <- e] |>.

Lemma complete_scrubbing p i e bytes b :
  kv_wf p -> not_ready p = false -> 0 <= i < vsize (kp_slots p) ->
  kp_clean_credits p < kMaximumSlots ->
  complete_scrub (scrubbing p i e) (MkHandle i (ks_generation ((kp_slots p).[i]))) e bytes true b =
    if b && (bytes =? kSlotPayloadBytes) then (StatusOk, freed p i)
    else (FailedPrecondition "Qwen KV scrub did not clear the complete slot",
          (scrubbing p i e) <| kp_failed := true |>).
Proof.
  intros Hw Hr Hi Hc. pose proof (kw_events _ Hw) as Hev. unfold complete_scrub.
  replace (not_ready (scrubbing p i e)) with false by (symmetry; exact Hr).
  unfold scrubbing. cbn. rewrite vsize_vput. replace (i >=? vsize (kp_slots p)) with false by lia.
  unfold event_stale, in_state. cbn. rewrite !vat_vput_eq by lia. cbn. rewrite !Z.eqb_refl, bool_decide_true by done.
  cbn. destruct b, (bytes =? kSlotPayloadBytes); try done. cbn. unfold freed, finish_slot. cbn.
  pose proof (kw_credits _ Hw) as Hk. pose proof (count_if_bounds (in_state KvState.kFreeClean) (kp_slots p)).
  unfold kMaximumSlots in Hc. rewrite wrap32_id by (unfold is_u32; lia).
  rewrite !vput_vput, vat_vput_eq by done. destruct p. cbn. done.
Qed.

Lemma begin_after_reclaim p i e :
  quiet p -> not_ready p = false -> event_null e = false -> 0 <= i < vsize (kp_slots p) ->
  begin_next_scrub (finish_slot p i KvState.kFreeDirty) e =
    (Value (MkScrubWork (MkHandle i (ks_generation ((kp_slots p).[i]))) kSlotPayloadBytes), scrubbing p i e).
Proof.
  intros Hq Hr He Hi.
  rewrite (begin_only_dirty _ i); [|done|done|cbn; by rewrite vsize_vput|cbn; by rewrite vat_vput_eq|].
  - unfold scrubbing, finish_slot. cbn. rewrite vat_vput_eq, !vput_vput by done. by destruct p.
  - intros j Hj. cbn in Hj |- *. rewrite vsize_vput in Hj. rewrite vat_vput by lia.
    destruct (Z.eqb_spec j i) as [->|]; [done|]. by destruct (Hq j Hj).
Qed.

Lemma credits_below p i :
  kv_wf p -> 0 <= i < vsize (kp_slots p) -> ks_state ((kp_slots p).[i]) <> KvState.kFreeClean ->
  0 <= kp_clean_credits p < kMaximumSlots.
Proof.
  intros Hw Hi Hs. pose proof (kw_size _ Hw) as Hsz. rewrite (kw_credits _ Hw).
  pose proof (count_if_vput (in_state KvState.kFreeClean) (kp_slots p) i
    (free_slot KvState.kFreeClean ((kp_slots p).[i])) Hi) as E.
  pose proof (count_if_bounds (in_state KvState.kFreeClean)
    ((kp_slots p).[i <- free_slot KvState.kFreeClean ((kp_slots p).[i])])) as Hb.
  pose proof (count_if_bounds (in_state KvState.kFreeClean) (kp_slots p)).
  rewrite vsize_vput in Hb. unfold in_state in E at 3 4. rewrite bool_decide_false, bool_decide_true in E by done.
  cbn [Z.b2z] in E. lia.
Qed.

Lemma scrub_one_freed r p i e ds :
  kv_wf p -> quiet p -> not_ready p = false -> recycler_ok r -> addressable r ->
  vsize (kp_slots p) = rc_slot_count r -> event_null e = false ->
  0 <= i < vsize (kp_slots p) -> ks_state ((kp_slots p).[i]) <> KvState.kFreeClean ->
  scrub_one clear r (finish_slot p i KvState.kFreeDirty) ds e =
    let '(s, ds') := clear_block r ds i in
    if ok s then (StatusOk, freed p i, ds')
    else (s, (scrubbing p i e) <| kp_failed := true |>, ds').
Proof.
  intros Hw Hq Hr Hro [Ha0 Ha1] Hn He Hi Hs. unfold scrub_one. rewrite begin_after_reclaim by done.
  pose proof (ro_slots _ Hro) as Hsl. pose proof (ro_bytes _ Hro) as Hb. pose proof (credits_below p i Hw Hi Hs) as Hc.
  cbn [sw_slot sw_bytes bh_slot]. rewrite Z.eqb_refl. replace (i >=? rc_slot_count r) with false by lia.
  unfold kSlotPayloadBytes, kMaximumSlots in *. cbn [negb orb].
  rewrite checked_mul_u64_spec by (unfold is_u64; lia).
  replace (i * 1835008 <=? u64_max) with true by lia. cbv beta iota.
  rewrite !wrap64_id by (unfold is_u64; lia).
  replace (i * 1835008 >? rc_kv_backing_bytes r - 1835008) with false by lia.
  replace (i * 1835008 >? u64_max - rc_kv_backing r) with false by lia. cbn [orb].
  unfold clear_block, block_address, kSlotPayloadBytes.
  destruct (clear ds _ _ _ _) as [s ds']. rewrite complete_scrubbing by (done || apply Hc).
  destruct (ok s) eqn:Es; cbn; [done|]. done.
Qed.

(** All the blocks of some handles. *)
Definition freed_all (p : QwenKvSlotPool) (handles : list QwenKvBlockHandle) : QwenKvSlotPool :=
  foldl (fun p h => freed p (bh_slot h)) p handles.

Definition clear_all (r : QwenBf16SynchronousKvRecycler) (ds : DS) (handles : list QwenKvBlockHandle) : DS :=
  foldl (fun ds h => snd (clear_block r ds (bh_slot h))) ds handles.

Lemma freed_wf p h e :
  kv_wf p -> quiet p -> not_ready p = false -> handle_typed h -> reclaimable p e h -> kv_wf (freed p (bh_slot h)).
Proof.
  intros Hw Hq Hr Ht Hx. pose proof Hx as (Hi & Hs & Hg & _).
  set (ev := MkCompletionEvent 1 1).
  assert (H1 : kv_wf (finish_slot p (bh_slot h) KvState.kFreeDirty)).
  { pose proof (inv_run (MachineInv := kv_wf_inv) p (KvReclaim h e true true) Hw Ht) as H. cbn in H.
    by rewrite reclaim_reclaimable in H. }
  assert (H2 : kv_wf (scrubbing p (bh_slot h) ev)).
  { pose proof (inv_run (MachineInv := kv_wf_inv) _ (KvBeginScrub ev) H1 I) as H. cbn in H.
    by rewrite begin_after_reclaim in H. }
  pose proof (inv_run (MachineInv := kv_wf_inv) _
    (KvCompleteScrub (MkHandle (bh_slot h) (ks_generation ((kp_slots p).[bh_slot h]))) ev kSlotPayloadBytes true true) H2) as H.
  cbn [m_run kv_Machine run_kv] in H. rewrite complete_scrubbing in H; [|done..|].
  - apply H. split; [apply Ht|cbn]. rewrite Hg. apply Ht.
  - apply (credits_below p (bh_slot h)); [done..|]. by rewrite Hs.
Qed.

Lemma freed_keeps p i :
  0 <= i < vsize (kp_slots p) -> quiet p -> not_ready p = false ->
  quiet (freed p i) /\ not_ready (freed p i) = false /\ vsize (kp_slots (freed p i)) = vsize (kp_slots p).
Proof.
  intros Hi Hq Hr. split_and!; [|done|cbn; apply vsize_vput]. intros j Hj. cbn in *. rewrite vsize_vput in Hj.
  rewrite vat_vput by lia. destruct (Z.eqb_spec j i) as [->|]; [done|by apply Hq].
Qed.

Lemma freed_reclaimable p h h' e :
  kv_wf p -> 0 <= bh_slot h < vsize (kp_slots p) -> bh_slot h <> bh_slot h' -> reclaimable p e h' ->
  reclaimable (freed p (bh_slot h)) e h'.
Proof.
  intros Hw Hi Hne (Hj & Hs & Hg & He). pose proof (kw_events _ Hw).
  unfold reclaimable. cbn. rewrite vsize_vput, !vat_vput_ne by lia. done.
Qed.

Hypothesis clear_ok : forall ds d b s e, ok (fst (clear ds d b s e)) = true.

Lemma recycle_loop_total e : forall handles r p ds,
  kv_wf p -> quiet p -> not_ready p = false -> recycler_ok r -> addressable r ->
  vsize (kp_slots p) = rc_slot_count r -> NoDup (map bh_slot handles) -> Forall handle_typed handles ->
  Forall (reclaimable p e) handles -> rc_next_scrub_generation r + vsize handles <= u64_max ->
  recycle_loop clear r p ds e handles =
    (StatusOk, r <| rc_next_scrub_generation := rc_next_scrub_generation r + vsize handles |>,
     freed_all p handles, clear_all r ds handles) /\
  quiet (freed_all p handles) /\ kv_wf (freed_all p handles).
Proof.
  induction handles as [|h hs IH]; intros r p ds Hw Hq Hr Hro Ha Hn Hnd Ht Hx Hg.
  { cbn. rewrite Z.add_0_r. by destruct r. }
  apply NoDup_cons in Hnd as [Hni Hnd]. apply Forall_cons in Ht as [Hth Ht]. apply Forall_cons in Hx as [Hxh Hx].
  rewrite vsize_cons in Hg. pose proof (vsize_nonneg hs) as H0. pose proof Hxh as (Hi & Hs & _).
  cbn [recycle_loop]. replace (bh_slot h >=? rc_slot_count r) with false by lia.
  pose proof (ro_generation _ Hro) as Hg0. rewrite (proj2 (Z.eqb_neq _ u64_max)) by lia. cbn [orb].
  rewrite reclaim_reclaimable by done. cbn [ok negb]. rewrite wrap64_id by (unfold is_u64; lia).
  set (r' := r <| rc_next_scrub_generation := rc_next_scrub_generation r + 1 |>).
  assert (Hro' : recycler_ok r') by (destruct Hro; split; cbn; try done; lia).
  rewrite scrub_one_freed; try done.
  2: { unfold event_null. cbn. rewrite (proj2 (Z.eqb_neq _ _)) by apply Hro.
       rewrite (proj2 (Z.eqb_neq _ _)) by lia. done. }
  2: by rewrite Hs.
  pose proof (clear_ok ds (block_address r' (bh_slot h)) kSlotPayloadBytes (rc_scrub_stream r') (rc_scrub_event r')) as Hok.
  unfold clear_block. destruct (clear ds _ _ _ _) as [s ds'] eqn:Ec. cbn in Hok. rewrite Hok. cbn [ok negb].
  destruct (freed_keeps p (bh_slot h) Hi Hq Hr) as (Hq' & Hr' & Hn').
  destruct (IH r' (freed p (bh_slot h)) ds') as (-> & Hq2 & Hw2); try done.
  - by eapply freed_wf.
  - by rewrite Hn'.
  - apply Forall_forall. intros h' Hh'. rewrite Forall_forall in Hx. apply freed_reclaimable; try done; [|by apply Hx].
    intros E. apply Hni. rewrite E. by apply list_elem_of_fmap_2.
  - cbn. lia.
  - split; [|done]. cbn [freed_all foldl]. f_equal.
    + f_equal. f_equal. rewrite vsize_cons, Z.add_assoc. done.
    + unfold clear_all. cbn [foldl]. f_equal. change (ds' = snd (clear_block r' ds (bh_slot h))).
      unfold clear_block. by rewrite Ec.
Qed.
End Recycle.

(** ** The blocks of a sequence that ended *)

Lemma freed_all_at handles : forall p,
  NoDup (map bh_slot handles) -> Forall (fun i => 0 <= i < vsize (kp_slots p)) (map bh_slot handles) ->
  kp_clean_credits (freed_all p handles) = kp_clean_credits p + vsize handles /\
  vsize (kp_slots (freed_all p handles)) = vsize (kp_slots p) /\
  forall i, 0 <= i < vsize (kp_slots p) ->
    (kp_slots (freed_all p handles)).[i] =
      if bool_decide (i ∈ map bh_slot handles) then free_slot KvState.kFreeClean ((kp_slots p).[i])
      else (kp_slots p).[i].
Proof.
  induction handles as [|h hs IH]; intros p Hn Hr; cbn [freed_all foldl map].
  { split; [by rewrite Z.add_0_r|done]. }
  apply NoDup_cons in Hn as [Hni Hn]. apply Forall_cons in Hr as [Hh Hr].
  destruct (IH (freed p (bh_slot h)) Hn) as (Hc & Hs & Hat).
  { cbn. by rewrite vsize_vput. }
  fold (freed_all (freed p (bh_slot h)) hs). split_and!.
  - rewrite Hc, vsize_cons. cbn. lia.
  - rewrite Hs. cbn. apply vsize_vput.
  - intros i Hi. rewrite Hat by (cbn; by rewrite vsize_vput). cbn. rewrite vat_vput by lia.
    destruct (Z.eqb_spec i (bh_slot h)) as [->|Hne].
    + rewrite bool_decide_false, bool_decide_true by (done || by left). done.
    + destruct (decide (i ∈ map bh_slot hs)).
      * by rewrite !bool_decide_true by (done || by right).
      * rewrite !bool_decide_false; [done| |done]. intros [?|?]%elem_of_cons; done.
Qed.

Lemma released_reclaimable p t e p1 :
  kv_wf p -> backed p t -> not_ready p = false -> event_null e = false ->
  release p (t_owner t) (bt_handles t) e = (StatusOk, p1) ->
  kv_wf p1 /\ Forall (reclaimable p1 e) (bt_handles t) /\ not_ready p1 = false /\
  kp_clean_credits p1 = kp_clean_credits p /\ vsize (kp_slots p1) = vsize (kp_slots p) /\
  forall i, 0 <= i < vsize (kp_slots p) ->
    (kp_slots p1).[i] = if bool_decide (i ∈ map bh_slot (bt_handles t))
      then set_slot_state KvState.kReclaimPending ((kp_slots p).[i]) else (kp_slots p).[i].
Proof.
  intros Hw Hb Hr He E. pose proof Hb as [Ht Hh Hx _]. pose proof (exact_range _ _ _ _ Hx Hh) as Hrg.
  pose proof (table_nonempty _ Ht) as Hne.
  assert (Hw1 : kv_wf p1).
  { pose proof (inv_run (MachineInv := kv_wf_inv) p (KvRelease (t_owner t) (bt_handles t) e) Hw) as H.
    cbn in H. rewrite E in H. apply H. split; [by eapply backed_owner_u32|done]. }
  rewrite release_total in E; try done; [|intros Hnil; rewrite Hnil in Hne; by destruct Hne].
  injection E as <-.
  destruct (set_events_spec e (bt_handles t) (kp_pending_events p)) as [_ Hat].
  { apply Hx. } { by rewrite (kw_events _ Hw). }
  split_and!; try done.
  - apply Forall_forall. intros h Hin. pose proof (list_elem_of_fmap_2 bh_slot _ _ Hin) as Hm.
    pose proof Hm as (Hi & _)%(exact_elem _ _ _ _ _ Hx Hh).
    pose proof (ex_valid _ _ _ _ Hx) as Hv. rewrite Forall_forall in Hv. destruct (Hv h Hin) as (_ & Hg & _).
    unfold reclaimable. cbn. rewrite update_slots_size, update_slots_at, bool_decide_true by (done || lia || apply Hx).
    rewrite Hat, bool_decide_true by (done || lia). done.
  - cbn. by rewrite update_slots_size.
  - intros i Hi. cbn. by rewrite update_slots_at by (done || lia || apply Hx).
Qed.

Lemma recycle_guard p r (handles : list QwenKvBlockHandle) e :
  not_ready p = false -> vsize (kp_slots p) = rc_slot_count r -> 1 <= rc_slot_count r <= kMaximumSlots ->
  handles <> [] -> event_null e = false ->
  negb (kp_ready p) || kp_failed p || negb (pool_slot_count p =? rc_slot_count r)
    || (vsize handles =? 0) || event_null e = false.
Proof.
  intros Hr Hn Hs Hh He. unfold not_ready in Hr. rewrite Hr, He. cbn [orb]. unfold pool_slot_count, kMaximumSlots in *.
  rewrite Hn, wrap32_id by (unfold is_u32; lia). rewrite Z.eqb_refl. destruct handles; [done|].
  rewrite vsize_cons. pose proof (vsize_nonneg handles). rewrite (proj2 (Z.eqb_neq _ 0)) by lia. done.
Qed.

(** C21. A sequence that ended gives all its blocks back.  From a pool in which no block
    waits to be scrubbed, the release of a lease followed by the recycling of its
    blocks runs to its end, when the device works: every block of the sequence is cleared,
    once, in full and within the backing; it is clean and has no owner; the ledger has
    grown by as many blocks, and again no block waits.  The blocks of others are
    untouched. *)
Theorem release_recycle_restores {DS} (clear : DS -> Z -> Z -> Z -> Z -> Status * DS) r w i l e ds
    (Hp : m_reachable w) (Hi : lw_leases w !! i = Some l) (Hl : ls_released l = false)
    (p := lw_pool w) (t := ls_table l) (Hr : not_ready p = false) (Hq : quiet p)
    (Hro : recycler_ok r) (Ha : addressable r) (Hn : vsize (kp_slots p) = rc_slot_count r)
    (He : event_null e = false) (Hg : rc_next_scrub_generation r + vsize (bt_handles t) <= u64_max)
    (Hok : forall ds d b s ev, ok (fst (clear ds d b s ev)) = true) :
  exists p1 r' p2,
    lease_release l p e = (StatusOk, l <| ls_released := true |>, p1) /\
    recycle clear r p1 ds (bt_handles t) e = (StatusOk, r', p2, clear_all clear r ds (bt_handles t)) /\
    kp_clean_credits p2 = kp_clean_credits p + vsize (bt_handles t) /\
    (forall i, 0 <= i < vsize (kp_slots p) ->
       (kp_slots p2).[i] = if bool_decide (i ∈ map bh_slot (bt_handles t))
         then free_slot KvState.kFreeClean ((kp_slots p).[i]) else (kp_slots p).[i]) /\
    quiet p2 /\ kv_wf p2 /\
    Forall (fun h => rc_kv_backing r <= block_address r (bh_slot h) /\
      block_address r (bh_slot h) + kSlotPayloadBytes <= rc_kv_backing r + rc_kv_backing_bytes r) (bt_handles t).
Proof.
  pose proof (reachable_inv leases_ok w Hp) as Hlo. pose proof (lo_pool _ Hlo : kv_wf p) as Hw.
  pose proof (lo_backed _ Hlo i l Hi Hl : backed p t) as Hb. pose proof Hb as [Ht Hh Hx _].
  pose proof (exact_range _ _ _ _ Hx Hh) as Hrg. pose proof (table_nonempty _ Ht) as Hne.
  assert (Hnil : bt_handles t <> []) by (intros E; rewrite E in Hne; by destruct Hne).
  destruct (release p (t_owner t) (bt_handles t) e) as [s p1] eqn:E. pose proof E as E'.
  rewrite release_total in E' by done. injection E' as <- _.
  destruct (released_reclaimable p t e p1 Hw Hb Hr He E) as (Hw1 & Hx1 & Hr1 & Hc1 & Hs1 & Hat1).
  assert (Hq1 : quiet p1).
  { intros k Hk. rewrite Hs1 in Hk. rewrite Hat1 by done. case_bool_decide; [done|by apply Hq]. }
  assert (Hn1 : vsize (kp_slots p1) = rc_slot_count r) by (by rewrite Hs1).
  assert (Hrg1 : Forall (fun i => 0 <= i < vsize (kp_slots p1)) (map bh_slot (bt_handles t))) by (by rewrite Hs1).
  destruct (recycle_loop_total clear Hok e (bt_handles t) r p1 ds) as (El & Hq2 & Hw2); try done; [apply Hx|].
  destruct (freed_all_at (bt_handles t) p1 (ex_nodup _ _ _ _ Hx) Hrg1) as (Hc2 & Hs2 & Hat2).
  eexists p1, _, (freed_all p1 (bt_handles t)). split.
  { unfold lease_release. rewrite Hl. fold t. fold (t_owner t). by rewrite E. }
  split.
  { unfold recycle. rewrite recycle_guard; [exact El|done|done|apply Hro|done|done]. }
  split_and!; try done; [lia| |].
  - intros k Hk. rewrite Hat2, Hat1 by (rewrite ?Hs1; done). by case_bool_decide.
  - apply Forall_forall. intros h Hin. apply (list_elem_of_fmap_2 bh_slot) in Hin. rewrite Forall_forall in Hrg.
    specialize (Hrg _ Hin). rewrite (ro_bytes _ Hro), <- Hn. unfold block_address, kSlotPayloadBytes. lia.
Qed.

(** The recycler refuses a block that is not released. *)
Lemma recycle_owned_fails {DS} (clear : DS -> Z -> Z -> Z -> Z -> Status * DS) r p ds h hs e :
  ks_state ((kp_slots p).[bh_slot h]) = KvState.kOwned ->
  exists s, recycle clear r p ds (h :: hs) e = (s, r, p, ds) /\ ok s = false.
Proof.
  intros Hs. unfold recycle. destruct (_ || _); [by eexists|]. cbn [recycle_loop]. destruct (_ || _); [by eexists|].
  unfold complete_reclaim_event. destruct (not_ready p || _); [by eexists|].
  unfold event_stale, in_state. rewrite Hs, bool_decide_false by done. cbn. by eexists.
Qed.

(** Blocks that a sequence still owns can not be recycled: without the release the
    recycler refuses the first block, for every device and every event, and nothing
    has changed. *)
Theorem recycle_needs_release {DS} (clear : DS -> Z -> Z -> Z -> Z -> Status * DS) r p t e ds
    (Hb : backed p t) :
  exists s, recycle clear r p ds (bt_handles t) e = (s, r, p, ds) /\ ok s = false.
Proof.
  pose proof Hb as [Ht Hh Hx _]. pose proof (table_nonempty _ Ht) as Hne.
  destruct (bt_handles t) as [|h hs] eqn:E; [by destruct Hne|]. apply recycle_owned_fails.
  apply (exact_elem _ _ _ _ _ Hx Hh). by left.
Qed.

(** ** Startup *)

(** A pool opens only on cleared memory.  The startup makes a new pool ready exactly
    when the device cleared both arenas, all of each, and reported success; then every
    block is clean.  When the device failed the pool is closed for good, and when the
    arenas do not fit the pool nothing was touched. *)
Theorem startup_opens_cleared {DS} (clear : DS -> Z -> Z -> Z -> Z -> Status * DS)
    n kv_bytes md_bytes p kv md stream event ds (Hn : 0 <= n) (Hkv : 0 <= kv_bytes)
    (Hc : QwenKvSlotPool_Create n kv_bytes md_bytes = Value p) :
  let '(s, p', ds') := SanitizeAndPublish clear p kv md stream event ds in
  if ok s then
    ao_bytes kv = n * kSlotPayloadBytes /\ ao_bytes md = n * sizeof_QwenKvSlotState /\
    kp_ready p' = true /\ kp_failed p' = false /\ kp_clean_credits p' = n /\
    Forall (fun s => ks_state s = KvState.kFreeClean) (kp_slots p') /\
    exists s1 s2 ds1, clear ds (ao_base kv) (ao_bytes kv) stream event = (s1, ds1) /\ ok s1 = true /\
      clear ds1 (ao_base md) (ao_bytes md) stream event = (s2, ds') /\ ok s2 = true
  else kp_ready p' = false /\ (p' = p /\ ds' = ds \/ kp_failed p' = true).
Proof.
  assert (Hp : 1 <= n <= 4681 /\ kp_ready p = false /\ kp_failed p = false /\ vsize (kp_slots p) = n).
  { unfold QwenKvSlotPool_Create, kMaximumSlots in Hc. destruct (_ || _) eqn:E; [done|]. breflect.
    repeat case_match; try done. injection Hc as <-. cbn. rewrite vsize_replicate. lia. }
  destruct Hp as (Hb & Hr & Hf & Hs). unfold SanitizeAndPublish. rewrite Hr, Hf. cbn [orb].
  destruct (_ || _); [by split; [|left]|].
  assert (Hcount : pool_slot_count p = n) by (unfold pool_slot_count; rewrite Hs; apply wrap32_id; unfold is_u32; lia).
  rewrite Hcount, !checked_mul_u64_spec by (unfold is_u64, kSlotPayloadBytes, sizeof_QwenKvSlotState; lia).
  unfold kSlotPayloadBytes, sizeof_QwenKvSlotState.
  replace (n * 1835008 <=? u64_max) with true by lia. replace (n * 16 <=? u64_max) with true by lia.
  destruct (_ || _) eqn:Eb; [by split; [|left]|]. breflect.
  destruct (clear ds _ _ _ _) as [s1 ds1] eqn:E1. destruct (ok s1) eqn:O1; cbn [negb].
  2: { rewrite O1. unfold complete_startup_sanitize. rewrite Hr, Hf. cbn. rewrite Hr. auto. }
  destruct (clear ds1 _ _ _ _) as [s2 ds2] eqn:E2. destruct (ok s2) eqn:O2; cbn [negb].
  2: { rewrite O2. unfold complete_startup_sanitize. rewrite Hr, Hf. cbn. rewrite Hr. auto. }
  unfold complete_startup_sanitize. rewrite Hr, Hf. cbn [orb negb].
  destruct (_ || _) eqn:Ec; cbn; [rewrite Hr; auto|]. rewrite Hs, wrap32_id by (unfold is_u32; lia).
  split_and!; try done.
  - apply Forall_forall. intros x (y & -> & _)%list_elem_of_fmap. done.
  - by eexists _, _, _.
Qed.

(** ** The second lease ends *)

Definition sample_recycler : QwenBf16SynchronousKvRecycler := MkRecycler 4096 3670016 2 11 12 1.

(** A device that records what it cleared. *)
Definition record_clears (ds : list (Z * Z)) (destination bytes _ _ : Z) : Status * list (Z * Z) :=
  (StatusOk, ds ++ [(destination, bytes)]).

Lemma release_recycle_restores_witness :
  let w := snd (m_trace (MkWorld sample_pool []) sample_lease_run) in
  exists l p1 r' p2, lw_leases w !! 1%nat = Some l /\
    lease_release l (lw_pool w) (MkCompletionEvent 5 9) = (StatusOk, l <| ls_released := true |>, p1) /\
    recycle record_clears sample_recycler p1 [] (bt_handles (ls_table l)) (MkCompletionEvent 5 9) =
      (StatusOk, r', p2, [(1839104, 1835008)]).
Proof.
  intros w.
  assert (E : exists l, lw_leases w !! 1%nat = Some l /\ ls_released l = false /\ bt_handles (ls_table l) = [MkHandle 1 2])
    by (vm_compute; by eexists).
  destruct E as (l & Hi & Hl & Hh).
  destruct (release_recycle_restores record_clears sample_recycler w 1 l (MkCompletionEvent 5 9) []
    sample_world_reachable Hi Hl) as (p1 & r' & p2 & E1 & E2 & _); try done.
  - intros i Hi'. assert (i = 0 \/ i = 1) as [->| ->] by (change (vsize (kp_slots (lw_pool w))) with 2 in Hi'; lia);
      vm_compute; done.
  - by rewrite Hh.
  - exists l, p1, r', p2. rewrite Hh in E2 |- *. done.
Defined.

Lemma recycle_needs_release_witness :
  let w := snd (m_trace (MkWorld sample_pool []) sample_lease_run) in
  exists l s, lw_leases w !! 1%nat = Some l /\
    recycle record_clears sample_recycler (lw_pool w) [] (bt_handles (ls_table l)) (MkCompletionEvent 5 9) =
      (s, sample_recycler, lw_pool w, []) /\ ok s = false.
Proof.
  intros w.
  assert (E : exists l, lw_leases w !! 1%nat = Some l /\ ls_released l = false) by (vm_compute; by eexists).
  destruct E as (l & Hi & Hl).
  destruct (recycle_needs_release record_clears sample_recycler (lw_pool w) (ls_table l) (MkCompletionEvent 5 9) [])
    as (s & Es & Hs).
  - exact (lo_backed _ (reachable_inv leases_ok w sample_world_reachable) 1 l Hi Hl).
  - by exists l, s.
Defined.

Lemma startup_opens_cleared_witness :
  let r := SanitizeAndPublish record_clears sample_pool (MkArenaOwner 4096 3670016 1) (MkArenaOwner 512 32 1) 11 12 [] in
  ok (fst (fst r)) = true /\ kp_ready (snd (fst r)) = true /\ kp_clean_credits (snd (fst r)) = 2.
Proof.
  intros r. assert (Ho : ok (fst (fst r)) = true) by (vm_compute; reflexivity).
  pose proof (startup_opens_cleared record_clears 2 3670016 32 sample_pool (MkArenaOwner 4096 3670016 1)
    (MkArenaOwner 512 32 1) 11 12 [] ltac:(lia) ltac:(lia) ltac:(vm_compute; reflexivity)) as H.
  fold r in H. destruct r as [[s p'] ds']. cbn in *. rewrite Ho in H. split_and!; apply H || done.
Defined.
