(* ===== verification/KvMetadata.v ===== *)
(** * Packed KV metadata

    Models [include/pih/model/qwen3_bf16_packed_kv_metadata.h] and
    [plugins/model-qwen3/qwen3_bf16_packed_kv_metadata.cpp]: for every row of a packed
    batch the block and the offset its key and value go to, and for every sequence the
    blocks its attention reads.

    A binding names its block table by address; the tables are in a memory [mem]. *)

From stdpp Require Import gmap list_numbers.
From S2P Require Import Prelude Core Sha256 TokenPlan TokenMetadata KvPool KvPoolInv KvPoolProps KvTable KvLease.

#[export] Instance QwenKvBlockTable_inhabited : Inhabited QwenKvBlockTable :=
  populate (MkBlockTable (MkDescriptor 0 0 0 0 0 0 0 []) []).

Abbreviation table_memory := (gmap Z QwenKvBlockTable).

Record QwenBf16PackedKvBinding := MkKvBinding {
  kb_sequence_generation : Z;
  kb_block_table : option Z }.

#[export] Instance QwenBf16PackedKvBinding_inhabited : Inhabited QwenBf16PackedKvBinding :=
  populate (MkKvBinding 0 None).

(** The table behind a pointer. *)
Definition table_of (mem : table_memory) (b : QwenBf16PackedKvBinding) : QwenKvBlockTable :=
  match kb_block_table b with Some a => mem !!! a | None => inhabitant end.

Definition kInvalidPackedKvBlockHandle : QwenKvBlockHandle := MkHandle u32_max 0.

Record QwenBf16PackedKvMetadataLimits := MkKvLimits {
  kl_maximum_sequences : Z;
  kl_maximum_execution_bucket_tokens : Z;
  kl_maximum_visible_handles : Z }.

Record QwenBf16PackedKvMetadataView := MkKvView {
  kv_generation : Z;
  kv_append_handles : list QwenKvBlockHandle;
  kv_token_offsets : list Z;
  kv_visible_handle_offsets : list Z;
  kv_visible_handles : list QwenKvBlockHandle;
  kv_key_token_counts : list Z;
  kv_owner_sequence_indices : list Z }.

Record QwenBf16PackedKvMetadataArena := MkKvArena {
  ka_limits : QwenBf16PackedKvMetadataLimits;
  ka_append_handles : list QwenKvBlockHandle;
  ka_token_offsets : list Z;
  ka_visible_handle_offsets : list Z;
  ka_visible_handles : list QwenKvBlockHandle;
  ka_key_token_counts : list Z;
  ka_owner_sequence_indices : list Z;
  ka_generation : Z }.

#[export] Instance eta_QwenBf16PackedKvMetadataArena : Eta QwenBf16PackedKvMetadataArena := fun a =>
  MkKvArena (ka_limits a) (ka_append_handles a) (ka_token_offsets a) (ka_visible_handle_offsets a)
    (ka_visible_handles a) (ka_key_token_counts a) (ka_owner_sequence_indices a) (ka_generation a).

Definition KvMetadataArena_Create (limits : QwenBf16PackedKvMetadataLimits) :
    Result QwenBf16PackedKvMetadataArena :=
  let maximum_possible_handles := checked_mul_u64 (kl_maximum_sequences limits)
    ((kMaximumReservedTokens + kTokensPerSlot - 1) / kTokensPerSlot) in
  if (kl_maximum_sequences limits =? 0) || (kl_maximum_sequences limits >? 4096)
     || (kl_maximum_execution_bucket_tokens limits =? 0)
     || (kl_maximum_execution_bucket_tokens limits >? 4096)
     || (kl_maximum_visible_handles limits <? kl_maximum_sequences limits)
     || match maximum_possible_handles with
        | Error _ => true
        | Value m => kl_maximum_visible_handles limits >? m
        end
  then Error (InvalidArgument "packed KV metadata limits are invalid")
  else
    let n := Z.to_nat (kl_maximum_execution_bucket_tokens limits) in
    let m := Z.to_nat (kl_maximum_sequences limits) in
    Value (MkKvArena limits (replicate n kInvalidPackedKvBlockHandle) (replicate n 0)
      (replicate (m + 1) 0) (replicate (Z.to_nat (kl_maximum_visible_handles limits)) (MkHandle 0 0))
      (replicate m 0) (replicate m 0) 0).

(** ** [QwenBf16PackedKvMetadataArena::materialize] *)

Definition kv_shape_invalid (a : QwenBf16PackedKvMetadataArena) (plan : PackedTokenPlan)
    (md : PackedTokenMetadataView) (bindings : list QwenBf16PackedKvBinding)
    (appends : list QwenKvAppendPlan) : bool :=
  let n := pp_sequence_count plan in let bucket := pp_execution_bucket_tokens plan in
  (n =? 0) || (n >? kl_maximum_sequences (ka_limits a)) || negb (vsize bindings =? n)
  || negb (vsize appends =? n) || (bucket >? kl_maximum_execution_bucket_tokens (ka_limits a))
  || negb (vsize (pmv_input_token_ids md) =? bucket) || negb (vsize (pmv_positions md) =? bucket)
  || negb (vsize (pmv_request_index md) =? bucket)
  || negb (pmv_real_token_count md =? pp_total_real_tokens plan) || (ka_generation a =? u64_max).

(** The row at [packed] is not row [packed - begin] of sequence [i]. *)
Definition kv_row_drifted (md : PackedTokenMetadataView) (t : QwenKvBlockTable) (i start begin packed : Z) :
    bool :=
  let position := (pmv_positions md).[packed] in
  let handle_index := position / kTokensPerSlot in
  negb ((pmv_request_index md).[packed] =? i) || negb (position =? wrap64 (wrap64 (start + packed) - begin))
  || (handle_index >=? vsize (bt_handles t)).

(** One iteration of the validation loop; the number of visible handles so far. *)
Definition kv_check_binding (mem : table_memory) (limits : QwenBf16PackedKvMetadataLimits)
    (plan : PackedTokenPlan) (md : PackedTokenMetadataView) (i visible_count : Z)
    (b : QwenBf16PackedKvBinding) (append : QwenKvAppendPlan) : Result Z :=
  let t := table_of mem b in
  let start := (pp_committed_start_positions plan).[i] in
  if bool_decide (kb_block_table b = None)
     || negb (kb_sequence_generation b =? (pp_sequence_generations plan).[i])
     || negb (sd_active (bt_descriptor t) =? 1)
     || negb (sd_committed_tokens (bt_descriptor t) =? start)
     || negb (ap_previous_committed_tokens append =? start)
  then Error (FailedPrecondition "packed KV binding cut drifted")
  else if match checked_add_u64 start ((pp_real_token_counts plan).[i]) with
          | Error _ => true
          | Value target => negb (target =? ap_target_committed_tokens append)
          end
  then Error (InvalidArgument "packed KV append target drifted")
  else
    let valid := rollback_append t append in
    if negb (ok valid) then Error valid
    else if ap_visible_handle_count_after_commit append >? vsize (bt_handles t)
    then Error (InvalidArgument "packed KV visible table overflowed")
    else match checked_add_u64 visible_count (ap_visible_handle_count_after_commit append) with
    | Error _ => Error (ResourceExhausted "packed KV visible-handle arena is too small")
    | Value next_visible =>
        if next_visible >? kl_maximum_visible_handles limits
        then Error (ResourceExhausted "packed KV visible-handle arena is too small")
        else
          let begin := (pp_packed_offsets plan).[i] in
          let end_ := (pp_packed_offsets plan).[i + 1] in
          if existsb (kv_row_drifted md t i start begin) (seqZ begin (end_ - begin))
          then Error (InvalidArgument "packed KV row mapping drifted")
          else Value next_visible
    end.

Fixpoint kv_check_bindings (mem : table_memory) (limits : QwenBf16PackedKvMetadataLimits)
    (plan : PackedTokenPlan) (md : PackedTokenMetadataView) (i visible_count : Z)
    (bindings : list QwenBf16PackedKvBinding) (appends : list QwenKvAppendPlan) : Result Z :=
  match bindings, appends with
  | b :: bs, append :: rest =>
      let? next_visible := kv_check_binding mem limits plan md i visible_count b append in
      kv_check_bindings mem limits plan md (i + 1) next_visible bs rest
  | _, _ => Value visible_count
  end.

Definition kv_dummy_drifted (md : PackedTokenMetadataView) (packed : Z) : bool :=
  negb ((pmv_positions md).[packed] =? 0)
  || negb ((pmv_request_index md).[packed] =? kInvalidPackedRequestIndex).

(** The loop that copies the visible handles. *)
Fixpoint write_visible (visible_offset : Z) (handles : list QwenKvBlockHandle)
    (a : QwenBf16PackedKvMetadataArena) : QwenBf16PackedKvMetadataArena * Z :=
  match handles with
  | [] => (a, visible_offset)
  | h :: rest =>
      write_visible (wrap32 (visible_offset + 1)) rest
        (a <| ka_visible_handles := (ka_visible_handles a).[visible_offset <- h] |>)
  end.

(** The loop over the rows of a sequence: [n] rows from [packed] on. *)
Fixpoint write_kv_rows (md : PackedTokenMetadataView) (t : QwenKvBlockTable) (n : nat) (packed : Z)
    (a : QwenBf16PackedKvMetadataArena) : QwenBf16PackedKvMetadataArena :=
  match n with
  | O => a
  | S n =>
      let position := (pmv_positions md).[packed] in
      write_kv_rows md t n (packed + 1)
        (a <| ka_append_handles := (ka_append_handles a).[packed <-
                (bt_handles t).[position / kTokensPerSlot]] |>
           <| ka_token_offsets := (ka_token_offsets a).[packed <- position mod kTokensPerSlot] |>)
  end.

Fixpoint write_bindings (mem : table_memory) (plan : PackedTokenPlan) (md : PackedTokenMetadataView)
    (i visible_offset : Z) (bindings : list QwenBf16PackedKvBinding) (appends : list QwenKvAppendPlan)
    (a : QwenBf16PackedKvMetadataArena) : QwenBf16PackedKvMetadataArena * Z :=
  match bindings, appends with
  | b :: bs, append :: rest =>
      let t := table_of mem b in
      let a := a <| ka_visible_handle_offsets := (ka_visible_handle_offsets a).[i <- visible_offset] |> in
      let '(a, visible_offset) := write_visible visible_offset
        (take (Z.to_nat (ap_visible_handle_count_after_commit append)) (bt_handles t)) a in
      let a := a <| ka_key_token_counts := (ka_key_token_counts a).[i <- ap_target_committed_tokens append] |>
                 <| ka_owner_sequence_indices := (ka_owner_sequence_indices a).[i <-
                      sd_owner_sequence_index (bt_descriptor t)] |> in
      let begin := (pp_packed_offsets plan).[i] in
      let end_ := (pp_packed_offsets plan).[i + 1] in
      write_bindings mem plan md (i + 1) visible_offset bs rest
        (write_kv_rows md t (Z.to_nat (end_ - begin)) begin a)
  | _, _ => (a, visible_offset)
  end.

(** The padding loop. *)
Fixpoint pad_kv_rows (n : nat) (packed : Z) (a : QwenBf16PackedKvMetadataArena) :
    QwenBf16PackedKvMetadataArena :=
  match n with
  | O => a
  | S n =>
      pad_kv_rows n (packed + 1)
        (a <| ka_append_handles := (ka_append_handles a).[packed <- kInvalidPackedKvBlockHandle] |>
           <| ka_token_offsets := (ka_token_offsets a).[packed <- 0] |>)
  end.

Definition kv_materialize (mem : table_memory) (a : QwenBf16PackedKvMetadataArena)
    (plan : PackedTokenPlan) (md : PackedTokenMetadataView) (bindings : list QwenBf16PackedKvBinding)
    (appends : list QwenKvAppendPlan) :
    Result QwenBf16PackedKvMetadataView * QwenBf16PackedKvMetadataArena :=
  let n := pp_sequence_count plan in
  let total := pp_total_real_tokens plan in
  let bucket := pp_execution_bucket_tokens plan in
  if kv_shape_invalid a plan md bindings appends
  then (Error (InvalidArgument "packed KV metadata shape is invalid"), a)
  else match kv_check_bindings mem (ka_limits a) plan md 0 0 bindings appends with
  | Error e => (Error e, a)
  | Value _ =>
      if existsb (kv_dummy_drifted md) (seqZ total (bucket - total))
      then (Error (InvalidArgument "packed KV dummy row drifted"), a)
      else
        let '(a, visible_offset) := write_bindings mem plan md 0 0 bindings appends a in
        let a := a <| ka_visible_handle_offsets := (ka_visible_handle_offsets a).[n <- visible_offset] |> in
        let a := pad_kv_rows (Z.to_nat (bucket - total)) total a in
        let a := a <| ka_generation := wrap64 (ka_generation a + 1) |> in
        (Value (MkKvView (ka_generation a) (take (Z.to_nat bucket) (ka_append_handles a))
                  (take (Z.to_nat bucket) (ka_token_offsets a))
                  (take (Z.to_nat n + 1) (ka_visible_handle_offsets a))
                  (take (Z.to_nat visible_offset) (ka_visible_handles a))
                  (take (Z.to_nat n) (ka_key_token_counts a))
                  (take (Z.to_nat n) (ka_owner_sequence_indices a))), a)
  end.

Lemma existsb_seqZ f a n :
  existsb f (seqZ a n) = false <-> forall x, a <= x < a + n -> f x = false.
Proof.
  rewrite <- not_true_iff_false, existsb_exists. split.
  - intros H x Hx. apply not_true_iff_false. intros E. apply H. exists x. split; [|done].
    by apply list_elem_of_In, elem_of_seqZ.
  - intros H (x & Hx%list_elem_of_In%elem_of_seqZ & E). by rewrite H in E.
Qed.

(** ** What a binding has to be *)

Section Spec.
Context (mem : table_memory) (plan : PackedTokenPlan) (md : PackedTokenMetadataView).

Definition seq_start (i : Z) : Z := (pp_committed_start_positions plan).[i].
Definition seq_begin (i : Z) : Z := (pp_packed_offsets plan).[i].
Definition seq_count (i : Z) : Z := (pp_real_token_counts plan).[i].

(** The tokens of sequence [i] after the batch. *)
Definition seq_target (i : Z) : Z := seq_start i + seq_count i.

Definition kv_rows_ok (i : Z) : Prop :=
  forall packed, seq_begin i <= packed < seq_begin (i + 1) ->
    (pmv_request_index md).[packed] = i /\
    (pmv_positions md).[packed] = seq_start i + (packed - seq_begin i).

Definition bound (i : Z) (b : QwenBf16PackedKvBinding) : Prop :=
  let t := table_of mem b in
  kb_block_table b <> None /\ kb_sequence_generation b = (pp_sequence_generations plan).[i] /\
  sd_committed_tokens (bt_descriptor t) = seq_start i /\ appendable t (seq_target i) /\ kv_rows_ok i.

Definition batch_appends (i : Z) (bs : list QwenBf16PackedKvBinding) : list QwenKvAppendPlan :=
  imap (fun k b => append_plan (table_of mem b) (seq_target (i + Z.of_nat k))) bs.

Fixpoint all_bound (i : Z) (bs : list QwenBf16PackedKvBinding) : Prop :=
  match bs with [] => True | b :: rest => bound i b /\ all_bound (i + 1) rest end.

(** The visible handles of the sequences from [i] on. *)
Fixpoint visible_total (i : Z) (bs : list QwenBf16PackedKvBinding) : Z :=
  match bs with [] => 0 | _ :: rest => blocks_of (seq_target i) + visible_total (i + 1) rest end.

Definition tables_ok (bs : list QwenBf16PackedKvBinding) : Prop :=
  Forall (fun b => table_ok (table_of mem b)) bs.

Lemma blocks_of_range n : 0 <= n <= kMaximumReservedTokens -> 0 <= blocks_of n <= 2560.
Proof.
  unfold blocks_of, kTokensPerSlot, kMaximumReservedTokens. intros.
  pose proof (Z.div_pos (n + 16 - 1) 16). pose proof (Z.div_lt_upper_bound (n + 16 - 1) 16 2561). lia.
Qed.

Lemma handle_index_in t i pos :
  table_ok t -> appendable t (seq_target i) -> 0 <= pos < seq_target i ->
  0 <= pos / kTokensPerSlot < vsize (bt_handles t).
Proof.
  intros Ht [_ Hb] Hp. rewrite (proj1 (tb_count _ Ht)). unfold blocks_of, kTokensPerSlot.
  split; [apply Z.div_pos; lia|].
  apply Z.lt_le_trans with ((seq_target i + 16 - 1) / 16); [|apply Z.div_le_mono; lia].
  apply Z.div_lt_upper_bound; [lia|]. pose proof (Z.div_mod (seq_target i + 16 - 1) 16). 
  pose proof (Z.mod_pos_bound (seq_target i + 16 - 1) 16). lia.
Qed.

Lemma rows_checked t i :
  table_ok t -> appendable t (seq_target i) -> 0 <= seq_start i -> 0 <= seq_begin i ->
  seq_begin (i + 1) = seq_begin i + seq_count i -> seq_begin (i + 1) <= u32_max ->
  existsb (kv_row_drifted md t i (seq_start i) (seq_begin i))
    (seqZ (seq_begin i) (seq_begin (i + 1) - seq_begin i)) = false <-> kv_rows_ok i.
Proof.
  intros Ht Ha Hs Hb Hstep Hu. unfold kv_rows_ok. pose proof (tb_reserved _ Ht) as Hres. destruct Ha as [Ha1 Ha2].
  assert (Hrow : forall packed, seq_begin i <= packed < seq_begin (i + 1) ->
    kv_row_drifted md t i (seq_start i) (seq_begin i) packed = false <->
    (pmv_request_index md).[packed] = i /\ (pmv_positions md).[packed] = seq_start i + (packed - seq_begin i)).
  { intros packed Hp. unfold kv_row_drifted. cbn zeta. unfold seq_target, kMaximumReservedTokens in *.
    rewrite (wrap64_id (seq_start i + packed)), wrap64_id by (unfold is_u64; lia).
    rewrite !orb_false_iff, !negb_false_iff, !Z.eqb_eq. split; [intros [[-> ->] _]; split; [done|lia]|].
    intros [-> Hpos]. split_and!; [done|lia|]. rewrite Hpos.
    pose proof (handle_index_in t i (seq_start i + (packed - seq_begin i)) Ht) as H. unfold seq_target in H.
    destruct H as [_ H]; [done|lia|lia]. }
  rewrite existsb_seqZ. split; intros H packed Hp; apply Hrow; try apply H; lia.
Qed.

Lemma kv_check_binding_Value limits i vis b append v :
  table_ok (table_of mem b) -> is_u64 (seq_start i) -> is_u32 (seq_count i) -> 0 <= vis <= u32_max ->
  0 <= seq_begin i -> seq_begin (i + 1) = seq_begin i + seq_count i -> seq_begin (i + 1) <= u32_max ->
  kv_check_binding mem limits plan md i vis b append = Value v <->
  bound i b /\ append = append_plan (table_of mem b) (seq_target i) /\
  v = vis + blocks_of (seq_target i) /\ v <= kl_maximum_visible_handles limits.
Proof.
  intros Ht Hs Hc Hv Hb Hstep Hu. unfold kv_check_binding, bound. fold (seq_start i) (seq_begin i) (seq_begin (i + 1)) (seq_count i).
  cbn zeta. set (t := table_of mem b) in *.
  destruct (_ || _) eqn:E.
  { split; [done|]. intros [(H1 & H2 & H3 & H4 & H5) [-> _]]. exfalso. cbn in E.
    rewrite (tb_active _ Ht), H2, H3, bool_decide_false, !Z.eqb_refl in E by done. done. }
  rewrite (tb_active _ Ht) in E. breflect. unfold is_u64, is_u32 in *.
  pose proof (tb_committed _ Ht) as Htc. pose proof (tb_reserved _ Ht) as Htr. unfold kMaximumReservedTokens in Htr.
  rewrite checked_add_u64_spec by (unfold is_u64; lia). fold (seq_target i).
  assert (Hst : 0 <= seq_target i <= u64_max) by (unfold seq_target; lia).
  replace (seq_target i <=? u64_max) with true by lia.
  destruct (Z.eqb_spec (seq_target i) (ap_target_committed_tokens append)) as [Et|Et]; cbn [negb].
  2: { split; [done|]. by intros (_ & -> & _). }
  unfold rollback_append. pose proof (validate_plan_ok t append Ht) as Hval. rewrite <- Et in Hval.
  destruct (ok (validate_plan t append)) eqn:Ev; cbn [negb].
  2: { split; [done|]. intros [(_ & _ & _ & Ha & _) [-> _]]. by destruct Hval as [_ Hval]; specialize (Hval (conj Ha eq_refl)). }
  destruct (proj1 Hval eq_refl) as [Ha Hap]. rewrite Hap. cbn [append_plan ap_visible_handle_count_after_commit].
  pose proof Ha as [Ha1 Ha2]. pose proof (blocks_of_mono _ _ Ha2) as Hm. rewrite <- (proj1 (tb_count _ Ht)) in Hm.
  pose proof (blocks_of_range (seq_target i) ltac:(unfold kMaximumReservedTokens; lia)) as Hbr.
  replace (blocks_of (seq_target i) >? vsize (bt_handles t)) with false by lia.
  rewrite checked_add_u64_spec by (unfold is_u64; lia). replace (_ <=? u64_max) with true by lia.
  pose proof (rows_checked t i Ht Ha ltac:(lia) Hb Hstep Hu) as Hrows.
  destruct (_ >? _) eqn:Eg; [split; [done|intros (_ & _ & -> & ?); lia]|].
  destruct (existsb _ _) eqn:Ex.
  - split; [done|]. intros [(_ & _ & _ & _ & Hr) _]. by apply Hrows in Hr.
  - apply proj1 in Hrows. specialize (Hrows eq_refl). split; [intros [= <-]; split_and!; try done; lia|].
    by intros (_ & _ & -> & _).
Qed.

Lemma batch_appends_cons i b bs :
  batch_appends i (b :: bs) = append_plan (table_of mem b) (seq_target i) :: batch_appends (i + 1) bs.
Proof.
  unfold batch_appends. cbn. rewrite Z.add_0_r. f_equal. apply imap_ext. intros k x _.
  cbn. do 2 f_equal. lia.
Qed.

(** The plan fits 32-bit row numbers. *)
Context (Hplan : plan_packed plan) (Hbucket : pp_execution_bucket_tokens plan <= 4096).

Lemma seq_facts i : 0 <= i < pp_sequence_count plan ->
  is_u64 (seq_start i) /\ 1 <= seq_count i <= 4096 /\ 0 <= seq_begin i /\
  seq_begin (i + 1) = seq_begin i + seq_count i /\ seq_begin (i + 1) <= pp_total_real_tokens plan.
Proof.
  intros Hi. destruct (payload_start plan i Hplan Hi) as [H1 H2].
  pose proof (offset_step plan i Hplan Hi) as Hstep. pose proof Hplan as (_ & _ & _ & Hc & _ & Htot & Hle).
  assert (Hpos : forall l, Forall (fun c => 1 <= c) l -> 0 <= sum_list l).
  { induction 1; cbn; lia. }
  assert (Hb : forall j, 0 <= j <= pp_sequence_count plan -> 0 <= seq_begin j <= pp_total_real_tokens plan).
  { intros j Hj. unfold seq_begin. rewrite offset_at, Htot by done.
    rewrite <- (take_drop (Z.to_nat j) (pp_real_token_counts plan)) at 3. rewrite sum_list_app.
    pose proof (Hpos _ (Forall_take _ (Z.to_nat j) _ Hc)). pose proof (Hpos _ (Forall_drop _ (Z.to_nat j) _ Hc)). lia. }
  pose proof (Hb i ltac:(lia)) as Hbi. pose proof (Hb (i + 1) ltac:(lia)) as Hbi'. unfold seq_begin, seq_count in *.
  split_and!; try done; lia.
Qed.

Lemma seq_begin_0 : seq_begin 0 = 0.
Proof. unfold seq_begin. by destruct Hplan as (_ & _ & _ & _ & -> & _). Qed.

Lemma visible_total_nonneg : forall bs i, all_bound i bs -> tables_ok bs -> 0 <= visible_total i bs.
Proof.
  induction bs as [|b bs IH]; intros i Hb Ht; [done|]. destruct Hb as [(_ & _ & Hc & [Ha1 Ha2] & _) Hb].
  apply Forall_cons in Ht as [Ht Hts]. cbn. specialize (IH (i + 1) Hb Hts).
  pose proof (tb_reserved _ Ht). pose proof (tb_committed _ Ht).
  pose proof (blocks_of_range (seq_target i) ltac:(lia)). lia.
Qed.

Lemma kv_check_bindings_Value limits : forall bs i vis appends v,
  tables_ok bs -> 0 <= i -> i + vsize bs = pp_sequence_count plan -> length appends = length bs ->
  0 <= vis <= kl_maximum_visible_handles limits -> kl_maximum_visible_handles limits <= u32_max ->
  kv_check_bindings mem limits plan md i vis bs appends = Value v <->
  all_bound i bs /\ appends = batch_appends i bs /\ v = vis + visible_total i bs /\
  v <= kl_maximum_visible_handles limits.
Proof.
  induction bs as [|b bs IH]; intros i vis appends v Ht Hi Hn Hl Hv Hm; destruct appends as [|ap appends]; try done.
  { cbn. rewrite Z.add_0_r. split; [intros [= ->]; split_and!; [done..|lia]|by intros (_ & _ & -> & _)]. }
  apply Forall_cons in Ht as [Ht Hts]. rewrite vsize_cons in Hn. pose proof (vsize_nonneg bs).
  destruct (seq_facts i ltac:(lia)) as (H1 & H2 & H3 & H4 & H5).
  assert (Hbk : pp_total_real_tokens plan <= pp_execution_bucket_tokens plan) by apply Hplan.
  cbn [kv_check_bindings]. pose proof (fun v => kv_check_binding_Value limits i vis b ap v Ht H1) as Hone.
  rewrite batch_appends_cons. cbn [all_bound visible_total].
  destruct (kv_check_binding mem limits plan md i vis b ap) as [nv|e] eqn:E.
  - destruct (Hone nv) as [Hone1 _]; try (unfold is_u32; lia). destruct (Hone1 eq_refl) as (Hb & -> & -> & Hle).
    assert (Hpos : 0 <= blocks_of (seq_target i)).
    { destruct Hb as (_ & _ & Hc & [Ha1 Ha2] & _). pose proof (tb_reserved _ Ht). pose proof (tb_committed _ Ht).
      apply blocks_of_range. lia. }
    rewrite IH; [|done|lia|lia|cbn in Hl; lia|lia|done]. split.
    + intros (Hbs & -> & -> & Hle'). split_and!; try done; lia.
    + intros ([_ Hbs] & [= ->] & -> & Hle'). split_and!; try done; lia.
  - split; [done|]. intros ([Hb Hbs] & [= -> ->] & -> & Hle). exfalso.
    pose proof (visible_total_nonneg bs (i + 1) Hbs Hts) as Hp.
    destruct (Hone (vis + blocks_of (seq_target i))) as [_ Hone2]; try (unfold is_u32; lia).
    discriminate Hone2. split_and!; try done. lia.
Qed.

(** ** The view *)

Definition seq_positions (i : Z) : list Z := count_from (seq_start i) (Z.to_nat (seq_count i)).

Definition append_row (i : Z) (b : QwenBf16PackedKvBinding) : list QwenKvBlockHandle :=
  map (fun pos => (bt_handles (table_of mem b)).[pos / kTokensPerSlot]) (seq_positions i).

Definition cell_row (i : Z) (b : QwenBf16PackedKvBinding) : list Z :=
  map (fun pos => pos mod kTokensPerSlot) (seq_positions i).

Definition visible_row (i : Z) (b : QwenBf16PackedKvBinding) : list QwenKvBlockHandle :=
  take (Z.to_nat (blocks_of (seq_target i))) (bt_handles (table_of mem b)).

Definition key_row (i : Z) (_ : QwenBf16PackedKvBinding) : list Z := [seq_target i].

Definition owner_row (_ : Z) (b : QwenBf16PackedKvBinding) : list Z :=
  [sd_owner_sequence_index (bt_descriptor (table_of mem b))].

(** Where the visible handles of each sequence start. *)
Fixpoint visible_starts (i off : Z) (bs : list QwenBf16PackedKvBinding) : list Z :=
  match bs with
  | [] => []
  | _ :: rest => off :: visible_starts (i + 1) (off + blocks_of (seq_target i)) rest
  end.

Definition kv_view (generation : Z) (bs : list QwenBf16PackedKvBinding) : QwenBf16PackedKvMetadataView :=
  let pad := Z.to_nat (pp_execution_bucket_tokens plan - pp_total_real_tokens plan) in
  MkKvView generation
    (rows append_row 0 bs ++ replicate pad kInvalidPackedKvBlockHandle)
    (rows cell_row 0 bs ++ replicate pad 0)
    (visible_starts 0 0 bs ++ [visible_total 0 bs])
    (rows visible_row 0 bs) (rows key_row 0 bs) (rows owner_row 0 bs).

(** ** The write pass *)

Record kv_arena_wf (a : QwenBf16PackedKvMetadataArena) : Prop := {
  kaw_sequences : 1 <= kl_maximum_sequences (ka_limits a) <= 4096;
  kaw_tokens : 1 <= kl_maximum_execution_bucket_tokens (ka_limits a) <= 4096;
  kaw_handles : kl_maximum_sequences (ka_limits a) <= kl_maximum_visible_handles (ka_limits a) <= u32_max;
  kaw_append : vsize (ka_append_handles a) = kl_maximum_execution_bucket_tokens (ka_limits a);
  kaw_offsets : vsize (ka_token_offsets a) = kl_maximum_execution_bucket_tokens (ka_limits a);
  kaw_starts : vsize (ka_visible_handle_offsets a) = kl_maximum_sequences (ka_limits a) + 1;
  kaw_visible : vsize (ka_visible_handles a) = kl_maximum_visible_handles (ka_limits a);
  kaw_keys : vsize (ka_key_token_counts a) = kl_maximum_sequences (ka_limits a);
  kaw_owners : vsize (ka_owner_sequence_indices a) = kl_maximum_sequences (ka_limits a);
  kaw_generation : is_u64 (ka_generation a) }.

Lemma write_visible_spec : forall handles off a,
  0 <= off -> off + vsize handles <= vsize (ka_visible_handles a) -> vsize (ka_visible_handles a) <= u32_max ->
  write_visible off handles a =
    (a <| ka_visible_handles := splice (ka_visible_handles a) off handles |>, off + vsize handles).
Proof.
  induction handles as [|h hs IH]; intros off a Ho Hn Hu; cbn [write_visible].
  - rewrite splice_nil, Z.add_0_r. by destruct a.
  - rewrite vsize_cons in Hn |- *. pose proof (vsize_nonneg hs). rewrite wrap32_id by (unfold is_u32; lia).
    rewrite IH; cbn; rewrite ?vsize_vput; [|lia..]. rewrite splice_cons by lia. rewrite Z.add_assoc. done.
Qed.

Lemma write_kv_rows_spec t : forall n packed pos a,
  (forall k, (k < n)%nat -> (pmv_positions md).[packed + Z.of_nat k] = pos + Z.of_nat k) ->
  0 <= packed -> packed + Z.of_nat n <= vsize (ka_append_handles a) ->
  vsize (ka_token_offsets a) = vsize (ka_append_handles a) ->
  write_kv_rows md t n packed a =
    a <| ka_append_handles := splice (ka_append_handles a) packed
           (map (fun p => (bt_handles t).[p / kTokensPerSlot]) (count_from pos n)) |>
      <| ka_token_offsets := splice (ka_token_offsets a) packed
           (map (fun p => p mod kTokensPerSlot) (count_from pos n)) |>.
Proof.
  induction n as [|n IH]; intros packed pos a Hp H0 Hn Hs; cbn [write_kv_rows].
  - change (count_from pos 0) with (@nil Z). cbn [map]. rewrite !splice_nil. by destruct a.
  - pose proof (Hp 0%nat ltac:(lia)) as E. rewrite !Z.add_0_r in E. rewrite E.
    rewrite (IH (packed + 1) (pos + 1)); [|intros k Hk|lia|cbn; rewrite ?vsize_vput; lia..].
    + rewrite count_from_S. cbn [map]. rewrite <- !splice_cons by lia. done.
    + replace (packed + 1 + Z.of_nat k) with (packed + Z.of_nat (S k)) by lia. rewrite Hp by lia. lia.
Qed.

(** The arrays after the sequences from [i] on have been written. *)
Definition kv_written (i off : Z) (bs : list QwenBf16PackedKvBinding) (a : QwenBf16PackedKvMetadataArena) :
    QwenBf16PackedKvMetadataArena :=
  MkKvArena (ka_limits a)
    (splice (ka_append_handles a) (seq_begin i) (rows append_row i bs))
    (splice (ka_token_offsets a) (seq_begin i) (rows cell_row i bs))
    (splice (ka_visible_handle_offsets a) i (visible_starts i off bs))
    (splice (ka_visible_handles a) off (rows visible_row i bs))
    (splice (ka_key_token_counts a) i (rows key_row i bs))
    (splice (ka_owner_sequence_indices a) i (rows owner_row i bs))
    (ka_generation a).

Lemma visible_row_size i b :
  bound i b -> table_ok (table_of mem b) -> vsize (visible_row i b) = blocks_of (seq_target i).
Proof.
  intros (_ & _ & _ & [Ha1 Ha2] & _) Ht. unfold visible_row, vsize. rewrite length_take.
  pose proof (blocks_of_mono _ _ Ha2) as Hm. rewrite <- (proj1 (tb_count _ Ht)) in Hm. unfold vsize in Hm.
  pose proof (tb_reserved _ Ht). pose proof (tb_committed _ Ht).
  pose proof (blocks_of_range (seq_target i) ltac:(lia)). lia.
Qed.

Lemma write_binding_step i off b bs append rest a :
  kv_arena_wf a -> bound i b -> table_ok (table_of mem b) -> append = append_plan (table_of mem b) (seq_target i) ->
  0 <= i < pp_sequence_count plan -> pp_sequence_count plan <= kl_maximum_sequences (ka_limits a) ->
  pp_execution_bucket_tokens plan <= kl_maximum_execution_bucket_tokens (ka_limits a) ->
  0 <= off -> off + blocks_of (seq_target i) <= kl_maximum_visible_handles (ka_limits a) ->
  write_bindings mem plan md i off (b :: bs) (append :: rest) a =
  write_bindings mem plan md (i + 1) (off + blocks_of (seq_target i)) bs rest (kv_written i off [b] a).
Proof.
  intros Hw Hb Ht -> Hi Hm Hbk Ho Hv. cbn [write_bindings]. pose proof Hw as [W1 W2 W3 W4 W5 W6 W7 W8 W9 W10].
  destruct (seq_facts i Hi) as (H1 & H2 & H3 & H4 & H5).
  assert (Hle : pp_total_real_tokens plan <= pp_execution_bucket_tokens plan) by apply Hplan.
  pose proof (visible_row_size i b Hb Ht) as Hvs. unfold visible_row in Hvs.
  cbn [append_plan ap_visible_handle_count_after_commit ap_target_committed_tokens].
  rewrite write_visible_spec by (cbn; rewrite ?Hvs; lia). rewrite Hvs. cbv beta iota.
  fold (seq_begin i) (seq_begin (i + 1)).
  rewrite (write_kv_rows_spec _ _ _ (seq_start i)); cbn; [|intros k Hk|lia..].
  2: { destruct Hb as (_ & _ & _ & _ & Hr). destruct (Hr (seq_begin i + Z.of_nat k)) as [_ ->]; lia. }
  f_equal. unfold kv_written. cbn [rows visible_starts]. rewrite !app_nil_r.
  unfold append_row, cell_row, visible_row, key_row, owner_row, seq_positions.
  replace (seq_begin (i + 1) - seq_begin i) with (seq_count i) by lia.
  rewrite !splice_one by lia. done.
Qed.

Lemma kv_written_cons i off b bs a :
  kv_arena_wf a -> bound i b -> table_ok (table_of mem b) ->
  0 <= i < pp_sequence_count plan -> pp_sequence_count plan <= kl_maximum_sequences (ka_limits a) ->
  pp_execution_bucket_tokens plan <= kl_maximum_execution_bucket_tokens (ka_limits a) ->
  0 <= off -> off + blocks_of (seq_target i) <= kl_maximum_visible_handles (ka_limits a) ->
  kv_arena_wf (kv_written i off [b] a) /\
  kv_written (i + 1) (off + blocks_of (seq_target i)) bs (kv_written i off [b] a) = kv_written i off (b :: bs) a.
Proof.
  intros Hw Hb Ht Hi Hm Hbk Ho Hv. pose proof Hw as [W1 W2 W3 W4 W5 W6 W7 W8 W9 W10].
  destruct (seq_facts i Hi) as (H1 & H2 & H3 & H4 & H5).
  assert (Hle : pp_total_real_tokens plan <= pp_execution_bucket_tokens plan) by apply Hplan.
  pose proof (visible_row_size i b Hb Ht) as Hvs.
  assert (L1 : vsize (append_row i b) = seq_count i).
  { unfold append_row, seq_positions. rewrite vsize_map, vsize_count_from. lia. }
  assert (L2 : vsize (cell_row i b) = seq_count i).
  { unfold cell_row, seq_positions. rewrite vsize_map, vsize_count_from. lia. }
  unfold kv_written. cbn [rows visible_starts]. rewrite !app_nil_r. cbn. split.
  - split; cbn; rewrite ?vsize_splice by (rewrite ?L1, ?L2, ?Hvs; unfold vsize; cbn; unfold vsize in *; lia); done.
  - f_equal.
    + rewrite H4, <- L1. apply splice_app; lia.
    + rewrite H4, <- L2. apply splice_app; lia.
    + apply (splice_app _ i [off]); change (vsize [off]) with 1; lia.
    + rewrite <- Hvs. apply splice_app; lia.
    + apply (splice_app _ i (key_row i b)); change (vsize (key_row i b)) with 1; lia.
    + apply (splice_app _ i (owner_row i b)); change (vsize (owner_row i b)) with 1; lia.
Qed.

Lemma write_bindings_spec : forall bs i off a,
  kv_arena_wf a -> all_bound i bs -> tables_ok bs -> 0 <= i -> i + vsize bs = pp_sequence_count plan ->
  pp_sequence_count plan <= kl_maximum_sequences (ka_limits a) ->
  pp_execution_bucket_tokens plan <= kl_maximum_execution_bucket_tokens (ka_limits a) ->
  0 <= off -> off + visible_total i bs <= kl_maximum_visible_handles (ka_limits a) ->
  write_bindings mem plan md i off bs (batch_appends i bs) a = (kv_written i off bs a, off + visible_total i bs).
Proof.
  induction bs as [|b bs IH]; intros i off a Hw Hb Ht Hi Hn Hm Hbk Ho Hv.
  - cbn [write_bindings batch_appends visible_total]. unfold kv_written. cbn [rows visible_starts].
    rewrite !splice_nil, Z.add_0_r. by destruct a.
  - destruct Hb as [Hb Hbs]. apply Forall_cons in Ht as [Ht Hts]. rewrite vsize_cons in Hn. cbn [visible_total] in Hv |- *.
    pose proof (vsize_nonneg bs). pose proof (visible_total_nonneg bs (i + 1) Hbs Hts) as Hp.
    assert (Hpos : 0 <= blocks_of (seq_target i)).
    { pose proof (visible_row_size i b Hb Ht). pose proof (vsize_nonneg (visible_row i b)). lia. }
    rewrite batch_appends_cons, write_binding_step by (try done; lia).
    destruct (kv_written_cons i off b bs a) as [Hw' Heq]; try done; try lia.
    rewrite IH; try done; cbn; try lia. rewrite Heq. f_equal. lia.
Qed.

Lemma pad_kv_rows_spec : forall n packed a,
  0 <= packed -> packed + Z.of_nat n <= vsize (ka_append_handles a) ->
  vsize (ka_token_offsets a) = vsize (ka_append_handles a) ->
  pad_kv_rows n packed a =
    a <| ka_append_handles := splice (ka_append_handles a) packed (replicate n kInvalidPackedKvBlockHandle) |>
      <| ka_token_offsets := splice (ka_token_offsets a) packed (replicate n 0) |>.
Proof.
  induction n as [|n IH]; intros packed a H0 Hn Hs; cbn [pad_kv_rows replicate].
  - rewrite !splice_nil. by destruct a.
  - rewrite IH; [|lia|cbn; rewrite ?vsize_vput; lia..]. rewrite <- !splice_cons by lia. done.
Qed.

Lemma rows_size {A} (g : Z -> QwenBf16PackedKvBinding -> list A) : forall bs i,
  (forall j b, 0 <= j < pp_sequence_count plan -> vsize (g j b) = seq_count j) ->
  0 <= i -> i + vsize bs = pp_sequence_count plan ->
  seq_begin i + vsize (rows g i bs) = pp_total_real_tokens plan.
Proof.
  induction bs as [|b bs IH]; intros i Hg Hi Hn; cbn [rows].
  - rewrite Z.add_0_r in Hn. subst i. change (vsize []) with 0. rewrite Z.add_0_r. by apply offset_last.
  - rewrite vsize_cons in Hn. pose proof (vsize_nonneg bs). destruct (seq_facts i ltac:(lia)) as (_ & _ & _ & H4 & _).
    rewrite vsize_app, Hg, <- (IH (i + 1)) by (done || lia). lia.
Qed.

Lemma rows_size_1 {A} (g : Z -> QwenBf16PackedKvBinding -> list A) : forall bs i,
  (forall j b, vsize (g j b) = 1) -> vsize (rows g i bs) = vsize bs.
Proof. induction bs as [|b bs IH]; intros i Hg; [done|]. cbn [rows]. rewrite vsize_app, vsize_cons, Hg, IH; done. Qed.

Lemma rows_size_visible : forall bs i, all_bound i bs -> tables_ok bs ->
  vsize (rows visible_row i bs) = visible_total i bs.
Proof.
  induction bs as [|b bs IH]; intros i Hb Ht; [done|]. destruct Hb as [Hb Hbs]. apply Forall_cons in Ht as [Ht Hts].
  cbn [rows visible_total]. by rewrite vsize_app, visible_row_size, IH.
Qed.

Lemma visible_starts_size : forall bs i off, vsize (visible_starts i off bs) = vsize bs.
Proof. induction bs as [|b bs IH]; intros i off; [done|]. cbn [visible_starts]. by rewrite !vsize_cons, IH. Qed.

Lemma seq_positions_size i : 0 <= i < pp_sequence_count plan -> vsize (seq_positions i) = seq_count i.
Proof. intros Hi. destruct (seq_facts i Hi) as (_ & H & _). unfold seq_positions. rewrite vsize_count_from. lia. Qed.

(** The batch has the shape of the plan, and fits the arena. *)
Definition kv_fits (a : QwenBf16PackedKvMetadataArena) (bs : list QwenBf16PackedKvBinding) : Prop :=
  1 <= pp_sequence_count plan <= kl_maximum_sequences (ka_limits a) /\ vsize bs = pp_sequence_count plan /\
  pp_execution_bucket_tokens plan <= kl_maximum_execution_bucket_tokens (ka_limits a) /\
  vsize (pmv_input_token_ids md) = pp_execution_bucket_tokens plan /\
  vsize (pmv_positions md) = pp_execution_bucket_tokens plan /\
  vsize (pmv_request_index md) = pp_execution_bucket_tokens plan /\
  pmv_real_token_count md = pp_total_real_tokens plan /\ ka_generation a <> u64_max.

Definition dummy_rows_ok : Prop :=
  forall packed, pp_total_real_tokens plan <= packed < pp_execution_bucket_tokens plan ->
    (pmv_positions md).[packed] = 0 /\ (pmv_request_index md).[packed] = kInvalidPackedRequestIndex.

Definition kv_admissible (a : QwenBf16PackedKvMetadataArena) (bs : list QwenBf16PackedKvBinding)
    (appends : list QwenKvAppendPlan) : Prop :=
  kv_fits a bs /\ all_bound 0 bs /\ appends = batch_appends 0 bs /\
  visible_total 0 bs <= kl_maximum_visible_handles (ka_limits a) /\ dummy_rows_ok.

Lemma kv_shape_ok a bs appends :
  kv_shape_invalid a plan md bs appends = false <->
  kv_fits a bs /\ length appends = length bs.
Proof.
  unfold kv_shape_invalid, kv_fits. cbn zeta. pose proof (vsize_nonneg bs).
  rewrite !orb_false_iff, !negb_false_iff, !Z.eqb_eq, !Z.eqb_neq, !Z.gtb_ltb, !Z.ltb_ge.
  unfold pp_sequence_count, vsize in *. intuition lia.
Qed.

Lemma dummy_checked :
  existsb (kv_dummy_drifted md) (seqZ (pp_total_real_tokens plan)
    (pp_execution_bucket_tokens plan - pp_total_real_tokens plan)) = false <-> dummy_rows_ok.
Proof.
  rewrite existsb_seqZ. unfold dummy_rows_ok, kv_dummy_drifted.
  split; intros H packed Hp; specialize (H packed ltac:(lia)); lia.
Qed.

Lemma splice_app_0 {A} (buf xs ys : list A) n :
  vsize xs = n -> n <= vsize buf -> splice (splice buf 0 xs) n ys = splice buf 0 (xs ++ ys).
Proof. intros <- Hn. rewrite <- (Z.add_0_l (vsize xs)) at 1. by apply splice_app. Qed.

Lemma append_rows_size bs : vsize bs = pp_sequence_count plan ->
  vsize (rows append_row 0 bs) = pp_total_real_tokens plan.
Proof.
  intros Hn. rewrite <- (rows_size append_row bs 0), seq_begin_0; [lia| |lia|lia].
  intros j b Hj. unfold append_row. rewrite vsize_map. by apply seq_positions_size.
Qed.

Lemma cell_rows_size bs : vsize bs = pp_sequence_count plan ->
  vsize (rows cell_row 0 bs) = pp_total_real_tokens plan.
Proof.
  intros Hn. rewrite <- (rows_size cell_row bs 0), seq_begin_0; [lia| |lia|lia].
  intros j b Hj. unfold cell_row. rewrite vsize_map. by apply seq_positions_size.
Qed.

(** The arena after a successful call. *)
Lemma kv_materialize_writes a bs :
  kv_arena_wf a -> tables_ok bs -> kv_admissible a bs (batch_appends 0 bs) ->
  exists a', kv_materialize mem a plan md bs (batch_appends 0 bs) =
    (Value (kv_view (ka_generation a + 1) bs), a') /\ kv_arena_wf a' /\ ka_limits a' = ka_limits a.
Proof.
  intros Hw Ht (Hf & Hb & _ & Hv & Hd). unfold kv_materialize.
  rewrite (proj2 (kv_shape_ok a bs (batch_appends 0 bs))) by (split; [done|]; unfold batch_appends; apply length_imap).
  pose proof Hf as (F1 & F2 & F3 & _ & _ & _ & _ & F8). pose proof Hw as [W1 W2 W3 W4 W5 W6 W7 W8 W9 W10].
  rewrite (proj2 (kv_check_bindings_Value (ka_limits a) bs 0 0 (batch_appends 0 bs) (visible_total 0 bs) Ht
    ltac:(lia) ltac:(lia) ltac:(unfold batch_appends; by rewrite length_imap) ltac:(lia) ltac:(lia)))
    by (split_and!; done).
  rewrite (proj2 dummy_checked Hd), write_bindings_spec by (done || lia). rewrite Z.add_0_l.
  pose proof (visible_total_nonneg bs 0 Hb Ht) as Hvt. unfold is_u64 in W10.
  pose proof (append_rows_size bs F2) as R1. pose proof (cell_rows_size bs F2) as R2.
  pose proof (rows_size_visible bs 0 Hb Ht) as R3. pose proof (visible_starts_size bs 0 0) as R4.
  pose proof (rows_size_1 key_row bs 0 ltac:(done)) as R5. pose proof (rows_size_1 owner_row bs 0 ltac:(done)) as R6.
  assert (Hle : pp_total_real_tokens plan <= pp_execution_bucket_tokens plan) by apply Hplan.
  pose proof (vsize_nonneg (rows append_row 0 bs)) as R0.
  unfold kv_written. rewrite seq_begin_0.
  rewrite pad_kv_rows_spec; [|lia|cbn; rewrite ?vsize_splice by lia; lia..].
  unfold upd. cbn. rewrite (wrap64_id (_ + 1)) by (unfold is_u64; lia).
  rewrite (splice_one _ (pp_sequence_count plan)) by (rewrite vsize_splice; lia).
  rewrite !splice_app_0 by lia. eexists. split_and!; [f_equal; f_equal|..|done].
  - unfold kv_view. rewrite !take_splice_0; [done|..];
      rewrite ?length_app, ?length_replicate; unfold vsize in *; cbn [length]; lia.
  - split; cbn; rewrite ?vsize_splice by (rewrite ?vsize_app, ?vsize_replicate; try change (vsize [_]) with 1; lia);
      unfold is_u64; try done; lia.
Qed.

Lemma kv_materialize_Value a bs appends v :
  kv_arena_wf a -> tables_ok bs -> fst (kv_materialize mem a plan md bs appends) = Value v ->
  kv_admissible a bs appends.
Proof.
  intros Hw Ht. unfold kv_materialize. destruct (kv_shape_invalid _ _ _ _ _) eqn:Es; [done|].
  apply kv_shape_ok in Es as [Hf Hl]. pose proof Hf as (F1 & F2 & _). pose proof (kaw_handles _ Hw).
  destruct (kv_check_bindings _ _ _ _ _ _ _ _) as [n|] eqn:Ec; [|done].
  apply kv_check_bindings_Value in Ec as (Hb & -> & -> & Hv); try done; try lia.
  destruct (existsb _ _) eqn:Ed; [done|]. apply dummy_checked in Ed. intros _. by split_and!.
Qed.

(** A row of the batch among the rows of all sequences. *)
Lemma kv_rows_at {A} `{Inhabited A} (g : Z -> QwenBf16PackedKvBinding -> list A) : forall bs i m b k,
  (forall j b, 0 <= j < pp_sequence_count plan -> vsize (g j b) = seq_count j) ->
  0 <= i -> i + vsize bs = pp_sequence_count plan -> bs !! m = Some b ->
  0 <= k < seq_count (i + Z.of_nat m) ->
  (rows g i bs).[seq_begin (i + Z.of_nat m) - seq_begin i + k] = (g (i + Z.of_nat m) b).[k].
Proof.
  induction bs as [|x bs IH]; intros i m b k Hg Hi Hn Hm Hk; [done|]. rewrite vsize_cons in Hn.
  pose proof (vsize_nonneg bs). cbn [rows]. pose proof (Hg i x ltac:(lia)) as Hx.
  destruct (seq_facts i ltac:(lia)) as (_ & _ & _ & H4 & _). unfold vat at 1.
  destruct m as [|m]; cbn in Hm.
  - injection Hm as <-. rewrite Z.add_0_r, Z.sub_diag, Z.add_0_l in *. unfold vsize in Hx.
    rewrite lookup_total_app_l by lia. done.
  - pose proof (lookup_lt_Some _ _ _ Hm) as Hlt.
    replace (i + Z.of_nat (S m)) with (i + 1 + Z.of_nat m) in * by lia.
    rewrite <- (IH (i + 1) m b k) by (try done; lia).
    assert (Hmono : forall d : nat, i + 1 + Z.of_nat d <= pp_sequence_count plan ->
      seq_begin (i + 1) <= seq_begin (i + 1 + Z.of_nat d)).
    { induction d as [|d IHd]; intros Hd; [by rewrite Z.add_0_r|].
      destruct (seq_facts (i + 1 + Z.of_nat d) ltac:(lia)) as (_ & Hc & _ & Hst & _).
      replace (i + 1 + Z.of_nat (S d)) with (i + 1 + Z.of_nat d + 1) by lia. specialize (IHd ltac:(lia)). lia. }
    unfold vsize in Hn. specialize (Hmono m ltac:(lia)). unfold vsize in Hx.
    rewrite lookup_total_app_r by lia. unfold vat. f_equal. lia.
Qed.
End Spec.

(** C17. The KV metadata of a batch is right, or there is none.  [materialize] succeeds
    exactly when the batch has the shape of the plan and fits the arena, every binding
    is the table of its sequence at the plan's position, with the append plan of its
    target, and the rows carry the plan's positions.  Then every row gets the block and
    the offset of its position, padding rows get none, and every sequence sees the
    blocks up to its new length.  A refusal leaves the arena as it was. *)
Theorem kv_metadata_correct mem a plan md bs appends
    (Hw : kv_arena_wf a) (Hp : plan_packed plan) (Ht : tables_ok mem bs) :
  match kv_materialize mem a plan md bs appends with
  | (Value v, a') =>
      kv_admissible mem plan md a bs appends /\ v = kv_view mem plan (ka_generation a + 1) bs /\
      kv_arena_wf a' /\ ka_limits a' = ka_limits a
  | (Error _, a') => a' = a /\ ~ kv_admissible mem plan md a bs appends
  end.
Proof.
  assert (Hb : kv_fits plan md a bs -> pp_execution_bucket_tokens plan <= 4096).
  { intros (_ & _ & F3 & _). pose proof (kaw_tokens _ Hw). lia. }
  destruct (kv_materialize mem a plan md bs appends) as [[v|e] a'] eqn:E.
  - assert (Hs : kv_fits plan md a bs).
    { unfold kv_materialize in E. destruct (kv_shape_invalid _ _ _ _ _) eqn:Es; [done|].
      by apply kv_shape_ok in Es as [? _]. }
    assert (Ha : kv_admissible mem plan md a bs appends).
    { eapply kv_materialize_Value; auto. by rewrite E. }
    pose proof Ha as (_ & _ & -> & _).
    destruct (kv_materialize_writes mem plan md Hp (Hb Hs) a bs Hw Ht Ha) as (a2 & E2 & Hw2 & Hl2).
    rewrite E in E2. injection E2 as -> ->. done.
  - split.
    + unfold kv_materialize in E. repeat case_match; try done; by injection E as _ <-.
    + intros Ha. pose proof Ha as (Hs & _ & -> & _).
      destruct (kv_materialize_writes mem plan md Hp (Hb Hs) a bs Hw Ht Ha) as (a2 & E2 & _). by rewrite E in E2.
Qed.

(** ** The cells that a batch writes *)

(** The cell of position [pos] of a sequence: a block and an offset in it. *)
Definition cell (t : QwenKvBlockTable) (pos : Z) : Z * Z :=
  (bh_slot ((bt_handles t).[pos / kTokensPerSlot]), pos mod kTokensPerSlot).

Definition row_cell (v : QwenBf16PackedKvMetadataView) (r : Z) : Z * Z :=
  (bh_slot ((kv_append_handles v).[r]), (kv_token_offsets v).[r]).

(** The tables of a batch share no block. *)
Definition tables_disjoint (mem : table_memory) (bs : list QwenBf16PackedKvBinding) : Prop :=
  forall i j b b', bs !! i = Some b -> bs !! j = Some b' -> i <> j ->
    Forall (fun h => bh_slot h ∉ map bh_slot (bt_handles (table_of mem b'))) (bt_handles (table_of mem b)).

Lemma handle_at t pos : 0 <= pos / kTokensPerSlot < vsize (bt_handles t) ->
  bt_handles t !! Z.to_nat (pos / kTokensPerSlot) = Some ((bt_handles t).[pos / kTokensPerSlot]).
Proof. apply vat_lookup. Qed.

Lemma cell_inj t pos pos' :
  table_ok t -> 0 <= pos / kTokensPerSlot < vsize (bt_handles t) ->
  0 <= pos' / kTokensPerSlot < vsize (bt_handles t) -> cell t pos = cell t pos' -> pos = pos'.
Proof.
  intros Ht Hp Hp' [= Hs Ho]. pose proof (handle_at t pos Hp) as E. pose proof (handle_at t pos' Hp') as E'.
  assert (Ei : Z.to_nat (pos / kTokensPerSlot) = Z.to_nat (pos' / kTokensPerSlot)).
  { apply (NoDup_lookup (map bh_slot (bt_handles t)) _ _ (bh_slot ((bt_handles t).[pos / kTokensPerSlot])) (proj1 (tb_handles _ Ht))).
    - rewrite list_lookup_fmap. by rewrite E.
    - rewrite list_lookup_fmap. rewrite E'. cbn. by rewrite Hs. }
  pose proof (Z.div_mod pos kTokensPerSlot ltac:(done)). pose proof (Z.div_mod pos' kTokensPerSlot ltac:(done)).
  unfold kTokensPerSlot in *. lia.
Qed.

Lemma cell_disjoint mem bs i j b b' pos pos' :
  tables_disjoint mem bs -> bs !! i = Some b -> bs !! j = Some b' -> i <> j ->
  0 <= pos / kTokensPerSlot < vsize (bt_handles (table_of mem b)) ->
  0 <= pos' / kTokensPerSlot < vsize (bt_handles (table_of mem b')) ->
  cell (table_of mem b) pos <> cell (table_of mem b') pos'.
Proof.
  intros Hd Hi Hj Hne Hp Hp' [= Hs _]. pose proof (Hd i j b b' Hi Hj Hne) as Hf. rewrite Forall_forall in Hf.
  apply (Hf _ (list_elem_of_lookup_2 _ _ _ (handle_at _ _ Hp))). rewrite Hs.
  apply list_elem_of_fmap_2. by eapply list_elem_of_lookup_2, handle_at.
Qed.

Section Cells.
Context (mem : table_memory) (plan : PackedTokenPlan) (md : PackedTokenMetadataView).
Context (Hplan : plan_packed plan) (Hbucket : pp_execution_bucket_tokens plan <= 4096).

(** Every row belongs to a sequence. *)
Lemma row_split r : 0 <= r < pp_total_real_tokens plan ->
  exists i, 0 <= i < pp_sequence_count plan /\ seq_begin plan i <= r < seq_begin plan (i + 1).
Proof.
  intros Hr. assert (H : forall n : nat, Z.of_nat n <= pp_sequence_count plan -> r < seq_begin plan (Z.of_nat n) ->
    exists i, 0 <= i < Z.of_nat n /\ seq_begin plan i <= r < seq_begin plan (i + 1)).
  { induction n as [|n IH]; intros Hn Hlt; [pose proof (seq_begin_0 plan Hplan) as E; change (Z.of_nat 0) with 0 in Hlt; lia|].
    destruct (decide (r < seq_begin plan (Z.of_nat n))) as [Hl|Hl].
    - destruct (IH ltac:(lia) Hl) as (i & Hi & Hb). exists i. split; [lia|done].
    - exists (Z.of_nat n). split; [lia|]. replace (Z.of_nat n + 1) with (Z.of_nat (S n)) by lia. lia. }
  destruct (H (length (pp_sequence_generations plan))) as (i & Hi & Hb).
  - unfold pp_sequence_count, vsize. lia.
  - unfold seq_begin. pose proof (offset_last plan Hplan) as E. unfold pp_sequence_count, vsize in E. rewrite E. lia.
  - exists i. unfold pp_sequence_count, vsize. done.
Qed.

(** A row's cell is the cell of its position. *)
Lemma view_cell gen bs i b r :
  vsize bs = pp_sequence_count plan -> bs !! Z.to_nat i = Some b -> 0 <= i < pp_sequence_count plan ->
  seq_begin plan i <= r < seq_begin plan (i + 1) ->
  row_cell (kv_view mem plan gen bs) r = cell (table_of mem b) (seq_start plan i + (r - seq_begin plan i)).
Proof.
  intros Hn Hb Hi Hr. destruct (seq_facts plan Hplan Hbucket i Hi) as (_ & Hc & Hs & Hstep & Htot).
  pose proof (append_rows_size mem plan Hplan Hbucket bs Hn) as R1.
  pose proof (cell_rows_size plan Hplan Hbucket bs Hn) as R2.
  pose proof (seq_begin_0 plan Hplan) as B0.
  assert (Hrow : forall A (HA : Inhabited A) (g : Z -> QwenBf16PackedKvBinding -> list A) pad,
    (forall j b, 0 <= j < pp_sequence_count plan -> vsize (g j b) = seq_count plan j) ->
    vsize (rows g 0 bs) = pp_total_real_tokens plan ->
    (rows g 0 bs ++ pad).[r] = (g i b).[r - seq_begin plan i]).
  { intros A HA g pad Hg Hsz. pose proof (kv_rows_at plan Hplan Hbucket g bs 0 (Z.to_nat i) b (r - seq_begin plan i) Hg) as H.
    rewrite !Z.add_0_l, Z2Nat.id, B0 in H by lia. rewrite <- H by (done || lia).
    unfold vat. unfold vsize in Hsz. rewrite lookup_total_app_l by lia. f_equal. lia. }
  assert (Hpos : (seq_positions plan i).[r - seq_begin plan i] = seq_start plan i + (r - seq_begin plan i)).
  { unfold seq_positions, count_from. rewrite vat_map by (unfold vsize; rewrite length_seq; lia).
    unfold vat. rewrite lookup_total_seq_lt by lia. lia. }
  assert (Hpsz : 0 <= r - seq_begin plan i < vsize (seq_positions plan i)).
  { rewrite (seq_positions_size plan Hplan Hbucket) by done. lia. }
  unfold row_cell, kv_view, cell. cbn [kv_append_handles kv_token_offsets]. rewrite !Hrow; try done.
  - unfold append_row, cell_row. rewrite !vat_map, Hpos by done. done.
  - intros j x Hj. unfold cell_row. rewrite vsize_map. by apply seq_positions_size.
  - intros j x Hj. unfold append_row. rewrite vsize_map. by apply seq_positions_size.
Qed.

Lemma all_bound_lookup : forall bs i m b,
  all_bound mem plan md i bs -> bs !! m = Some b -> bound mem plan md (i + Z.of_nat m) b.
Proof.
  induction bs as [|x bs IH]; intros i [|m] b Hb Hm; cbn in Hm; try done.
  - injection Hm as <-. rewrite Z.add_0_r. apply Hb.
  - replace (i + Z.of_nat (S m)) with (i + 1 + Z.of_nat m) by lia. apply IH; [apply Hb|done].
Qed.

(** What is known of the rows of sequence [i]. *)
Lemma seq_rows_known gen bs i b k :
  vsize bs = pp_sequence_count plan -> all_bound mem plan md 0 bs -> tables_ok mem bs ->
  bs !! Z.to_nat i = Some b -> 0 <= i -> 0 <= k < seq_count plan i ->
  row_cell (kv_view mem plan gen bs) (seq_begin plan i + k) = cell (table_of mem b) (seq_start plan i + k) /\
  0 <= (seq_start plan i + k) / kTokensPerSlot < vsize (bt_handles (table_of mem b)) /\
  sd_committed_tokens (bt_descriptor (table_of mem b)) = seq_start plan i /\ table_ok (table_of mem b).
Proof.
  intros Hn Hb Ht Hi H0 Hk. assert (Hin : 0 <= i < pp_sequence_count plan).
  { apply lookup_lt_Some in Hi. unfold vsize in Hn. lia. }
  destruct (seq_facts plan Hplan Hbucket i Hin) as (Hs0 & _ & _ & Hstep & _). unfold is_u64 in Hs0.
  pose proof (all_bound_lookup bs 0 _ b Hb Hi) as Hbi. rewrite Z.add_0_l, Z2Nat.id in Hbi by done.
  destruct Hbi as (_ & _ & Hc & Ha & _). pose proof (proj1 (Forall_lookup _ _) Ht _ _ Hi) as Hti. cbn in Hti.
  pose proof (handle_index_in plan (table_of mem b) i (seq_start plan i + k) Hti Ha) as Hx. unfold seq_target in Hx.
  split; [|split; [apply Hx; lia|done]]. rewrite (view_cell gen bs i b) by (done || lia). f_equal. lia.
Qed.

Lemma row_known bs r :
  vsize bs = pp_sequence_count plan -> all_bound mem plan md 0 bs -> tables_ok mem bs ->
  0 <= r < pp_total_real_tokens plan ->
  exists i b k, r = seq_begin plan i + k /\ bs !! Z.to_nat i = Some b /\ 0 <= i /\ 0 <= k < seq_count plan i.
Proof.
  intros Hn Hb Ht Hr. destruct (row_split r Hr) as (i & Hi & Hrow).
  destruct (lookup_lt_is_Some_2 bs (Z.to_nat i)) as [b Hbi]; [unfold vsize in Hn; lia|].
  destruct (seq_facts plan Hplan Hbucket i Hi) as (_ & _ & _ & Hstep & _).
  exists i, b, (r - seq_begin plan i). split_and!; (done || lia).
Qed.
End Cells.

(** C18. A batch writes only new cells, each once.  When the tables of the batch share no
    block, the cells that the rows of an accepted batch write are pairwise different,
    and none of them holds a committed token of any sequence of the batch; each lies
    within a block of its own sequence. *)
Theorem kv_batch_cells mem a plan md bs appends v a'
    (Hw : kv_arena_wf a) (Hp : plan_packed plan) (Ht : tables_ok mem bs) (Hd : tables_disjoint mem bs)
    (E : kv_materialize mem a plan md bs appends = (Value v, a')) :
  (forall r r', 0 <= r < pp_total_real_tokens plan -> 0 <= r' < pp_total_real_tokens plan -> r <> r' ->
     row_cell v r <> row_cell v r') /\
  (forall r j b pos, 0 <= r < pp_total_real_tokens plan -> bs !! j = Some b ->
     0 <= pos < sd_committed_tokens (bt_descriptor (table_of mem b)) ->
     row_cell v r <> cell (table_of mem b) pos) /\
  (forall i b k, bs !! Z.to_nat i = Some b -> 0 <= i -> 0 <= k < seq_count plan i ->
     row_cell v (seq_begin plan i + k) = cell (table_of mem b) (seq_start plan i + k) /\
     0 <= (seq_start plan i + k) / kTokensPerSlot < vsize (bt_handles (table_of mem b))).
Proof.
  assert (Hbk : pp_execution_bucket_tokens plan <= 4096).
  { unfold kv_materialize in E. destruct (kv_shape_invalid _ _ _ _ _) eqn:Es; [done|].
    apply kv_shape_ok in Es as [(_ & _ & F3 & _) _]. pose proof (kaw_tokens _ Hw). lia. }
  assert (Ha : kv_admissible mem plan md a bs appends).
  { eapply kv_materialize_Value; [done..|]. by rewrite E. }
  pose proof Ha as ((_ & Hn & _) & Hb & -> & _).
  destruct (kv_materialize_writes mem plan md Hp Hbk a bs Hw Ht Ha) as (a2 & E2 & _).
  rewrite E in E2. injection E2 as -> _.
  pose proof (fun i b k => seq_rows_known mem plan md Hp Hbk (ka_generation a + 1) bs i b k Hn Hb Ht) as Hrow.
  pose proof (fun r => row_known mem plan md Hp Hbk bs r Hn Hb Ht) as Hsplit.
  split_and!.
  - intros r r' Hr Hr' Hne. destruct (Hsplit r Hr) as (i & b & k & -> & Hi & H0 & Hk).
    destruct (Hsplit r' Hr') as (i' & b' & k' & -> & Hi' & H0' & Hk').
    destruct (Hrow i b k Hi H0 Hk) as (-> & Hx & _ & Hti). destruct (Hrow i' b' k' Hi' H0' Hk') as (-> & Hx' & _).
    destruct (decide (i = i')) as [<-|Hii].
    + rewrite Hi in Hi'. injection Hi' as <-. intros Ec%cell_inj; try done. lia.
    + eapply cell_disjoint; try done. lia.
  - intros r j b' pos Hr Hj Hpos. destruct (Hsplit r Hr) as (i & b & k & -> & Hi & H0 & Hk).
    destruct (Hrow i b k Hi H0 Hk) as (-> & Hx & Hc & Hti).
    pose proof (proj1 (Forall_lookup _ _) Ht _ _ Hj) as Htj. cbn in Htj.
    assert (Hx' : 0 <= pos / kTokensPerSlot < vsize (bt_handles (table_of mem b'))).
    { pose proof (all_bound_lookup mem plan md bs 0 j b' Hb Hj) as (_ & _ & Hcj & Haj & _).
      apply (handle_index_in plan _ _ _ Htj Haj). destruct Haj. lia. }
    destruct (decide (Z.to_nat i = j)) as [<-|Hij].
    + rewrite Hi in Hj. injection Hj as <-. intros Ec%cell_inj; try done. lia.
    + by eapply cell_disjoint.
  - intros i b k Hi H0 Hk. by destruct (Hrow i b k Hi H0 Hk) as (? & ? & _).
Qed.

(** ** A batch of two sequences *)

Definition sample_tables : table_memory :=
  {[ 100 := new_table 0 5 16 [MkHandle 0 2]; 101 := appended (new_table 1 6 10 [MkHandle 1 2]) 3 ]}.

Definition sample_bindings : list QwenBf16PackedKvBinding := [MkKvBinding 5 (Some 100); MkKvBinding 6 (Some 101)].

Definition sample_kv_plan : PackedTokenPlan :=
  MkPlan 1 1 kPrefill "rev" (MkDigest (replicate 32 0)) [5; 6] [0; 3] [2; 1] [0; 2; 3] [1; 1]
    [MkDigest (replicate 32 0); MkDigest (replicate 32 0)] 3 4.

Definition sample_kv_md : PackedTokenMetadataView :=
  MkMetadataView 1 [7; 8; 9; 0] [0; 1; 3; 0] [0; 0; 1; kInvalidPackedRequestIndex] [0; 2; 3] [1; 2] 3.

Definition sample_kv_arena : QwenBf16PackedKvMetadataArena :=
  MkKvArena (MkKvLimits 2 4 2) (replicate 4 kInvalidPackedKvBlockHandle) (replicate 4 0) (replicate 3 0)
    (replicate 2 (MkHandle 0 0)) (replicate 2 0) (replicate 2 0) 0.

Lemma sample_kv_arena_wf : kv_arena_wf sample_kv_arena.
Proof. split; cbn; unfold is_u64; done || lia. Qed.

Lemma sample_kv_packed : plan_packed sample_kv_plan.
Proof. unfold plan_packed. cbn. split_and!; try done; repeat constructor; unfold is_u64; lia. Qed.

Lemma sample_tables_ok : tables_ok sample_tables sample_bindings.
Proof.
  assert (H1 : table_ok (new_table 0 5 16 [MkHandle 0 2])).
  { apply new_table_ok; try done; repeat constructor; cbn; set_solver. }
  assert (H2 : table_ok (appended (new_table 1 6 10 [MkHandle 1 2]) 3)).
  { split; cbn; try done; try (unfold kMaximumReservedTokens; lia). split; repeat constructor; cbn; set_solver. }
  apply Forall_cons; split; [exact H1|]. apply Forall_singleton. exact H2.
Qed.

Lemma sample_tables_disjoint : tables_disjoint sample_tables sample_bindings.
Proof.
  intros [|[|i]] [|[|j]] b b' Hi Hj Hne; cbn in Hi, Hj; simplify_eq; repeat constructor; vm_compute; set_solver.
Qed.

Lemma kv_metadata_correct_witness :
  fst (kv_materialize sample_tables sample_kv_arena sample_kv_plan sample_kv_md sample_bindings
    (batch_appends sample_tables sample_kv_plan 0 sample_bindings)) =
    Value (kv_view sample_tables sample_kv_plan 1 sample_bindings) /\
  kv_append_handles (kv_view sample_tables sample_kv_plan 1 sample_bindings) =
    [MkHandle 0 2; MkHandle 0 2; MkHandle 1 2; kInvalidPackedKvBlockHandle].
Proof.
  split; [|vm_compute; reflexivity].
  pose proof (kv_metadata_correct sample_tables sample_kv_arena sample_kv_plan sample_kv_md sample_bindings
    (batch_appends sample_tables sample_kv_plan 0 sample_bindings)
    sample_kv_arena_wf sample_kv_packed sample_tables_ok) as H.
  assert (Hok : rok (fst (kv_materialize sample_tables sample_kv_arena sample_kv_plan sample_kv_md sample_bindings
    (batch_appends sample_tables sample_kv_plan 0 sample_bindings))) = true) by (vm_compute; reflexivity).
  destruct (kv_materialize _ _ _ _ _ _) as [[v|e] a']; [|discriminate Hok]. cbn.
  destruct H as (_ & -> & _). reflexivity.
Defined.

Lemma kv_batch_cells_witness :
  let r := kv_materialize sample_tables sample_kv_arena sample_kv_plan sample_kv_md sample_bindings
    (batch_appends sample_tables sample_kv_plan 0 sample_bindings) in
  exists v, fst r = Value v /\ map (row_cell v) [0; 1; 2] = [(0, 0); (0, 1); (1, 3)] /\
    row_cell v 0 <> row_cell v 1.
Proof.
  intros r. destruct r as [[v|e] a'] eqn:E; [|exfalso; revert E; vm_compute; discriminate].
  assert (Hm : match fst r with Value v => map (row_cell v) [0; 1; 2] = [(0, 0); (0, 1); (1, 3)] | _ => False end)
    by (vm_compute; reflexivity).
  rewrite E in Hm. exists v. split; [reflexivity|]. split; [exact Hm|].
  apply (kv_batch_cells sample_tables sample_kv_arena sample_kv_plan sample_kv_md sample_bindings _ v a'
    sample_kv_arena_wf sample_kv_packed sample_tables_ok sample_tables_disjoint E); cbn; lia.
Defined.
