(* ===== verification/PackedBatch.v ===== *)
(** * The packed batch transaction

    Models [include/pih/model/qwen3_bf16_packed_batch_transaction.h] and
    [plugins/model-qwen3/qwen3_bf16_packed_batch_transaction.cpp], with the sampling
    structures of [qwen3_sampler.h] and [qwen3_bf16_packed_result_layout.h]: a batch is
    checked against its plan, run on the backend and committed to the block tables of
    its sequences, all of them or none.

    The backend is behind the interface [QwenBf16PackedBatchBackend]: a parameter
    [execute_packed] of the model.  It gets pointers to the block tables, so it returns
    the memory they are in.  Floating-point fields are bit patterns. *)

From stdpp Require Import gmap list_numbers.
From S2P Require Import Prelude Core Sha256 TokenPlan TokenMetadata KvPool KvPoolInv KvPoolProps KvTable KvLease KvMetadata.

Module SamplerMode.
Inductive Qwen3SamplingMode :=
  | kGreedy
  | kStochastic.
End SamplerMode.
Export SamplerMode(Qwen3SamplingMode).

Definition kMaximumSuppressedTokenIds : Z := 17.

Record Qwen3SamplingDescriptor := MkQwenSampling {
  qs_mode : Qwen3SamplingMode;
  qs_temperature : Z;
  qs_top_p : Z;
  qs_top_k : option Z;
  qs_seed : Z;
  qs_sample_ordinal : Z;
  qs_top_logprobs_count : Z;
  qs_suppressed_token_ids : list Z;
  qs_suppressed_token_count : Z }.

Record QwenBf16PackedSampleReceipt := MkSampleReceipt {
  sr_token_id : Z;
  sr_selected_logprob : Z;
  sr_rng_word : Z;
  sr_top_logprob_count : Z;
  sr_top_token_ids : list Z;
  sr_top_logprobs : list Z }.

Record QwenBf16PackedBatchExecutionView := MkExecution {
  ex_sampled_token_ids : list Z;
  ex_completion_event : QwenKvCompletionEvent;
  ex_sampling_receipts : list QwenBf16PackedSampleReceipt }.

Module BatchState.
Inductive QwenBf16PackedBatchTransactionState :=
  | kReady
  | kPoisoned.
End BatchState.
Export BatchState(QwenBf16PackedBatchTransactionState).

#[export] Instance QwenBf16PackedBatchTransactionState_eq : EqDecision QwenBf16PackedBatchTransactionState.
Proof. solve_decision. Defined.

Record QwenBf16PackedBatchTransaction := MkBatchTransaction {
  bx_append_plans : list QwenKvAppendPlan;
  bx_state : QwenBf16PackedBatchTransactionState }.

#[export] Instance eta_QwenBf16PackedBatchTransaction : Eta QwenBf16PackedBatchTransaction := fun x =>
  MkBatchTransaction (bx_append_plans x) (bx_state x).

Definition kVocabularySize : Z := 151936.

Definition BatchTransaction_Create (maximum_sequences : Z) : Result QwenBf16PackedBatchTransaction :=
  if (maximum_sequences =? 0) || (maximum_sequences >? 4096)
  then Error (InvalidArgument "packed batch sequence bound is invalid")
  else Value (MkBatchTransaction (replicate (Z.to_nat maximum_sequences) inhabitant) BatchState.kReady).

(** ** [QwenBf16PackedBatchTransaction::execute] *)

Section Checks.
Context (plan : PackedTokenPlan) (md : PackedTokenMetadataView).

Definition batch_shape_drifted (capacity : Z) (bindings : list QwenBf16PackedKvBinding)
    (sampling : list Qwen3SamplingDescriptor) : bool :=
  let n := pp_sequence_count plan in
  (n =? 0) || (n >? capacity) || negb (vsize bindings =? n) || negb (vsize sampling =? n)
  || negb (pmv_real_token_count md =? pp_total_real_tokens plan)
  || negb (vsize (pmv_input_token_ids md) =? pp_execution_bucket_tokens plan)
  || negb (vsize (pmv_positions md) =? vsize (pmv_input_token_ids md))
  || negb (vsize (pmv_request_index md) =? vsize (pmv_input_token_ids md))
  || negb (vsize (pmv_query_start_offsets md) =? n + 1)
  || negb ((pmv_query_start_offsets md).[vsize (pmv_query_start_offsets md) - 1] =? pp_total_real_tokens plan)
  || negb (vsize (pp_packed_offsets plan) =? vsize (pmv_query_start_offsets md)).

Definition prefix_sums_drifted : bool :=
  existsb (fun i => negb ((pmv_query_start_offsets md).[i] =? (pp_packed_offsets plan).[i]))
    (seqZ 0 (vsize (pmv_query_start_offsets md))).

(** The inner loop: the sequence whose last row is [sample_row]. *)
Definition sampled_sequence (sample_row : Z) : option Z :=
  first_index (fun i => sample_row =? wrap32 ((pp_packed_offsets plan).[i + 1] - 1))
    (seqZ 0 (pp_sequence_count plan)) 0.

(** The loop over the sample rows; [previous] is the sequence of the last row. *)
Fixpoint check_sample_rows (previous : option Z) (sample_rows : list Z) : Status :=
  match sample_rows with
  | [] => StatusOk
  | sample_row :: rest =>
      match sampled_sequence sample_row with
      | None => InvalidArgument "packed batch sample row is invalid"
      | Some i =>
          if match previous with Some j => i <=? j | None => false end
          then InvalidArgument "packed batch sample rows are not canonical"
          else check_sample_rows (Some i) rest
      end
  end.

Definition token_row_drifted (i begin packed : Z) : bool :=
  ((pmv_input_token_ids md).[packed] >=? kVocabularySize) || negb ((pmv_request_index md).[packed] =? i)
  || negb ((pmv_positions md).[packed] =? wrap64 ((pp_committed_start_positions plan).[i] + (packed - begin))).

(** The loop over the real tokens of the sequences [i], [i + 1], ... *)
Fixpoint check_real_tokens (n : nat) (i : Z) : Status :=
  match n with
  | O => StatusOk
  | S n =>
      let begin := (pp_packed_offsets plan).[i] in
      let end_ := (pp_packed_offsets plan).[i + 1] in
      if existsb (token_row_drifted i begin) (seqZ begin (end_ - begin))
      then InvalidArgument "packed batch real-token metadata drifted"
      else match packed_token_input_digest
                   (take (Z.to_nat (end_ - begin)) (drop (Z.to_nat begin) (pmv_input_token_ids md))) with
      | Error e => e
      | Value input_digest =>
          if negb (bool_decide (input_digest = (pp_input_digests plan).[i]))
          then InvalidArgument "packed batch input digest drifted"
          else check_real_tokens n (i + 1)
      end
  end.

Definition padding_drifted (packed : Z) : bool :=
  negb ((pmv_input_token_ids md).[packed] =? 0) || negb ((pmv_positions md).[packed] =? 0)
  || negb ((pmv_request_index md).[packed] =? kInvalidPackedRequestIndex).

Definition check_batch (capacity : Z) (bindings : list QwenBf16PackedKvBinding)
    (sampling : list Qwen3SamplingDescriptor) : Status :=
  let n := pp_sequence_count plan in
  let total := pp_total_real_tokens plan in
  if batch_shape_drifted capacity bindings sampling
  then InvalidArgument "packed batch metadata shape drifted"
  else if prefix_sums_drifted then InvalidArgument "packed batch prefix sums drifted"
  else
    let samples := check_sample_rows None (pmv_sample_row_index md) in
    if negb (ok samples) then samples
    else if negb (bool_decide (pp_phase plan = kPrefill)) && negb (vsize (pmv_sample_row_index md) =? n)
    then InvalidArgument "decode-family batch must sample every sequence"
    else
      let tokens := check_real_tokens (Z.to_nat n) 0 in
      if negb (ok tokens) then tokens
      else if existsb padding_drifted (seqZ total (pp_execution_bucket_tokens plan - total))
      then InvalidArgument "packed batch dummy padding drifted"
      else StatusOk.

(** The loop over the bindings; [seen] are those before, [plans] their append plans. *)
Fixpoint prepare_bindings (mem : table_memory) (i : Z) (seen : list QwenBf16PackedKvBinding)
    (bindings : list QwenBf16PackedKvBinding) (plans : list QwenKvAppendPlan) :
    Status * list QwenKvAppendPlan :=
  match bindings with
  | [] => (StatusOk, plans)
  | b :: rest =>
      let d := bt_descriptor (table_of mem b) in
      let start := (pp_committed_start_positions plan).[i] in
      if bool_decide (kb_block_table b = None)
         || negb (kb_sequence_generation b =? (pp_sequence_generations plan).[i])
         || negb (sd_active d =? 1) || negb (sd_committed_tokens d =? start)
      then (FailedPrecondition "packed batch KV binding drifted", plans)
      else if existsb (fun s => bool_decide (kb_block_table s = kb_block_table b)
                || (sd_owner_sequence_index (bt_descriptor (table_of mem s)) =? sd_owner_sequence_index d)) seen
      then (InvalidArgument "packed batch KV bindings are not unique", plans)
      else match checked_add_u64 start ((pp_real_token_counts plan).[i]) with
      | Error _ => (InvalidArgument "packed batch KV target overflowed", plans)
      | Value target =>
          if target >? u32_max then (InvalidArgument "packed batch KV target overflowed", plans)
          else match prepare_append (table_of mem b) (wrap32 target) with
          | Error e => (e, plans)
          | Value append => prepare_bindings mem (i + 1) (seen ++ [b]) rest (plans.[i <- append])
          end
      end
  end.
End Checks.

(** The loops over the tables: all plans are valid, then all are committed. *)
Fixpoint precommit (mem : table_memory) (bindings : list QwenBf16PackedKvBinding)
    (plans : list QwenKvAppendPlan) : bool :=
  match bindings, plans with
  | b :: bs, p :: ps => ok (rollback_append (table_of mem b) p) && precommit mem bs ps
  | _, _ => true
  end.

Fixpoint commit_tables (mem : table_memory) (bindings : list QwenBf16PackedKvBinding)
    (plans : list QwenKvAppendPlan) : bool * table_memory :=
  match bindings, plans with
  | b :: bs, p :: ps =>
      let '(s, t) := commit_append (table_of mem b) p in
      let mem := match kb_block_table b with Some a => <[a := t]> mem | None => mem end in
      if ok s then commit_tables mem bs ps else (false, mem)
  | _, _ => (true, mem)
  end.

Section Execute.
Context {BS : Type}.
Context (execute_packed : BS -> table_memory -> PackedTokenPlan -> PackedTokenMetadataView ->
  QwenBf16PackedKvMetadataView -> list QwenBf16PackedKvBinding -> list QwenKvAppendPlan ->
  list Qwen3SamplingDescriptor -> Result QwenBf16PackedBatchExecutionView * table_memory * BS).

Record batch_state := MkBatch {
  bs_transaction : QwenBf16PackedBatchTransaction;
  bs_arena : QwenBf16PackedKvMetadataArena;
  bs_memory : table_memory;
  bs_backend : BS }.

#[export] Instance eta_batch_state : Eta batch_state := fun s =>
  MkBatch (bs_transaction s) (bs_arena s) (bs_memory s) (bs_backend s).

Definition poisoned (x : QwenBf16PackedBatchTransaction) : QwenBf16PackedBatchTransaction :=
  x <| bx_state := BatchState.kPoisoned |>.

Definition poison (s : batch_state) : batch_state := s <| bs_transaction := poisoned (bs_transaction s) |>.

(** What the backend returned is checked and committed. *)
Definition commit_execution (s : batch_state) (md : PackedTokenMetadataView)
    (bindings : list QwenBf16PackedKvBinding) (execution : QwenBf16PackedBatchExecutionView) :
    Result QwenBf16PackedBatchExecutionView * batch_state :=
  let plans := take (length bindings) (bx_append_plans (bs_transaction s)) in
  if negb (vsize (ex_sampled_token_ids execution) =? vsize (pmv_sample_row_index md))
     || event_null (ex_completion_event execution)
  then (Error (Internal "packed batch backend result shape is invalid"), poison s)
  else if existsb (fun token => token >=? kVocabularySize) (ex_sampled_token_ids execution)
  then (Error (Internal "packed batch backend token is invalid"), poison s)
  else if negb (precommit (bs_memory s) bindings plans)
  then (Error (Internal "packed batch KV precommit validation failed"), poison s)
  else
    let '(complete, mem) := commit_tables (bs_memory s) bindings plans in
    let s := s <| bs_memory := mem |> in
    if complete then (Value execution, s)
    else (Error (Internal "packed batch KV commit became partial"), poison s).

Definition execute (s : batch_state) (plan : PackedTokenPlan) (md : PackedTokenMetadataView)
    (bindings : list QwenBf16PackedKvBinding) (sampling : list Qwen3SamplingDescriptor) :
    Result QwenBf16PackedBatchExecutionView * batch_state :=
  let x := bs_transaction s in
  if negb (bool_decide (bx_state x = BatchState.kReady))
  then (Error (FailedPrecondition "packed batch transaction is poisoned"), s)
  else
    let checked := check_batch plan md (vsize (bx_append_plans x)) bindings sampling in
    if negb (ok checked) then (Error checked, s)
    else
      let '(prepared, plans) := prepare_bindings plan (bs_memory s) 0 [] bindings (bx_append_plans x) in
      let s := s <| bs_transaction := x <| bx_append_plans := plans |> |> in
      if negb (ok prepared) then (Error prepared, s)
      else
        let active_appends := take (Z.to_nat (pp_sequence_count plan)) plans in
        let '(kv_metadata, arena) := kv_materialize (bs_memory s) (bs_arena s) plan md bindings active_appends in
        let s := s <| bs_arena := arena |> in
        match kv_metadata with
        | Error e => (Error e, s)
        | Value kv =>
            let '(execution, mem, backend) := execute_packed (bs_backend s) (bs_memory s) plan md kv bindings
                                                active_appends sampling in
            let s := s <| bs_memory := mem |> <| bs_backend := backend |> in
            match execution with
            | Error e => (Error e, poison s)
            | Value execution => commit_execution s md bindings execution
            end
        end.
End Execute.

(** ** Preparation *)

(** The pointer and the plan of one sequence. *)
Definition prepared_for (mem : table_memory) (b : QwenBf16PackedKvBinding) (append : QwenKvAppendPlan) : Prop :=
  kb_block_table b <> None /\
  prepare_append (table_of mem b) (ap_target_committed_tokens append) = Value append.

Lemma prepare_append_target t target append :
  prepare_append t target = Value append ->
  ap_target_committed_tokens append = target /\
  ap_expected_block_table_generation append <> u32_max /\
  prepare_append t (ap_target_committed_tokens append) = Value append.
Proof.
  intros E. pose proof E as E'. unfold prepare_append in E. destruct (_ || _); [done|].
  destruct (Z.eqb_spec (sd_block_table_generation (bt_descriptor t)) u32_max); [done|].
  destruct (handles_for_tokens target); [|done]. injection E as <-. done.
Qed.

Lemma prepare_append_error t target e : prepare_append t target = Error e -> ok e = false.
Proof.
  unfold prepare_append, handles_for_tokens. destruct (_ || _); [by intros [= <-]|].
  destruct (_ =? u32_max); [by intros [= <-]|]. by destruct (_ =? 0).
Qed.

Lemma prepare_bindings_ok plan mem : forall bs i seen plans st plans',
  prepare_bindings plan mem i seen bs plans = (st, plans') -> ok st = true -> 0 <= i -> i + vsize bs <= vsize plans ->
  NoDup (map kb_block_table seen) ->
  length plans' = length plans /\ take (Z.to_nat i) plans' = take (Z.to_nat i) plans /\
  Forall2 (prepared_for mem) bs (take (length bs) (drop (Z.to_nat i) plans')) /\
  NoDup (map kb_block_table (seen ++ bs)).
Proof.
  induction bs as [|b bs IH]; intros i seen plans st plans' E Hok Hi Hn Hd; cbn [prepare_bindings] in E.
  { injection E as _ <-. rewrite app_nil_r. by split_and!. }
  rewrite vsize_cons in Hn. pose proof (vsize_nonneg bs).
  destruct (bool_decide _ || _ || _ || _) eqn:E1; [by injection E as <- _|]. breflect.
  destruct (existsb _ seen) eqn:E2; [by injection E as <- _|].
  destruct (checked_add_u64 _ _) as [target|]; [|by injection E as <- _].
  destruct (target >? u32_max); [by injection E as <- _|].
  destruct (prepare_append (table_of mem b) (wrap32 target)) as [append|e] eqn:Ep.
  2: { apply prepare_append_error in Ep. injection E as -> _. congruence. }
  destruct (prepare_append_target _ _ _ Ep) as (_ & _ & Ep').
  apply IH in E as (Hl & Ht & Hf & Hnd); [|done|lia|rewrite vsize_vput; lia|].
  2: { rewrite map_app. apply NoDup_app. split; [done|]. split; [|apply NoDup_singleton].
       intros x (s & -> & Hs)%list_elem_of_fmap Hx%list_elem_of_singleton.
       apply not_true_iff_false in E2. apply E2, existsb_exists. exists s. split; [by apply list_elem_of_In|].
       by rewrite Hx, bool_decide_true. }
  rewrite <- app_assoc in Hnd. unfold vput in Hl. rewrite length_insert in Hl.
  replace (Z.to_nat (i + 1)) with (S (Z.to_nat i)) in * by lia.
  assert (Hat : plans' !! Z.to_nat i = Some append).
  { rewrite <- (lookup_take_lt _ (S (Z.to_nat i))), Ht by lia. unfold vput.
    rewrite lookup_take_lt, list_lookup_insert_eq by (unfold vsize in Hn; lia). done. }
  split_and!; try done.
  - apply (f_equal (take (Z.to_nat i))) in Ht. rewrite !take_take, !Nat.min_l in Ht by lia. rewrite Ht.
    unfold vput. apply take_insert_ge. lia.
  - rewrite (drop_S _ append) by done. cbn [length take]. by constructor.
Qed.

Lemma prepared_all mem bs appends :
  Forall2 (prepared_for mem) bs appends ->
  Forall (fun b => kb_block_table b <> None) bs /\
  Forall (fun p => ap_expected_block_table_generation p <> u32_max) appends.
Proof.
  induction 1 as [|b p bs ps [Hb Hp] _ [IH1 IH2]]; [done|].
  destruct (prepare_append_target _ _ _ Hp) as (_ & ? & _). by split; constructor.
Qed.

(** ** The commit *)

(** The table after its plan was committed. *)
Definition committed (t : QwenKvBlockTable) (append : QwenKvAppendPlan) : QwenKvBlockTable :=
  let d := bt_descriptor t in
  t <| bt_descriptor := d <| sd_committed_tokens := ap_target_committed_tokens append |>
         <| sd_block_table_generation := wrap32 (sd_block_table_generation d + 1) |> |>.

Lemma commit_append_valid t append :
  ok (rollback_append t append) = true -> ap_expected_block_table_generation append <> u32_max ->
  commit_append t append = (StatusOk, committed t append).
Proof.
  intros Hv Hg. unfold commit_append, rollback_append in *. rewrite Hv. cbn [negb].
  destruct (Z.eqb_spec (sd_block_table_generation (bt_descriptor t)) u32_max) as [E|]; [|done].
  exfalso. unfold validate_plan, plan_stale in Hv. destruct (_ || _) eqn:Es; [done|]. breflect. congruence.
Qed.

Lemma table_of_insert_ne mem b a t : kb_block_table b <> Some a -> table_of (<[a := t]> mem) b = table_of mem b.
Proof.
  intros Hne. unfold table_of. destruct (kb_block_table b) as [a'|]; [|done].
  apply lookup_total_insert_ne. congruence.
Qed.

Lemma precommit_insert mem a t : forall bs plans,
  Some a ∉ map kb_block_table bs -> precommit (<[a := t]> mem) bs plans = precommit mem bs plans.
Proof.
  induction bs as [|b bs IH]; intros [|p ps] Hn; cbn; try done. apply not_elem_of_cons in Hn as [H1 H2].
  rewrite table_of_insert_ne by congruence. by rewrite IH.
Qed.

Lemma commit_tables_total : forall bs plans mem,
  NoDup (map kb_block_table bs) -> Forall (fun b => kb_block_table b <> None) bs -> length plans = length bs ->
  Forall (fun p => ap_expected_block_table_generation p <> u32_max) plans -> precommit mem bs plans = true ->
  exists mem', commit_tables mem bs plans = (true, mem') /\
    (forall m b p, bs !! m = Some b -> plans !! m = Some p -> table_of mem' b = committed (table_of mem b) p) /\
    (forall a, Some a ∉ map kb_block_table bs -> mem' !! a = mem !! a).
Proof.
  induction bs as [|b bs IH]; intros [|p ps] mem Hd Hn Hl Hg Hp; try done.
  { exists mem. split_and!; try done. }
  apply NoDup_cons in Hd as [Hbn Hd]. apply Forall_cons in Hn as [Hb Hn]. apply Forall_cons in Hg as [Hgp Hg].
  cbn in Hp. apply andb_true_iff in Hp as [Hv Hp]. cbn [commit_tables].
  rewrite commit_append_valid by done. destruct (kb_block_table b) as [a|] eqn:Ea; [|done]. cbn [ok].
  destruct (IH ps (<[a := committed (table_of mem b) p]> mem)) as (mem' & E & Hin & Hout); try done.
  { by injection Hl. } { by rewrite precommit_insert. }
  exists mem'. split; [exact E|]. split.
  - intros [|m] x q Hx Hq; cbn in Hx, Hq.
    + injection Hx as <-. injection Hq as <-. unfold table_of at 1. rewrite Ea.
      rewrite lookup_total_alt, Hout, lookup_insert_eq by done. done.
    + rewrite (Hin m x q Hx Hq). f_equal. apply table_of_insert_ne. intros Ex. apply Hbn. rewrite <- Ex.
      apply list_elem_of_fmap_2. by eapply list_elem_of_lookup_2.
  - intros a' Ha'. cbn in Ha'. apply not_elem_of_cons in Ha' as [H1 H2]. rewrite Hout by done.
    apply lookup_insert_ne. congruence.
Qed.

(** ** Atomicity *)

Section Atomic.
Context {BS : Type}.
Context (execute_packed : BS -> table_memory -> PackedTokenPlan -> PackedTokenMetadataView ->
  QwenBf16PackedKvMetadataView -> list QwenBf16PackedKvBinding -> list QwenKvAppendPlan ->
  list Qwen3SamplingDescriptor -> Result QwenBf16PackedBatchExecutionView * table_memory * BS).

(** The result of a batch was checked. *)
Definition execution_ok (md : PackedTokenMetadataView) (v : QwenBf16PackedBatchExecutionView) : Prop :=
  vsize (ex_sampled_token_ids v) = vsize (pmv_sample_row_index md) /\
  Forall (fun token => token < kVocabularySize) (ex_sampled_token_ids v) /\
  event_null (ex_completion_event v) = false.

Definition tables_committed (mem mem' : table_memory) (bs : list QwenBf16PackedKvBinding)
    (appends : list QwenKvAppendPlan) : Prop :=
  (forall m b p, bs !! m = Some b -> appends !! m = Some p -> table_of mem' b = committed (table_of mem b) p) /\
  (forall a, Some a ∉ map kb_block_table bs -> mem' !! a = mem !! a).

Lemma commit_execution_spec (s : batch_state (BS := BS)) md bs v :
  let plans := take (length bs) (bx_append_plans (bs_transaction s)) in
  NoDup (map kb_block_table bs) -> Forall (fun b => kb_block_table b <> None) bs -> length plans = length bs ->
  Forall (fun p => ap_expected_block_table_generation p <> u32_max) plans ->
  let '(r, s') := commit_execution s md bs v in
  match r with
  | Value v' => v' = v /\ execution_ok md v /\ tables_committed (bs_memory s) (bs_memory s') bs plans /\
      bs_transaction s' = bs_transaction s
  | Error _ => bs_memory s' = bs_memory s /\ bx_state (bs_transaction s') = BatchState.kPoisoned
  end /\ bs_backend s' = bs_backend s.
Proof.
  intros plans Hd Hn Hl Hg. unfold commit_execution. fold plans. destruct (_ || _) eqn:E1; [done|]. breflect.
  destruct (existsb _ _) eqn:E2; [done|]. destruct (precommit _ _ _) eqn:E3; [|done]. cbn [negb].
  destruct (commit_tables_total bs plans (bs_memory s) Hd Hn Hl Hg E3) as (mem' & -> & Hin & Hout). cbn.
  split_and!; try done. split_and!; try done. apply Forall_forall. intros x Hx.
  destruct (decide (x < kVocabularySize)); [done|]. exfalso.
  apply not_true_iff_false in E2. apply E2, existsb_exists. exists x. split; [by apply list_elem_of_In|lia].
Qed.

Lemma execute_spec (s : batch_state (BS := BS)) plan md bs sampling :
  let '(r, s') := execute execute_packed s plan md bs sampling in
  match r with
  | Value v => exists kv appends mem,
      execute_packed (bs_backend s) (bs_memory s) plan md kv bs appends sampling =
        (Value v, mem, bs_backend s') /\
      Forall2 (prepared_for (bs_memory s)) bs appends /\ tables_committed mem (bs_memory s') bs appends /\
      execution_ok md v /\ bx_state (bs_transaction s') = BatchState.kReady
  | Error _ =>
      (bs_memory s' = bs_memory s /\ bs_backend s' = bs_backend s /\
       bx_state (bs_transaction s') = bx_state (bs_transaction s)) \/
      (bx_state (bs_transaction s') = BatchState.kPoisoned /\ exists kv appends r1,
       execute_packed (bs_backend s) (bs_memory s) plan md kv bs appends sampling =
         (r1, bs_memory s', bs_backend s'))
  end.
Proof.
  unfold execute. case_bool_decide as Hr; cbn [negb]; [|by left].
  destruct (ok (check_batch _ _ _ _ _)) eqn:Ec; cbn [negb]; [|by left].
  assert (Hshape : vsize bs = pp_sequence_count plan /\ pp_sequence_count plan <= vsize (bx_append_plans (bs_transaction s))).
  { unfold check_batch in Ec. destruct (batch_shape_drifted _ _ _ _ _) eqn:Es; [done|].
    unfold batch_shape_drifted in Es. breflect. lia. }
  destruct Hshape as [Hn Hcap].
  destruct (prepare_bindings _ _ _ _ _ _) as [st plans] eqn:Ep. destruct (ok st) eqn:Est; cbn [negb]; [|by left].
  apply prepare_bindings_ok in Ep as (Hl & _ & Hf & Hd); [|done|lia|lia|constructor].
  cbn [drop app] in Hf, Hd. unfold upd. cbn.
  destruct (kv_materialize _ _ _ _ _ _) as [[kv|e] arena]; cbn; [|by left].
  assert (Hlen : Z.to_nat (pp_sequence_count plan) = length bs) by (unfold vsize in Hn; lia). rewrite Hlen.
  destruct (execute_packed _ _ _ _ _ _ _ _) as [[[v|e] mem] backend] eqn:Ex.
  2: { right. split; [done|]. by eexists _, _, _. }
  pose proof (commit_execution_spec (MkBatch (MkBatchTransaction plans (bx_state (bs_transaction s))) arena mem backend)
    md bs v) as H. cbn in H. pose proof (Forall2_length _ _ _ Hf) as Hlf.
  destruct (prepared_all _ _ _ Hf) as [Hf1 Hf2].
  destruct (commit_execution _ _ _ _) as [r s']. destruct H as [H Hb]; [done..|].
  - destruct r as [v'|e]; [destruct H as (-> & Hok & Htc & Htr)|destruct H as [Hm Hp]].
    + eexists kv, _, mem. rewrite Ex, Hb. split_and!; try done; try apply Hok. by rewrite Htr.
    + right. split; [done|]. eexists kv, _, _. rewrite Ex, Hb, Hm. done.
Qed.

(** C3. A batch is committed as a whole or not at all, for every backend.  When [execute]
    returns a result the backend was called once, on the plans prepared for its tables;
    every table of the batch is at its plan's target, no other table was touched by the
    commit, and the sampled tokens are as many as the plan samples and in the
    vocabulary.  When it returns an error no table was committed: either the backend
    was not called and the tables are as before, or they are as the backend left them
    and the transaction is poisoned.  The partial commit that the code guards against
    cannot occur. *)
Theorem packed_batch_atomic (s : batch_state (BS := BS)) plan md bs sampling :
  let '(r, s') := execute execute_packed s plan md bs sampling in
  match r with
  | Value v => exists kv appends mem,
      execute_packed (bs_backend s) (bs_memory s) plan md kv bs appends sampling =
        (Value v, mem, bs_backend s') /\
      Forall2 (prepared_for (bs_memory s)) bs appends /\ tables_committed mem (bs_memory s') bs appends /\
      execution_ok md v /\ bx_state (bs_transaction s') = BatchState.kReady
  | Error _ =>
      (bs_memory s' = bs_memory s /\ bs_backend s' = bs_backend s /\
       bx_state (bs_transaction s') = bx_state (bs_transaction s)) \/
      (bx_state (bs_transaction s') = BatchState.kPoisoned /\ exists kv appends r1,
       execute_packed (bs_backend s) (bs_memory s) plan md kv bs appends sampling =
         (r1, bs_memory s', bs_backend s'))
  end.
Proof. apply execute_spec. Qed.
End Atomic.
