(* ===== verification/PackedDriver.v ===== *)
(** * The packed driver

    Models [include/pih/scheduler/controller_packed_driver.h] and
    [plugins/model-qwen3/controller_packed_driver.cpp]: one call takes the next plan
    from the controller client, runs it as a packed batch and completes it with the
    sampled tokens; a sequence that ended is drained by recycling its blocks.

    The client works through the function table [api] of the controller capability,
    over the provider's state.  The backend is the parameter
    of [PackedBatch], the recycler any implementation of its class.  [self] is the calling thread. *)

From stdpp Require Import gmap list_numbers.
From S2P Require Import Prelude Core Sha256 TokenPlan TokenMetadata RequestArena Runtime ControllerAbi Client KvPool KvPoolInv KvPoolProps KvTable KvLease KvMetadata PackedBatch KvRecycler.

Module DriverState.
Inductive ControllerPackedDriverState :=
  | kReady
  | kCompletionPending
  | kPoisoned.
End DriverState.
Export DriverState(ControllerPackedDriverState).

#[export] Instance ControllerPackedDriverState_eq : EqDecision ControllerPackedDriverState.
Proof. solve_decision. Defined.

Module DriverStep.
Inductive ControllerPackedDriverStep :=
  | kIdle
  | kCompleted
  | kOutputBackpressured.
End DriverStep.
Export DriverStep(ControllerPackedDriverStep).

Record ControllerPackedSamplingReceipt := MkReceipt {
  rp_request_generation : Z;
  rp_token_ordinal : Z;
  rp_sample : QwenBf16PackedSampleReceipt }.

Definition no_sample : QwenBf16PackedSampleReceipt :=
  MkSampleReceipt 0 0 0 0 (replicate 20 0) (replicate 20 0).

#[export] Instance QwenBf16PackedSampleReceipt_inhabited : Inhabited QwenBf16PackedSampleReceipt :=
  populate no_sample.
#[export] Instance ControllerPackedSamplingReceipt_inhabited : Inhabited ControllerPackedSamplingReceipt :=
  populate (MkReceipt 0 0 no_sample).

(** [projected = {}]: the bits of [0.0F] and [1.0F]. *)
Definition default_qwen_sampling : Qwen3SamplingDescriptor :=
  MkQwenSampling SamplerMode.kGreedy 0 1065353216 None 0 0 0
    (replicate (Z.to_nat kMaximumSuppressedTokenIds) 0) 0.

#[export] Instance Qwen3SamplingDescriptor_inhabited : Inhabited Qwen3SamplingDescriptor :=
  populate default_qwen_sampling.

Record ControllerPackedDriver := MkDriver {
  pd_transaction : QwenBf16PackedBatchTransaction;
  pd_metadata : QwenBf16PackedKvMetadataArena;
  pd_registry : list QwenBf16PackedKvBinding;
  pd_active_bindings : list QwenBf16PackedKvBinding;
  pd_active_sampling : list Qwen3SamplingDescriptor;
  pd_pending_tokens : list Z;
  pd_pending_receipts : list ControllerPackedSamplingReceipt;
  pd_receipts : list ControllerPackedSamplingReceipt;
  pd_last_use_events : list QwenKvCompletionEvent;
  pd_reclaimed : list bool;
  pd_registry_count : Z;
  pd_pending_token_count : Z;
  pd_receipt_head : Z;
  pd_receipt_size : Z;
  pd_state : ControllerPackedDriverState }.

#[export] Instance eta_ControllerPackedDriver : Eta ControllerPackedDriver := fun d =>
  MkDriver (pd_transaction d) (pd_metadata d) (pd_registry d) (pd_active_bindings d)
    (pd_active_sampling d) (pd_pending_tokens d) (pd_pending_receipts d) (pd_receipts d)
    (pd_last_use_events d) (pd_reclaimed d) (pd_registry_count d) (pd_pending_token_count d)
    (pd_receipt_head d) (pd_receipt_size d) (pd_state d).

Definition PackedDriver_Create (maximum_sequences : Z) (kv_metadata_limits : QwenBf16PackedKvMetadataLimits)
    (receipt_capacity : Z) : Result ControllerPackedDriver :=
  if (maximum_sequences =? 0) || (kl_maximum_sequences kv_metadata_limits <? maximum_sequences)
     || (receipt_capacity <? maximum_sequences)
  then Error (InvalidArgument "controller packed driver limits drifted")
  else
    let? transaction := BatchTransaction_Create maximum_sequences in
    let? metadata := KvMetadataArena_Create kv_metadata_limits in
    let n := Z.to_nat maximum_sequences in
    Value (MkDriver transaction metadata (replicate n inhabitant) (replicate n inhabitant)
      (replicate n inhabitant) (replicate n 0) (replicate n inhabitant)
      (replicate (Z.to_nat receipt_capacity) inhabitant) (replicate n no_event) (replicate n false)
      0 0 0 0 DriverState.kReady).

Definition poison_driver (d : ControllerPackedDriver) : ControllerPackedDriver :=
  d <| pd_state := DriverState.kPoisoned |>.

(** The registered bindings. *)
Definition pd_registered (d : ControllerPackedDriver) : list QwenBf16PackedKvBinding :=
  take (Z.to_nat (pd_registry_count d)) (pd_registry d).

Definition find_registered (d : ControllerPackedDriver) (sequence_generation : Z) : option Z :=
  first_index (fun b => kb_sequence_generation b =? sequence_generation) (pd_registered d) 0.

Definition bind_sequence (d : ControllerPackedDriver) (sequence_generation address : Z)
    (block_table : QwenKvBlockTable) (initial_last_use_event : QwenKvCompletionEvent) :
    Status * ControllerPackedDriver :=
  if negb (bool_decide (pd_state d = DriverState.kReady)) || (sequence_generation =? 0)
     || negb (sd_active (bt_descriptor block_table) =? 1) || event_null initial_last_use_event
  then (FailedPrecondition "controller KV binding is not ready", d)
  else if existsb (fun b => (kb_sequence_generation b =? sequence_generation)
                            || bool_decide (kb_block_table b = Some address)) (pd_registered d)
  then (FailedPrecondition "controller KV binding already exists", d)
  else if pd_registry_count d =? vsize (pd_registry d)
  then (ResourceExhausted "controller KV registry is full", d)
  else
    let i := pd_registry_count d in
    (StatusOk, d <| pd_registry := (pd_registry d).[i <- MkKvBinding sequence_generation (Some address)] |>
                 <| pd_last_use_events := (pd_last_use_events d).[i <- initial_last_use_event] |>
                 <| pd_reclaimed := (pd_reclaimed d).[i <- false] |>
                 <| pd_registry_count := wrap32 (i + 1) |>).

Definition try_take_sampling_receipt (d : ControllerPackedDriver) :
    Result (option ControllerPackedSamplingReceipt) * ControllerPackedDriver :=
  if pd_receipt_size d =? 0 then (Value None, d)
  else
    let receipt := (pd_receipts d).[pd_receipt_head d] in
    (Value (Some receipt),
     d <| pd_receipt_head := wrap32 (wrap32 (pd_receipt_head d + 1) mod vsize (pd_receipts d)) |>
       <| pd_receipt_size := wrap32 (pd_receipt_size d - 1) |>).

(** The loop that queues the receipts of the completed plan. *)
Fixpoint push_receipts (receipts : list ControllerPackedSamplingReceipt) (d : ControllerPackedDriver) :
    ControllerPackedDriver :=
  match receipts with
  | [] => d
  | r :: rest =>
      let tail := wrap32 (pd_receipt_head d + pd_receipt_size d) mod vsize (pd_receipts d) in
      push_receipts rest
        (d <| pd_receipts := (pd_receipts d).[tail <- r] |>
           <| pd_receipt_size := wrap32 (pd_receipt_size d + 1) |>)
  end.

(** ** The projection of the sampling parameters *)

Fixpoint suppress (tokens : list Z) (q : Qwen3SamplingDescriptor) : Qwen3SamplingDescriptor :=
  match tokens with
  | [] => q
  | token :: rest =>
      let k := qs_suppressed_token_count q in
      suppress rest
        (MkQwenSampling (qs_mode q) (qs_temperature q) (qs_top_p q) (qs_top_k q) (qs_seed q)
           (qs_sample_ordinal q) (qs_top_logprobs_count q) ((qs_suppressed_token_ids q).[k <- token])
           (wrap32 (k + 1)))
  end.

Definition project_sampling (eos_token_id : Z) (source : ControllerRequestSampling) : Qwen3SamplingDescriptor :=
  let projected := MkQwenSampling
    (match sm_mode source with SamplingMode.kGreedy => SamplerMode.kGreedy | _ => SamplerMode.kStochastic end)
    (sm_temperature source) (sm_top_p source) (sm_top_k source) (sm_effective_seed source)
    (sm_sample_ordinal source) (if sm_logprobs_enabled source then sm_top_logprobs_count source else 0)
    (qs_suppressed_token_ids default_qwen_sampling) 0 in
  if sm_sample_ordinal source <? sm_minimum_new_tokens source
  then
    let projected := suppress (take (Z.to_nat (sm_stop_token_count source)) (sm_stop_token_ids source)) projected in
    if negb (eos_token_id =? u32_max)
       && negb (bool_decide (eos_token_id ∈
                  take (Z.to_nat (qs_suppressed_token_count projected)) (qs_suppressed_token_ids projected)))
    then suppress [eos_token_id] projected
    else projected
  else projected.

(** The loop over the sequences of the plan: bindings and sampling, or the position
    that has no binding. *)
Fixpoint bind_plan (d : ControllerPackedDriver) (eos_token_id i : Z) (generations : list Z)
    (sampling : list ControllerRequestSampling) : bool * ControllerPackedDriver :=
  match generations, sampling with
  | g :: gs, source :: rest =>
      match find_registered d g with
      | None => (false, d)
      | Some candidate =>
          let d := d <| pd_active_bindings := (pd_active_bindings d).[i <- (pd_registry d).[candidate]] |>
                     <| pd_active_sampling := (pd_active_sampling d).[i <- project_sampling eos_token_id source] |> in
          bind_plan d eos_token_id (i + 1) gs rest
      end
  | _, _ => (true, d)
  end.

(** The loop that records the last use of the sequences of the plan. *)
Fixpoint record_last_use (event : QwenKvCompletionEvent) (active : list QwenBf16PackedKvBinding)
    (d : ControllerPackedDriver) : ControllerPackedDriver :=
  match active with
  | [] => d
  | b :: rest =>
      record_last_use event rest
        (match find_registered d (kb_sequence_generation b) with
         | Some r => d <| pd_last_use_events := (pd_last_use_events d).[r <- event] |>
         | None => d
         end)
  end.

(** The loop that pairs the sampled tokens with their requests; [None] when a receipt
    is not for its token. *)
Fixpoint pair_receipts (plan : PackedTokenPlan) (md : PackedTokenMetadataView)
    (execution : QwenBf16PackedBatchExecutionView) (active sample_index : Z) (n : nat)
    (d : ControllerPackedDriver) : option Z * ControllerPackedDriver :=
  match n with
  | O => (Some sample_index, d)
  | S n =>
      let produces_token :=
        (sample_index <? vsize (pmv_sample_row_index md))
        && ((pmv_sample_row_index md).[sample_index] =?
            wrap32 ((pp_packed_offsets plan).[active + 1] - 1)) in
      if negb produces_token then pair_receipts plan md execution (active + 1) sample_index n d
      else
        let sample := (ex_sampling_receipts execution).[sample_index] in
        if negb (sr_token_id sample =? (pd_pending_tokens d).[sample_index]) then (None, d)
        else
          let receipt := MkReceipt (kb_sequence_generation ((pd_active_bindings d).[active]))
            (wrap64 (qs_sample_ordinal ((pd_active_sampling d).[active]) + 1)) sample in
          pair_receipts plan md execution (active + 1) (sample_index + 1) n
            (d <| pd_pending_receipts := (pd_pending_receipts d).[sample_index <- receipt] |>)
  end.

(** ** The driver in its surroundings *)

Section Driver.
Context {PS BS : Type} (api : pih_execution_controller_api_v1 PS).
Context (execute_packed : BS -> table_memory -> PackedTokenPlan -> PackedTokenMetadataView ->
  QwenBf16PackedKvMetadataView -> list QwenBf16PackedKvBinding -> list QwenKvAppendPlan ->
  list Qwen3SamplingDescriptor -> Result QwenBf16PackedBatchExecutionView * table_memory * BS).

Record driver_env := MkEnv {
  en_driver : ControllerPackedDriver;
  en_client : ControllerClient;
  en_provider : PS;
  en_memory : table_memory;
  en_backend : BS }.

#[export] Instance eta_driver_env : Eta driver_env := fun e =>
  MkEnv (en_driver e) (en_client e) (en_provider e) (en_memory e) (en_backend e).

Definition on_driver (f : ControllerPackedDriver -> ControllerPackedDriver) (e : driver_env) : driver_env :=
  e <| en_driver := f (en_driver e) |>.

Definition publish_pending (e : driver_env) (self now_ns : Z) :
    Result ControllerPackedDriverStep * driver_env :=
  let d := en_driver e in
  if pd_pending_token_count d >? wrap64 (vsize (pd_receipts d) - pd_receipt_size d)
  then (Value DriverStep.kOutputBackpressured, e)
  else
    let '(status, ps) := Client.complete_current_sampled_tokens api (en_client e) (en_provider e) self
      (take (Z.to_nat (pd_pending_token_count d)) (pd_pending_tokens d)) now_ns in
    let e := e <| en_provider := ps |> in
    if negb (ok status)
    then
      if bool_decide (code status = kResourceExhausted)
      then (Value DriverStep.kOutputBackpressured, e)
      else (Error status, on_driver poison_driver e)
    else
      let d := push_receipts (take (Z.to_nat (pd_pending_token_count d)) (pd_pending_receipts d)) d in
      (Value DriverStep.kCompleted,
       e <| en_driver := d <| pd_pending_token_count := 0 |> <| pd_state := DriverState.kReady |> |>).

(** A plan that can not be bound is given back. *)
Definition abandon (e : driver_env) (view : ControllerPreparedPlanView) : driver_env :=
  let '(aborted, ps) := Client.abort_current_plan api (en_client e) (en_provider e)
    (pp_plan_sequence (ppv_plan view)) (ppv_plan_digest view) in
  let e := e <| en_provider := ps |> in
  if ok aborted then e else on_driver poison_driver e.

(** The result of the batch becomes the pending completion. *)
Definition take_execution (e : driver_env) (view : ControllerPreparedPlanView)
    (execution : QwenBf16PackedBatchExecutionView) (self now_ns : Z) :
    Result ControllerPackedDriverStep * driver_env :=
  let n := pp_sequence_count (ppv_plan view) in
  let d := record_last_use (ex_completion_event execution)
             (take (Z.to_nat n) (pd_active_bindings (en_driver e))) (en_driver e) in
  let tokens := ex_sampled_token_ids execution in
  if (vsize tokens >? vsize (pd_pending_tokens d))
     || negb (vsize (ex_sampling_receipts execution) =? vsize tokens)
  then (Error (Internal "controller backend exceeded token capacity"), e <| en_driver := poison_driver d |>)
  else
    let d := d <| pd_pending_token_count := wrap32 (vsize tokens) |>
               <| pd_pending_tokens := splice (pd_pending_tokens d) 0 tokens |> in
    match pair_receipts (ppv_plan view) (ppv_metadata view) execution 0 0 (Z.to_nat n) d with
    | (None, d) =>
        (Error (Internal "controller sampling receipt token drifted"), e <| en_driver := poison_driver d |>)
    | (Some sample_index, d) =>
        if negb (sample_index =? pd_pending_token_count d)
        then (Error (Internal "controller sampling receipt identity drifted"),
              e <| en_driver := poison_driver d |>)
        else publish_pending (e <| en_driver := d <| pd_state := DriverState.kCompletionPending |> |>) self now_ns
    end.

(** The plan runs: committed and in flight in the controller, then executed. *)
Definition run_plan (e : driver_env) (view : ControllerPreparedPlanView) (self now_ns : Z) :
    Result ControllerPackedDriverStep * driver_env :=
  let n := pp_sequence_count (ppv_plan view) in
  let sequence := pp_plan_sequence (ppv_plan view) in
  let '(committed, ps) := Client.commit_current_plan api (en_client e) (en_provider e) sequence
    (ppv_plan_digest view) in
  let '(status, ps) :=
    if ok committed
    then Client.mark_current_plan_in_flight api (en_client e) ps sequence (ppv_plan_digest view)
    else (committed, ps) in
  let e := e <| en_provider := ps |> in
  if negb (ok status) then (Error status, on_driver poison_driver e)
  else
    let d := en_driver e in
    let '(execution, s) := execute execute_packed
      (MkBatch (pd_transaction d) (pd_metadata d) (en_memory e) (en_backend e))
      (ppv_plan view) (ppv_metadata view) (take (Z.to_nat n) (pd_active_bindings d))
      (take (Z.to_nat n) (pd_active_sampling d)) in
    let e := e <| en_driver := d <| pd_transaction := bs_transaction s |> <| pd_metadata := bs_arena s |> |>
               <| en_memory := bs_memory s |> <| en_backend := bs_backend s |> in
    match execution with
    | Error status => (Error status, on_driver poison_driver e)
    | Value execution => take_execution e view execution self now_ns
    end.

Definition execute_next (e : driver_env) (self now_ns : Z) :
    Result ControllerPackedDriverStep * driver_env :=
  match pd_state (en_driver e) with
  | DriverState.kPoisoned => (Error (FailedPrecondition "controller packed driver is poisoned"), e)
  | DriverState.kCompletionPending => publish_pending e self now_ns
  | DriverState.kReady =>
      let '(prepared, cl, ps) := Client.prepare_next_plan api (en_client e) (en_provider e) now_ns in
      let e := e <| en_client := cl |> <| en_provider := ps |> in
      match prepared with
      | Error status => (Error status, e)
      | Value None => (Value DriverStep.kIdle, e)
      | Value (Some view) =>
          if negb (vsize (ppv_selected_sampling view) =? pp_sequence_count (ppv_plan view))
          then (Error (Internal "controller sampling projection drifted"), abandon e view)
          else
            let '(found, d) := bind_plan (en_driver e) (rl_eos_token_id (cl_limits (en_client e))) 0
              (pp_sequence_generations (ppv_plan view)) (ppv_selected_sampling view) in
            let e := e <| en_driver := d |> in
            if negb found
            then (Error (FailedPrecondition "controller sequence has no KV binding"), abandon e view)
            else run_plan e view self now_ns
      end
  end.

(** ** Draining *)

Context {RS : Type} (recycler : QwenBf16KvRecycler RS).

(** The last registered binding takes the place of [index]. *)
Definition unregister (d : ControllerPackedDriver) (index : Z) : ControllerPackedDriver :=
  let last := pd_registry_count d - 1 in
  let d := if negb (index =? last)
           then d <| pd_registry := (pd_registry d).[index <- (pd_registry d).[last]] |>
                  <| pd_last_use_events := (pd_last_use_events d).[index <- (pd_last_use_events d).[last]] |>
                  <| pd_reclaimed := (pd_reclaimed d).[index <- (pd_reclaimed d).[last]] |>
           else d in
  d <| pd_registry := (pd_registry d).[last <- MkKvBinding 0 None] |>
    <| pd_last_use_events := (pd_last_use_events d).[last <- no_event] |>
    <| pd_reclaimed := (pd_reclaimed d).[last <- false] |>
    <| pd_registry_count := wrap32 last |>.

Definition drain_sequence (e : driver_env) (self sequence_generation : Z) (p : QwenKvSlotPool)
    (rs : RS) : Status * driver_env * QwenKvSlotPool * RS :=
  let d := en_driver e in
  if negb (bool_decide (pd_state d = DriverState.kReady))
  then (FailedPrecondition "controller driver cannot drain while work is pending", e, p, rs)
  else match find_registered d sequence_generation with
  | None => (FailedPrecondition "controller drain has no KV binding", e, p, rs)
  | Some index =>
      let '(status, rs, p) :=
        if (pd_reclaimed d).[index] then (StatusOk, rs, p)
        else recycler rs p (bt_handles (table_of (en_memory e) ((pd_registry d).[index])))
               ((pd_last_use_events d).[index]) in
      if negb (ok status) then (status, on_driver poison_driver e, p, rs)
      else
        let d := d <| pd_reclaimed := (pd_reclaimed d).[index <- true] |> in
        let '(finalized, ps) := Client.finalize_draining api (en_client e) (en_provider e) self
          sequence_generation in
        let e := e <| en_provider := ps |> in
        if negb (ok finalized) then (finalized, e <| en_driver := d |>, p, rs)
        else (StatusOk, e <| en_driver := unregister d index |>, p, rs)
  end.
End Driver.
