(* ===== verification/PackedDriverProps.v ===== *)
(** * What the packed driver keeps

    The receipts of the sampled tokens form a queue, one receipt for each token that the
    controller took, in the order the controller took them; an execution that could not
    be completed is kept and completed later without running again; a plan that samples
    nothing cannot be completed. *)

From Stdlib Require Import Sorting.Sorted.
From stdpp Require Import gmap list_numbers.
From S2P Require Import Prelude Core Sha256 TokenPlan TokenMetadata Mailbox RequestArena Runtime ControllerAbi Provider Client Link RuntimeMachine RuntimeProps Service.
From S2P Require Import KvPool KvPoolInv KvPoolProps KvTable KvLease KvMetadata PackedBatch KvRecycler PackedDriver.

(** ** The receipts *)

Definition receipt_ring (d : ControllerPackedDriver) : Ring ControllerPackedSamplingReceipt :=
  MkRing (pd_receipts d) (pd_receipt_head d) (pd_receipt_size d).

Definition receipt_queue (d : ControllerPackedDriver) : list ControllerPackedSamplingReceipt :=
  ring_list (receipt_ring d).

Definition receipt_token (r : ControllerPackedSamplingReceipt) : Z := sr_token_id (rp_sample r).

Definition pending_receipts_of (d : ControllerPackedDriver) : list ControllerPackedSamplingReceipt :=
  take (Z.to_nat (pd_pending_token_count d)) (pd_pending_receipts d).
Definition pending_tokens_of (d : ControllerPackedDriver) : list Z :=
  take (Z.to_nat (pd_pending_token_count d)) (pd_pending_tokens d).

Record driver_ok (d : ControllerPackedDriver) : Prop := {
  do_ring : ring_wf (receipt_ring d);
  do_size : 1 <= vsize (pd_registry d) <= 4096;
  do_events : vsize (pd_last_use_events d) = vsize (pd_registry d);
  do_reclaimed : vsize (pd_reclaimed d) = vsize (pd_registry d);
  do_tokens : vsize (pd_pending_tokens d) = vsize (pd_registry d);
  do_receipts : vsize (pd_pending_receipts d) = vsize (pd_registry d);
  do_count : 0 <= pd_registry_count d <= vsize (pd_registry d);
  do_pending : 0 <= pd_pending_token_count d <= vsize (pd_registry d);
  do_matched : pd_state d = DriverState.kCompletionPending ->
    map receipt_token (pending_receipts_of d) = pending_tokens_of d }.

Lemma push_receipts_spec receipts : forall d,
  ring_wf (receipt_ring d) -> vsize receipts + pd_receipt_size d <= vsize (pd_receipts d) ->
  let d' := push_receipts receipts d in
  ring_wf (receipt_ring d') /\ receipt_queue d' = receipt_queue d ++ receipts /\
  d' = d <| pd_receipts := pd_receipts d' |> <| pd_receipt_size := pd_receipt_size d' |>.
Proof.
  induction receipts as [|r rs IH]; intros d Hw Hc.
  { cbn. rewrite app_nil_r. by destruct d. }
  rewrite vsize_cons in Hc. pose proof (vsize_nonneg rs) as H0. cbn [push_receipts].
  destruct (ring_push_spec (receipt_ring d) r Hw) as (Hw1 & Hl & Hcap).
  { unfold ring_full. cbn. lia. }
  set (d1 := d <| pd_receipts := _ |> <| pd_receipt_size := _ |>).
  assert (E1 : receipt_ring d1 = ring_push (receipt_ring d) r) by done.
  assert (Hsz : pd_receipt_size d1 = pd_receipt_size d + 1).
  { cbn. apply wrap32_id. destruct Hw as (Hb & _ & Hs). cbn in Hb, Hs. unfold is_u32. lia. }
  destruct (IH d1) as (Hw2 & Hl2 & Hd2).
  - by rewrite E1.
  - rewrite Hsz. cbn. rewrite vsize_vput. lia.
  - split; [done|]. split.
    + rewrite Hl2. unfold receipt_queue at 1. rewrite E1, Hl, <- app_assoc. done.
    + rewrite Hd2 at 1. by destruct d.
Qed.

Lemma try_take_spec d :
  ring_wf (receipt_ring d) ->
  let '(r, d') := try_take_sampling_receipt d in
  ring_wf (receipt_ring d') /\ d' = d <| pd_receipt_head := pd_receipt_head d' |> <| pd_receipt_size := pd_receipt_size d' |> /\
  match receipt_queue d with
  | [] => r = Value None /\ d' = d
  | x :: rest => r = Value (Some x) /\ receipt_queue d' = rest
  end.
Proof.
  intros Hw. pose proof Hw as (Hb & Hh & Hs). cbn in Hb, Hh, Hs.
  pose proof (ring_pop_spec (receipt_ring d) Hw) as (Hw' & _ & Hm). unfold try_take_sampling_receipt.
  unfold ring_pop in Hm, Hw'. cbn [receipt_ring rg_size rg_head rg_buffer] in Hm, Hw'. fold (receipt_queue d) in Hm.
  destruct (pd_receipt_size d =? 0) eqn:E.
  - split; [done|]. split; [by destruct d|]. destruct (receipt_queue d); [done|by destruct Hm].
  - pose proof (Z.mod_pos_bound (wrap32 (pd_receipt_head d + 1)) (vsize (pd_receipts d)) ltac:(lia)).
    cbn [fst snd] in *. unfold receipt_queue at 2, receipt_ring. cbn.
    rewrite (wrap32_id (_ mod _)) by (unfold is_u32; lia).
    split; [done|]. split; [by destruct d|].
    destruct (receipt_queue d); [by injection Hm|]. destruct Hm as [Hx Hl]. injection Hx as ->. done.
Qed.

(** ** What the loops of [execute_next] change *)

Lemma find_registered_Some d g i :
  driver_ok d -> find_registered d g = Some i ->
  0 <= i < pd_registry_count d /\ kb_sequence_generation ((pd_registry d).[i]) = g.
Proof.
  intros Hd E. unfold find_registered in E. apply first_index_Some in E as (Hi & Hf & _).
  pose proof (do_count _ Hd) as Hc. unfold pd_registered, vsize in *. rewrite length_take in Hi.
  rewrite Z.sub_0_r in Hf. unfold vat in *. rewrite list_lookup_total_alt, lookup_take_lt in Hf by lia.
  rewrite list_lookup_total_alt. split; [lia|]. by apply Z.eqb_eq.
Qed.

Lemma bind_plan_frame eos gs : forall i sampling d,
  exists ab asg, snd (bind_plan d eos i gs sampling) = d <| pd_active_bindings := ab |> <| pd_active_sampling := asg |>.
Proof.
  induction gs as [|g gs IH]; intros i [|source rest] d; cbn [bind_plan]; try (by exists (pd_active_bindings d), (pd_active_sampling d); destruct d).
  destruct (find_registered d g); [|by exists (pd_active_bindings d), (pd_active_sampling d); destruct d].
  set (d1 := d <| pd_active_bindings := _ |> <| pd_active_sampling := _ |>).
  destruct (IH (i + 1) rest d1) as (ab & asg & ->). by exists ab, asg.
Qed.

Lemma bind_plan_found eos gs : forall i sampling d,
  Forall (fun g => find_registered d g <> None) gs -> fst (bind_plan d eos i gs sampling) = true.
Proof.
  induction gs as [|g gs IH]; intros i [|source rest] d Hf; cbn [bind_plan]; try done.
  apply Forall_cons in Hf as [Hg Hf]. destruct (find_registered d g); [|done]. by apply IH.
Qed.

Lemma suppress_ordinal ids : forall projected, qs_sample_ordinal (suppress ids projected) = qs_sample_ordinal projected.
Proof. induction ids as [|t ids IH]; intros q; [done|]. cbn [suppress]. by rewrite IH. Qed.

Lemma project_ordinal eos source : qs_sample_ordinal (project_sampling eos source) = sm_sample_ordinal source.
Proof. unfold project_sampling. cbn zeta. repeat case_match; by rewrite ?suppress_ordinal. Qed.

(** The bindings and the sampling of the sequences of a plan, as far as the vectors
    reach. *)
Definition bound_to (eos i : Z) (gs : list Z) (sampling : list ControllerRequestSampling)
    (d : ControllerPackedDriver) : Prop :=
  (forall k, 0 <= k < vsize gs -> i + k < vsize (pd_active_bindings d) ->
     kb_sequence_generation ((pd_active_bindings d).[i + k]) = gs.[k]) /\
  (forall k, 0 <= k < vsize gs -> i + k < vsize (pd_active_sampling d) ->
     (pd_active_sampling d).[i + k] = project_sampling eos (sampling.[k])).

Lemma bind_plan_bound eos gs : forall i sampling d d',
  driver_ok d -> 0 <= i -> vsize sampling = vsize gs -> bind_plan d eos i gs sampling = (true, d') ->
  vsize (pd_active_bindings d') = vsize (pd_active_bindings d) /\
  vsize (pd_active_sampling d') = vsize (pd_active_sampling d) /\
  (forall j, 0 <= j < i -> (pd_active_bindings d').[j] = (pd_active_bindings d).[j] /\
     (pd_active_sampling d').[j] = (pd_active_sampling d).[j]) /\
  bound_to eos i gs sampling d'.
Proof.
  induction gs as [|g gs IH]; intros i sampling d d' Hd Hi Hl; cbn [bind_plan].
  { intros [= <-]. split_and!; try done; split; intros k Hk; unfold vsize in Hk; cbn in Hk; lia. }
  destruct sampling as [|source rest]; [rewrite vsize_cons in Hl; pose proof (vsize_nonneg gs); unfold vsize in Hl; cbn in Hl; lia|].
  rewrite !vsize_cons in Hl. destruct (find_registered d g) as [c|] eqn:Ec; [|done].
  apply find_registered_Some in Ec as [_ Eg]; [|done]. set (d1 := d <| pd_active_bindings := _ |> <| pd_active_sampling := _ |>).
  intros E. apply IH in E as (S1 & S2 & Hlow & H1 & H2); [|by destruct Hd|lia|lia].
  cbn -[vput project_sampling] in S1, S2. rewrite vsize_vput in S1; rewrite vsize_vput in S2. split_and!; [done|done| |].
  - intros j Hj. destruct (Hlow j ltac:(lia)) as [-> ->]. cbn -[vput project_sampling]. unfold vat, vput.
    rewrite !list_lookup_total_insert_ne by lia. done.
  - destruct (Hlow i ltac:(lia)) as [L1 L2].
    split; intros k Hk Hb; rewrite vsize_cons in Hk; (destruct (decide (k = 0)) as [->|];
      [|replace (i + k) with (i + 1 + (k - 1)) in * by lia; rewrite !vat_cons by lia; (apply H1 || apply H2); lia]);
      rewrite Z.add_0_r in *; rewrite ?L1, ?L2; cbn -[vput project_sampling]; rewrite vat_vput_eq by lia; [exact Eg|done].
Qed.

Lemma record_last_use_frame event active : forall d,
  exists es, record_last_use event active d = d <| pd_last_use_events := es |> /\
    vsize es = vsize (pd_last_use_events d) /\
    forall k, es.[k] = (pd_last_use_events d).[k] \/ es.[k] = event.
Proof.
  induction active as [|b rest IH]; intros d; cbn [record_last_use].
  { exists (pd_last_use_events d). split; [by destruct d|]. split; [done|by left]. }
  destruct (find_registered d _) as [r|]; [|apply IH].
  destruct (IH (d <| pd_last_use_events := (pd_last_use_events d).[r <- event] |>)) as (es & -> & Hs & Hk).
  exists es. split; [done|]. cbn in Hs, Hk. rewrite vsize_vput in Hs. split; [done|]. intros k.
  destruct (Hk k) as [->|]; [|by right]. unfold vat, vput.
  destruct (decide (Z.to_nat k = Z.to_nat r)) as [->|Hne]; [|left; by rewrite list_lookup_total_insert_ne by done].
  destruct (decide (Z.to_nat r < length (pd_last_use_events d))%nat).
  - right. by rewrite list_lookup_total_insert_eq.
  - left. by rewrite list_insert_ge by lia.
Qed.

(** The receipt of the sample [j], drawn for the sequence [a] of the active ones. *)
Definition active_receipt (d : ControllerPackedDriver) (ex : QwenBf16PackedBatchExecutionView) (j a : Z) :
    ControllerPackedSamplingReceipt :=
  MkReceipt (kb_sequence_generation ((pd_active_bindings d).[a]))
    (wrap64 (qs_sample_ordinal ((pd_active_sampling d).[a]) + 1)) ((ex_sampling_receipts ex).[j]).

(** The sample [j] is drawn from the last row of the sequence [a] of the plan. *)
Definition drawn_for (plan : PackedTokenPlan) (md : PackedTokenMetadataView) (j a : Z) : Prop :=
  (pmv_sample_row_index md).[j] = wrap32 ((pp_packed_offsets plan).[a + 1] - 1).

Lemma pair_receipts_spec plan md ex n : forall active i d r d',
  0 <= i -> pair_receipts plan md ex active i n d = (r, d') ->
  exists rs, d' = d <| pd_pending_receipts := rs |> /\ vsize rs = vsize (pd_pending_receipts d) /\
    forall k, r = Some k -> i <= k /\ (k <= vsize rs ->
      (forall j, 0 <= j < i -> rs.[j] = (pd_pending_receipts d).[j]) /\
      (forall j, i <= j < k -> receipt_token (rs.[j]) = (pd_pending_tokens d).[j]) /\
      exists owners, vsize owners = k - i /\ StronglySorted Z.lt owners /\
        Forall (fun a => active <= a < active + Z.of_nat n) owners /\
        forall j, i <= j < k -> rs.[j] = active_receipt d ex j (owners.[j - i]) /\
          drawn_for plan md j (owners.[j - i])).
Proof.
  induction n as [|n IH]; intros active i d r d' Hi; cbn [pair_receipts].
  { intros [= <- <-]. exists (pd_pending_receipts d). split; [by destruct d|]. split; [done|].
    intros k [= <-]. split; [done|]. intros _. split; [done|]. split; [lia|]. exists [].
    split_and!; [unfold vsize; cbn; lia|constructor|done|lia]. }
  destruct (negb _) eqn:Er.
  { intros E. apply IH in E as (rs & -> & Hs & Hk); [|lia]. exists rs. split_and!; [done|done|]. intros k Hr.
    destruct (Hk k Hr) as [Hik Hm]. split; [done|]. intros Hle. destruct (Hm Hle) as (H1 & H2 & ow & Ho & Hso & Hf & H3).
    split_and!; [done|done|]. exists ow. split_and!; [done|done| |done].
    eapply Forall_impl; [exact Hf|]. cbn. lia. }
  apply negb_false_iff, andb_true_iff in Er as [_ Er%Z.eqb_eq]. destruct (negb _) eqn:Et.
  { intros [= <- <-]. exists (pd_pending_receipts d). split; [by destruct d|]. by split. }
  apply negb_false_iff, Z.eqb_eq in Et.
  set (d1 := d <| pd_pending_receipts := _ |>). intros E. apply IH in E as (rs & -> & Hs & Hk); [|lia].
  cbn in Hs. rewrite vsize_vput in Hs. exists rs. split; [done|]. split; [done|]. intros k Hr.
  destruct (Hk k Hr) as [Hik Hm]. split; [lia|]. intros Hle.
  destruct (Hm Hle) as (Hlow & Hhigh & ow & Ho & Hso & Hf & Hrs). cbn in Hlow, Hhigh.
  split_and!.
  - intros j Hj. rewrite Hlow by lia. rewrite vat_vput_ne by lia. done.
  - intros j Hj. destruct (decide (j = i)) as [->|]; [|apply Hhigh; lia].
    rewrite Hlow, vat_vput_eq by lia. exact Et.
  - exists (active :: ow). split_and!.
    + rewrite vsize_cons. lia.
    + constructor; [done|]. eapply Forall_impl; [exact Hf|]. cbn. lia.
    + constructor; [lia|]. eapply Forall_impl; [exact Hf|]. cbn. lia.
    + intros j Hj. destruct (decide (j = i)) as [->|].
      * rewrite Z.sub_diag. change ((active :: ow).[0]) with active. split; [|done].
        rewrite Hlow, vat_vput_eq by lia. done.
      * rewrite vat_cons by lia. replace (j - i - 1) with (j - (i + 1)) by lia. apply Hrs. lia.
Qed.

Lemma pair_receipts_nothing plan md ex n : forall active i d,
  pmv_sample_row_index md = [] -> 0 <= i -> pair_receipts plan md ex active i n d = (Some i, d).
Proof.
  induction n as [|n IH]; intros active i d Hm Hi; cbn [pair_receipts]; [done|]. rewrite Hm.
  replace (i <? vsize []) with false by (symmetry; apply Z.ltb_ge; exact Hi). cbn [andb negb]. by apply IH.
Qed.

(** Reading the first [n] entries of two vectors. *)
Lemma take_matched (rs : list ControllerPackedSamplingReceipt) (ts : list Z) n :
  0 <= n <= vsize rs -> n <= vsize ts -> (forall j, 0 <= j < n -> receipt_token (rs.[j]) = ts.[j]) ->
  map receipt_token (take (Z.to_nat n) rs) = take (Z.to_nat n) ts.
Proof.
  intros Hn Ht Hm. apply list_eq. intros k. rewrite list_lookup_fmap.
  destruct (decide (k < Z.to_nat n)%nat) as [Hk|Hk].
  - rewrite !lookup_take_lt by done. unfold vsize in *.
    destruct (lookup_lt_is_Some_2 rs k ltac:(lia)) as [r Hr]. destruct (lookup_lt_is_Some_2 ts k ltac:(lia)) as [t Htk].
    rewrite Hr, Htk. cbn. f_equal. specialize (Hm (Z.of_nat k) ltac:(lia)). unfold vat in Hm.
    rewrite Nat2Z.id in Hm. by rewrite (list_lookup_total_correct _ _ _ Hr), (list_lookup_total_correct _ _ _ Htk) in Hm.
  - rewrite !lookup_take_ge by lia. done.
Qed.

(** ** [execute_next] *)

(** The registry of the driver. *)
Definition registry_part (d : ControllerPackedDriver) :
    list QwenBf16PackedKvBinding * list bool * Z :=
  (pd_registry d, pd_reclaimed d, pd_registry_count d).

Lemma driver_ok_state d st :
  driver_ok d -> st <> DriverState.kCompletionPending -> driver_ok (d <| pd_state := st |>).
Proof. intros []. by split. Qed.

Section Props.
Context {PS BS : Type} (api : pih_execution_controller_api_v1 PS).
Context (execute_packed : BS -> table_memory -> PackedTokenPlan -> PackedTokenMetadataView ->
  QwenBf16PackedKvMetadataView -> list QwenBf16PackedKvBinding -> list QwenKvAppendPlan ->
  list Qwen3SamplingDescriptor -> Result QwenBf16PackedBatchExecutionView * table_memory * BS).

Implicit Types e : @driver_env PS BS.

(** The controller took the tokens of [receipts], and the queue has grown by them. *)
Definition delivered e self now (e' : @driver_env PS BS) (receipts : list ControllerPackedSamplingReceipt) : Prop :=
  (exists ps s, Client.complete_current_sampled_tokens api (en_client e') ps self (map receipt_token receipts) now =
     (s, en_provider e') /\ ok s = true) /\
  receipt_queue (en_driver e') = receipt_queue (en_driver e) ++ receipts /\
  pd_state (en_driver e') = DriverState.kReady.

Lemma publish_pending_spec e self now (d := en_driver e) :
  driver_ok d -> pd_state d = DriverState.kCompletionPending ->
  let '(r, e') := publish_pending api e self now in
  driver_ok (en_driver e') /\ registry_part (en_driver e') = registry_part d /\
  pd_last_use_events (en_driver e') = pd_last_use_events d /\
  en_client e' = en_client e /\ en_memory e' = en_memory e /\ en_backend e' = en_backend e /\
  match r with
  | Value DriverStep.kCompleted => delivered e self now e' (pending_receipts_of d)
  | Value DriverStep.kOutputBackpressured => en_driver e' = d
  | Value DriverStep.kIdle => False
  | Error _ => en_driver e' = poison_driver d
  end.
Proof.
  intros Hd Hs. pose proof Hd as [Hw Hsz He Hrc Ht Hr Hc Hp Hm]. unfold publish_pending. fold d. cbn zeta.
  destruct (_ >? _) eqn:Eg; [by split_and!|].
  destruct (complete_current_sampled_tokens _ _ _ _ _ _) as [s ps] eqn:E. destruct (ok s) eqn:Es; cbn [negb].
  2: { destruct (bool_decide _); cbn; split_and!; done. }
  pose proof Hw as (Hb & _ & Hrs). cbn in Hb, Hrs.
  rewrite wrap64_id in Eg by (unfold is_u64; lia).
  assert (Hl : vsize (pending_receipts_of d) = pd_pending_token_count d).
  { unfold pending_receipts_of, vsize in *. rewrite length_take. lia. }
  destruct (push_receipts_spec (pending_receipts_of d) d Hw) as (Hw' & Hq & Hd'); [lia|].
  fold (pending_receipts_of d). set (d' := push_receipts _ d) in *. cbn.
  assert (Hf : forall B (f : ControllerPackedDriver -> B),
    f d' = f (d <| pd_receipts := pd_receipts d' |> <| pd_receipt_size := pd_receipt_size d' |>)) by (intros; by rewrite <- Hd').
  split.
  { split; cbn; rewrite ?(Hf _ pd_registry), ?(Hf _ pd_last_use_events), ?(Hf _ pd_reclaimed),
      ?(Hf _ pd_pending_tokens), ?(Hf _ pd_pending_receipts), ?(Hf _ pd_registry_count); cbn; try done. lia. }
  split; [unfold registry_part; cbn; by rewrite (Hf _ pd_registry), (Hf _ pd_reclaimed), (Hf _ pd_registry_count)|].
  split; [exact (Hf _ pd_last_use_events)|]. split_and!; try done.
  unfold delivered. split; [|done]. exists (en_provider e), s. rewrite (Hm Hs). done.
Qed.

Lemma abandon_spec e view :
  let e' := abandon api e view in
  (en_driver e' = en_driver e \/ en_driver e' = poison_driver (en_driver e)) /\
  en_memory e' = en_memory e /\ en_backend e' = en_backend e.
Proof.
  unfold abandon. destruct (abort_current_plan _ _ _ _ _) as [s ps]. destruct (ok s); cbn; auto.
Qed.

(** The receipts of an execution of the plan of [view]: in order, one for each sampled
    token; the receipt of the sample [j] is for the sequence [a] of the plan whose last
    row the sample was drawn from, with the number of the token in that request and what
    the backend reported for the sample. *)
Definition receipt_of (view : ControllerPreparedPlanView) (ex : QwenBf16PackedBatchExecutionView) (j a : Z) :
    ControllerPackedSamplingReceipt :=
  MkReceipt ((pp_sequence_generations (ppv_plan view)).[a])
    (wrap64 (sm_sample_ordinal ((ppv_selected_sampling view).[a]) + 1)) ((ex_sampling_receipts ex).[j]).

Record receipts_for (view : ControllerPreparedPlanView) (ex : QwenBf16PackedBatchExecutionView)
    (receipts : list ControllerPackedSamplingReceipt) : Prop := {
  rf_tokens : map receipt_token receipts = ex_sampled_token_ids ex;
  rf_owners : exists owners, vsize owners = vsize receipts /\ StronglySorted Z.lt owners /\
    Forall (fun a => 0 <= a < pp_sequence_count (ppv_plan view)) owners /\
    forall j, 0 <= j < vsize receipts -> receipts.[j] = receipt_of view ex j (owners.[j]) /\
      drawn_for (ppv_plan view) (ppv_metadata view) j (owners.[j]) }.

(** The controller prepared the plan of [view] and the backend ran it, once, on the
    sequences of the plan with their sampling, with the result [ex]. *)
Definition ran e now (e' : @driver_env PS BS) (view : ControllerPreparedPlanView)
    (ex : QwenBf16PackedBatchExecutionView) : Prop :=
  exists cl ps kv bs appends mem,
    Client.prepare_next_plan api (en_client e) (en_provider e) now = (Value (Some view), cl, ps) /\
    execute_packed (en_backend e) (en_memory e) (ppv_plan view) (ppv_metadata view) kv bs appends
      (map (project_sampling (rl_eos_token_id (cl_limits cl))) (ppv_selected_sampling view)) =
      (Value ex, mem, en_backend e') /\
    map kb_sequence_generation bs = pp_sequence_generations (ppv_plan view).

(** The active sequences are those of the plan. *)
Definition actives_of (view : ControllerPreparedPlanView) (d : ControllerPackedDriver) : Prop :=
  forall a, 0 <= a < pp_sequence_count (ppv_plan view) ->
    kb_sequence_generation ((pd_active_bindings d).[a]) = (pp_sequence_generations (ppv_plan view)).[a] /\
    qs_sample_ordinal ((pd_active_sampling d).[a]) = sm_sample_ordinal ((ppv_selected_sampling view).[a]).

Lemma take_execution_spec e view ex self now (d := en_driver e) :
  driver_ok d -> pd_state d = DriverState.kReady -> actives_of view d ->
  let '(r, e') := take_execution api e view ex self now in
  driver_ok (en_driver e') /\ registry_part (en_driver e') = registry_part d /\
  (forall k, (pd_last_use_events (en_driver e')).[k] = (pd_last_use_events d).[k] \/
     (pd_last_use_events (en_driver e')).[k] = ex_completion_event ex) /\
  en_client e' = en_client e /\ en_memory e' = en_memory e /\ en_backend e' = en_backend e /\
  match r with
  | Value DriverStep.kCompleted => exists receipts, delivered e self now e' receipts /\ receipts_for view ex receipts
  | Value DriverStep.kOutputBackpressured =>
      pd_state (en_driver e') = DriverState.kCompletionPending /\
      receipt_queue (en_driver e') = receipt_queue d /\ receipts_for view ex (pending_receipts_of (en_driver e'))
  | Value DriverStep.kIdle => False
  | Error _ => pd_state (en_driver e') = DriverState.kPoisoned /\ receipt_queue (en_driver e') = receipt_queue d
  end.
Proof.
  intros Hd Hs Hact. unfold take_execution. fold d.
  destruct (record_last_use_frame (ex_completion_event ex)
    (take (Z.to_nat (pp_sequence_count (ppv_plan view))) (pd_active_bindings d)) d) as (es & -> & Hes & Hk).
  cbn zeta. set (d1 := d <| pd_last_use_events := es |>).
  assert (Hd1 : driver_ok d1) by (destruct Hd; split; cbn; (done || congruence)).
  destruct (_ || _) eqn:Eg; [split_and!; try done; by apply driver_ok_state|]. apply orb_false_iff in Eg as [Eg _].
  change (pd_pending_tokens d1) with (pd_pending_tokens d) in Eg |- *.
  set (tokens := ex_sampled_token_ids ex) in *. set (d2 := d1 <| pd_pending_token_count := _ |> <| pd_pending_tokens := _ |>).
  pose proof Hd as [Hw Hsz He Hrc Ht Hr Hc Hp Hm]. pose proof (vsize_nonneg tokens) as H0.
  assert (Hn : wrap32 (vsize tokens) = vsize tokens) by (apply wrap32_id; unfold is_u32; lia).
  assert (Hsp : vsize (pd_pending_tokens d2) = vsize (pd_registry d)).
  { cbn. rewrite vsize_splice; [exact Ht|lia|lia]. }
  destruct (pair_receipts _ _ _ _ _ _ d2) as [r d3] eqn:Ep.
  apply pair_receipts_spec in Ep as (rs & -> & Hrs & Hpair); [|lia]. cbn in Hrs.
  assert (Hd3 : forall st, (st = DriverState.kCompletionPending ->
    map receipt_token (take (Z.to_nat (vsize tokens)) rs) = take (Z.to_nat (vsize tokens)) (pd_pending_tokens d2)) ->
    driver_ok (d2 <| pd_pending_receipts := rs |> <| pd_state := st |>)).
  { intros st Hst. split; cbn -[splice]; try done; try congruence; try lia.
    intros E. unfold pending_receipts_of, pending_tokens_of. cbn -[splice]. rewrite Hn. by apply Hst. }
  destruct r as [k|]; [|split_and!; try done; by apply Hd3].
  destruct (negb _) eqn:Ek; [split_and!; try done; by apply Hd3|]. apply negb_false_iff, Z.eqb_eq in Ek. cbn in Ek.
  rewrite Hn in Ek. subst k. destruct (Hpair _ eq_refl) as [_ Hmt]. destruct Hmt as (_ & Hmt & owners & Hol & Hos & Hof & Hor); [cbn in *; lia|].
  set (d4 := d2 <| pd_pending_receipts := rs |> <| pd_state := DriverState.kCompletionPending |>).
  assert (Hd4 : driver_ok d4).
  { apply Hd3. intros _. apply take_matched; [cbn in *; lia|cbn in *; lia|exact Hmt]. }
  pose proof (publish_pending_spec (e <| en_driver := d4 |>) self now Hd4 eq_refl) as H.
  destruct (publish_pending _ _ _ _) as [r e']. destruct H as (Ho & Hrp & Hev & Hcl & Hme & Hba & H).
  split; [done|]. split; [exact Hrp|]. split; [intros k; rewrite Hev; exact (Hk k)|]. split_and!; try done.
  assert (Htk : pending_tokens_of d4 = tokens).
  { unfold pending_tokens_of. cbn -[splice]. rewrite Hn. apply take_splice_0. unfold vsize. lia. }
  assert (Hrf : receipts_for view ex (pending_receipts_of d4)).
  { assert (Hpl : vsize (pending_receipts_of d4) = vsize tokens).
    { unfold pending_receipts_of. cbn -[splice]. rewrite Hn. unfold vsize in *. rewrite length_take. lia. }
    split; [rewrite (do_matched _ Hd4 eq_refl); exact Htk|]. exists owners. rewrite Hpl. rewrite Z.sub_0_r in Hol.
    pose proof (vsize_nonneg (pp_sequence_generations (ppv_plan view))) as Hg0.
    assert (Hof' : Forall (fun a => 0 <= a < pp_sequence_count (ppv_plan view)) owners).
    { eapply Forall_impl; [exact Hof|]. unfold pp_sequence_count. cbn. lia. }
    split_and!; [done|done|done|]. intros j Hj. destruct (Hor j Hj) as [Er Edr]. rewrite Z.sub_0_r in Er, Edr.
    split; [|done]. unfold pending_receipts_of. cbn -[splice]. rewrite Hn. unfold vat at 1.
    rewrite lookup_total_take_lt by lia. fold (rs.[j]). rewrite Er. unfold active_receipt, receipt_of.
    rewrite Forall_forall in Hof'. destruct (Hact (owners.[j])) as [Ha Ho2].
    { apply Hof', list_elem_of_In, vat_In. lia. }
    cbn in Ha, Ho2 |- *. by rewrite Ha, Ho2. }
  destruct r as [[]|err]; [done| | |].
  - exists (pending_receipts_of d4). split; [exact H|exact Hrf].
  - cbn in H. rewrite H. done.
  - cbn in H. rewrite H. done.
Qed.

(** The tables after a call: as they were, or as the backend left them, or committed
    to the plans prepared for them. *)
Definition touched e (e' : @driver_env PS BS) : Prop :=
  (en_memory e' = en_memory e /\ en_backend e' = en_backend e) \/
  exists plan md kv bs appends sampling r mem,
    execute_packed (en_backend e) (en_memory e) plan md kv bs appends sampling = (r, mem, en_backend e') /\
    (en_memory e' = mem \/ length bs = length appends /\ tables_committed mem (en_memory e') bs appends).

Lemma execute_shape (s : batch_state (BS := BS)) plan md bs sampling v s' :
  execute execute_packed s plan md bs sampling = (Value v, s') ->
  vsize bs = pp_sequence_count plan /\ vsize sampling = pp_sequence_count plan.
Proof.
  unfold execute. case_bool_decide; cbn [negb]; [|done]. destruct (ok (check_batch _ _ _ _ _)) eqn:Ec; cbn [negb]; [|done].
  intros _. unfold check_batch in Ec. destruct (batch_shape_drifted _ _ _ _ _) eqn:Es; [done|].
  unfold batch_shape_drifted in Es. breflect. lia.
Qed.

Lemma take_eq_map {A B} `{Inhabited A, Inhabited B} (f : A -> B) (l : list A) (l' : list B) :
  vsize l <= vsize l' -> (forall k, 0 <= k < vsize l -> l'.[k] = f (l.[k])) ->
  take (length l) l' = map f l.
Proof.
  intros Hl Hk. apply list_vat_eq.
  - rewrite length_take, length_map. unfold vsize in *. lia.
  - intros i Hi. rewrite length_take in Hi. unfold vsize in *. rewrite vat_map by (unfold vsize; lia).
    rewrite <- Hk by lia. unfold vat. by rewrite lookup_total_take_lt by lia.
Qed.

(** The plan of [view] was run: what [ran] says of the call to the backend. *)
Definition executed (eos : Z) e (e' : @driver_env PS BS) (view : ControllerPreparedPlanView)
    (ex : QwenBf16PackedBatchExecutionView) : Prop :=
  exists kv bs appends mem,
    execute_packed (en_backend e) (en_memory e) (ppv_plan view) (ppv_metadata view) kv bs appends
      (map (project_sampling eos) (ppv_selected_sampling view)) = (Value ex, mem, en_backend e') /\
    map kb_sequence_generation bs = pp_sequence_generations (ppv_plan view).

(** What reaches the backend when the vectors were long enough. *)
Lemma bound_actives eos view d (n := pp_sequence_count (ppv_plan view)) :
  bound_to eos 0 (pp_sequence_generations (ppv_plan view)) (ppv_selected_sampling view) d ->
  vsize (ppv_selected_sampling view) = n -> vsize (take (Z.to_nat n) (pd_active_bindings d)) = n ->
  vsize (take (Z.to_nat n) (pd_active_sampling d)) = n ->
  actives_of view d /\
  map kb_sequence_generation (take (Z.to_nat n) (pd_active_bindings d)) = pp_sequence_generations (ppv_plan view) /\
  take (Z.to_nat n) (pd_active_sampling d) = map (project_sampling eos) (ppv_selected_sampling view).
Proof.
  intros [H1 H2] Hs Hb Hp. assert (Hn : n = vsize (pp_sequence_generations (ppv_plan view))) by done.
  assert (Hb' : n <= vsize (pd_active_bindings d)) by (unfold vsize in Hb |- *; rewrite length_take in Hb; lia).
  assert (Hp' : n <= vsize (pd_active_sampling d)) by (unfold vsize in Hp |- *; rewrite length_take in Hp; lia).
  split_and!.
  - intros a Ha. fold n in Ha. specialize (H1 a). specialize (H2 a). rewrite Z.add_0_l in H1, H2.
    rewrite H1, H2 by lia. split; [done|apply project_ordinal].
  - apply list_vat_eq; [rewrite length_map; unfold vsize in *; lia|]. intros i Hi. rewrite length_map in Hi.
    rewrite vat_map by (unfold vsize; lia). unfold vsize in *. unfold vat at 1. rewrite lookup_total_take_lt by lia.
    fold ((pd_active_bindings d).[Z.of_nat i]). specialize (H1 (Z.of_nat i)). rewrite Z.add_0_l in H1. apply H1; lia.
  - replace (Z.to_nat n) with (length (ppv_selected_sampling view)) by (unfold vsize in Hs; lia).
    apply take_eq_map; [lia|]. intros k Hk. specialize (H2 k). rewrite Z.add_0_l in H2. apply H2; lia.
Qed.

Lemma run_plan_spec eos e view self now (d := en_driver e) :
  driver_ok d -> pd_state d = DriverState.kReady ->
  bound_to eos 0 (pp_sequence_generations (ppv_plan view)) (ppv_selected_sampling view) d ->
  vsize (ppv_selected_sampling view) = pp_sequence_count (ppv_plan view) ->
  let '(r, e') := run_plan api execute_packed e view self now in
  driver_ok (en_driver e') /\ registry_part (en_driver e') = registry_part d /\ touched e e' /\
  match r with
  | Value DriverStep.kCompleted => exists receipts, delivered e self now e' receipts /\
      exists ex, executed eos e e' view ex /\ receipts_for view ex receipts
  | Value DriverStep.kOutputBackpressured =>
      pd_state (en_driver e') = DriverState.kCompletionPending /\
      receipt_queue (en_driver e') = receipt_queue d /\
      exists ex, executed eos e e' view ex /\ receipts_for view ex (pending_receipts_of (en_driver e'))
  | Value DriverStep.kIdle => False
  | Error _ => pd_state (en_driver e') = DriverState.kPoisoned /\ receipt_queue (en_driver e') = receipt_queue d
  end.
Proof.
  intros Hd Hs Hbd Hvs. unfold run_plan. destruct (commit_current_plan _ _ _ _ _) as [committed ps].
  destruct (if ok committed then _ else _) as [status ps']. destruct (ok status) eqn:Eo; cbn [negb].
  2: { split; [by apply driver_ok_state|]. split; [done|]. split; [by left|done]. }
  cbn zeta. cbn [en_driver en_memory en_backend]. set (e1 := e <| en_provider := ps' |>).
  pose proof (execute_spec execute_packed (MkBatch (pd_transaction d) (pd_metadata d) (en_memory e) (en_backend e))
    (ppv_plan view) (ppv_metadata view) (take (Z.to_nat (pp_sequence_count (ppv_plan view))) (pd_active_bindings d))
    (take (Z.to_nat (pp_sequence_count (ppv_plan view))) (pd_active_sampling d))) as H.
  destruct (execute _ _ _ _ _ _) as [[ex|err] s] eqn:Ee.
  2: { split; [apply (driver_ok_state (d <| pd_transaction := _ |> <| pd_metadata := _ |>)); [by destruct Hd|done]|].
       split; [done|]. split; [|done]. destruct H as [(Hm & Hb & _)|(_ & kv & appends & r1 & Ex)]; [by left|right].
       eexists _, _, kv, _, appends, _, r1, _. split; [exact Ex|by left]. }
  destruct H as (kv & appends & mem & Ex & Hlen%Forall2_length & Htc & _). cbn in Ex, Htc.
  apply execute_shape in Ee as [Hsb Hss]. destruct (bound_actives eos view d Hbd Hvs Hsb Hss) as (Hact & Hgs & Hps).
  set (e2 := e1 <| en_driver := _ |> <| en_memory := _ |> <| en_backend := _ |>).
  assert (Hd2 : driver_ok (en_driver e2)) by (by destruct Hd).
  pose proof (take_execution_spec e2 view ex self now Hd2 Hs Hact) as H.
  destruct (take_execution _ _ _ _ _ _) as [r e']. destruct H as (Ho & Hrp & _ & _ & Hme & Hba & H).
  cbn in Hme, Hba. split; [done|]. split; [exact Hrp|]. split.
  { right. eexists _, _, kv, _, appends, _, _, mem. rewrite Hba, Hme. split; [exact Ex|right; by split]. }
  assert (Hran : executed eos e e' view ex).
  { rewrite Hps in Ex. eexists kv, _, appends, mem. rewrite Hba. split; [exact Ex|exact Hgs]. }
  destruct r as [[]|]; [done| | |exact H].
  - destruct H as (receipts & Hdl & Hrf). exists receipts. split; [exact Hdl|]. by exists ex.
  - destruct H as (H1 & H2 & Hrf). split_and!; [done|done|]. by exists ex.
Qed.

Lemma execute_next_spec e self now (d := en_driver e) :
  driver_ok d ->
  let '(r, e') := execute_next api execute_packed e self now in
  driver_ok (en_driver e') /\ registry_part (en_driver e') = registry_part d /\ touched e e' /\
  (pd_state d <> DriverState.kReady -> en_memory e' = en_memory e /\ en_backend e' = en_backend e) /\
  match r with
  | Value DriverStep.kCompleted => exists receipts, delivered e self now e' receipts /\
      (pd_state d = DriverState.kReady ->
       exists view ex, ran e now e' view ex /\ receipts_for view ex receipts) /\
      (pd_state d = DriverState.kCompletionPending -> receipts = pending_receipts_of d)
  | Value DriverStep.kOutputBackpressured =>
      pd_state (en_driver e') = DriverState.kCompletionPending /\
      receipt_queue (en_driver e') = receipt_queue d /\
      (pd_state d = DriverState.kReady ->
       exists view ex, ran e now e' view ex /\ receipts_for view ex (pending_receipts_of (en_driver e'))) /\
      (pd_state d = DriverState.kCompletionPending -> en_driver e' = d)
  | Value DriverStep.kIdle => en_driver e' = d /\ en_memory e' = en_memory e /\ en_backend e' = en_backend e
  | Error _ => receipt_queue (en_driver e') = receipt_queue d
  end.
Proof.
  intros Hd. unfold execute_next. fold d. destruct (pd_state d) eqn:Es.
  - destruct (prepare_next_plan _ _ _ _) as [[[[view|]|err] cl] ps] eqn:Epr; [|by split_and!; auto; left..].
    set (e1 := e <| en_client := cl |> <| en_provider := ps |>).
    destruct (negb _) eqn:Evs.
    { destruct (abandon_spec e1 view) as ([E|E] & Hm & Hb); rewrite E, Hm, Hb; split_and!; try done; try (by left);
        by apply driver_ok_state. }
    destruct (bind_plan_frame (rl_eos_token_id (cl_limits (en_client e1))) (pp_sequence_generations (ppv_plan view)) 0
      (ppv_selected_sampling view) (en_driver e1)) as (ab & asg & Eb).
    apply negb_false_iff, Z.eqb_eq in Evs.
    pose proof (bind_plan_bound (rl_eos_token_id (cl_limits (en_client e1))) (pp_sequence_generations (ppv_plan view)) 0
      (ppv_selected_sampling view) (en_driver e1)) as Hbd.
    destruct (bind_plan _ _ _ _ _) as [found d1]. cbn [snd] in Eb. subst d1. set (d1 := _ <| pd_active_sampling := _ |>).
    assert (Hd1 : driver_ok d1) by (by destruct Hd).
    destruct found; cbn [negb].
    + destruct (Hbd _ Hd ltac:(lia) Evs eq_refl) as (_ & _ & _ & Hbt).
      pose proof (run_plan_spec _ (e1 <| en_driver := d1 |>) view self now Hd1 Es Hbt Evs) as H.
      destruct (run_plan _ _ _ _ _ _) as [r e']. destruct H as (Ho & Hrp & Hto & H). split_and!; try done.
      assert (Hran : forall ex, executed (rl_eos_token_id (cl_limits cl)) (e1 <| en_driver := d1 |>) e' view ex ->
        ran e now e' view ex).
      { intros ex (kv & bs & ap & mem & Hx & Hg). exists cl, ps, kv, bs, ap, mem. by split_and!. }
      destruct r as [[]|]; [done| | |apply H].
      * destruct H as (receipts & Hdl & ex & Hex & Hrf). exists receipts. split_and!; [done| |done]. intros _.
        exists view, ex. auto.
      * destruct H as (H1 & H2 & ex & Hex & Hrf). split_and!; [done|done| |done]. intros _. exists view, ex. auto.
    + destruct (abandon_spec (e1 <| en_driver := d1 |>) view) as ([E|E] & Hm & Hb); rewrite E, Hm, Hb;
        split_and!; try done; try (by left); by apply driver_ok_state.
  - pose proof (publish_pending_spec e self now Hd Es) as H. destruct (publish_pending _ _ _ _) as [r e'].
    destruct H as (Ho & Hrp & _ & _ & Hm & Hb & H). split; [done|]. split; [done|]. split; [by left|]. split; [done|].
    destruct r as [[]|]; [done| | |by rewrite H].
    + by exists (pending_receipts_of d).
    + rewrite H. done.
  - split_and!; auto. by left.
Qed.

(** ** The driver as a machine *)

Context {RS : Type} (recycler : QwenBf16KvRecycler RS).

Inductive driver_op :=
  | DvBind (sequence_generation address : Z) (block_table : QwenKvBlockTable) (event : QwenKvCompletionEvent)
  | DvExecute (self now_ns : Z)
  | DvTake
  | DvDrain (self sequence_generation : Z) (p : QwenKvSlotPool) (rs : RS).

Inductive driver_out :=
  | DvStatus (s : Status)
  | DvStep (r : Result ControllerPackedDriverStep)
  | DvReceipt (r : Result (option ControllerPackedSamplingReceipt)).

Definition run_driver e (op : driver_op) : driver_out * @driver_env PS BS :=
  match op with
  | DvBind g a t ev => let '(s, d) := bind_sequence (en_driver e) g a t ev in (DvStatus s, e <| en_driver := d |>)
  | DvExecute self now => let '(r, e) := execute_next api execute_packed e self now in (DvStep r, e)
  | DvTake => let '(r, d) := try_take_sampling_receipt (en_driver e) in (DvReceipt r, e <| en_driver := d |>)
  | DvDrain self g p rs =>
      let '(s, e, _, _) := drain_sequence api recycler e self g p rs in (DvStatus s, e)
  end.

#[local] Instance driver_Typed : Typed driver_op := fun _ => True.
#[local] Instance driver_Machine : Machine (@driver_env PS BS) driver_op driver_out := {|
  m_run := run_driver;
  m_init e := exists n limits capacity, is_u32 n /\ 0 <= capacity <= 2147483648 /\
    PackedDriver_Create n limits capacity = Value (en_driver e) |}.

Lemma create_driver_ok n limits capacity d :
  is_u32 n -> 0 <= capacity <= 2147483648 -> PackedDriver_Create n limits capacity = Value d ->
  driver_ok d /\ vsize (pd_registry d) = n /\ pd_registry_count d = 0.
Proof.
  unfold is_u32. intros Hn Hc E. unfold PackedDriver_Create in E. destruct (_ || _) eqn:Eg; [done|]. breflect.
  destruct (BatchTransaction_Create n) eqn:Et; [|done]. destruct (KvMetadataArena_Create limits); [|done].
  cbn in E. injection E as <-. unfold BatchTransaction_Create in Et. destruct (_ || _) eqn:Eb in Et; [done|]. breflect.
  split; [|cbn; rewrite vsize_replicate; lia].
  split; cbn; rewrite ?vsize_replicate; try done; try lia. unfold ring_wf. cbn. rewrite vsize_replicate. lia.
Qed.

Lemma bind_driver_ok d g a t ev : driver_ok d -> driver_ok (snd (bind_sequence d g a t ev)).
Proof.
  intros Hd. unfold bind_sequence. destruct (_ || _) eqn:E1; [done|]. destruct (existsb _ _); [done|].
  destruct (pd_registry_count d =? vsize (pd_registry d)) eqn:E2; [done|]. breflect. destruct Hd as [Hw Hsz He Hrc Ht Hr Hc Hp Hm].
  split; cbn; rewrite ?vsize_vput; try done. rewrite wrap32_id by (unfold is_u32; lia). lia.
Qed.

Lemma take_driver_ok d : driver_ok d -> driver_ok (snd (try_take_sampling_receipt d)).
Proof.
  intros Hd. pose proof (try_take_spec d (do_ring _ Hd)) as H. destruct (try_take_sampling_receipt d) as [r d'].
  destruct H as (Hw & E & _). destruct Hd. rewrite E in Hw |- *. split; done.
Qed.

Lemma unregister_ok d i : driver_ok d -> 1 <= pd_registry_count d -> driver_ok (unregister d i).
Proof.
  intros [Hw Hsz He Hrc Ht Hr Hc Hp Hm] H1. unfold unregister. cbn zeta.
  destruct (negb _); split; cbn; rewrite ?vsize_vput; try done; rewrite wrap32_id by (unfold is_u32; lia); lia.
Qed.

#[local] Instance driver_ok_inv : MachineInv (fun e : @driver_env PS BS => driver_ok (en_driver e)).
Proof.
  split.
  - intros e (n & limits & capacity & Hn & Hc & E). by eapply create_driver_ok.
  - intros e [g a t ev|self now| |self g p rs] Hd _; cbn [m_run driver_Machine run_driver].
    + pose proof (bind_driver_ok _ g a t ev Hd). by destruct (bind_sequence _ _ _ _ _).
    + pose proof (execute_next_spec e self now Hd) as H. destruct (execute_next _ _ _ _ _). apply H.
    + pose proof (take_driver_ok _ Hd). by destruct (try_take_sampling_receipt _).
    + unfold drain_sequence. destruct (negb _); [done|]. destruct (find_registered _ g) as [i|] eqn:Ei; [|done].
      apply find_registered_Some in Ei as [Hi _]; [|done].
      destruct (if (pd_reclaimed (en_driver e)).[i] then _ else _) as [[s rs'] p']. destruct (ok s); cbn [negb]; [|by apply driver_ok_state].
      destruct (finalize_draining _ _ _ _ _) as [f ps]. set (d1 := _ <| pd_reclaimed := _ |>).
      assert (Hd1 : driver_ok d1) by (destruct Hd; split; cbn; rewrite ?vsize_vput; done).
      destruct (ok f); cbn [negb]; [|done]. cbn. apply unregister_ok; [done|]. cbn. lia.
Qed.


(** C24. A prefill chunk cannot be completed.  Whenever the controller prepares a plan
    that samples no row, for which every sequence is bound, the call fails and poisons
    the driver, for every backend and every controller behind the interface: the
    client refuses the empty list of tokens.  (The runtime itself completes such
    plans.) *)
Theorem driver_chunk_poisons e self now view cl ps
    (Hs : pd_state (en_driver e) = DriverState.kReady)
    (Hp : Client.prepare_next_plan api (en_client e) (en_provider e) now = (Value (Some view), cl, ps))
    (Hv : vsize (ppv_selected_sampling view) = pp_sequence_count (ppv_plan view))
    (Hb : Forall (fun g => find_registered (en_driver e) g <> None) (pp_sequence_generations (ppv_plan view)))
    (Hn : pmv_sample_row_index (ppv_metadata view) = []) :
  let '(r, e') := execute_next api execute_packed e self now in
  (exists s, r = Error s) /\ pd_state (en_driver e') = DriverState.kPoisoned.
Proof.
  unfold execute_next. rewrite Hs, Hp, Hv, Z.eqb_refl. cbn [negb en_driver].
  set (e1 := e <| en_client := cl |> <| en_provider := ps |>).
  pose proof (bind_plan_found (rl_eos_token_id (cl_limits (en_client e1))) _ 0 (ppv_selected_sampling view)
    (en_driver e1) Hb) as Hf.
  destruct (bind_plan _ _ _ _ _) as [found d1]. cbn in Hf. subst found. cbn [negb]. unfold run_plan.
  destruct (commit_current_plan _ _ _ _ _) as [committed ps1]. destruct (if ok committed then _ else _) as [status ps2].
  destruct (ok status); cbn [negb]; [|by split; [eexists|]]. destruct (execute _ _ _ _ _ _) as [[ex|err] s]; [|by split; [eexists|]].
  unfold take_execution. destruct (_ || _); [by split; [eexists|]|]. cbn zeta.
  rewrite pair_receipts_nothing by done. destruct (negb _) eqn:Ek; [by split; [eexists|]|].
  apply negb_false_iff, Z.eqb_eq in Ek. cbn in Ek. unfold publish_pending. cbn -[splice]. rewrite <- Ek. cbn -[splice].
  replace (0 >? wrap64 _) with false by (symmetry; rewrite Z.gtb_ltb; apply Z.ltb_ge, wrap64_range).
  unfold Client.complete_current_sampled_tokens. cbn -[splice].
  destruct (cl_handle _ =? 0); cbn; (split; [by eexists|done]).
Qed.
End Props.

(** ** A driver over the provider *)

(** A backend that samples token 17 for every sampled row, and counts its calls. *)
Definition sample_backend (calls : Z) (mem : table_memory) (_ : PackedTokenPlan) (md : PackedTokenMetadataView)
    (_ : QwenBf16PackedKvMetadataView) (_ : list QwenBf16PackedKvBinding) (_ : list QwenKvAppendPlan)
    (_ : list Qwen3SamplingDescriptor) : Result QwenBf16PackedBatchExecutionView * table_memory * Z :=
  (Value (MkExecution (map (fun _ => 17) (pmv_sample_row_index md)) (MkCompletionEvent 5 9)
            (map (fun _ => MkSampleReceipt 17 0 0 0 (replicate 20 0) (replicate 20 0)) (pmv_sample_row_index md))),
   mem, calls + 1).

Definition sample_driver : ControllerPackedDriver := of_value (PackedDriver_Create 2 (MkKvLimits 2 4 8) 2).

(** The table of sequence 7. *)
Definition sample_driver_table : QwenKvBlockTable := new_table 0 7 6 [MkHandle 0 2].

(** The driver over a runtime, before and after sequence 7 is bound. *)
Definition driver_over (rt : ControllerRuntime) : driver_env :=
  MkEnv sample_driver first_client (MkProvider true [(16, MkController rt (replicate 2 zero_sampling))])
    {[ 0 := sample_driver_table ]} 0.

Definition bind_seven : driver_op (RS := QwenBf16SynchronousKvRecycler * list (Z * Z)) := DvBind 7 0 sample_driver_table (MkCompletionEvent 1 1).

Definition bound_over (rt : ControllerRuntime) : driver_env :=
  snd (run_driver ControllerApi sample_backend (synchronous_recycler record_clears) (driver_over rt) bind_seven).




Lemma driver_chunk_poisons_witness :
  let e := bound_over admitted_runtime in
  let '(r, e') := execute_next ControllerApi sample_backend e 1 20 in
  rok r = false /\ pd_state (en_driver e') = DriverState.kPoisoned.
Proof.
  intros e. destruct (Client.prepare_next_plan ControllerApi (en_client e) (en_provider e) 20) as [[prepared cl] ps] eqn:Ep.
  assert (Hx : match prepared with
    | Value (Some view) => Some (vsize (ppv_selected_sampling view) =? pp_sequence_count (ppv_plan view),
        pp_sequence_generations (ppv_plan view), pmv_sample_row_index (ppv_metadata view))
    | _ => None end = Some (true, [7], [])).
  { replace prepared with (fst (fst (Client.prepare_next_plan ControllerApi (en_client e) (en_provider e) 20)))
      by (by rewrite Ep). vm_compute. reflexivity. }
  destruct prepared as [[view|]|]; [|discriminate Hx..]. injection Hx as Hv%Z.eqb_eq Hg Hn.
  pose proof (driver_chunk_poisons ControllerApi sample_backend e 1 20 view cl ps ltac:(vm_compute; reflexivity) Ep Hv
    ltac:(rewrite Hg; apply Forall_singleton; vm_compute; discriminate) Hn) as H.
  destruct (execute_next _ _ _ _ _) as [r e']. destruct H as [[s ->] H]. split; [reflexivity|exact H].
Defined.
