(* ===== verification/KvCoordinator.v ===== *)
(** * Admission of packed sequences

    Models [include/pih/scheduler/qwen_kv_admission_coordinator.h] and
    [plugins/model-qwen3/qwen_kv_admission_coordinator.cpp]: the participant through
    which the controller reserves, publishes and gives back the KV blocks of a request,
    and drains the blocks of a sequence that ended.

    The block table of a published admission is a member of the vector of admissions,
    and the driver keeps a pointer to it: its address is the index of the admission, and
    its contents are in the memory of the tables. *)

From stdpp Require Import gmap list_numbers.
From S2P Require Import Prelude Core Sha256 TokenPlan TokenMetadata Mailbox RequestArena Ingress Runtime ControllerAbi Provider Client.
From S2P Require Import KvPool KvPoolInv KvPoolProps KvTable KvLease KvMetadata PackedBatch KvRecycler PackedDriver PackedDriverProps.

Record QwenKvAdmissionCoordinator := MkCoordinator {
  kc_admissions : list (option QwenKvAdmissionTransaction);
  kc_initial_last_use_event : QwenKvCompletionEvent }.

#[export] Instance eta_QwenKvAdmissionCoordinator : Eta QwenKvAdmissionCoordinator := fun c =>
  MkCoordinator (kc_admissions c) (kc_initial_last_use_event c).

Definition Coordinator_Create (p : QwenKvSlotPool) (maximum_sequences : Z)
    (initial_last_use_event : QwenKvCompletionEvent) : Result QwenKvAdmissionCoordinator :=
  if negb (kp_ready p) || kp_failed p || (maximum_sequences =? 0) || event_null initial_last_use_event
  then Error (InvalidArgument "Qwen KV admission coordinator identity is invalid")
  else Value (MkCoordinator (replicate (Z.to_nat maximum_sequences) None) initial_last_use_event).

Definition admission_has (sequence_generation : Z) (a : option QwenKvAdmissionTransaction) : bool :=
  match a with Some a => at_sequence_generation a =? sequence_generation | None => false end.

Definition kc_find (c : QwenKvAdmissionCoordinator) (sequence_generation : Z) : option Z :=
  first_index (admission_has sequence_generation) (kc_admissions c) 0.

Definition admission_absent (a : option QwenKvAdmissionTransaction) : bool :=
  match a with Some _ => false | None => true end.

(** The coordinator, with the pool and the driver it refers to. *)
Record coordinator_env := MkCoordEnv {
  co_coordinator : QwenKvAdmissionCoordinator;
  co_pool : QwenKvSlotPool;
  co_driver : ControllerPackedDriver;
  co_memory : table_memory }.

#[export] Instance eta_coordinator_env : Eta coordinator_env := fun w =>
  MkCoordEnv (co_coordinator w) (co_pool w) (co_driver w) (co_memory w).

Definition set_admission (w : coordinator_env) (index : Z) (a : option QwenKvAdmissionTransaction) :
    coordinator_env :=
  let c := co_coordinator w in
  w <| co_coordinator := c <| kc_admissions := (kc_admissions c).[index <- a] |> |>.

(** [admissions_[index].reset()]. *)
Definition reset_admission (w : coordinator_env) (index : Z) : coordinator_env :=
  (set_admission w index None) <| co_memory := delete index (co_memory w) |>.

Definition kc_reserve (w : coordinator_env) (admission : ControllerAdmissionView) :
    Status * coordinator_env :=
  let request := av_request admission in
  match kc_find (co_coordinator w) (rqv_request_generation request) with
  | Some _ => (FailedPrecondition "Qwen KV admission generation is already active", w)
  | None =>
      match first_index admission_absent (kc_admissions (co_coordinator w)) 0 with
      | None => (ResourceExhausted "Qwen KV admission sequence credits are exhausted", w)
      | Some free_index =>
          match checked_add_u64 (sp_size (rqv_prompt_token_ids request)) (rqv_maximum_new_tokens request) with
          | Error _ => (InvalidArgument "Qwen KV admission lifetime token bound is invalid", w)
          | Value total_tokens =>
              if (total_tokens =? 0) || (total_tokens >? kMaximumReservedTokens)
              then (InvalidArgument "Qwen KV admission lifetime token bound is invalid", w)
              else match Admission_Reserve (co_pool w) free_index (wrap32 total_tokens) with
              | (Error e, p) => (e, w <| co_pool := p |>)
              | (Value transaction, p) =>
                  if negb (at_sequence_generation transaction =? rqv_request_generation request)
                  then
                    let '(restored, _, p) := admission_rollback transaction p in
                    (if negb (ok restored) then Internal "Qwen KV admission generation rollback failed"
                     else FailedPrecondition "Qwen KV and controller sequence generations drifted",
                     w <| co_pool := p |>)
                  else (StatusOk, set_admission (w <| co_pool := p |>) free_index (Some transaction))
              end
          end
      end
  end.

Definition kc_publish (w : coordinator_env) (sequence_generation : Z) : Status * coordinator_env :=
  let refused := (FailedPrecondition "Qwen KV admission publication has no reservation", w) in
  match kc_find (co_coordinator w) sequence_generation with
  | None => refused
  | Some index =>
      match (kc_admissions (co_coordinator w)).[index] with
      | None => refused
      | Some a =>
          if negb (bool_decide (at_state a = AdmissionState.kReserved)) then refused
          else
            let '(status, a, p) := admission_publish a (co_pool w) in
            let w := set_admission (w <| co_pool := p |>) index (Some a) in
            if negb (ok status) then (status, w)
            else match at_table a with
            | None => (Internal "Qwen KV admission published no block table", w)
            | Some table =>
                let w := w <| co_memory := <[index := table]> (co_memory w) |> in
                let '(bound, d) := bind_sequence (co_driver w) sequence_generation index table
                                     (kc_initial_last_use_event (co_coordinator w)) in
                (bound, w <| co_driver := d |>)
            end
      end
  end.

Definition kc_rollback (w : coordinator_env) (request_generation : Z) : Status * coordinator_env :=
  match kc_find (co_coordinator w) request_generation with
  | None => (StatusOk, w)
  | Some index =>
      match (kc_admissions (co_coordinator w)).[index] with
      | None => (StatusOk, w)
      | Some a =>
          let '(status, a, p) := admission_rollback a (co_pool w) in
          let w := w <| co_pool := p |> in
          (status, if ok status then reset_admission w index else set_admission w index (Some a))
      end
  end.

Definition active_admission_count (c : QwenKvAdmissionCoordinator) : Z :=
  wrap32 (count_if (fun a => negb (admission_absent a)) (kc_admissions c)).

(** What the controller sees of the coordinator. *)
Definition kc_participant : ControllerAdmissionParticipant coordinator_env :=
  MkParticipant _ kc_reserve kc_publish kc_rollback.

(** The driver in its surroundings, from the coordinator's. *)
Definition driver_side {PS BS} (w : coordinator_env) (cl : ControllerClient) (ps : PS) (bs : BS) :
    @driver_env PS BS :=
  MkEnv (co_driver w) cl ps (co_memory w) bs.

Section Drain.
Context {PS RS : Type} (api : pih_execution_controller_api_v1 PS) (recycler : QwenBf16KvRecycler RS).

Definition kc_drain (w : coordinator_env) (cl : ControllerClient) (ps : PS) (self sequence_generation : Z)
    (rs : RS) : Status * coordinator_env * PS * RS :=
  let refused := (FailedPrecondition "Qwen KV drain has no published admission", w, ps, rs) in
  match kc_find (co_coordinator w) sequence_generation with
  | None => refused
  | Some index =>
      match (kc_admissions (co_coordinator w)).[index] with
      | None => refused
      | Some a =>
          if negb (bool_decide (at_state a = AdmissionState.kPublished)) then refused
          else
            let '(status, e, p, rs) := drain_sequence api recycler (driver_side w cl ps tt) self
              sequence_generation (co_pool w) rs in
            let w := w <| co_pool := p |> <| co_driver := en_driver e |> in
            (status, if ok status then reset_admission w index else w, en_provider e, rs)
      end
  end.
End Drain.
