(* ===== verification/KvCoordinatorProps.v ===== *)
(** * What the admission coordinator guarantees

    The blocks of the admissions, their tables and the driver's registry agree, in every
    sequence of calls; a reservation can be published and can be taken back; the
    admission of a request fails the runtime while a completion is pending; draining
    never succeeds, because the blocks were not released. *)

From stdpp Require Import gmap list_numbers.
From S2P Require Import Prelude Core Sha256 TokenPlan TokenMetadata Mailbox RequestArena Ingress Runtime ControllerAbi Provider Client Link RuntimeMachine RuntimeProps Service.
From S2P Require Import KvPool KvPoolInv KvPoolProps KvTable KvLease KvMetadata PackedBatch KvRecycler PackedDriver PackedDriverProps KvCoordinator.
Import KvState(QwenKvSlotLifecycle).

(** ** The blocks of one owner *)

(** The blocks of [o] are the same, and in the same state, in both pools. *)
Definition owner_frames (o : Z) (p p' : QwenKvSlotPool) : Prop :=
  vsize (kp_slots p') = vsize (kp_slots p) /\
  forall i, 0 <= i < vsize (kp_slots p) ->
    ks_owner_sequence_index ((kp_slots p).[i]) = o \/ ks_owner_sequence_index ((kp_slots p').[i]) = o ->
    (kp_slots p').[i] = (kp_slots p).[i].

#[export] Instance owner_frames_preorder o : PreOrder (owner_frames o).
Proof.
  split; [by intros p; split|]. intros p p1 p2 [S1 H1] [S2 H2]. split; [by rewrite S2|]. intros i Hi [Ho|Ho].
  - assert (E : (kp_slots p1).[i] = (kp_slots p).[i]) by (apply H1; auto).
    rewrite (H2 i), E; [done|by rewrite S1|]. left. by rewrite E.
  - assert (E : (kp_slots p2).[i] = (kp_slots p1).[i]) by (apply H2; [by rewrite S1|auto]).
    rewrite E. apply H1; [done|]. right. by rewrite <- E.
Qed.

Lemma owner_frames_same o p p' : kp_slots p' = kp_slots p -> owner_frames o p p'.
Proof. intros E. split; by rewrite E. Qed.

Lemma owner_frames_exact o p p' handles st :
  Forall handle_typed handles -> owner_frames o p p' -> exact_set p o handles st -> exact_set p' o handles st.
Proof.
  intros Ht [Hs Hf] [Hn Hv Hc]. split; [done| |].
  - rewrite Forall_forall in Hv, Ht |- *. intros h Hh. destruct (Hv h Hh) as (Hr & Hg & Ho & Hx).
    destruct (Ht h Hh) as [[H0 _] _]. unfold handle_valid. rewrite Hs, (Hf (bh_slot h)) by (auto; lia). done.
  - rewrite Hc. apply count_if_vat; [done|]. intros i Hi. unfold owned_in.
    destruct (Z.eqb_spec (ks_owner_sequence_index ((kp_slots p).[i])) o) as [E|E].
    + rewrite (Hf i) by auto. by rewrite E, Z.eqb_refl.
    + destruct (Z.eqb_spec (ks_owner_sequence_index ((kp_slots p').[i])) o) as [E'|E']; [|done].
      rewrite (Hf i) in E' by auto. done.
Qed.

Lemma update_owner_frames o p p' f is_ :
  NoDup is_ -> Forall (fun i => 0 <= i < vsize (kp_slots p)) is_ ->
  kp_slots p' = update_slots f is_ (kp_slots p) ->
  (forall i, i ∈ is_ -> ks_owner_sequence_index ((kp_slots p).[i]) <> o /\
     ks_owner_sequence_index (f ((kp_slots p).[i])) <> o) ->
  owner_frames o p p'.
Proof.
  intros Hn Hr Hs Hf. split; [by rewrite Hs, update_slots_size|]. intros i Hi Ho. rewrite Hs in Ho |- *.
  rewrite update_slots_at in Ho |- * by (done || lia). case_bool_decide as Hm; [|done].
  destruct (Hf i Hm). by destruct Ho.
Qed.

(** The owners of the blocks after some of them changed hands. *)
Lemma update_owners p p' f is_ i :
  NoDup is_ -> Forall (fun i => 0 <= i < vsize (kp_slots p)) is_ ->
  kp_slots p' = update_slots f is_ (kp_slots p) -> 0 <= i ->
  ks_owner_sequence_index ((kp_slots p').[i]) =
    if bool_decide (i ∈ is_) then ks_owner_sequence_index (f ((kp_slots p).[i]))
    else ks_owner_sequence_index ((kp_slots p).[i]).
Proof. intros Hn Hr -> Hi. rewrite update_slots_at by done. by case_bool_decide. Qed.

Section Owner.
Context (p : QwenKvSlotPool) (Hw : kv_wf p).

Lemma clean_no_owner i :
  0 <= i < vsize (kp_slots p) -> ks_state ((kp_slots p).[i]) = KvState.kFreeClean ->
  ks_owner_sequence_index ((kp_slots p).[i]) = kNoOwner.
Proof.
  intros Hi Hs. destruct (so_owner _ _ _ (kw_slots _ Hw i Hi)) as [_ Ho]. rewrite Hs in Ho. cbn in Ho.
  destruct (decide (ks_owner_sequence_index ((kp_slots p).[i]) = kNoOwner)) as [|Hne]; [done|].
  by apply Ho in Hne.
Qed.

Lemma reserved_frames o n owner handles p' :
  reserved p owner n handles p' -> o <> owner -> o <> kNoOwner -> owner_frames o p p'.
Proof.
  intros [Hr Hne He Ht _ Hc Hv ->] Ho Hno. pose proof (exact_range _ _ _ _ He Ht) as Hrg.
  cbn in Hrg. rewrite update_slots_size in Hrg.
  apply (update_owner_frames _ _ _ (reserve_slot owner) (map bh_slot handles)); [apply He|done|done|].
  intros i (h & -> & Hh)%list_elem_of_fmap. rewrite Forall_forall in Hc. destruct (Hc h Hh) as [[Hs _] _].
  rewrite Forall_map, Forall_forall in Hrg. rewrite clean_no_owner by (done || exact (Hrg h Hh)). done.
Qed.

Lemma reserved_holders n owner handles p' k :
  reserved p owner n handles p' -> 0 <= k < vsize (kp_slots p) ->
  ks_owner_sequence_index ((kp_slots p').[k]) = owner \/
  ks_owner_sequence_index ((kp_slots p').[k]) = ks_owner_sequence_index ((kp_slots p).[k]).
Proof.
  intros [Hr Hne He Ht _ Hc Hv ->] Hk. pose proof (exact_range _ _ _ _ He Ht) as Hrg.
  cbn in Hrg |- *. rewrite update_slots_size in Hrg. rewrite update_slots_at by (done || lia || apply He).
  case_bool_decide; [by left|by right].
Qed.

(** An exact set has all the blocks of its owner. *)
Lemma exact_all owner handles st k :
  exact_set p owner handles st -> Forall handle_typed handles -> handles <> [] -> owner <> kNoOwner ->
  0 <= k < vsize (kp_slots p) -> ks_owner_sequence_index ((kp_slots p).[k]) = owner -> k ∈ map bh_slot handles.
Proof.
  intros He Ht Hnil Hno Hk Ho. apply (exact_elem _ _ _ _ _ He Ht). split; [done|]. split; [done|].
  destruct handles as [|h hs]; [done|]. assert (Hh : bh_slot h ∈ map bh_slot (h :: hs)) by (by left).
  apply (exact_elem _ _ _ _ _ He Ht) in Hh as (Hhr & Hho & <-). apply (kw_owners _ Hw); [done|done|congruence..].
Qed.

(** The blocks of an exact set pass to a new state, kept or given up by their owner. *)
Lemma exact_update_frames o owner handles st f p' :
  exact_set p owner handles st -> Forall handle_typed handles -> o <> owner -> o <> kNoOwner ->
  kp_slots p' = update_slots f (map bh_slot handles) (kp_slots p) ->
  (forall s, ks_owner_sequence_index (f s) = ks_owner_sequence_index s \/ ks_owner_sequence_index (f s) = kNoOwner) ->
  owner_frames o p p'.
Proof.
  intros He Ht Ho Hno Hs Hf. apply (update_owner_frames _ _ _ f (map bh_slot handles)); [apply He| |done|].
  - exact (exact_range _ _ _ _ He Ht).
  - intros i (Hi & Hio & _)%(exact_elem _ _ _ _ _ He Ht). destruct (Hf ((kp_slots p).[i])); split; congruence.
Qed.

Lemma exact_update_holders owner handles st f p' k :
  exact_set p owner handles st -> Forall handle_typed handles -> 0 <= k ->
  kp_slots p' = update_slots f (map bh_slot handles) (kp_slots p) ->
  (forall s, ks_owner_sequence_index (f s) = ks_owner_sequence_index s \/ ks_owner_sequence_index (f s) = kNoOwner) ->
  ks_owner_sequence_index ((kp_slots p').[k]) = ks_owner_sequence_index ((kp_slots p).[k]) \/
  ks_owner_sequence_index ((kp_slots p').[k]) = kNoOwner.
Proof.
  intros He Ht Hk Hs Hf.
  rewrite (update_owners p p' f (map bh_slot handles)); [|apply He|exact (exact_range _ _ _ _ He Ht)|done|done].
  case_bool_decide; [apply Hf|by left].
Qed.
End Owner.

(** ** One admission *)

(** The state of the blocks of an admission. *)
Definition blocks_in (st : QwenKvAdmissionState) : option QwenKvSlotLifecycle :=
  match st with
  | AdmissionState.kReserved | AdmissionState.kFailed => Some KvState.kAdmissionReserved
  | AdmissionState.kPublished => Some KvState.kOwned
  | AdmissionState.kRolledBack => None
  end.

(** The table that was made for the admission. *)
Definition table_for (a : QwenKvAdmissionTransaction) (t : QwenKvBlockTable) : Prop :=
  bt_handles t = at_handles a /\ t_owner t = at_owner_sequence_index a /\
  sd_sequence_generation (bt_descriptor t) = at_sequence_generation a /\
  sd_reserved_tokens (bt_descriptor t) = at_reserved_tokens a.

Record admission_ok (p : QwenKvSlotPool) (mem : table_memory) (i : Z) (a : QwenKvAdmissionTransaction) : Prop := {
  am_owner : at_owner_sequence_index a = i;
  am_generation : 1 <= at_sequence_generation a;
  am_tokens : 1 <= at_reserved_tokens a <= kMaximumReservedTokens;
  am_count : vsize (at_handles a) = blocks_of (at_reserved_tokens a);
  am_typed : Forall handle_typed (at_handles a);
  am_live : Forall (fun h => bh_generation h <> 0) (at_handles a);
  am_blocks : exists st, blocks_in (at_state a) = Some st /\ exact_set p i (at_handles a) st;
  am_table : at_state a = AdmissionState.kPublished -> table_for a (mem !!! i) }.

Lemma am_nonempty p mem i a : admission_ok p mem i a -> at_handles a <> [].
Proof.
  intros [_ _ Hn Hc _ _ _ _] E. destruct (lease_slot_count_eq _ Hn) as [_ Hb]. rewrite E in Hc.
  change (vsize []) with 0 in Hc. lia.
Qed.

Lemma admission_ok_frames p p' mem mem' i a :
  admission_ok p mem i a -> owner_frames i p p' -> mem' !!! i = mem !!! i -> admission_ok p' mem' i a.
Proof.
  intros [Ho Hg Hn Hc Ht Hl (st & Hs & He) Hm] Hf E. split; try done.
  - exists st. split; [done|]. by eapply owner_frames_exact.
  - by rewrite E.
Qed.

(** ** The invariant *)

Definition adm (w : coordinator_env) (i : Z) : option QwenKvAdmissionTransaction :=
  (kc_admissions (co_coordinator w)).[i].

Definition capacity (w : coordinator_env) : Z := vsize (kc_admissions (co_coordinator w)).

(** Entry [k] of the driver's registry is a published admission, not yet reclaimed. *)
Definition registered (w : coordinator_env) (k : Z) : Prop :=
  exists i a, 0 <= i < capacity w /\ adm w i = Some a /\ at_state a = AdmissionState.kPublished /\
    (pd_registry (co_driver w)).[k] = MkKvBinding (at_sequence_generation a) (Some i) /\
    (pd_reclaimed (co_driver w)).[k] = false.

Record coord_ok (w : coordinator_env) : Prop := {
  cw_pool : kv_wf (co_pool w);
  cw_driver : driver_ok (co_driver w);
  cw_size : 1 <= capacity w <= vsize (pd_registry (co_driver w));
  cw_event : event_null (kc_initial_last_use_event (co_coordinator w)) = false;
  cw_each : forall i a, 0 <= i < capacity w -> adm w i = Some a -> admission_ok (co_pool w) (co_memory w) i a;
  cw_generations : forall i j a b, 0 <= i < capacity w -> 0 <= j < capacity w -> adm w i = Some a ->
    adm w j = Some b -> at_sequence_generation a = at_sequence_generation b -> i = j;
  cw_holders : forall k, 0 <= k < vsize (kp_slots (co_pool w)) ->
    ks_owner_sequence_index ((kp_slots (co_pool w)).[k]) <> kNoOwner ->
    0 <= ks_owner_sequence_index ((kp_slots (co_pool w)).[k]) < capacity w /\
    adm w (ks_owner_sequence_index ((kp_slots (co_pool w)).[k])) <> None;
  cw_registered : forall k, 0 <= k < pd_registry_count (co_driver w) -> registered w k;
  cw_distinct : forall k l, 0 <= k < pd_registry_count (co_driver w) -> 0 <= l < pd_registry_count (co_driver w) ->
    kb_block_table ((pd_registry (co_driver w)).[k]) = kb_block_table ((pd_registry (co_driver w)).[l]) -> k = l }.

Lemma capacity_u32 w : coord_ok w -> capacity w <= 4096.
Proof. intros Hw. pose proof (cw_size _ Hw). pose proof (do_size _ (cw_driver _ Hw)). lia. Qed.

(** Entry [i] changes to [x], with the pool and the memory. *)
Lemma coord_ok_update w w' i x :
  coord_ok w -> 0 <= i < capacity w ->
  co_coordinator w' = (co_coordinator w) <| kc_admissions := (kc_admissions (co_coordinator w)).[i <- x] |> ->
  co_driver w' = co_driver w -> kv_wf (co_pool w') ->
  vsize (kp_slots (co_pool w')) = vsize (kp_slots (co_pool w)) ->
  (forall j, 0 <= j < capacity w -> j <> i -> adm w j <> None ->
     owner_frames j (co_pool w) (co_pool w') /\ co_memory w' !!! j = co_memory w !!! j) ->
  (forall a, x = Some a -> admission_ok (co_pool w') (co_memory w') i a /\
     forall j b, 0 <= j < capacity w -> j <> i -> adm w j = Some b ->
       at_sequence_generation a <> at_sequence_generation b) ->
  (forall k, 0 <= k < vsize (kp_slots (co_pool w)) ->
     let o := ks_owner_sequence_index ((kp_slots (co_pool w')).[k]) in
     o = kNoOwner \/ o = i /\ x <> None \/ o <> i /\ o = ks_owner_sequence_index ((kp_slots (co_pool w)).[k])) ->
  (forall a, adm w i = Some a -> at_state a <> AdmissionState.kPublished) ->
  coord_ok w'.
Proof.
  intros Hw Hi Hco Hdr Hp Hsz Hf Hx Ho Hn. pose proof Hw as [_ Hd Hs He Hea Hg Hh Hr Hdi].
  assert (Hcap : capacity w' = capacity w) by (unfold capacity; rewrite Hco; cbn; apply vsize_vput).
  assert (Hat : forall j, 0 <= j < capacity w -> adm w' j = if j =? i then x else adm w j).
  { intros j Hj. unfold adm. rewrite Hco. cbn. apply vat_vput; lia || done. }
  split; rewrite ?Hcap, ?Hdr; try done.
  - rewrite Hco. done.
  - intros j a Hj Ha. rewrite Hat in Ha by done. destruct (Z.eqb_spec j i) as [->|Hne]; [by apply Hx|].
    destruct (Hf j Hj Hne) as [Hfr Hm]; [congruence|]. by eapply admission_ok_frames; [apply Hea| |].
  - intros j k a b Hj Hk. rewrite !Hat by done. destruct (Z.eqb_spec j i) as [->|], (Z.eqb_spec k i) as [->|]; try done.
    + intros Ha Hb E. by destruct (proj2 (Hx a Ha) k b Hk ltac:(done) Hb).
    + intros Ha Hb E. by destruct (proj2 (Hx b Hb) j a Hj ltac:(done) Ha).
    + by apply Hg.
  - intros k Hk Hno. rewrite Hsz in Hk. destruct (Ho k Hk) as [E|[[E E']|[Hne E]]]; [done| |].
    + rewrite E. split; [done|]. by rewrite Hat, Z.eqb_refl.
    + rewrite E in Hno, Hne |- *. destruct (Hh k Hk Hno) as [H1 H2]. split; [done|]. rewrite Hat by done.
      by rewrite (proj2 (Z.eqb_neq _ _) Hne).
  - intros k Hk. destruct (Hr k Hk) as (j & a & Hj & Ha & Hst & Hb & Hrc). exists j, a. rewrite Hcap, Hat, Hdr by done.
    destruct (Z.eqb_spec j i) as [->|]; [|done]. by destruct (Hn a Ha).
Qed.

(** Only the driver and the contents of the tables change. *)
Definition tables_kept (mem mem' : table_memory) : Prop :=
  forall a, bt_handles (mem' !!! a) = bt_handles (mem !!! a) /\
    t_owner (mem' !!! a) = t_owner (mem !!! a) /\
    sd_sequence_generation (bt_descriptor (mem' !!! a)) = sd_sequence_generation (bt_descriptor (mem !!! a)) /\
    sd_reserved_tokens (bt_descriptor (mem' !!! a)) = sd_reserved_tokens (bt_descriptor (mem !!! a)).

#[export] Instance tables_kept_preorder : PreOrder tables_kept.
Proof.
  split; [by intros mem a|]. intros m1 m2 m3 H1 H2 a.
  destruct (H1 a) as (A1 & A2 & A3 & A4), (H2 a) as (B1 & B2 & B3 & B4). split_and!; congruence.
Qed.

Lemma coord_ok_driver w d mem :
  coord_ok w -> driver_ok d -> registry_part d = registry_part (co_driver w) -> tables_kept (co_memory w) mem ->
  coord_ok (w <| co_driver := d |> <| co_memory := mem |>).
Proof.
  intros [Hp Hd Hs He Hea Hg Hh Hr Hdi] Hd' Hrp Hk. unfold registry_part in Hrp. injection Hrp as E1 E2 E3.
  split; cbn; rewrite ?E1, ?E3; try done.
  - intros i a Hi Ha. destruct (Hea i a Hi Ha) as [H1 H2 H3 H4 H5 H6 H7 H8]. split; try done. intros Hst.
    destruct (Hk i) as (T1 & T2 & T3 & T4). unfold table_for. cbn. rewrite T1, T2, T3, T4. by apply H8.
  - intros k Hk'. destruct (Hr k Hk') as (i & a & H). exists i, a. cbn. rewrite E1, E2. done.
Qed.

(** ** Reserving *)

Lemma select_clean_bad slots : forall o n e, select_clean slots o n = Error e -> ok e = false.
Proof.
  induction slots as [|s l IH]; intros o [|n] e; cbn; try done.
  destruct (in_state _ s); [|apply IH]. destruct (_ =? u32_max); [by intros [= <-]|].
  destruct (select_clean l _ _) eqn:Ei; cbn; [done|]. intros [= <-]. by eapply IH.
Qed.

Lemma reserve_bad p owner n e p' : reserve p owner n = (Error e, p') -> ok e = false.
Proof.
  unfold reserve. destruct (not_ready p); [by intros [= <- _]|]. destruct (_ || _); [by intros [= <- _]|].
  destruct (existsb _ _); [by intros [= <- _]|]. destruct (_ >? _); [by intros [= <- _]|].
  destruct (select_clean _ _ _) eqn:Es; [|intros [= <- _]; by eapply select_clean_bad].
  destruct (_ =? _); [done|]. by intros [= <- _].
Qed.

(** The pool after a sequence number was taken from it. *)
Definition number_taken (p : QwenKvSlotPool) : QwenKvSlotPool :=
  p <| kp_next_sequence_generation := kp_next_sequence_generation p + 1 |>.

Lemma reservation_spec p i n :
  kv_wf p -> 0 <= i <= 4096 -> 1 <= n <= kMaximumReservedTokens ->
  match Admission_Reserve p i n with
  | (Value a, p') => exists handles,
      a = MkAdmission i (kp_next_sequence_generation p) n handles None AdmissionState.kReserved /\
      kv_wf (number_taken p) /\ reserved (number_taken p) i (blocks_of n) handles p' /\ kv_wf p'
  | (Error e, p') =>
      ok e = false /\ kv_wf p' /\
      (p' = p \/ kp_next_sequence_generation p = u32_max /\ p' = p <| kp_failed := true |> \/ p' = number_taken p)
  end.
Proof.
  intros Hw Hi Hn. destruct (lease_slot_count_eq n Hn) as [Hc Hb]. unfold Admission_Reserve.
  unfold kMaximumReservedTokens in *. destruct (_ || _) eqn:Eg; [by auto|].
  rewrite checked_add_u64_spec by (unfold is_u64, kTokensPerSlot; lia).
  replace (n + (kTokensPerSlot - 1) <=? u64_max) with true by (unfold kTokensPerSlot; lia). cbn beta iota zeta.
  assert (Ec : wrap32 ((n + (kTokensPerSlot - 1)) / kTokensPerSlot) = blocks_of n).
  { rewrite <- Hc. unfold lease_slot_count. rewrite wrap64_id by (unfold is_u64, kTokensPerSlot; lia).
    f_equal. f_equal. lia. }
  rewrite Ec. pose proof (acquire_wf p Hw) as Hwa. unfold acquire_sequence_generation in *.
  destruct (not_ready p) eqn:Er; [auto|]. destruct (_ =? u32_max) eqn:Eu; [cbn [snd] in Hwa; apply Z.eqb_eq in Eu; by auto 6|].
  apply Z.eqb_neq in Eu. pose proof (kw_next _ Hw) as Hnx. rewrite wrap32_id in * by (unfold is_u32; lia).
  cbn [snd] in Hwa.
  change (p <| kp_next_sequence_generation := _ |>) with (number_taken p) in *. set (p1 := number_taken p) in *.
  destruct (reserve p1 i (blocks_of n)) as [[handles|e] p'] eqn:E.
  - assert (Hrs : reserved p1 i (blocks_of n) handles p') by (apply reserve_spec; [done|unfold is_u32; lia..|done]).
    exists handles. split_and!; try done. eapply reserved_wf; [exact Hwa| |exact Hrs]. unfold is_u32. lia.
  - pose proof (reserve_bad _ _ _ _ _ E). apply reserve_error_same in E as [-> _]; [auto|done|unfold is_u32; lia].
Qed.

Lemma kc_find_Some w g i :
  kc_find (co_coordinator w) g = Some i ->
  0 <= i < capacity w /\ exists a, adm w i = Some a /\ at_sequence_generation a = g.
Proof.
  intros E. unfold kc_find in E. apply first_index_Some in E as (Hi & Hf & _). rewrite Z.sub_0_r in Hf.
  split; [unfold capacity; lia|]. unfold adm. destruct (_.[i]) as [a|] eqn:Ea; [|done]. exists a.
  split; [done|]. by apply Z.eqb_eq.
Qed.

Lemma kc_find_None w g i a :
  kc_find (co_coordinator w) g = None -> 0 <= i < capacity w -> adm w i = Some a -> at_sequence_generation a <> g.
Proof.
  intros E Hi Ha. unfold kc_find in E. apply first_index_None in E. rewrite Forall_forall in E.
  specialize (E _ (proj2 (list_elem_of_In _ _) (vat_In _ _ Hi))). unfold adm in Ha. rewrite Ha in E. cbn in E.
  by apply Z.eqb_neq.
Qed.

Lemma kc_find_eq w g i a :
  coord_ok w -> 0 <= i < capacity w -> adm w i = Some a -> at_sequence_generation a = g ->
  kc_find (co_coordinator w) g = Some i.
Proof.
  intros Hw Hi Ha Hg. destruct (kc_find (co_coordinator w) g) as [j|] eqn:E.
  - apply kc_find_Some in E as (Hj & b & Hb & Eb). f_equal. eapply (cw_generations _ Hw j i); [done..|congruence].
  - by destruct (kc_find_None w g i a E Hi Ha).
Qed.

(** The world in which only the pool changes, and no owner's blocks do. *)
Lemma coord_ok_pool w p' :
  coord_ok w -> kv_wf p' -> vsize (kp_slots p') = vsize (kp_slots (co_pool w)) ->
  (forall j, 0 <= j < capacity w -> adm w j <> None -> owner_frames j (co_pool w) p') ->
  (forall k, 0 <= k < vsize (kp_slots (co_pool w)) ->
     let o := ks_owner_sequence_index ((kp_slots p').[k]) in
     o = kNoOwner \/ o = ks_owner_sequence_index ((kp_slots (co_pool w)).[k])) ->
  coord_ok (w <| co_pool := p' |>).
Proof.
  intros [Hp Hd Hs He Hea Hg Hh Hr Hdi] Hp' Hsz Hf Ho. split; try done.
  - intros i a Hi Ha. eapply admission_ok_frames; [by apply Hea| |done]. apply Hf; [done|].
    unfold adm in *. cbn in Ha. congruence.
  - cbn. intros k Hk Hno. rewrite Hsz in Hk. destruct (Ho k Hk) as [E|E]; [done|]. rewrite E in Hno |- *. by apply Hh.
Qed.

Lemma coord_ok_slots w p' :
  coord_ok w -> kv_wf p' -> kp_slots p' = kp_slots (co_pool w) -> coord_ok (w <| co_pool := p' |>).
Proof.
  intros Hw Hp E. apply coord_ok_pool; [done|done|by rewrite E|intros; by apply owner_frames_same|].
  intros k Hk. right. by rewrite E.
Qed.

(** A reservation that was made and given back: the blocks are free again, each under a
    later generation, the number that was taken for it is used up, and nothing else has
    changed. *)
Record undone (p p' : QwenKvSlotPool) : Prop := {
  ud_blocks : given_back p p';
  ud_number : kp_next_sequence_generation p' = kp_next_sequence_generation p + 1;
  ud_rest : p' = p <| kp_slots := kp_slots p' |>
                   <| kp_next_sequence_generation := kp_next_sequence_generation p' |> }.

(** The pool after a refusal: as it was; failed, when the numbers are used up; or with a
    number taken and all blocks free. *)
Definition refused_pool (p p' : QwenKvSlotPool) : Prop :=
  p' = p \/ (kp_next_sequence_generation p = u32_max /\ p' = p <| kp_failed := true |>) \/ undone p p'.

Lemma undone_number_taken p : undone p (number_taken p).
Proof. split; [|done|by destruct p]. split_and!; [done|done|]. intros i Hi. by left. Qed.

(** Blocks that were just reserved are given back. *)
Lemma reserved_undone p owner n handles p1 :
  kv_wf p -> is_u32 owner -> reserved p owner n handles p1 ->
  exists p2, rollback p1 owner handles = (StatusOk, p2) /\ kv_wf p2 /\
    given_back p p2 /\ p2 = p <| kp_slots := kp_slots p2 |> /\
    (forall o, o <> owner -> o <> kNoOwner -> owner_frames o p p2) /\
    (forall k, 0 <= k < vsize (kp_slots p) ->
       ks_owner_sequence_index ((kp_slots p2).[k]) = kNoOwner \/
       ks_owner_sequence_index ((kp_slots p2).[k]) = ks_owner_sequence_index ((kp_slots p).[k])).
Proof.
  intros Hw Ho Hrs. pose proof (reserved_wf _ _ _ _ _ Hw Ho Hrs) as Hw1. pose proof (rs_exact _ _ _ _ _ Hrs) as He.
  pose proof (rs_typed _ _ _ _ _ Hrs) as Ht. pose proof (reserved_nonempty _ _ _ _ _ Hrs) as Hnil.
  assert (Hr : not_ready p1 = false) by (rewrite (rs_pool _ _ _ _ _ Hrs); apply (rs_ready _ _ _ _ _ Hrs)).
  destruct (rollback p1 owner handles) as [s p2] eqn:E. pose proof E as E'. rewrite rollback_total in E' by done.
  injection E' as <- E2. exists p2. split; [done|].
  pose proof (rollback_wf p1 owner handles Hw1 Ht) as Hw2. rewrite E in Hw2.
  pose proof (reserve_rollback _ _ _ _ _ _ Hw Ho Hrs E) as Hg.
  assert (Hs2 : kp_slots p2 = update_slots (free_slot KvState.kFreeClean) (map bh_slot handles) (kp_slots p1))
    by (by rewrite <- E2).
  split; [done|]. split; [done|]. split; [|split].
  - destruct Hg as [Hcr _]. revert Hcr. rewrite <- E2, (rs_pool _ _ _ _ _ Hrs). destruct p. cbn. by intros ->.
  - intros o Hoo Hno. transitivity p1; [by eapply reserved_frames|].
    eapply exact_update_frames; [exact He|done|done|done|exact Hs2|]. intros s. by right.
  - intros k Hk. destruct Hg as (_ & _ & Hg). destruct (Hg k Hk) as [->|[_ ->]]; by right.
Qed.

Lemma undone_from p p2 :
  given_back (number_taken p) p2 -> p2 = number_taken p <| kp_slots := kp_slots p2 |> -> undone p p2.
Proof. intros Hg E. split; [exact Hg|by rewrite E|rewrite E at 1; rewrite E; by destruct p]. Qed.

Lemma set_admission_pool w p i a :
  set_admission (w <| co_pool := p |>) i a =
    w <| co_pool := p |> <| co_coordinator := (co_coordinator w) <| kc_admissions :=
      (kc_admissions (co_coordinator w)).[i <- a] |> |>.
Proof. done. Qed.

(** What [kc_reserve] does. *)
Definition reserved_in (w : coordinator_env) (g n : Z) (w' : coordinator_env) : Prop :=
  exists i handles p',
    0 <= i < capacity w /\ adm w i = None /\ 1 <= n <= kMaximumReservedTokens /\
    kv_wf (number_taken (co_pool w)) /\ kp_next_sequence_generation (co_pool w) = g /\
    reserved (number_taken (co_pool w)) i (blocks_of n) handles p' /\
    w' = set_admission (w <| co_pool := p' |>) i (Some (MkAdmission i g n handles None AdmissionState.kReserved)).

Lemma kc_reserve_spec w v (g := rqv_request_generation (av_request v)) :
  coord_ok w -> is_u64 (sp_size (rqv_prompt_token_ids (av_request v))) ->
  is_u64 (rqv_maximum_new_tokens (av_request v)) ->
  let '(s, w') := kc_reserve w v in
  coord_ok w' /\
  if ok s then reserved_in w g (sp_size (rqv_prompt_token_ids (av_request v)) + rqv_maximum_new_tokens (av_request v)) w'
  else exists p', w' = w <| co_pool := p' |> /\ refused_pool (co_pool w) p'.
Proof.
  intros Hw Hs1 Hs2. pose proof (capacity_u32 _ Hw) as Hcap.
  assert (Hself : exists p', w = w <| co_pool := p' |> /\ refused_pool (co_pool w) p').
  { exists (co_pool w). split; [by destruct w|by left]. }
  unfold kc_reserve. fold g. destruct (kc_find _ g) as [|] eqn:Ef; [done|].
  destruct (first_index admission_absent _ 0) as [i|] eqn:Ei; [|done].
  apply first_index_Some in Ei as (Hi & Hab & _). rewrite Z.sub_0_r in Hab. fold (capacity w) in Hi.
  assert (Hnone : adm w i = None) by (unfold adm; by destruct (_.[i])).
  destruct (checked_add_u64 _ _) as [total|] eqn:Et; [|done]. apply checked_add_u64_Value in Et as [Hn Hm]; [|done..].
  set (n := total) in *. destruct (_ || _) eqn:Eg; [done|]. breflect. unfold kMaximumReservedTokens in *.
  assert (Hn0 : 0 <= n) by apply Hm.
  rewrite wrap32_id by (unfold is_u32; lia).
  pose proof (reservation_spec (co_pool w) i n (cw_pool _ Hw) ltac:(lia) ltac:(unfold kMaximumReservedTokens; lia)) as Hres.
  destruct (Admission_Reserve _ _ _) as [[a|e] p'].
  2: { destruct Hres as (-> & Hp & Hx). split; [apply coord_ok_slots; [done|done|by destruct Hx as [->|[[_ ->]| ->]]]|].
       exists p'. split; [done|]. destruct Hx as [->|[Hx| ->]]; [by left|by right; left|right; right; apply undone_number_taken]. }
  destruct Hres as (handles & -> & Hw1 & Hrs & Hwp). cbn [at_sequence_generation].
  remember (number_taken (co_pool w)) as p1 eqn:Hp1.
  assert (Hsl : kp_slots p1 = kp_slots (co_pool w)) by (by rewrite Hp1).
  assert (Hu : is_u32 i) by (unfold is_u32; lia).
  assert (Hno : i <> kNoOwner) by apply (rs_owner _ _ _ _ _ Hrs).
  assert (Hfr : forall p2 j, (forall o, o <> i -> o <> kNoOwner -> owner_frames o p1 p2) ->
    0 <= j < capacity w -> j <> i -> owner_frames j (co_pool w) p2).
  { intros p2 j Hf Hj Hne. transitivity p1; [by apply owner_frames_same|]. apply Hf; [done|]. unfold kNoOwner. lia. }
  destruct (Z.eqb_spec (kp_next_sequence_generation (co_pool w)) g) as [Eg'|Eg']; cbn [negb].
  - split; [|rewrite <- Hn; exists i, handles, p'; rewrite <- Eg', <- Hp1; unfold kMaximumReservedTokens; split_and!; done || lia].
    eapply (coord_ok_update w _ i (Some _) Hw Hi); [done|done|exact Hwp|..].
    + cbn. rewrite (rs_pool _ _ _ _ _ Hrs). cbn. by rewrite update_slots_size, Hsl.
    + intros j Hj Hne _. split; [|done]. apply Hfr; [|done|done]. intros o Ho Hoo. by eapply reserved_frames.
    + intros a [= <-]. split.
      * destruct (cw_pool _ Hw) as [_ _ _ _ _ _ Hnx].
        split; cbn; try done; [lia|unfold kMaximumReservedTokens; lia|apply (rs_count _ _ _ _ _ Hrs)|apply (rs_typed _ _ _ _ _ Hrs)| |].
        -- exact (reserved_generations _ _ _ _ _ Hw1 Hrs).
        -- exists KvState.kAdmissionReserved. split; [done|apply (rs_exact _ _ _ _ _ Hrs)].
      * cbn. intros j b Hj Hne Hb Eb. rewrite Eg' in Eb. by apply (kc_find_None w g j b Ef Hj Hb).
    + cbn. intros k Hk. rewrite <- Hsl in Hk |- *. pose proof (rs_vacant _ _ _ _ _ Hrs k Hk) as Hv.
      destruct (reserved_holders p1 _ _ _ _ k Hrs Hk) as [->| ->]; [by right; left|by right; right].
    + intros a Ha. by rewrite Hnone in Ha.
  - destruct (reserved_undone p1 i _ handles p' Hw1 Hu Hrs) as (p2 & Er & Hw2 & Hgb & Hrest & Hf2 & Hh2).
    unfold admission_rollback. cbn [at_state at_owner_sequence_index at_handles].
    rewrite bool_decide_false, bool_decide_true by done. cbn [negb]. rewrite Er. cbn [ok negb].
    split; [|exists p2; split; [done|right; right; subst p1; by apply undone_from]].
    apply coord_ok_pool; [done|done|by rewrite <- Hsl; apply Hgb| |].
    + intros j Hj Hja. apply Hfr; [done|done|]. intros ->. by rewrite Hnone in Hja.
    + intros k Hk. cbn. rewrite <- Hsl in Hk |- *. by apply Hh2.
Qed.

(** ** Giving back *)

Lemma set_admission_same w i a : adm w i = Some a -> set_admission w i (Some a) = w.
Proof.
  intros E. unfold set_admission, adm in *. destruct w as [[adms ev] p d mem]. cbn in *.
  unfold upd. cbn. repeat f_equal. unfold vput, vat in *. apply list_insert_id.
  rewrite list_lookup_total_alt in E. by destruct (adms !! Z.to_nat i); cbn in E; subst.
Qed.

(** An admission that could not be published or given back keeps its blocks. *)
Lemma coord_ok_failed w i a :
  coord_ok w -> 0 <= i < capacity w -> adm w i = Some a -> at_state a = AdmissionState.kReserved ->
  coord_ok (set_admission w i (Some (a <| at_state := AdmissionState.kFailed |>))).
Proof.
  intros Hw Hi Ha Hs. eapply (coord_ok_update w _ i (Some _) Hw Hi); [done|done|apply Hw|done|done|..].
  - intros b [= <-]. split.
    + destruct (cw_each _ Hw i a Hi Ha) as [H1 H2 H3 H4 H5 H6 (st & H7 & H7') H8]. split; try done. cbn.
      exists st. split; [by rewrite Hs in H7|done].
    + cbn. intros j b Hj Hne Hb E. apply Hne. symmetry. by eapply (cw_generations _ Hw i j).
  - intros k Hk. cbn zeta. cbn.
    destruct (decide (ks_owner_sequence_index ((kp_slots (co_pool w)).[k]) = i)); [right; left|right; right]; done.
  - intros b Hb. rewrite Ha in Hb. injection Hb as <-. by rewrite Hs.
Qed.

Lemma unpublished_reset w i a p' :
  coord_ok w -> 0 <= i < capacity w -> adm w i = Some a -> at_state a = AdmissionState.kReserved ->
  rollback (co_pool w) i (at_handles a) = (StatusOk, p') -> not_ready (co_pool w) = false ->
  coord_ok (reset_admission (w <| co_pool := p' |>) i).
Proof.
  intros Hw Hi Ha Hs Er Hr. pose proof (cw_each _ Hw i a Hi Ha) as Hok. pose proof (am_nonempty _ _ _ _ Hok) as Hnil.
  destruct Hok as [H1 H2 H3 H4 Ht H6 (st & H7 & He) H8]. rewrite Hs in H7. injection H7 as <-.
  pose proof (rollback_wf _ i (at_handles a) (cw_pool _ Hw) Ht) as Hw'. rewrite Er in Hw'.
  rewrite rollback_total in Er by done. injection Er as Ep.
  assert (Hsl : kp_slots p' = update_slots (free_slot KvState.kFreeClean) (map bh_slot (at_handles a)) (kp_slots (co_pool w)))
    by (by rewrite <- Ep).
  eapply (coord_ok_update w _ i None Hw Hi); [done|done|exact Hw'|..]; cbn.
  - by rewrite Hsl, update_slots_size.
  - intros j Hj Hne _. split; [|unfold lookup_total, map_lookup_total; by rewrite lookup_delete_ne].
    pose proof (capacity_u32 _ Hw).
    eapply exact_update_frames; [exact He|done|done|unfold kNoOwner; lia|exact Hsl|]. intros s. by right.
  - done.
  - intros k Hk. rewrite (update_owners (co_pool w) p' (free_slot KvState.kFreeClean) (map bh_slot (at_handles a)));
      [|apply He|exact (exact_range _ _ _ _ He Ht)|exact Hsl|lia].
    case_bool_decide as Hm; [by left|]. right. right. split; [|done]. intros E. apply Hm.
    pose proof (capacity_u32 _ Hw). apply (exact_all _ (cw_pool _ Hw) i _ _ _ He Ht); [done|unfold kNoOwner; lia|done|done].
  - intros b Hb. rewrite Ha in Hb. injection Hb as <-. by rewrite Hs.
Qed.

Lemma kc_rollback_spec w g :
  coord_ok w ->
  let '(s, w') := kc_rollback w g in
  coord_ok w' /\
  forall i a, 0 <= i < capacity w -> adm w i = Some a -> at_sequence_generation a = g ->
    at_state a = AdmissionState.kReserved -> not_ready (co_pool w) = false ->
    exists p', rollback (co_pool w) i (at_handles a) = (StatusOk, p') /\ s = StatusOk /\
      w' = reset_admission (w <| co_pool := p' |>) i.
Proof.
  intros Hw. unfold kc_rollback. destruct (kc_find _ g) as [i|] eqn:Ef.
  2: { split; [done|]. intros i a Hi Ha Hg. by destruct (kc_find_None w g i a Ef Hi Ha). }
  pose proof Ef as (Hi & a & Ha & Hg)%kc_find_Some. pose proof Ha as Ha'. unfold adm in Ha'. rewrite Ha'.
  assert (Huniq : forall j b, 0 <= j < capacity w -> adm w j = Some b -> at_sequence_generation b = g -> j = i /\ b = a).
  { intros j b Hj Hb E. assert (j = i) as -> by (eapply (cw_generations _ Hw j i); [done..|congruence]).
    split; [done|congruence]. }
  pose proof (cw_each _ Hw i a Hi Ha) as Hok. pose proof (am_nonempty _ _ _ _ Hok) as Hnil.
  pose proof (am_owner _ _ _ _ Hok) as Hown. destruct (am_blocks _ _ _ _ Hok) as (st & Hst & He).
  unfold admission_rollback. destruct (at_state a) eqn:Es; try done.
  - rewrite bool_decide_false, bool_decide_true by done. cbn [negb]. rewrite Hown.
    destruct (rollback (co_pool w) i (at_handles a)) as [s p'] eqn:Er.
    destruct (not_ready (co_pool w)) eqn:Hr.
    + assert (Es' : ok s = false /\ p' = co_pool w) by (unfold rollback in Er; rewrite Hr in Er; by injection Er as <- <-).
      destruct Es' as [Es' ->]. rewrite Es'. unfold restored_state. rewrite Es'.
      split; [|by intros]. replace (w <| co_pool := co_pool w |>) with w by (by destruct w). by apply coord_ok_failed.
    + injection Hst as <-. pose proof Er as Er'. rewrite rollback_total in Er' by done. injection Er' as <- Ep.
      cbn [ok]. split; [by eapply unpublished_reset|].
      intros j b Hj Hb Eg _ _. destruct (Huniq j b Hj Hb Eg) as [-> ->]. exists p'. done.
  - rewrite !bool_decide_false by done. cbn [negb ok]. replace (w <| co_pool := co_pool w |>) with w by (by destruct w).
    rewrite set_admission_same by done. split; [done|]. intros j b Hj Hb Eg Ers.
    destruct (Huniq j b Hj Hb Eg) as [-> ->]. congruence.
  - rewrite !bool_decide_false by done. cbn [negb ok]. replace (w <| co_pool := co_pool w |>) with w by (by destruct w).
    rewrite set_admission_same by done. split; [done|]. intros j b Hj Hb Eg Ers.
    destruct (Huniq j b Hj Hb Eg) as [-> ->]. congruence.
Qed.

(** ** Publishing *)

Definition published_admission (a : QwenKvAdmissionTransaction) : QwenKvAdmissionTransaction :=
  a <| at_table := Some (new_table (at_owner_sequence_index a) (at_sequence_generation a)
                           (at_reserved_tokens a) (at_handles a)) |>
    <| at_state := AdmissionState.kPublished |>.

Definition published_world (w : coordinator_env) (i : Z) (a : QwenKvAdmissionTransaction) (p' : QwenKvSlotPool) :
    coordinator_env :=
  (set_admission (w <| co_pool := p' |>) i (Some (published_admission a)))
    <| co_memory := <[i := new_table i (at_sequence_generation a) (at_reserved_tokens a) (at_handles a)]> (co_memory w) |>.

Lemma coord_ok_published w i a p' :
  coord_ok w -> 0 <= i < capacity w -> adm w i = Some a -> at_state a = AdmissionState.kReserved ->
  not_ready (co_pool w) = false -> publish (co_pool w) i (at_handles a) = (StatusOk, p') ->
  coord_ok (published_world w i a p').
Proof.
  intros Hw Hi Ha Hs Hr Ep. pose proof (cw_each _ Hw i a Hi Ha) as Hok. pose proof (am_nonempty _ _ _ _ Hok) as Hnil.
  destruct Hok as [H1 H2 H3 H4 Ht H6 (st & H7 & He) H8]. rewrite Hs in H7. injection H7 as <-.
  pose proof (publish_wf _ i (at_handles a) (cw_pool _ Hw) Ht) as Hw'. rewrite Ep in Hw'.
  rewrite publish_total in Ep by done. injection Ep as Ep. pose proof (capacity_u32 _ Hw) as Hcap.
  assert (Hno : i <> kNoOwner) by (unfold kNoOwner; lia).
  assert (Hsl : kp_slots p' = update_slots (set_slot_state KvState.kOwned) (map bh_slot (at_handles a)) (kp_slots (co_pool w)))
    by (by rewrite <- Ep).
  eapply (coord_ok_update w _ i (Some _) Hw Hi); [done|done|exact Hw'|..]; cbn.
  - by rewrite Hsl, update_slots_size.
  - intros j Hj Hne _. split; [|unfold lookup_total, map_lookup_total; by rewrite lookup_insert_ne].
    eapply exact_update_frames; [exact He|done|done|unfold kNoOwner; lia|exact Hsl|]. intros s. by left.
  - intros b [= <-]. split.
    + split; cbn; try done.
      * exists KvState.kOwned. split; [done|]. by eapply (exact_restate (co_pool w)); [apply Hw|exact He|..].
      * intros _. rewrite lookup_total_insert_eq. unfold table_for. cbn. by rewrite H1.
    + cbn. intros j b Hj Hne Hb E. apply Hne. symmetry. by eapply (cw_generations _ Hw i j).
  - intros k Hk.
    rewrite (update_owners (co_pool w) p' (set_slot_state KvState.kOwned) (map bh_slot (at_handles a)));
      [|apply He|exact (exact_range _ _ _ _ He Ht)|exact Hsl|lia].
    replace (if bool_decide _ then _ else _) with (ks_owner_sequence_index ((kp_slots (co_pool w)).[k]))
      by (by case_bool_decide).
    destruct (decide (ks_owner_sequence_index ((kp_slots (co_pool w)).[k]) = i)); [right; left|right; right]; done.
  - intros b Hb. rewrite Ha in Hb. injection Hb as <-. by rewrite Hs.
Qed.

(** An admission that is not published has no entry in the registry. *)
Lemma unregistered w i a :
  coord_ok w -> 0 <= i < capacity w -> adm w i = Some a -> at_state a <> AdmissionState.kPublished ->
  forall k, 0 <= k < pd_registry_count (co_driver w) ->
    kb_block_table ((pd_registry (co_driver w)).[k]) <> Some i /\
    kb_sequence_generation ((pd_registry (co_driver w)).[k]) <> at_sequence_generation a.
Proof.
  intros Hw Hi Ha Hs k Hk. destruct (cw_registered _ Hw k Hk) as (j & b & Hj & Hb & Hbs & -> & _). cbn.
  assert (Hne : j <> i) by (intros ->; congruence). split; [congruence|]. intros E. apply Hne.
  by eapply (cw_generations _ Hw j i).
Qed.

Lemma registry_room w i a :
  coord_ok w -> 0 <= i < capacity w -> adm w i = Some a -> at_state a <> AdmissionState.kPublished ->
  pd_registry_count (co_driver w) < vsize (pd_registry (co_driver w)).
Proof.
  intros Hw Hi Ha Hs. pose proof (cw_size _ Hw) as Hsz. pose proof (do_count _ (cw_driver _ Hw)) as Hc.
  set (address k := default (-1) (kb_block_table ((pd_registry (co_driver w)).[k]))).
  assert (Hat : forall k, 0 <= k < pd_registry_count (co_driver w) ->
    0 <= address k < capacity w /\ kb_block_table ((pd_registry (co_driver w)).[k]) = Some (address k)).
  { intros k Hk. destruct (cw_registered _ Hw k Hk) as (j & b & Hj & _ & _ & E & _). unfold address. by rewrite E. }
  assert (Hnd : NoDup (i :: map address (seqZ 0 (pd_registry_count (co_driver w))))).
  { constructor.
    - intros (k & E & Hk%elem_of_seqZ)%list_elem_of_fmap. destruct (Hat k ltac:(lia)) as [_ Ek].
      rewrite <- E in Ek. by destruct (unregistered w i a Hw Hi Ha Hs k ltac:(lia)).
    - apply NoDup_fmap_2_strong; [|apply NoDup_seqZ]. intros k l Hk%elem_of_seqZ Hl%elem_of_seqZ E.
      apply (cw_distinct _ Hw k l); [lia|lia|]. rewrite (proj2 (Hat k ltac:(lia))), (proj2 (Hat l ltac:(lia))). by f_equal. }
  assert (Hsub : i :: map address (seqZ 0 (pd_registry_count (co_driver w))) ⊆ seqZ 0 (capacity w)).
  { intros x [->|(k & -> & Hk%elem_of_seqZ)%list_elem_of_fmap]%elem_of_cons; apply elem_of_seqZ; [lia|].
    pose proof (proj1 (Hat k ltac:(lia))). lia. }
  apply NoDup_submseteq in Hsub; [|done]. apply submseteq_length in Hsub. cbn in Hsub.
  rewrite length_map, !length_seqZ in Hsub. lia.
Qed.

(** The driver after the binding of [i]. *)
Definition bound_driver (d : ControllerPackedDriver) (g i : Z) (ev : QwenKvCompletionEvent) : ControllerPackedDriver :=
  let k := pd_registry_count d in
  d <| pd_registry := (pd_registry d).[k <- MkKvBinding g (Some i)] |>
    <| pd_last_use_events := (pd_last_use_events d).[k <- ev] |>
    <| pd_reclaimed := (pd_reclaimed d).[k <- false] |> <| pd_registry_count := k + 1 |>.

Lemma pd_registered_at d b :
  driver_ok d -> b ∈ pd_registered d -> exists k, 0 <= k < pd_registry_count d /\ b = (pd_registry d).[k].
Proof.
  intros Hd (k & Hk)%list_elem_of_lookup_1. unfold pd_registered in Hk. apply lookup_take_Some in Hk as [Hk Hlt].
  exists (Z.of_nat k). split; [lia|]. unfold vat. rewrite Nat2Z.id. symmetry. by apply list_lookup_total_correct.
Qed.

Lemma bind_sequence_total d g i t ev :
  driver_ok d -> pd_state d = DriverState.kReady -> g <> 0 -> sd_active (bt_descriptor t) = 1 ->
  event_null ev = false ->
  (forall k, 0 <= k < pd_registry_count d -> kb_block_table ((pd_registry d).[k]) <> Some i /\
     kb_sequence_generation ((pd_registry d).[k]) <> g) ->
  pd_registry_count d < vsize (pd_registry d) ->
  bind_sequence d g i t ev = (StatusOk, bound_driver d g i ev).
Proof.
  intros Hd Hs Hg Ht He Hk Hc. unfold bind_sequence. rewrite Hs, bool_decide_true, (proj2 (Z.eqb_neq g 0)) by done.
  rewrite Ht, He. cbn [negb orb Z.eqb Pos.eqb].
  destruct (existsb _ _) eqn:Ex.
  { apply existsb_exists in Ex as (b & Hb%list_elem_of_In & Ex). apply pd_registered_at in Hb as (k & Hkr & ->); [|done].
    destruct (Hk k Hkr) as [H1 H2]. apply orb_true_iff in Ex as [?%Z.eqb_eq|?%bool_decide_eq_true]; done. }
  rewrite (proj2 (Z.eqb_neq _ _)) by lia. pose proof (do_count _ Hd). pose proof (do_size _ Hd).
  rewrite wrap32_id by (unfold is_u32; lia). done.
Qed.

Lemma coord_ok_bind w i a (d' := bound_driver (co_driver w) (at_sequence_generation a) i
    (kc_initial_last_use_event (co_coordinator w))) :
  coord_ok w -> 0 <= i < capacity w -> adm w i = Some a -> at_state a = AdmissionState.kPublished ->
  (forall k, 0 <= k < pd_registry_count (co_driver w) -> kb_block_table ((pd_registry (co_driver w)).[k]) <> Some i) ->
  pd_registry_count (co_driver w) < vsize (pd_registry (co_driver w)) ->
  coord_ok (w <| co_driver := d' |>).
Proof.
  intros Hw Hi Ha Hs Hk Hc. pose proof Hw as [Hp Hd Hsz He Hea Hg Hh Hr Hdi].
  pose proof Hd as [D1 D2 D3 D4 D5 D6 D7 D8 D9].
  split; try done; cbn; rewrite ?vsize_vput; try done.
  - split; cbn; rewrite ?vsize_vput; try done. lia.
  - intros k Hk'. destruct (decide (k = pd_registry_count (co_driver w))) as [->|Hne].
    + exists i, a. cbn. rewrite !vat_vput_eq by lia. done.
    + destruct (Hr k ltac:(lia)) as (j & b & H). exists j, b. cbn. rewrite !vat_vput_ne by lia. done.
  - intros k l Hk' Hl. rewrite !vat_vput by lia.
    destruct (Z.eqb_spec k (pd_registry_count (co_driver w))), (Z.eqb_spec l (pd_registry_count (co_driver w))); cbn; try lia.
    + intros E. symmetry in E. by apply Hk in E; [|lia].
    + intros E. by apply Hk in E; [|lia].
    + apply Hdi; lia.
Qed.

Lemma admission_publish_eq p mem i a :
  admission_ok p mem i a -> 0 <= i <= 4096 -> at_state a = AdmissionState.kReserved ->
  if not_ready p
  then admission_publish a p = (FailedPrecondition "Qwen KV publish is not permitted",
         a <| at_state := AdmissionState.kFailed |>, p)
  else exists p', publish p i (at_handles a) = (StatusOk, p') /\
         admission_publish a p = (StatusOk, published_admission a, p').
Proof.
  intros Hok Hi Es. pose proof (am_nonempty _ _ _ _ Hok) as Hnil.
  pose proof Hok as [H1 H2 H3 H4 Ht H6 (st & H7 & He) _]. rewrite Es in H7. injection H7 as <-.
  unfold admission_publish. rewrite bool_decide_true by done. cbn [negb].
  rewrite H1, table_create_eq; [|unfold kNoOwner; lia|done|done|apply He|done].
  rewrite (proj2 (Z.eqb_neq _ 0)) by lia. destruct (not_ready p) eqn:Hr.
  - unfold publish, rollback. rewrite Hr. cbn. by rewrite Hr.
  - rewrite publish_total by done. cbn [ok negb]. eexists. split; [done|]. unfold published_admission. by rewrite H1.
Qed.

Lemma kc_publish_spec w g :
  coord_ok w ->
  let '(s, w') := kc_publish w g in
  coord_ok w' /\
  forall i a, 0 <= i < capacity w -> adm w i = Some a -> at_sequence_generation a = g ->
    at_state a = AdmissionState.kReserved -> not_ready (co_pool w) = false ->
    exists p', publish (co_pool w) i (at_handles a) = (StatusOk, p') /\
      if bool_decide (pd_state (co_driver w) = DriverState.kReady)
      then s = StatusOk /\ w' = (published_world w i a p') <| co_driver :=
             bound_driver (co_driver w) g i (kc_initial_last_use_event (co_coordinator w)) |>
      else s = FailedPrecondition "controller KV binding is not ready" /\ w' = published_world w i a p'.
Proof.
  intros Hw. unfold kc_publish. destruct (kc_find _ g) as [i|] eqn:Ef.
  2: { split; [done|]. intros i a Hi Ha Hg. by destruct (kc_find_None w g i a Ef Hi Ha). }
  pose proof Ef as (Hi & a & Ha & Hg)%kc_find_Some. pose proof Ha as Ha'. unfold adm in Ha'. rewrite Ha'.
  assert (Huniq : forall j b, 0 <= j < capacity w -> adm w j = Some b -> at_sequence_generation b = g -> j = i /\ b = a).
  { intros j b Hj Hb E. assert (j = i) as -> by (eapply (cw_generations _ Hw j i); [done..|congruence]).
    split; [done|congruence]. }
  case_bool_decide as Es; cbn [negb].
  2: { split; [done|]. intros j b Hj Hb Eg Ers. destruct (Huniq j b Hj Hb Eg) as [-> ->]. done. }
  pose proof (cw_each _ Hw i a Hi Ha) as Hok. pose proof (am_nonempty _ _ _ _ Hok) as Hnil.
  pose proof (capacity_u32 _ Hw) as Hcap. pose proof Hok as [H1 H2 H3 H4 Ht H6 (st & H7 & He) _].
  pose proof (admission_publish_eq _ _ _ _ Hok ltac:(lia) Es) as Heq. destruct (not_ready (co_pool w)) eqn:Hr.
  { rewrite Heq. cbv beta iota zeta. cbn [ok negb]. replace (w <| co_pool := co_pool w |>) with w by (by destruct w).
    split; [|by intros]. by apply coord_ok_failed. }
  destruct Heq as (p' & Ep & ->). cbv beta iota zeta. cbn [ok negb published_admission at_table upd].
  pose proof (coord_ok_published w i a p' Hw Hi Ha Es Hr Ep) as Hw1.
  assert (Hroom := registry_room w i a Hw Hi Ha ltac:(by rewrite Es)).
  assert (Hunreg := unregistered w i a Hw Hi Ha ltac:(by rewrite Es)).
  rewrite H1. set (t := new_table i _ _ _).
  change (_ <| co_memory := _ |>) with (published_world w i a p').
  assert (Hb : bind_sequence (co_driver w) g i t (kc_initial_last_use_event (co_coordinator w)) =
    if bool_decide (pd_state (co_driver w) = DriverState.kReady)
    then (StatusOk, bound_driver (co_driver w) g i (kc_initial_last_use_event (co_coordinator w)))
    else (FailedPrecondition "controller KV binding is not ready", co_driver w)).
  { case_bool_decide as Ed; [|unfold bind_sequence; by rewrite bool_decide_false].
    apply bind_sequence_total; try done; [apply Hw|lia|apply Hw|]. by rewrite <- Hg. }
  change (co_driver (published_world w i a p')) with (co_driver w).
  change (kc_initial_last_use_event (co_coordinator (published_world w i a p')))
    with (kc_initial_last_use_event (co_coordinator w)).
  rewrite Hb. case_bool_decide as Ed.
  - split.
    + rewrite <- Hg. apply (coord_ok_bind (published_world w i a p') i (published_admission a)); try done.
      * unfold capacity. cbn. by rewrite vsize_vput.
      * unfold adm. cbn. by rewrite vat_vput_eq.
      * intros k Hk. by destruct (Hunreg k Hk).
    + intros j b Hj Hb' Eg _ _. destruct (Huniq j b Hj Hb' Eg) as [-> ->]. exists p'. done.
  - split; [exact Hw1|].
    intros j b Hj Hb' Eg _ _. destruct (Huniq j b Hj Hb' Eg) as [-> ->]. exists p'. done.
Qed.

Lemma find_registered_hit d g k :
  driver_ok d -> 0 <= k < pd_registry_count d -> kb_sequence_generation ((pd_registry d).[k]) = g ->
  find_registered d g <> None.
Proof.
  intros Hd Hk Eg E. unfold find_registered in E. apply first_index_None in E. rewrite Forall_forall in E.
  assert (Hin : (pd_registry d).[k] ∈ pd_registered d).
  { pose proof (do_count _ Hd). unfold pd_registered, vat, vsize in *. apply list_elem_of_lookup. exists (Z.to_nat k).
    rewrite lookup_take_lt by lia. apply list_lookup_lookup_total_lt. lia. }
  specialize (E _ Hin). by apply Z.eqb_neq in E.
Qed.

(** ** Draining *)

Section Machine.
Context {PS BS DS : Type} (api : pih_execution_controller_api_v1 PS).
Context (execute_packed : BS -> table_memory -> PackedTokenPlan -> PackedTokenMetadataView ->
  QwenBf16PackedKvMetadataView -> list QwenBf16PackedKvBinding -> list QwenKvAppendPlan ->
  list Qwen3SamplingDescriptor -> Result QwenBf16PackedBatchExecutionView * table_memory * BS).
Context (clear_and_wait : DS -> Z -> Z -> Z -> Z -> Status * DS).

Lemma kc_drain_spec w cl ps self g r ds :
  coord_ok w ->
  let '(s, w', ps', rs') := kc_drain api (synchronous_recycler clear_and_wait) w cl ps self g (r, ds) in
  ok s = false /\ ps' = ps /\ rs' = (r, ds) /\
  (w' = w \/ w' = w <| co_driver := poison_driver (co_driver w) |>) /\
  (forall k, 0 <= k < pd_registry_count (co_driver w) ->
     kb_sequence_generation ((pd_registry (co_driver w)).[k]) = g ->
     pd_state (co_driver w) = DriverState.kReady -> pd_state (co_driver w') = DriverState.kPoisoned).
Proof.
  intros Hw. unfold kc_drain. 
  assert (Hfind : forall k, 0 <= k < pd_registry_count (co_driver w) ->
    kb_sequence_generation ((pd_registry (co_driver w)).[k]) = g ->
    exists i a, kc_find (co_coordinator w) g = Some i /\ adm w i = Some a /\ at_state a = AdmissionState.kPublished).
  { intros k Hk Eg. destruct (cw_registered _ Hw k Hk) as (i & a & Hi & Ha & Hst & E & _). rewrite E in Eg. cbn in Eg.
    exists i, a. split; [|done]. by eapply kc_find_eq. }
  destruct (kc_find _ g) as [i|] eqn:Ef.
  2: { split_and!; auto. intros k Hk Eg. by destruct (Hfind k Hk Eg) as (? & ? & ? & _). }
  pose proof Ef as (Hi & a & Ha & Hg)%kc_find_Some. pose proof Ha as Ha'. unfold adm in Ha'. rewrite Ha'.
  case_bool_decide as Es; cbn [negb].
  2: { split_and!; auto. intros k Hk Eg. destruct (Hfind k Hk Eg) as (j & b & [= <-] & Hb & Hst). congruence. }
  unfold drain_sequence. cbn [driver_side en_driver]. case_bool_decide as Ed; cbn [negb].
  2: { split_and!; auto; [|by intros]. left. by destruct w. }
  pose proof (cw_driver _ Hw) as Hd. destruct (find_registered (co_driver w) g) as [k|] eqn:Ek.
  2: { split_and!; auto; [left; by destruct w|]. intros k Hk Eg. by destruct (find_registered_hit _ _ _ Hd Hk Eg). }
  apply find_registered_Some in Ek as [Hk Eg]; [|done].
  destruct (cw_registered _ Hw k Hk) as (j & b & Hj & Hb & Hst & Ereg & Erc). rewrite Erc, Ereg. unfold table_of.
  cbn [kb_block_table driver_side en_memory].
  destruct (cw_each _ Hw j b Hj Hb) as [H1 H2 H3 H4 H5 H6 (st & H7 & He) H8]. destruct (H8 Hst) as [Hh _]. rewrite Hh.
  pose proof (am_nonempty _ _ _ _ (cw_each _ Hw j b Hj Hb)) as Hnil. rewrite Hst in H7. injection H7 as <-.
  destruct (at_handles b) as [|h hs]; [done|]. unfold synchronous_recycler. cbn [fst snd].
  destruct (recycle_owned_fails clear_and_wait r (co_pool w) ds h hs ((pd_last_use_events (co_driver w)).[k]))
    as (s & -> & Hs).
  { apply (exact_elem _ _ _ _ _ He H5). by left. }
  rewrite Hs. cbn [negb]. rewrite Hs. split_and!; try done. right. by destruct w.
Qed.

(** ** Executing *)

Lemma committed_kept mem mem' bs appends :
  length bs = length appends -> tables_committed mem mem' bs appends -> tables_kept mem mem'.
Proof.
  intros Hl [Hin Hout] a. destruct (decide (Some a ∈ map kb_block_table bs)) as [Hm|Hm].
  - apply list_elem_of_fmap in Hm as (b & Eb & (m & Hb)%list_elem_of_lookup_1).
    destruct (lookup_lt_is_Some_2 appends m) as [p Hp]; [rewrite <- Hl; by eapply lookup_lt_Some|].
    specialize (Hin m b p Hb Hp). unfold table_of in Hin. rewrite <- Eb in Hin. rewrite Hin. done.
  - unfold lookup_total, map_lookup_total. by rewrite (Hout a Hm).
Qed.

(** The operations of the tables that the backend may use keep what they were made for. *)
Hypothesis backend_keeps : forall bs mem plan md kv bindings appends sampling,
  tables_kept mem (snd (fst (execute_packed bs mem plan md kv bindings appends sampling))).

Lemma touched_kept (e e' : @driver_env PS BS) :
  touched execute_packed e e' -> tables_kept (en_memory e) (en_memory e').
Proof.
  intros [[-> _]|(plan & md & kv & bs & appends & sampling & r & mem & Ex & Hm)]; [done|].
  pose proof (backend_keeps (en_backend e) (en_memory e) plan md kv bs appends sampling) as Hk. rewrite Ex in Hk.
  cbn in Hk. destruct Hm as [->|[Hl Hm]]; [done|]. etransitivity; [exact Hk|]. by eapply committed_kept.
Qed.

(** ** The machine *)

Record coord_world := MkCoordWorld {
  wo_env : coordinator_env;
  wo_client : ControllerClient;
  wo_provider : PS;
  wo_backend : BS }.

Inductive coord_op :=
  | CoReserve (admission : ControllerAdmissionView)
  | CoPublish (sequence_generation : Z)
  | CoRollback (request_generation : Z)
  | CoExecute (self now_ns : Z)
  | CoTake
  | CoDrain (self sequence_generation : Z) (r : QwenBf16SynchronousKvRecycler) (ds : DS)
  | CoController (cl : ControllerClient) (ps : PS).

Inductive coord_out :=
  | CoStatus (s : Status)
  | CoStep (r : Result ControllerPackedDriverStep)
  | CoReceipt (r : Result (option ControllerPackedSamplingReceipt))
  | CoDone.

Definition on_env (w : coord_world) (x : Status * coordinator_env) : coord_out * coord_world :=
  let '(s, e) := x in (CoStatus s, MkCoordWorld e (wo_client w) (wo_provider w) (wo_backend w)).

(** The calls on the coordinator and on its driver, and, as [CoController], whatever
    else happens to the controller. *)
Definition run_coord (w : coord_world) (op : coord_op) : coord_out * coord_world :=
  let c := wo_env w in
  match op with
  | CoReserve a => on_env w (kc_reserve c a)
  | CoPublish g => on_env w (kc_publish c g)
  | CoRollback g => on_env w (kc_rollback c g)
  | CoExecute self now =>
      let '(r, e) := execute_next api execute_packed
        (driver_side c (wo_client w) (wo_provider w) (wo_backend w)) self now in
      (CoStep r, MkCoordWorld (c <| co_driver := en_driver e |> <| co_memory := en_memory e |>)
                   (en_client e) (en_provider e) (en_backend e))
  | CoTake =>
      let '(r, d) := try_take_sampling_receipt (co_driver c) in
      (CoReceipt r, MkCoordWorld (c <| co_driver := d |>) (wo_client w) (wo_provider w) (wo_backend w))
  | CoDrain self g r ds =>
      let '(s, c, ps, _) := kc_drain api (synchronous_recycler clear_and_wait) c (wo_client w) (wo_provider w) self g (r, ds) in
      (CoStatus s, MkCoordWorld c (wo_client w) ps (wo_backend w))
  | CoController cl ps => (CoDone, MkCoordWorld c cl ps (wo_backend w))
  end.

#[local] Instance coord_Typed : Typed coord_op := fun op =>
  match op with
  | CoReserve a => is_u64 (sp_size (rqv_prompt_token_ids (av_request a))) /\
      is_u64 (rqv_maximum_new_tokens (av_request a))
  | _ => True
  end.

Definition new_coordinator (c : coordinator_env) : Prop :=
  m_reachable (co_pool c) /\
  Forall (fun s => ks_owner_sequence_index s = kNoOwner) (kp_slots (co_pool c)) /\
  exists n m limits capacity event, is_u32 n /\ 1 <= m <= n /\ 0 <= capacity <= 2147483648 /\
    PackedDriver_Create n limits capacity = Value (co_driver c) /\
    Coordinator_Create (co_pool c) m event = Value (co_coordinator c).

#[local] Instance coord_Machine : Machine coord_world coord_op coord_out := {|
  m_run := run_coord;
  m_init w := new_coordinator (wo_env w) |}.

Lemma new_coordinator_ok c : new_coordinator c -> coord_ok c.
Proof.
  intros (Hp & Ho & n & m & limits & cap & event & Hn & Hm & Hc & Ed & Ec).
  apply (create_driver_ok n limits cap) in Ed as (Hd & Hsz & Hcnt); [|done..].
  unfold Coordinator_Create in Ec. destruct (_ || _) eqn:Eg; [done|]. injection Ec as Ec. breflect.
  pose proof (reachable_inv kv_wf _ Hp) as Hw.
  assert (Hcap : capacity c = m) by (unfold capacity; rewrite <- Ec; cbn; rewrite vsize_replicate; lia).
  assert (Hat : forall i, adm c i = None).
  { intros i. unfold adm, vat. rewrite <- Ec. cbn. rewrite list_lookup_total_alt.
    destruct (replicate _ _ !! _) as [x|] eqn:E; [|done]. apply lookup_replicate in E as [-> _]. done. }
  split; try done; rewrite ?Hcap.
  - by rewrite Hsz.
  - rewrite <- Ec. done.
  - intros i a _ E. by rewrite Hat in E.
  - intros i j a b _ _ E. by rewrite Hat in E.
  - intros k Hk Hno. rewrite Forall_forall in Ho. destruct Hno. apply Ho, list_elem_of_In, vat_In, Hk.
  - intros k Hk. lia.
  - intros k l Hk. lia.
Qed.

#[local] Instance coord_ok_inv : MachineInv (fun w : coord_world => coord_ok (wo_env w)).
Proof.
  split; [intros w; apply new_coordinator_ok|].
  intros w [a|g|g|self now| |self g r ds|cl ps] Hw Ht; cbn [m_run coord_Machine run_coord on_env]; [..|done].
  - destruct Ht as [H1 H2]. pose proof (kc_reserve_spec _ a Hw H1 H2) as H. destruct (kc_reserve _ _). apply H.
  - pose proof (kc_publish_spec _ g Hw) as H. destruct (kc_publish _ _). apply H.
  - pose proof (kc_rollback_spec _ g Hw) as H. destruct (kc_rollback _ _). apply H.
  - pose proof (execute_next_spec api execute_packed (driver_side (wo_env w) (wo_client w) (wo_provider w) (wo_backend w))
      self now (cw_driver _ Hw)) as H.
    destruct (execute_next _ _ _ _ _) as [r e]. destruct H as (Hd & Hrp & Hto & _).
    apply coord_ok_driver; [done|done|exact Hrp|]. by apply touched_kept in Hto.
  - pose proof (try_take_spec (co_driver (wo_env w)) (do_ring _ (cw_driver _ Hw))) as H.
    pose proof (take_driver_ok _ (cw_driver _ Hw)) as Hd.
    destruct (try_take_sampling_receipt _) as [r d]. destruct H as (_ & E & _). cbn in *.
    rewrite E in Hd |- *. exact (coord_ok_driver (wo_env w) _ (co_memory (wo_env w)) Hw Hd eq_refl ltac:(done)).
  - pose proof (kc_drain_spec (wo_env w) (wo_client w) (wo_provider w) self g r ds Hw) as H.
    destruct (kc_drain _ _ _ _ _ _ _ _) as [[[s c] ps] rs']. destruct H as (_ & _ & _ & [->| ->] & _); [done|].
    apply (coord_ok_driver (wo_env w) (poison_driver (co_driver (wo_env w))) (co_memory (wo_env w)) Hw); [|done|done].
    by apply driver_ok_state; [apply Hw|].
Qed.

(** ** The contract of the participant *)





(** C22. A packed sequence can never be drained by the synchronous recycler, the one
    implementation of the class.  In every sequence of calls, draining any sequence fails,
    for every device: the recycler is given blocks that are still owned,
    since neither the coordinator nor the driver releases them to the pool.  No block
    is cleared, the admission stays, and a drain of a bound sequence poisons the
    driver. *)
Theorem drain_never_succeeds w self g r ds (Hr : m_reachable w) (c := wo_env w) :
  let '(s, c', ps', rs') :=
    kc_drain api (synchronous_recycler clear_and_wait) c (wo_client w) (wo_provider w) self g (r, ds) in
  ok s = false /\ co_pool c' = co_pool c /\ co_coordinator c' = co_coordinator c /\ rs' = (r, ds) /\
  (find_registered (co_driver c) g <> None -> pd_state (co_driver c) = DriverState.kReady ->
   pd_state (co_driver c') = DriverState.kPoisoned).
Proof.
  pose proof (reachable_inv (fun w => coord_ok (wo_env w)) w Hr : coord_ok c) as Hw.
  pose proof (kc_drain_spec c (wo_client w) (wo_provider w) self g r ds Hw) as H.
  destruct (kc_drain _ _ _ _ _ _ _ _) as [[[s c'] ps'] rs']. destruct H as (Hs & _ & -> & Hc & Hp).
  split; [done|]. split; [by destruct Hc as [->| ->]|]. split; [by destruct Hc as [->| ->]|]. split; [done|].
  intros Hf Hd. destruct (find_registered (co_driver c) g) as [k|] eqn:Ek; [|done].
  apply find_registered_Some in Ek as [Hk Eg]; [|apply Hw]. by apply (Hp k).
Qed.
End Machine.

(** ** Admission while a completion is pending *)

Lemma kc_reserve_refused c v :
  ok (fst (kc_reserve c v)) = false -> co_coordinator (snd (kc_reserve c v)) = co_coordinator c.
Proof.
  unfold kc_reserve. destruct (kc_find _ _); [done|]. destruct (first_index _ _ _); [|done].
  destruct (checked_add_u64 _ _); [|done]. destruct (_ || _); [done|].
  destruct (Admission_Reserve _ _ _) as [[tx|e] p]; [|done]. destruct (negb _); [|done].
  by destruct (admission_rollback tx p) as [[restored a'] p'].
Qed.

Lemma kc_publish_pending c g :
  pd_state (co_driver c) <> DriverState.kReady -> ok (fst (kc_publish c g)) = false.
Proof.
  intros Hd. unfold kc_publish. destruct (kc_find _ _) as [i|]; [|done].
  destruct ((kc_admissions (co_coordinator c)).[i]) as [a|]; [|done].
  destruct (negb _); [done|]. destruct (admission_publish a _) as [[status a'] p]. destruct (ok status) eqn:E; cbn [negb]; [|done].
  destruct (at_table a') as [t|]; [|done]. unfold bind_sequence. cbn. by rewrite bool_decide_false.
Qed.

Lemma kc_reserve_driver c v : co_driver (snd (kc_reserve c v)) = co_driver c.
Proof.
  unfold kc_reserve. destruct (kc_find _ _); [done|]. destruct (first_index _ _ _); [|done].
  destruct (checked_add_u64 _ _); [|done]. destruct (_ || _); [done|].
  destruct (Admission_Reserve _ _ _) as [[tx|e] p]; [|done]. destruct (negb _); [|done].
  by destruct (admission_rollback tx p) as [[restored a'] p'].
Qed.

Lemma step_cancel_result rt self command : fst (step_cancel rt self command) <> Value RuntimeStep.kAdmitted.
Proof.
  unfold step_cancel. destruct (controller_cancel_payload_digest _ _); [|done]. destruct (negb _); [done|].
  destruct (first_index _ _ _); [|done]. destruct (on_sequence _ _ _) as [s rt1]. destruct (negb _); [done|].
  destruct (negb _); [|done]. destruct (on_sequence _ _ _) as [s2 rt2]. destruct (negb _); [done|].
  by destruct (Runtime.publish _ _ _) as [[] rt3].
Qed.

Lemma reserve_refused_result rt self v s : fst (reserve_refused rt self v s) <> Value RuntimeStep.kAdmitted.
Proof.
  unfold reserve_refused. destruct (Runtime.release _ _) as [s1 rt1]. cbn zeta. destruct (negb (ok s1)); [done|].
  destruct (bool_decide _); [|done]. by destruct (Runtime.publish _ _ _) as [[] rt2].
Qed.

(** C23. A request that arrives while a completion is pending takes the runtime down.  As
    long as the driver is not ready, the controller admits nothing through the
    coordinator, and if it took a reservation for a request the step fails and the
    runtime with it. *)
Theorem pending_admission_fails c rt self now (Hd : pd_state (co_driver c) <> DriverState.kReady) :
  let '(r, (rt', c')) := step_with kc_participant rt self now c in
  r <> Value RuntimeStep.kAdmitted /\
  (co_coordinator c' <> co_coordinator c -> rok r = false /\ rt_state rt' = RuntimeState.kFailed).
Proof.
  unfold step_with, step_impl. destruct (negb _); [done|]. destruct (_ || _); [done|]. cbn zeta.
  destruct (Ingress.queued_command_count _ =? 0); [done|]. destruct (Ingress.available_event_credit _ =? 0); [done|].
  destruct (Ingress.try_take_command _ _) as [[[item|]|e] ig]; [|done..].
  destruct (command_kind_eqb _ CommandKind.kCancel).
  { pose proof (step_cancel_result (rt <| rt_last_controller_now_ns := now |> <| rt_ingress := ig |>) self (cv_command item)).
    by destruct (step_cancel _ _ _) as [r rt']. }
  destruct (command_kind_eqb _ CommandKind.kAdmit); [|done]. destruct (cv_request item) as [request|]; [|done].
  unfold step_admit. destruct (first_index _ _ _) as [free|]; [|done]. cbn [p_reserve pa_reserve kc_participant av_request].
  set (v := MkAdmissionView _ request). pose proof (kc_reserve_refused c v) as Hrr. pose proof (kc_reserve_driver c v) as Hdr.
  destruct (kc_reserve c v) as [s c1]. cbn [fst snd] in *. destruct (ok s); cbn [negb].
  - destruct (Sequence.Admit _ _ _); [destruct (admitted_state_digest _ _)|].
    2-3: cbn [p_rollback pa_rollback kc_participant]; destruct (kc_rollback _ _) as [s2 c2];
      destruct (Runtime.release _ _) as [s3 rt3]; destruct (_ || _); done.
    cbn [p_publish pa_publish kc_participant]. pose proof (kc_publish_pending c1 (rqv_request_generation request)) as Hp.
    destruct (kc_publish _ _) as [s2 c2]. rewrite Hdr in Hp. cbn [fst] in Hp. rewrite (Hp Hd). cbn [negb].
    destruct (Runtime.release _ _) as [s3 rt3]. by destruct (negb _).
  - specialize (Hrr eq_refl). pose proof (reserve_refused_result (rt <| rt_last_controller_now_ns := now |> <| rt_ingress := ig |>) self v s).
    destruct (reserve_refused _ _ _ _) as [r rt']. done.
Qed.

(** ** A coordinator of two sequences *)

Definition clean_pool : QwenKvSlotPool := Eval vm_compute in snd (run_kv sample_pool (KvSanitize 3670016 32 true)).

Definition sample_coordinator : coordinator_env :=
  MkCoordEnv (of_value (Coordinator_Create clean_pool 2 (MkCompletionEvent 3 1))) clean_pool sample_driver ∅.

(** The first request, of one token, and the runtime that knows it. *)
Definition first_request : ControllerAdmissionView :=
  MkAdmissionView (MkCommand CommandKind.kAdmit 1 1 1 one_digest)
    (MkRequestView 0 1 1 (MkSpan 0 1) 3 default_sampling one_digest).

Definition first_runtime : ControllerRuntime :=
  Eval vm_compute in after [RtSubmitAdmit 1 [4] 3 default_sampling; RtStep 1 10].

Definition sample_provider : Provider :=
  MkProvider true [(16, MkController first_runtime (replicate 2 zero_sampling))].

Definition sample_coord : coord_world := MkCoordWorld sample_coordinator first_client sample_provider 0.

#[local] Existing Instance coord_Typed.
#[local] Instance sample_coord_Machine : Machine coord_world (coord_op (PS := Provider) (DS := list (Z * Z))) coord_out :=
  coord_Machine ControllerApi sample_backend record_clears.

Lemma sample_coord_reachable ops :
  Forall m_typed ops -> m_reachable (snd (m_trace sample_coord ops)).
Proof.
  intros Ht. apply trace_reachable; [|done]. exists sample_coord. split; [|apply rtc_refl].
  split; [|split].
  - replace (co_pool _) with (snd (m_trace sample_pool [KvSanitize 3670016 32 true])) by (vm_compute; reflexivity).
    apply trace_reachable; [exact sample_kv_pool_reachable|]. repeat constructor; cbn; lia.
  - repeat constructor.
  - exists 2, 2, (MkKvLimits 2 4 8), 2, (MkCompletionEvent 3 1). split; [unfold is_u32; lia|]. split; [lia|].
    split; [lia|]. split; vm_compute; reflexivity.
Qed.

Lemma sample_backend_keeps bs mem plan md kv bindings appends sampling :
  tables_kept mem (snd (fst (sample_backend bs mem plan md kv bindings appends sampling))).
Proof. done. Qed.

Definition publish_first : list (coord_op (PS := Provider) (DS := list (Z * Z))) := [CoReserve first_request; CoPublish 1].

Lemma publish_first_typed : Forall m_typed publish_first.
Proof. repeat constructor; cbn; unfold is_u64; lia. Qed.


Lemma drain_never_succeeds_witness :
  let w := snd (m_trace sample_coord publish_first) in
  let '(s, c', _, rs) := kc_drain ControllerApi (synchronous_recycler record_clears) (wo_env w) (wo_client w)
    (wo_provider w) 1 1 (sample_recycler, []) in
  ok s = false /\ co_pool c' = co_pool (wo_env w) /\ snd rs = [] /\ pd_state (co_driver c') = DriverState.kPoisoned.
Proof.
  intros w. pose proof (drain_never_succeeds ControllerApi sample_backend record_clears sample_backend_keeps w 1 1
    sample_recycler [] (sample_coord_reachable _ publish_first_typed)) as H. cbv zeta in H.
  assert (Hf : find_registered (co_driver (wo_env w)) 1 = Some 0) by (vm_compute; reflexivity).
  assert (Hd : pd_state (co_driver (wo_env w)) = DriverState.kReady) by (vm_compute; reflexivity).
  destruct (kc_drain _ _ _ _ _ _ _ _) as [[[s c'] ps'] rs']. destruct H as (Hs & Hp & _ & -> & Hx).
  split; [exact Hs|]. split; [exact Hp|]. split; [reflexivity|]. apply Hx; [|exact Hd]. by rewrite Hf.
Defined.

(** The receipts of two executions fill the queue, the plans are acknowledged, and the
    third completion is pending. *)
Definition on_provider (f : ControllerRuntime -> ControllerRuntime) (p : Provider) : Provider :=
  p <| pv_handles := map (fun h => (fst h, MkController (f (ec_runtime (snd h))) (ec_sampling (snd h)))) (pv_handles p) |>.

Definition two_executed : coord_world :=
  Eval vm_compute in snd (m_trace sample_coord (publish_first ++ [CoExecute 1 20; CoExecute 1 30])).

Definition pending_coord : coord_world :=
  Eval vm_compute in snd (m_trace two_executed
    [CoController first_client (on_provider (fun rt =>
       snd (m_trace rt [RtTakeEvent; RtTakeEvent; RtTakeEvent; RtAcknowledge 1; RtAcknowledge 2])) (wo_provider two_executed));
     CoExecute 1 40]).

(** A second request arrives. *)
Definition second_runtime : ControllerRuntime :=
  Eval vm_compute in
    match pv_handles (wo_provider pending_coord) with
    | (_, ec) :: _ => snd (run_rt (ec_runtime ec) (RtSubmitAdmit 2 [4] 3 default_sampling))
    | [] => first_runtime
    end.

Lemma pending_admission_fails_witness :
  let '(r, (rt', c')) := step_with kc_participant second_runtime 1 50 (wo_env pending_coord) in
  rok r = false /\ rt_state rt' = RuntimeState.kFailed /\ rt_state second_runtime = RuntimeState.kReady /\
  active_admission_count (co_coordinator c') = 2.
Proof.
  pose proof (pending_admission_fails (wo_env pending_coord) second_runtime 1 50 ltac:(vm_compute; discriminate)) as H.
  assert (H1 : kc_find (co_coordinator (wo_env pending_coord)) 2 = None) by (vm_compute; reflexivity).
  assert (H2 : kc_find (co_coordinator (snd (snd (step_with kc_participant second_runtime 1 50 (wo_env pending_coord))))) 2 =
    Some 1) by (vm_compute; reflexivity).
  assert (H3 : active_admission_count (co_coordinator (snd (snd (step_with kc_participant second_runtime 1 50
    (wo_env pending_coord))))) = 2) by (vm_compute; reflexivity).
  assert (Hr : rt_state second_runtime = RuntimeState.kReady) by (vm_compute; reflexivity).
  destruct (step_with _ _ _ _ _) as [r [rt' c']]. cbn [snd] in H2, H3. destruct H as [_ H].
  destruct H as [Hx Hy]; [intros E; rewrite E in H2; rewrite H1 in H2; discriminate H2|].
  split; [exact Hx|]. split; [exact Hy|]. split; [exact Hr|exact H3].
Defined.
